(* ===== verification/_CoqProject ===== *)
-Q . S2P
Prelude.v
Kernel.v
Mem.v
Fsformat.v
Spinlock.v
Locks.v
Str.v
Kalloc.v
Console.v
Kbd.v
Vm.v
VmFacts.v
UvmFacts.v
KvmFacts.v
CopyFacts.v
CopyuvmFacts.v
Sample.v
VmSpec.v
KallocSpec.v
LibSpec.v
Sched.v
SchedFacts.v
Sleeplock.v
Klog.v
KlogFacts.v
KlogSpec.v
ProcFacts.v
ProcSpec.v
Ide.v
Bio.v
Log.v
Fs.v
File.v
PipeFacts.v
PipeSpec.v
ConsoleIo.v
Proc.v
Syscall.v
Exec.v
Sysproc.v
Sysfile.v
Trap.v
User.v
Ulib.v
Stream.v
Progs.v
ProgsFacts.v
Grep.v
GrepFacts.v
Umalloc.v
UmallocFacts.v
MallocFacts.v
UmallocSpec.v
Sh.v
ShFacts.v
ShPrint.v
ShSpec.v
BlockFacts.v
SleepFacts.v
LruFacts.v
BioFacts.v
LogFacts.v
CommitFacts.v
CrashFacts.v
TxnFacts.v
SampleFs.v
LogSpec.v
ReadFacts.v
Mkfs.v
MkfsFacts.v
ImageFacts.v
PathFacts.v
AllocFacts.v
WriteFacts.v
FileSpec.v
MkfsSpec.v
Hw.v
Mp.v
Bootmain.v
Apic.v
