(* ===== verification/Prelude.v ===== *)
(** * A verification of the kernel, its file system and its programs

    The repository is xv6 for x86 in C, with a flight recorder of kernel events
    (src/klog.c, and its viewers src/klogs.c and src/sysdash.c).  This library
    models the C code as Rocq functions and proves what the parts promise.

    ** The program and the files that model it

    The boot loader reads the kernel off the disk; main finds the CPUs, sets up
    interrupt controllers, memory, processes, cache and disk, and starts the
    first process.  System calls and interrupts enter through trap; processes
    run on address spaces made of pages of the page allocator, wait with sleep
    and wakeup under spin locks, and reach the disk through open files, inodes,
    the log and the buffer cache, in this order.  User programs only make system
    calls.  mkfs builds the disk image on the host.

    - Shared: Prelude (machine integers, record update, the monad and its
      tactics), Kernel (the structs of the headers as records, the record
      [kernel] of all global variables), Mem (the flat byte memory), Fsformat
      (the formats of fs.h and stat.h), Str (string.c).
    - Locks: Spinlock (spinlock.c; Module [Mutex] interleaves CPUs), Locks
      (reasoning about critical sections), Sleeplock and SleepFacts (sleeplock.c).
    - Memory: Kalloc and KallocSpec (kalloc.c); Vm (vm.c) with VmFacts, UvmFacts,
      KvmFacts, CopyFacts, CopyuvmFacts and VmSpec.
    - Processes: Sched and Proc (proc.c) with SchedFacts, ProcFacts and ProcSpec;
      Exec (exec.c, loaduvm), Syscall, Sysproc, Sysfile (the sys_ functions),
      Trap (trap.c, the dispatch of syscall.c, main.c).
    - Flight recorder: Klog, KlogFacts, KlogSpec (klog.c).
    - Devices: Console, ConsoleIo (console.c, uart.c), Kbd (kbd.c), LibSpec (what
      printing promises); Hw (port and memory-mapped I/O), Mp (mp.c), Apic
      (lapic.c, ioapic.c, picirq.c), Bootmain (bootmain.c).
    - Disk: Ide (ide.c and memide.c, two instances of the class [DiskDriver]), Bio
      with LruFacts and BioFacts (bio.c), Log with LogFacts, CommitFacts,
      CrashFacts, TxnFacts and LogSpec (log.c).
    - Files: Fs (fs.c) with BlockFacts, ReadFacts, PathFacts, AllocFacts and
      WriteFacts; File (file.c, pipe.c) with PipeFacts, PipeSpec and FileSpec;
      Mkfs with MkfsFacts, ImageFacts and MkfsSpec (mkfs.c).
    - Programs: User (a program as a tree of its system calls), Ulib (ulib.c,
      printf.c), Stream (a handler that serves a stream in pieces), Progs and
      ProgsFacts (the small programs, klogs, sysdash), Grep and GrepFacts
      (grep.c), Umalloc, UmallocFacts, MallocFacts and UmallocSpec (umalloc.c),
      Sh, ShFacts, ShPrint and ShSpec (sh.c).
    - Sample and SampleFs: two concrete machines, to which properties with
      hypotheses are applied.

    ** How the code is modelled

    A C function of the kernel is a function in the monad [K]: it takes the state
    and a list of environment steps and ends with a value, in a panic, with a
    memory fault, or still waiting.  Every wait (sleep, a spinning lock, the
    scheduler's switch) takes one environment step, which is any change of the
    state other CPUs, processes and devices may make; so a theorem says under
    which environment it holds.  Global variables are fields of [kernel]; pointers
    into tables are indices; pages, page tables and the free list are bytes of
    the flat memory.  Integers are [Z] with the wrap of their C type written out
    ([u32], [i32], ...).  Sectors written are recorded in order ([k_dwrites]), so
    that a crash is any prefix of the writes.  Boot and start-up code runs in
    the monad [W] over a machine whose devices answer through the class [Bus];
    programs are run against a handler for their calls.

    Parameters: [Image] (the linker's symbols and initcode), [DiskDriver],
    [Devices] (devsw), [Bus], [Host] (the files given to mkfs).  Laws, as classes:
    [ImageOk] (where the kernel lies), [DiskOk] (reading and writing a block gives
    and keeps its bytes; proved for memide.c), [Ata] and [Cmos] (the documented
    behaviour of the drive and of the clock).

    ** What the theorems show

    - A transaction of the log is atomic under a crash at any disk write
      ([LogSpec.transaction_atomic]).  On top of it, writing an open file is
      crash-safe: bitmap, indirect block, data and inode are changed together,
      and recovery finds whole transactions of the write; nothing else in the file
      system changes ([FileSpec.filewrite_crash_safe]), and another descriptor
      reads what was written ([FileSpec.filewrite_fileread]).  The kernel finds
      and reads the files mkfs wrote ([MkfsSpec.mkfs_file_readable]).
    - The boot loader puts the kernel of the disk into memory
      ([Bootmain.bootmain_loads_kernel]); the MP table is read as it stands, only
      enabled interrupts are delivered, the clock's date is returned (Mp, Apic).
    - Spin locks exclude ([Spinlock.Mutex.mutual_exclusion]), critical sections
      restore interrupts, no wakeup is lost, sleep returns, wait reaps (ProcSpec).
    - Pages are neither lost nor shared (KallocSpec); address spaces grow, shrink,
      are copied and freed page for page, and copyout reaches what the program
      reads (VmSpec).
    - The flight recorder's ring refines the list of all events, and programs get
      the most recent ones (KlogSpec); pipes are FIFO queues (PipeSpec).
    - printint, the screen, grep's matcher and output, malloc's blocks, the shell's
      parser (LibSpec, GrepFacts, UmallocSpec, ShSpec).
    - Defects of the code, as theorems: klog_getlogs with a negative maximum,
      growproc to size 0, kill(0), mpinit on an unknown entry, mkfs with a full
      root directory.

    ** Fuel and bounds

    Loops whose end is not structural take fuel: the number of bytes, pages or
    blocks still to go plus one, or the length of a list or buffer, each at
    least the number of rounds the C loop makes; the theorems say that the
    functions return, so the fuel is shown to be enough.  Waiting loops are
    bounded by the environment.  Volumes in AllocFacts, WriteFacts and FileSpec
    have one bitmap block (at most 4096 blocks; FSSIZE is 1000), and a write needs
    twice as many free blocks as the file grows by, which also covers the indirect
    block.  The theorems on transactions and files are about one thread that
    finds the locks it takes free.

    ** Not modelled

    - Assembly (bootasm.S, entry.S, entryother.S, initcode.S, swtch.S, trapasm.S,
      usys.S) and the scripts around it: swtch is an environment step, trapasm.S
      the call of trap.
    - seginit and the descriptor tables, mpenter, startothers, the part of uartinit
      that programs the port, the printing in panic: they only load registers the
      model does not have, or run after the end.
    - The system calls getklogs, getprocstats and getkernelstats, which no source
      file defines: klogs and sysdash take their results as arguments.
    - usertests.c, a test driver, and the build files. *)
From stdpp Require Export base gmap list strings numbers option.
From Stdlib Require Export ZArith Lia.

#[export] Set Default Goal Selector "!".
Open Scope Z_scope.

(** * Machine integers *)

(** A C [uint] is a [Z] kept in [0, 2^32); the wrap is written out where the
    C code wraps.  [i32] reads the same bits as a signed [int]. *)
Definition u32 (z : Z) : Z := z mod 2 ^ 32.
Definition u16 (z : Z) : Z := z mod 2 ^ 16.
Definition u8 (z : Z) : Z := z mod 2 ^ 8.
Definition i32 (z : Z) : Z := (z + 2 ^ 31) mod 2 ^ 32 - 2 ^ 31.
Definition i16 (z : Z) : Z := (z + 2 ^ 15) mod 2 ^ 16 - 2 ^ 15.

(** C truth values. *)
Definition nz (z : Z) : bool := negb (z =? 0).
Definition b2z (b : bool) : Z := if b then 1 else 0.

(** [bit_set w m]: the C test [(w & m) != 0]. *)
Definition bit_set (w m : Z) : bool := nz (Z.land w m).

Lemma u32_range z : 0 <= u32 z < 2 ^ 32.
Proof. apply Z.mod_pos_bound. lia. Qed.

Lemma u32_small z : 0 <= z < 2 ^ 32 -> u32 z = z.
Proof. intros H. unfold u32. by apply Z.mod_small. Qed.

Lemma u32_idem z : u32 (u32 z) = u32 z.
Proof. apply u32_small, u32_range. Qed.

Lemma i32_small z : - 2 ^ 31 <= z < 2 ^ 31 -> i32 z = z.
Proof. intros H. unfold i32. rewrite Z.mod_small; lia. Qed.

Lemma i32_range z : - 2 ^ 31 <= i32 z < 2 ^ 31.
Proof.
  unfold i32. pose proof (Z.mod_pos_bound (z + 2 ^ 31) (2 ^ 32) ltac:(lia)). lia.
Qed.

Lemma u32_add_l a b : u32 (u32 a + b) = u32 (a + b).
Proof. unfold u32. by rewrite Zplus_mod_idemp_l. Qed.

Lemma u32_add_r a b : u32 (a + u32 b) = u32 (a + b).
Proof. unfold u32. by rewrite Zplus_mod_idemp_r. Qed.

Lemma u32_sub_l a b : u32 (u32 a - b) = u32 (a - b).
Proof. unfold u32. by rewrite Zminus_mod_idemp_l. Qed.

Lemma u32_sub_r a b : u32 (a - u32 b) = u32 (a - b).
Proof. unfold u32. by rewrite Zminus_mod_idemp_r. Qed.

Lemma u32_i32 z : u32 (i32 z) = u32 z.
Proof.
  unfold u32, i32. rewrite Zminus_mod_idemp_l. f_equal. lia.
Qed.

(** The low-bits mask: clearing the low [n] bits of a [uint]. *)
Lemma land_clear_low (a n : Z) :
  0 <= n <= 32 -> 0 <= a < 2 ^ 32 ->
  Z.land a (2 ^ 32 - 2 ^ n) = a - a mod 2 ^ n.
Proof.
  intros Hn Ha.
  rewrite (Z.mod_eq a (2 ^ n)) by lia.
  replace (a - (a - 2 ^ n * (a / 2 ^ n))) with (2 ^ n * (a / 2 ^ n)) by lia.
  rewrite <- Z.shiftr_div_pow2, Z.mul_comm, <- Z.shiftl_mul_pow2 by lia.
  replace (2 ^ 32 - 2 ^ n) with (Z.shiftl (Z.ones (32 - n)) n).
  2:{ rewrite Z.shiftl_mul_pow2, Z.ones_equiv by lia.
      rewrite Z.mul_pred_l, <- Z.pow_add_r by lia. do 2 f_equal; lia. }
  apply Z.bits_inj'. intros i Hi.
  rewrite Z.land_spec, !Z.shiftl_spec by lia.
  destruct (Z.ltb_spec i n).
  { rewrite !(Z.testbit_neg_r _ (i - n)) by lia. by rewrite andb_false_r. }
  rewrite Z.shiftr_spec by lia. replace (i - n + n) with i by lia.
  destruct (Z.ltb_spec i 32).
  - rewrite Z.ones_spec_low by lia. by rewrite andb_true_r.
  - rewrite Z.ones_spec_high by lia. rewrite andb_false_r.
    symmetry. destruct (Z.eq_dec a 0) as [->|]; [apply Z.testbit_0_l|].
    apply Z.bits_above_log2; [lia|].
    apply Z.log2_lt_pow2; [lia|]. eapply Z.lt_le_trans; [apply Ha|].
    apply Z.pow_le_mono_r; lia.
Qed.

(** Or-ing in bits below the least significant one is addition. *)
Lemma land_shifted_small h x n : 0 <= n -> 0 <= x < 2 ^ n -> Z.land (h * 2 ^ n) x = 0.
Proof.
  intros Hn Hx. rewrite <- Z.shiftl_mul_pow2 by done.
  apply Z.bits_inj'. intros j Hj. rewrite Z.land_spec, Z.bits_0.
  destruct (Z.ltb_spec j n); [by rewrite Z.shiftl_spec_low by done|].
  destruct (Z.eq_dec x 0) as [->|]; [by rewrite Z.bits_0, andb_false_r|].
  rewrite (Z.bits_above_log2 x j), andb_false_r; [done|lia|].
  apply Z.log2_lt_pow2; [lia|]. eapply Z.lt_le_trans; [apply Hx|].
  apply Z.pow_le_mono_r; lia.
Qed.

Lemma lor_add_low h x n : 0 <= n -> 0 <= x < 2 ^ n -> Z.lor (h * 2 ^ n) x = h * 2 ^ n + x.
Proof.
  intros Hn Hx. pose proof (Z.add_lor_land (h * 2 ^ n) x) as H.
  rewrite land_shifted_small in H by done. lia.
Qed.

(** * Arrays: lists indexed by [Z] *)

(** Out of range an array of integers reads as 0: the NUL that ends a C string. *)
#[export] Instance Z_zero : Inhabited Z | 0 := populate 0.

Definition zget {A} `{Inhabited A} (l : list A) (i : Z) : A := l !!! Z.to_nat i.
Definition zset {A} (l : list A) (i : Z) (x : A) : list A := <[Z.to_nat i := x]> l.
Definition zlen {A} (l : list A) : Z := Z.of_nat (length l).

Section arrays.
Context {A : Type} `{Inhabited A}.
Implicit Types (l : list A) (i j : Z) (x : A).

Lemma length_zset l i x : length (zset l i x) = length l.
Proof. apply length_insert. Qed.

Lemma zlen_zset l i x : zlen (zset l i x) = zlen l.
Proof. unfold zlen, zset. by rewrite length_insert. Qed.

Lemma zget_zset_eq l i x : 0 <= i < zlen l -> zget (zset l i x) i = x.
Proof.
  unfold zlen, zget, zset. intros Hi. apply list_lookup_total_insert_eq. lia.
Qed.

Lemma zget_zset_ne l i j x : 0 <= i -> 0 <= j -> i <> j -> zget (zset l i x) j = zget l j.
Proof.
  unfold zget, zset. intros. apply list_lookup_total_insert_ne. lia.
Qed.

(** [findi p l]: the index of the first element satisfying [p]; the C
    idiom "for each slot, if (test) goto found". *)
Fixpoint findi (p : A -> bool) l : option nat :=
  match l with
  | [] => None
  | x :: l' => if p x then Some O else S <$> findi p l'
  end.

Lemma findi_Some p l n :
  findi p l = Some n <->
  (exists x, l !! n = Some x /\ p x = true) /\
  (forall m y, (m < n)%nat -> l !! m = Some y -> p y = false).
Proof.
  revert n. induction l as [|x l IH]; intros n; simpl.
  - split; [done|]. intros [(?&?&?) _]. done.
  - destruct (p x) eqn:Hp.
    + split.
      * intros [= <-]. split; [by eauto|]. intros; lia.
      * intros [_ Hmin]. destruct n; [done|].
        exfalso. specialize (Hmin O x ltac:(lia) eq_refl). congruence.
    + rewrite fmap_Some. split.
      * intros (m & Hm & ->). apply IH in Hm as [(y&?&?) Hmin].
        split; [by eauto|]. intros [|k] z Hk Hz.
        { simpl in Hz. congruence. }
        apply (Hmin k z); [lia|done].
      * intros [(y&Hy&?) Hmin]. destruct n as [|n]; [simpl in Hy; congruence|].
        exists n. split; [|done]. apply IH. split; [by eauto|].
        intros m z Hm Hz. apply (Hmin (S m) z); [lia|done].
Qed.

Lemma findi_None p l : findi p l = None <-> Forall (fun x => p x = false) l.
Proof.
  induction l as [|x l IH]; simpl; [by split|].
  rewrite Forall_cons_iff. destruct (p x) eqn:Hp.
  - split; [done|]. intros [? _]. congruence.
  - rewrite fmap_None, IH. split; [by split|]. by intros [_ ?].
Qed.

Lemma findi_lt p l n : findi p l = Some n -> (n < length l)%nat.
Proof. intros [(x&?&_) _]%findi_Some. by eapply lookup_lt_Some. Qed.

(** Changing the element found, but not what the test sees of it. *)
Lemma findi_alter p f l n :
  findi p l = Some n -> (forall y, l !! n = Some y -> p (f y) = p y) ->
  findi p (alter f n l) = Some n.
Proof.
  intros [(x & Hx & Hp) Hlt]%findi_Some Hf. apply findi_Some. split.
  - exists (f x). rewrite list_lookup_alter_eq, Hx. split; [done|]. by rewrite Hf.
  - intros m y Hm Hy. rewrite list_lookup_alter_ne in Hy by lia. by eapply Hlt.
Qed.
End arrays.

(** * Record update *)

(** Linear arithmetic with division and remainder by constants. *)
Ltac dlia := Z.to_euclidean_division_equations; lia.

(** [Eta R] rebuilds a record from its projections; an [Updater] for the
    projection [p] is obtained by replacing [p] in that term. *)
Class Eta (R : Type) := eta : R -> R.
Class Updater {R T : Type} (p : R -> T) := over : (T -> T) -> R -> R.
Arguments over {R T} p {_} _ _.

Ltac derive_updater :=
  match goal with
  | |- @Updater ?R ?T ?p =>
      let i := constr:(_ : Eta R) in
      let body := eval red in i in
      match eval pattern p in body with
      | ?F p => exact (fun f => F (fun r => f (p r)))
      end
  end.

Declare Scope kern_scope.
Delimit Scope kern_scope with kern.
Notation "r <| p := v |>" := (over p (fun _ => v) r)
  (at level 12, left associativity, p at level 9, v at level 200) : kern_scope.
Notation "r <| p ::= f |>" := (over p f r)
  (at level 12, left associativity, p at level 9, f at level 200) : kern_scope.
Open Scope kern_scope.

(** [fields] evaluates projections of updated records, by conversion only. *)
Ltac field_step p q f r :=
  let u := constr:(p (over q f r)) in
  first [ unify p q; let v := eval cbv beta in (f (p r)) in change u with v
        | change u with (p r) ].
Ltac fields :=
  repeat match goal with
         | |- context [?p (@over _ _ ?q ?i ?f ?r)] => field_step p q f r
         end.
Ltac fields_in H :=
  repeat match type of H with
         | context [?p (@over _ _ ?q ?i ?f ?r)] =>
             first [ unify p q; let v := eval cbv beta in (f (p r)) in
                     change (p (over q f r)) with v in H
                   | change (p (over q f r)) with (p r) in H ]
         end.

(** * The monad of kernel code *)

(** A C function of the kernel is a function of the machine state [S] and of a
    list of environment steps: what the other processes, CPUs and devices do
    while this thread of control waits (sleeps on a channel, or spins on a
    lock).  A wait consumes one environment step; when the list is exhausted
    the thread is still waiting and the outcome is [Blocked].  [Panic] is a
    call to [panic], [Fault] a load or store through a bad address. *)
Inductive res (S A : Type) : Type :=
| Ok (a : A) (s : S) (e : list (S -> S))
| Panic (msg : string) (s : S)
| Fault (va : Z) (s : S)
| Blocked (s : S).
Arguments Ok {S A} a s e.
Arguments Panic {S A} msg s.
Arguments Fault {S A} va s.
Arguments Blocked {S A} s.

Definition M (S A : Type) : Type := S -> list (S -> S) -> res S A.

Section monad.
Context {S : Type}.

Definition ret {A} (a : A) : M S A := fun s e => Ok a s e.
Definition bind {A B} (m : M S A) (f : A -> M S B) : M S B := fun s e =>
  match m s e with
  | Ok a s' e' => f a s' e'
  | Panic msg s' => Panic msg s'
  | Fault va s' => Fault va s'
  | Blocked s' => Blocked s'
  end.
Definition gets {A} (f : S -> A) : M S A := fun s e => Ok (f s) s e.
Definition modify (f : S -> S) : M S unit := fun s e => Ok tt (f s) e.
Definition panic {A} (msg : string) : M S A := fun s e => Panic msg s.
Definition fault {A} (va : Z) : M S A := fun s e => Fault va s.

(** Let the rest of the system run once. *)
Definition wait_env : M S unit := fun s e =>
  match e with
  | [] => Blocked s
  | f :: e' => Ok tt (f s) e'
  end.

(** [when b m]: the C statement [if(b) m;]. *)
Definition when (b : bool) (m : M S unit) : M S unit := if b then m else ret tt.

(** [for_ n i body]: [body] at [i], [i+1], ..., [i+n-1]. *)
Fixpoint for_ (n : nat) (i : Z) (body : Z -> M S unit) : M S unit :=
  match n with
  | O => ret tt
  | Datatypes.S n' => bind (body i) (fun _ => for_ n' (i + 1) body)
  end.

(** [for_until]: the same loop, left as soon as [body] gives a value. *)
Fixpoint for_until {B} (n : nat) (i : Z) (body : Z -> M S (option B)) : M S (option B) :=
  match n with
  | O => ret None
  | Datatypes.S n' => bind (body i) (fun o =>
      match o with Some b => ret (Some b) | None => for_until n' (i + 1) body end)
  end.

(** [loop n body]: repeat [body] until it gives a value, at most [n] times. *)
Fixpoint loop {A} (n : nat) (body : M S (option A)) : M S A :=
  match n with
  | O => fun s _ => Blocked s
  | Datatypes.S n' => bind body (fun o =>
      match o with Some a => ret a | None => loop n' body end)
  end.

(** A loop that waits in every round it does not leave: the environment
    steps bound the number of rounds. *)
Definition wait_loop {A} (body : M S (option A)) : M S A := fun s e =>
  loop (Datatypes.S (length e)) body s e.

(** [body] waits in the rounds it does not leave. *)
Definition waits {A} (body : M S (option A)) : Prop :=
  forall s e s' e', body s e = Ok None s' e' -> (length e' < length e)%nat.

Lemma loop_fuel {A} (body : M S (option A)) n m s e :
  waits body -> (length e < n)%nat -> (length e < m)%nat ->
  loop n body s e = loop m body s e.
Proof.
  intros Hw. revert m s e. induction n as [|n IH]; intros m s e Hn Hm; [lia|].
  destruct m as [|m]; [lia|]. simpl. unfold bind.
  destruct (body s e) as [[a|] s' e'| | |] eqn:E; try done.
  apply Hw in E. apply IH; lia.
Qed.

(** The fuel never runs out: a waiting loop is its own unfolding. *)
Lemma wait_loop_unfold {A} (body : M S (option A)) s e :
  waits body ->
  wait_loop body s e =
  bind body (fun o => match o with Some a => ret a | None => wait_loop body end) s e.
Proof.
  intros Hw. unfold wait_loop at 1. simpl. unfold bind.
  destruct (body s e) as [[a|] s' e'| | |] eqn:E; try done.
  apply Hw in E. apply loop_fuel; [done|lia|lia].
Qed.

(** A loop left in its first round. *)
Lemma wait_loop_now {A} (body : M S (option A)) s e a s' e' :
  body s e = Ok (Some a) s' e' -> wait_loop body s e = Ok a s' e'.
Proof. intros Hb. unfold wait_loop. simpl. unfold bind. by rewrite Hb. Qed.

(** Environment steps are only ever consumed: [keeps] bounds what a command
    leaves, [shrinks] says it waits at least once. *)
Definition keeps {A} (m : M S A) : Prop :=
  forall s e a s' e', m s e = Ok a s' e' -> (length e' <= length e)%nat.
Definition shrinks {A} (m : M S A) : Prop :=
  forall s e a s' e', m s e = Ok a s' e' -> (length e' < length e)%nat.

Lemma keeps_ret {A} (a : A) : keeps (ret a).
Proof. intros s e a' s' e' Hm. injection Hm. intros. by subst. Qed.
Lemma keeps_gets {A} (f : S -> A) : keeps (gets f).
Proof. intros s e a' s' e' Hm. injection Hm. intros. by subst. Qed.
Lemma keeps_modify f : keeps (modify f).
Proof. intros s e a' s' e' Hm. injection Hm. intros. by subst. Qed.
Lemma keeps_panic {A} msg : keeps (@panic A msg).
Proof. done. Qed.
Lemma keeps_fault {A} va : keeps (@fault A va).
Proof. done. Qed.
Lemma shrinks_wait : shrinks wait_env.
Proof. intros s [|f e] a s' e' [=]. subst. simpl. lia. Qed.
Lemma shrinks_keeps {A} (m : M S A) : shrinks m -> keeps m.
Proof. intros Hm s e a s' e' H. apply Hm in H. lia. Qed.
Lemma bind_inv {A B} (m : M S A) (f : A -> M S B) s e b s' e' :
  bind m f s e = Ok b s' e' -> exists a s1 e1, m s e = Ok a s1 e1 /\ f a s1 e1 = Ok b s' e'.
Proof. unfold bind. destruct (m s e) as [a s1 e1| | |]; [eauto|done..]. Qed.
Lemma keeps_bind {A B} (m : M S A) (f : A -> M S B) :
  keeps m -> (forall a, keeps (f a)) -> keeps (bind m f).
Proof.
  intros Hm Hf s e b s' e' (a & s1 & e1 & H1 & H2)%bind_inv.
  apply Hm in H1. apply Hf in H2. lia.
Qed.
Lemma shrinks_bind_l {A B} (m : M S A) (f : A -> M S B) :
  shrinks m -> (forall a, keeps (f a)) -> shrinks (bind m f).
Proof.
  intros Hm Hf s e b s' e' (a & s1 & e1 & H1 & H2)%bind_inv.
  apply Hm in H1. apply Hf in H2. lia.
Qed.
Lemma shrinks_bind_r {A B} (m : M S A) (f : A -> M S B) :
  keeps m -> (forall a, shrinks (f a)) -> shrinks (bind m f).
Proof.
  intros Hm Hf s e b s' e' (a & s1 & e1 & H1 & H2)%bind_inv.
  apply Hm in H1. apply Hf in H2. lia.
Qed.
Lemma keeps_loop {A} n (body : M S (option A)) : keeps body -> keeps (loop n body).
Proof.
  intros Hb. induction n as [|n IH]; [done|]. simpl. apply keeps_bind; [done|].
  intros [a|]; [apply keeps_ret|done].
Qed.
Lemma keeps_wait_loop {A} (body : M S (option A)) : keeps body -> keeps (wait_loop body).
Proof. intros Hb s e a s' e'. unfold wait_loop. by apply keeps_loop. Qed.
End monad.

Notation "x <- m ;; f" := (bind m (fun x => f))
  (at level 100, m at next level, right associativity) : kern_scope.
Notation "' p <- m ;; f" := (bind m (fun x => match x with p => f end))
  (at level 100, p pattern, m at next level, right associativity) : kern_scope.
Notation "m ;; f" := (bind m (fun _ => f))
  (at level 100, right associativity) : kern_scope.

(** Total correctness: [m] returns (no panic, no fault, no endless wait) and
    the result satisfies [Q]. *)
Definition wp {S A} (m : M S A) (s : S) (e : list (S -> S))
  (Q : A -> S -> list (S -> S) -> Prop) : Prop :=
  match m s e with
  | Ok a s' e' => Q a s' e'
  | _ => False
  end.

Section wp_rules.
Context {S : Type}.
Implicit Types (s : S) (e : list (S -> S)).

Lemma wp_bind {A B} (m : M S A) (f : A -> M S B) s e Q :
  wp m s e (fun a s' e' => wp (f a) s' e' Q) -> wp (bind m f) s e Q.
Proof. unfold wp, bind. destruct (m s e); done. Qed.

Lemma wp_mono {A} (m : M S A) s e (Q Q' : A -> S -> list (S -> S) -> Prop) :
  wp m s e Q -> (forall a s' e', Q a s' e' -> Q' a s' e') -> wp m s e Q'.
Proof. unfold wp. destruct (m s e); naive_solver. Qed.

Lemma wp_inv {A} (m : M S A) s e Q :
  wp m s e Q -> exists a s' e', m s e = Ok a s' e' /\ Q a s' e'.
Proof. unfold wp. destruct (m s e); naive_solver. Qed.

Lemma wp_eq {A} (m : M S A) s e a s' e' Q :
  m s e = Ok a s' e' -> Q a s' e' -> wp m s e Q.
Proof. unfold wp. intros ->. done. Qed.

(** A counted loop keeps an invariant indexed by the loop variable. *)
Lemma wp_for (Inv : Z -> S -> list (S -> S) -> Prop) n i body s e :
  Inv i s e ->
  (forall j s' e', i <= j < i + Z.of_nat n -> Inv j s' e' ->
     wp (body j) s' e' (fun _ => Inv (j + 1))) ->
  wp (for_ n i body) s e (fun _ => Inv (i + Z.of_nat n)).
Proof.
  revert i s e. induction n as [|n IH]; intros i s e Hi Hstep; simpl.
  - unfold wp, ret. by replace (i + Z.of_nat 0) with i by lia.
  - apply wp_bind. eapply wp_mono; [apply Hstep; [lia|done]|].
    simpl. intros _ s' e' Hi'.
    replace (i + Z.of_nat (Datatypes.S n)) with (i + 1 + Z.of_nat n) by lia.
    apply IH; [done|]. intros. apply Hstep; [lia|done].
Qed.
End wp_rules.

Lemma bind_ok {S A B} (m : M S A) (f : A -> M S B) s e a s' e' :
  m s e = Ok a s' e' -> bind m f s e = f a s' e'.
Proof. unfold bind. by intros ->. Qed.

Lemma bind_ext {S A B} (m m' : M S A) (f : A -> M S B) s e :
  m s e = m' s e -> bind m f s e = bind m' f s e.
Proof. unfold bind. by intros ->. Qed.

Lemma bind_assoc {S A B C} (m : M S A) (f : A -> M S B) (g : B -> M S C) s e :
  bind (bind m f) g s e = bind m (fun a => bind (f a) g) s e.
Proof. unfold bind. by destruct (m s e). Qed.

(** The loop of n + m rounds is the loop of n, then the loop of m. *)
Lemma for_until_add {S B} (n m : nat) (body : Z -> M S (option B)) : forall i s e,
  for_until (n + m) i body s e =
  bind (for_until n i body) (fun o =>
    match o with Some b => ret (Some b) | None => for_until m (i + Z.of_nat n) body end) s e.
Proof.
  induction n as [|n IH]; intros i s e; cbn [for_until Nat.add].
  { unfold bind, ret. by rewrite Z.add_0_r. }
  rewrite bind_assoc. unfold bind at 1 2. destruct (body i s e) as [[b|] s1 e1| | |]; try done.
  rewrite IH. by replace (i + 1 + Z.of_nat n) with (i + Z.of_nat (Datatypes.S n)) by lia.
Qed.

(** [step] runs the primitive commands at the head of a computation. *)
Ltac step :=
  repeat first
    [ rewrite bind_assoc
    | progress cbv beta
    | match goal with
      | |- context [bind (ret ?a) ?f ?s ?e] => change (bind (ret a) f s e) with (f a s e)
      | |- context [bind (gets ?g) ?f ?s ?e] => change (bind (gets g) f s e) with (f (g s) s e)
      | |- context [bind (modify ?g) ?f ?s ?e] =>
          change (bind (modify g) f s e) with (f tt (g s) e)
      | |- context [bind (when true ?m) ?f ?s ?e] =>
          change (bind (when true m) f s e) with (bind m f s e)
      | |- context [bind (when false ?m) ?f ?s ?e] =>
          change (bind (when false m) f s e) with (f tt s e)
      end ].

(** [run H] executes the call at the head of a computation by the equation
    [H : m s e = Ok ...]; what [H] needs and [eauto] cannot find is left. *)
Tactic Notation "run" uconstr(H) :=
  erewrite bind_ok; [|eapply H; try (done || lia)].
Tactic Notation "run" uconstr(H) "by" tactic3(t) :=
  erewrite bind_ok; [|eapply H; solve [t]].

Create HintDb kern discriminated.

(** [keep] decides that a command only consumes environment steps. *)
Create HintDb envdb discriminated.
#[export] Hint Resolve keeps_ret keeps_gets keeps_modify keeps_panic keeps_fault
  keeps_wait_loop shrinks_wait : envdb.
Ltac keep :=
  repeat first
    [ apply keeps_bind; [|intros]
    | match goal with
      | |- keeps (if ?b then _ else _) => destruct b
      | |- keeps (match ?x with _ => _ end) => destruct x
      | |- keeps (when ?b _) => unfold when
      | |- keeps (wait_loop _) => apply keeps_wait_loop
      end
    | solve [auto with envdb] ].
