(* ===== verification/Kernel.v ===== *)
(** The kernel's data: the constants of [param.h], [memlayout.h], [mmu.h] and
    [fs.h], the structs of the headers as records, and the record [kernel] of
    all the kernel's global variables, with the monad [K] of kernel code. *)
From S2P Require Import Prelude.

(** * Constants *)

(** param.h *)
Definition NPROC : Z := 64.
Definition KSTACKSIZE : Z := 4096.
Definition NCPU : Z := 8.
Definition NOFILE : Z := 16.
Definition NFILE : Z := 100.
Definition NINODE : Z := 50.
Definition NDEV : Z := 10.
Definition ROOTDEV : Z := 1.
Definition MAXARG : Z := 32.
Definition MAXOPBLOCKS : Z := 10.
Definition LOGSIZE : Z := MAXOPBLOCKS * 3.
Definition NBUF : Z := MAXOPBLOCKS * 3.
Definition FSSIZE : Z := 1000.

(** memlayout.h *)
Definition EXTMEM : Z := 0x100000.
Definition PHYSTOP : Z := 0xE000000.
Definition DEVSPACE : Z := 0xFE000000.
Definition KERNBASE : Z := 0x80000000.
Definition KERNLINK : Z := KERNBASE + EXTMEM.
Definition V2P (a : Z) : Z := u32 (a - KERNBASE).
Definition P2V (a : Z) : Z := u32 (a + KERNBASE).

(** mmu.h *)
Definition FL_IF : Z := 0x200.
Definition SEG_KCODE : Z := 1.
Definition SEG_KDATA : Z := 2.
Definition SEG_UCODE : Z := 3.
Definition SEG_UDATA : Z := 4.
Definition SEG_TSS : Z := 5.
Definition DPL_USER : Z := 3.
Definition PGSIZE : Z := 4096.
Definition NPDENTRIES : Z := 1024.
Definition PTXSHIFT : Z := 12.
Definition PDXSHIFT : Z := 22.
Definition PDX (va : Z) : Z := Z.land (Z.shiftr va PDXSHIFT) 0x3FF.
Definition PTX (va : Z) : Z := Z.land (Z.shiftr va PTXSHIFT) 0x3FF.
Definition PGADDR (d t o : Z) : Z :=
  u32 (Z.lor (Z.lor (Z.shiftl d PDXSHIFT) (Z.shiftl t PTXSHIFT)) o).
Definition PGROUNDUP (sz : Z) : Z := Z.land (u32 (sz + PGSIZE - 1)) (u32 (Z.lnot (PGSIZE - 1))).
Definition PGROUNDDOWN (a : Z) : Z := Z.land a (u32 (Z.lnot (PGSIZE - 1))).
Definition PTE_P : Z := 0x001.
Definition PTE_W : Z := 0x002.
Definition PTE_U : Z := 0x004.
Definition PTE_ADDR (pte : Z) : Z := Z.land pte (u32 (Z.lnot 0xFFF)).
Definition PTE_FLAGS (pte : Z) : Z := Z.land pte 0xFFF.

(** fs.h, buf.h *)
Definition ROOTINO : Z := 1.
Definition BSIZE : Z := 512.
Definition NDIRECT : Z := 12.
Definition NINDIRECT : Z := BSIZE / 4.
Definition MAXFILE : Z := NDIRECT + NINDIRECT.
Definition DIRSIZ : Z := 14.
Definition B_VALID : Z := 0x2.
Definition B_DIRTY : Z := 0x4.

(** klog.h, pipe.c, console.c *)
Definition KLOG_SIZE : Z := 128.
Definition PIPESIZE : Z := 512.
Definition INPUT_BUF : Z := 128.

(** * Names of locks and sleep channels *)

(** The C code names a lock or a channel by its address.  Sleep locks live in
    buffers and inodes, pipe locks in the page of the pipe. *)
Inductive sleepid := S_buf (i : nat) | S_inode (i : nat).
Inductive lockid :=
| L_ptable | L_ticks | L_kmem | L_klog | L_ftable | L_icache | L_bcache
| L_log | L_ide | L_cons | L_pipe (p : Z) | L_sleep (s : sleepid).
Inductive chan :=
| Ch_proc (i : nat) | Ch_ticks | Ch_nread (p : Z) | Ch_nwrite (p : Z)
| Ch_sleep (s : sleepid) | Ch_log | Ch_input | Ch_buf (i : nat).

#[export] Instance sleepid_eq : EqDecision sleepid.
Proof. solve_decision. Defined.
#[export] Instance lockid_eq : EqDecision lockid.
Proof. solve_decision. Defined.
#[export] Instance chan_eq : EqDecision chan.
Proof. solve_decision. Defined.

Definition sleepid_code (s : sleepid) : nat + nat :=
  match s with S_buf i => inl i | S_inode i => inr i end.
Definition sleepid_decode (c : nat + nat) : sleepid :=
  match c with inl i => S_buf i | inr i => S_inode i end.
#[export] Instance sleepid_countable : Countable sleepid.
Proof. refine (inj_countable' sleepid_code sleepid_decode _). by intros []. Defined.

Definition lockid_code (l : lockid) : nat + (Z + sleepid) :=
  match l with
  | L_ptable => inl 0%nat | L_ticks => inl 1%nat | L_kmem => inl 2%nat
  | L_klog => inl 3%nat | L_ftable => inl 4%nat | L_icache => inl 5%nat
  | L_bcache => inl 6%nat | L_log => inl 7%nat | L_ide => inl 8%nat
  | L_cons => inl 9%nat | L_pipe p => inr (inl p) | L_sleep s => inr (inr s)
  end.
Definition lockid_decode (c : nat + (Z + sleepid)) : lockid :=
  match c with
  | inl 0%nat => L_ptable | inl 1%nat => L_ticks | inl 2%nat => L_kmem
  | inl 3%nat => L_klog | inl 4%nat => L_ftable | inl 5%nat => L_icache
  | inl 6%nat => L_bcache | inl 7%nat => L_log | inl 8%nat => L_ide
  | inl _ => L_cons | inr (inl p) => L_pipe p | inr (inr s) => L_sleep s
  end.
#[export] Instance lockid_countable : Countable lockid.
Proof. refine (inj_countable' lockid_code lockid_decode _). by intros []. Defined.

(** * Structs *)

(** spinlock.h; [pcs], the debugging record of the call stack, is left out. *)
Record spinlock := mkSpinlock {
  locked : Z;
  lk_name : string;
  lk_cpu : option nat       (* index in cpus[] *)
}.

(** sleeplock.h; the inner spin lock [lk] is the lock [L_sleep]. *)
Record sleeplock := mkSleeplock {
  sl_locked : Z;
  sl_name : string;
  sl_pid : Z
}.

(** proc.h: per-CPU state; of the task state segment only [esp0]. *)
Record cpu := mkCpu {
  c_apicid : Z;
  c_started : Z;
  c_ncli : Z;
  c_intena : bool;
  c_proc : option nat;      (* index in ptable.proc *)
  c_esp0 : Z
}.

Inductive procstate := UNUSED | EMBRYO | SLEEPING | RUNNABLE | RUNNING | ZOMBIE.
#[export] Instance procstate_eq : EqDecision procstate.
Proof. solve_decision. Defined.

(** proc.h: per-process state.  Pointers to structs in tables are indices. *)
Record proc := mkProc {
  p_sz : Z;
  p_pgdir : Z;
  p_kstack : Z;
  p_state : procstate;
  p_pid : Z;
  p_parent : option nat;
  p_tf : Z;
  p_context : Z;
  p_chan : option chan;
  p_killed : Z;
  p_ofile : list (option nat);
  p_cwd : option nat;
  p_name : list Z
}.

(** file.h *)
Inductive fdtype := FD_NONE | FD_PIPE | FD_INODE.
#[export] Instance fdtype_eq : EqDecision fdtype.
Proof. solve_decision. Defined.

Record file := mkFile {
  f_type : fdtype;
  f_ref : Z;
  f_readable : Z;
  f_writable : Z;
  f_pipe : Z;
  f_ip : nat;
  f_off : Z
}.

Record inode := mkInode {
  i_dev : Z;
  i_inum : Z;
  i_ref : Z;
  i_valid : Z;
  i_type : Z;
  i_major : Z;
  i_minor : Z;
  i_nlink : Z;
  i_size : Z;
  i_addrs : list Z
}.

Inductive devfn := DevConsole.
Record devsw := mkDevsw { dv_read : option devfn; dv_write : option devfn }.

(** pipe.c *)
Record pipe := mkPipe {
  pi_data : list Z;
  pi_nread : Z;
  pi_nwrite : Z;
  pi_readopen : Z;
  pi_writeopen : Z
}.

(** buf.h *)
Record buf := mkBuf {
  b_flags : Z;
  b_dev : Z;
  b_blockno : Z;
  b_refcnt : Z;
  b_prev : nat;
  b_next : nat;
  b_qnext : option nat;
  b_data : list Z
}.

(** fs.h *)
Record superblock := mkSb {
  sb_size : Z;
  sb_nblocks : Z;
  sb_ninodes : Z;
  sb_nlog : Z;
  sb_logstart : Z;
  sb_inodestart : Z;
  sb_bmapstart : Z
}.

(** log.c: struct log with its struct logheader. *)
Record log := mkLog {
  l_start : Z;
  l_size : Z;
  l_outstanding : Z;
  l_committing : Z;
  l_dev : Z;
  lh_n : Z;
  lh_block : list Z
}.

(** klog.c: one entry of the flight recorder, and the recorder. *)
Record logentry := mkEntry {
  timestamp : Z;
  event_type : Z;
  e_pid : Z;
  extra : Z
}.
Record klog := mkKlog {
  kl_entries : list logentry;
  kl_head : Z;
  kl_count : Z;
  kl_ticks : Z
}.

(** kalloc.c *)
Record kmem := mkKmem { use_lock : bool; freelist : Z }.

(** ide.c and memide.c: the request queue, the disk's status register (port
    0x1f7), and the size of the memory disk in blocks. *)
Record ide := mkIde {
  havedisk1 : bool;
  idequeue : option nat;
  ide_status : Z;
  disksize : Z
}.

(** console.c *)
Record console := mkConsole {
  cons_locking : bool;
  panicked : bool;
  in_buf : list Z;
  in_r : Z;
  in_w : Z;
  in_e : Z
}.

(** kbd.c: scan codes waiting at the keyboard port, and the shift state. *)
Record kbd := mkKbd { kbd_data : list Z; kbd_shift : Z }.

(** * The kernel's globals *)

Record kernel := mkKernel {
  k_mem : gmap Z Z;              (* physical memory, by kernel virtual address *)
  k_cpus : list cpu;
  k_ncpu : Z;
  k_lapicid : Z;                 (* the executing CPU: what lapicid() reads, *)
  k_if : bool;                   (*   the FL_IF bit of its eflags, *)
  k_cr3 : Z;                     (*   its page table register *)
  k_locks : gmap lockid spinlock;
  k_slocks : gmap sleepid sleeplock;
  k_klog : klog;
  k_kmem : kmem;
  k_kpgdir : Z;
  k_ptable : list proc;
  k_initproc : option nat;
  k_nextpid : Z;
  k_first : bool;                (* forkret's static [first] *)
  k_ticks : Z;
  k_ftable : list file;
  k_devsw : list devsw;
  k_icache : list inode;
  k_sb : superblock;
  k_bcache : list buf;           (* buf[0..NBUF-1], then head *)
  k_log : log;
  k_ide : ide;
  k_disk : gmap (Z * Z) (list Z);      (* sectors, by disk and number *)
  k_dwrites : list (Z * Z * list Z);   (* disk writes so far, oldest first *)
  k_console : console;
  k_uart : bool;                 (* uart.c: is there a uart? *)
  k_out : list Z;                (* bytes written to the uart *)
  k_crt : list Z;                (* CGA memory, 25 rows of 80 cells *)
  k_crtpos : Z;                  (* CRT controller's cursor register *)
  k_pipes : gmap Z pipe;         (* by address of the pipe's page *)
  k_kbd : kbd;
  k_uartq : list Z;              (* bytes received by the uart *)
  k_cr2 : Z                      (* faulting address of the last page fault *)
}.

#[export] Instance eta_kernel : Eta kernel := fun k =>
  mkKernel (k_mem k) (k_cpus k) (k_ncpu k) (k_lapicid k) (k_if k) (k_cr3 k) (k_locks k) (k_slocks k)
    (k_klog k) (k_kmem k) (k_kpgdir k) (k_ptable k) (k_initproc k) (k_nextpid k)
    (k_first k) (k_ticks k) (k_ftable k) (k_devsw k) (k_icache k) (k_sb k)
    (k_bcache k) (k_log k) (k_ide k) (k_disk k) (k_dwrites k) (k_console k)
    (k_uart k) (k_out k) (k_crt k) (k_crtpos k) (k_pipes k)
    (k_kbd k) (k_uartq k) (k_cr2 k).
#[export] Instance eta_kbd : Eta kbd := fun d => mkKbd (kbd_data d) (kbd_shift d).
#[export] Instance eta_cpu : Eta cpu := fun c =>
  mkCpu (c_apicid c) (c_started c) (c_ncli c) (c_intena c) (c_proc c) (c_esp0 c).
#[export] Instance eta_proc : Eta proc := fun p =>
  mkProc (p_sz p) (p_pgdir p) (p_kstack p) (p_state p) (p_pid p) (p_parent p)
    (p_tf p) (p_context p) (p_chan p) (p_killed p) (p_ofile p) (p_cwd p) (p_name p).
#[export] Instance eta_file : Eta file := fun f =>
  mkFile (f_type f) (f_ref f) (f_readable f) (f_writable f) (f_pipe f) (f_ip f) (f_off f).
#[export] Instance eta_inode : Eta inode := fun i =>
  mkInode (i_dev i) (i_inum i) (i_ref i) (i_valid i) (i_type i) (i_major i)
    (i_minor i) (i_nlink i) (i_size i) (i_addrs i).
#[export] Instance eta_pipe : Eta pipe := fun p =>
  mkPipe (pi_data p) (pi_nread p) (pi_nwrite p) (pi_readopen p) (pi_writeopen p).
#[export] Instance eta_buf : Eta buf := fun b =>
  mkBuf (b_flags b) (b_dev b) (b_blockno b) (b_refcnt b) (b_prev b) (b_next b)
    (b_qnext b) (b_data b).
#[export] Instance eta_log : Eta log := fun l =>
  mkLog (l_start l) (l_size l) (l_outstanding l) (l_committing l) (l_dev l) (lh_n l)
    (lh_block l).
#[export] Instance eta_klog : Eta klog := fun l =>
  mkKlog (kl_entries l) (kl_head l) (kl_count l) (kl_ticks l).
#[export] Instance eta_logentry : Eta logentry := fun l =>
  mkEntry (timestamp l) (event_type l) (e_pid l) (extra l).
#[export] Instance eta_kmem : Eta kmem := fun m => mkKmem (use_lock m) (freelist m).
#[export] Instance eta_ide : Eta ide := fun d => mkIde (havedisk1 d) (idequeue d) (ide_status d) (disksize d).
#[export] Instance eta_console : Eta console := fun c =>
  mkConsole (cons_locking c) (panicked c) (in_buf c) (in_r c) (in_w c) (in_e c).

(** The updaters behind [r <| field := v |>]. *)
#[export] Instance over_k_mem : Updater k_mem := ltac:(derive_updater).
#[export] Instance over_k_cpus : Updater k_cpus := ltac:(derive_updater).
#[export] Instance over_k_ncpu : Updater k_ncpu := ltac:(derive_updater).
#[export] Instance over_k_lapicid : Updater k_lapicid := ltac:(derive_updater).
#[export] Instance over_k_if : Updater k_if := ltac:(derive_updater).
#[export] Instance over_k_cr3 : Updater k_cr3 := ltac:(derive_updater).
#[export] Instance over_k_locks : Updater k_locks := ltac:(derive_updater).
#[export] Instance over_k_slocks : Updater k_slocks := ltac:(derive_updater).
#[export] Instance over_k_klog : Updater k_klog := ltac:(derive_updater).
#[export] Instance over_k_kmem : Updater k_kmem := ltac:(derive_updater).
#[export] Instance over_k_kpgdir : Updater k_kpgdir := ltac:(derive_updater).
#[export] Instance over_k_ptable : Updater k_ptable := ltac:(derive_updater).
#[export] Instance over_k_initproc : Updater k_initproc := ltac:(derive_updater).
#[export] Instance over_k_nextpid : Updater k_nextpid := ltac:(derive_updater).
#[export] Instance over_k_first : Updater k_first := ltac:(derive_updater).
#[export] Instance over_k_ticks : Updater k_ticks := ltac:(derive_updater).
#[export] Instance over_k_ftable : Updater k_ftable := ltac:(derive_updater).
#[export] Instance over_k_devsw : Updater k_devsw := ltac:(derive_updater).
#[export] Instance over_k_icache : Updater k_icache := ltac:(derive_updater).
#[export] Instance over_k_sb : Updater k_sb := ltac:(derive_updater).
#[export] Instance over_k_bcache : Updater k_bcache := ltac:(derive_updater).
#[export] Instance over_k_log : Updater k_log := ltac:(derive_updater).
#[export] Instance over_k_ide : Updater k_ide := ltac:(derive_updater).
#[export] Instance over_k_disk : Updater k_disk := ltac:(derive_updater).
#[export] Instance over_k_dwrites : Updater k_dwrites := ltac:(derive_updater).
#[export] Instance over_k_console : Updater k_console := ltac:(derive_updater).
#[export] Instance over_k_uart : Updater k_uart := ltac:(derive_updater).
#[export] Instance over_k_crt : Updater k_crt := ltac:(derive_updater).
#[export] Instance over_k_crtpos : Updater k_crtpos := ltac:(derive_updater).
#[export] Instance over_k_out : Updater k_out := ltac:(derive_updater).
#[export] Instance over_k_pipes : Updater k_pipes := ltac:(derive_updater).
#[export] Instance over_k_kbd : Updater k_kbd := ltac:(derive_updater).
#[export] Instance over_k_uartq : Updater k_uartq := ltac:(derive_updater).
#[export] Instance over_k_cr2 : Updater k_cr2 := ltac:(derive_updater).
#[export] Instance over_kbd_data : Updater kbd_data := ltac:(derive_updater).
#[export] Instance over_kbd_shift : Updater kbd_shift := ltac:(derive_updater).
#[export] Instance over_c_apicid : Updater c_apicid := ltac:(derive_updater).
#[export] Instance over_c_started : Updater c_started := ltac:(derive_updater).
#[export] Instance over_c_ncli : Updater c_ncli := ltac:(derive_updater).
#[export] Instance over_c_intena : Updater c_intena := ltac:(derive_updater).
#[export] Instance over_c_proc : Updater c_proc := ltac:(derive_updater).
#[export] Instance over_c_esp0 : Updater c_esp0 := ltac:(derive_updater).
#[export] Instance over_p_sz : Updater p_sz := ltac:(derive_updater).
#[export] Instance over_p_pgdir : Updater p_pgdir := ltac:(derive_updater).
#[export] Instance over_p_kstack : Updater p_kstack := ltac:(derive_updater).
#[export] Instance over_p_state : Updater p_state := ltac:(derive_updater).
#[export] Instance over_p_pid : Updater p_pid := ltac:(derive_updater).
#[export] Instance over_p_parent : Updater p_parent := ltac:(derive_updater).
#[export] Instance over_p_tf : Updater p_tf := ltac:(derive_updater).
#[export] Instance over_p_context : Updater p_context := ltac:(derive_updater).
#[export] Instance over_p_chan : Updater p_chan := ltac:(derive_updater).
#[export] Instance over_p_killed : Updater p_killed := ltac:(derive_updater).
#[export] Instance over_p_ofile : Updater p_ofile := ltac:(derive_updater).
#[export] Instance over_p_cwd : Updater p_cwd := ltac:(derive_updater).
#[export] Instance over_p_name : Updater p_name := ltac:(derive_updater).
#[export] Instance over_f_type : Updater f_type := ltac:(derive_updater).
#[export] Instance over_f_ref : Updater f_ref := ltac:(derive_updater).
#[export] Instance over_f_readable : Updater f_readable := ltac:(derive_updater).
#[export] Instance over_f_writable : Updater f_writable := ltac:(derive_updater).
#[export] Instance over_f_pipe : Updater f_pipe := ltac:(derive_updater).
#[export] Instance over_f_ip : Updater f_ip := ltac:(derive_updater).
#[export] Instance over_f_off : Updater f_off := ltac:(derive_updater).
#[export] Instance over_i_dev : Updater i_dev := ltac:(derive_updater).
#[export] Instance over_i_inum : Updater i_inum := ltac:(derive_updater).
#[export] Instance over_i_ref : Updater i_ref := ltac:(derive_updater).
#[export] Instance over_i_valid : Updater i_valid := ltac:(derive_updater).
#[export] Instance over_i_type : Updater i_type := ltac:(derive_updater).
#[export] Instance over_i_major : Updater i_major := ltac:(derive_updater).
#[export] Instance over_i_minor : Updater i_minor := ltac:(derive_updater).
#[export] Instance over_i_nlink : Updater i_nlink := ltac:(derive_updater).
#[export] Instance over_i_size : Updater i_size := ltac:(derive_updater).
#[export] Instance over_i_addrs : Updater i_addrs := ltac:(derive_updater).
#[export] Instance over_pi_data : Updater pi_data := ltac:(derive_updater).
#[export] Instance over_pi_nread : Updater pi_nread := ltac:(derive_updater).
#[export] Instance over_pi_nwrite : Updater pi_nwrite := ltac:(derive_updater).
#[export] Instance over_pi_readopen : Updater pi_readopen := ltac:(derive_updater).
#[export] Instance over_pi_writeopen : Updater pi_writeopen := ltac:(derive_updater).
#[export] Instance over_b_flags : Updater b_flags := ltac:(derive_updater).
#[export] Instance over_b_dev : Updater b_dev := ltac:(derive_updater).
#[export] Instance over_b_blockno : Updater b_blockno := ltac:(derive_updater).
#[export] Instance over_b_refcnt : Updater b_refcnt := ltac:(derive_updater).
#[export] Instance over_b_prev : Updater b_prev := ltac:(derive_updater).
#[export] Instance over_b_next : Updater b_next := ltac:(derive_updater).
#[export] Instance over_b_qnext : Updater b_qnext := ltac:(derive_updater).
#[export] Instance over_b_data : Updater b_data := ltac:(derive_updater).
#[export] Instance over_l_start : Updater l_start := ltac:(derive_updater).
#[export] Instance over_l_size : Updater l_size := ltac:(derive_updater).
#[export] Instance over_l_outstanding : Updater l_outstanding := ltac:(derive_updater).
#[export] Instance over_l_committing : Updater l_committing := ltac:(derive_updater).
#[export] Instance over_l_dev : Updater l_dev := ltac:(derive_updater).
#[export] Instance over_lh_n : Updater lh_n := ltac:(derive_updater).
#[export] Instance over_lh_block : Updater lh_block := ltac:(derive_updater).
#[export] Instance over_kl_entries : Updater kl_entries := ltac:(derive_updater).
#[export] Instance over_kl_head : Updater kl_head := ltac:(derive_updater).
#[export] Instance over_kl_count : Updater kl_count := ltac:(derive_updater).
#[export] Instance over_kl_ticks : Updater kl_ticks := ltac:(derive_updater).
#[export] Instance over_timestamp : Updater timestamp := ltac:(derive_updater).
#[export] Instance over_event_type : Updater event_type := ltac:(derive_updater).
#[export] Instance over_e_pid : Updater e_pid := ltac:(derive_updater).
#[export] Instance over_extra : Updater extra := ltac:(derive_updater).
#[export] Instance over_use_lock : Updater use_lock := ltac:(derive_updater).
#[export] Instance over_freelist : Updater freelist := ltac:(derive_updater).
#[export] Instance over_havedisk1 : Updater havedisk1 := ltac:(derive_updater).
#[export] Instance over_idequeue : Updater idequeue := ltac:(derive_updater).
#[export] Instance over_ide_status : Updater ide_status := ltac:(derive_updater).
#[export] Instance over_disksize : Updater disksize := ltac:(derive_updater).
#[export] Instance over_cons_locking : Updater cons_locking := ltac:(derive_updater).
#[export] Instance over_panicked : Updater panicked := ltac:(derive_updater).
#[export] Instance over_in_buf : Updater in_buf := ltac:(derive_updater).
#[export] Instance over_in_r : Updater in_r := ltac:(derive_updater).
#[export] Instance over_in_w : Updater in_w := ltac:(derive_updater).
#[export] Instance over_in_e : Updater in_e := ltac:(derive_updater).

(** * Kernel code *)

Definition env := list (kernel -> kernel).
Definition K := M kernel.

#[export] Instance cpu_inhabited : Inhabited cpu := populate (mkCpu 0 0 0 false None 0).
#[export] Instance proc_inhabited : Inhabited proc :=
  populate (mkProc 0 0 0 UNUSED 0 None 0 0 None 0 [] None []).
#[export] Instance file_inhabited : Inhabited file := populate (mkFile FD_NONE 0 0 0 0 0 0).
#[export] Instance inode_inhabited : Inhabited inode := populate (mkInode 0 0 0 0 0 0 0 0 0 []).
#[export] Instance buf_inhabited : Inhabited buf := populate (mkBuf 0 0 0 0 0 0 None []).
#[export] Instance pipe_inhabited : Inhabited pipe := populate (mkPipe [] 0 0 0 0).
#[export] Instance entry_inhabited : Inhabited logentry := populate (mkEntry 0 0 0 0).
#[export] Instance devsw_inhabited : Inhabited devsw := populate (mkDevsw None None).

(** The globals as the loader leaves them (zeroed bss), on a machine with one
    CPU and an 80x25 screen: the concrete state the examples run on. *)
Definition kernel0 : kernel := {|
  k_mem := empty; k_cpus := [mkCpu 0 1 0 false None 0]; k_ncpu := 1; k_lapicid := 0;
  k_if := false; k_cr3 := 0; k_locks := empty; k_slocks := empty;
  k_klog := mkKlog (replicate 128 (mkEntry 0 0 0 0)) 0 0 0;
  k_kmem := mkKmem false 0; k_kpgdir := 0;
  k_ptable := replicate 64 (mkProc 0 0 0 UNUSED 0 None 0 0 None 0 (replicate 16 None) None
                              (replicate 16 0));
  k_initproc := None; k_nextpid := 1; k_first := true; k_ticks := 0;
  k_ftable := replicate 100 (mkFile FD_NONE 0 0 0 0 0 0);
  k_devsw := replicate 10 (mkDevsw None None);
  k_icache := replicate 50 (mkInode 0 0 0 0 0 0 0 0 0 (replicate 13 0));
  k_sb := mkSb 0 0 0 0 0 0 0;
  k_bcache := replicate 31 (mkBuf 0 0 0 0 0 0 None (replicate 512 0));
  k_log := mkLog 0 0 0 0 0 0 (replicate 30 0);
  k_ide := mkIde false None 0 0; k_disk := empty; k_dwrites := [];
  k_console := mkConsole false false (replicate 128 0) 0 0 0;
  k_uart := true; k_out := []; k_crt := replicate 2000 0; k_crtpos := 0;
  k_pipes := empty; k_kbd := mkKbd [] 0; k_uartq := []; k_cr2 := 0
|}.

Lemma restore_mem (k : kernel) m : m = k_mem k -> k <| k_mem := m |> = k.
Proof. intros ->. by destruct k. Qed.

(** The linker symbols and binary images the kernel is linked with: they come
    from kernel.ld and the assembler sources, not from the C code. *)
Class Image := {
  sym_end : Z;              (* end[]: first address after the kernel *)
  sym_data : Z;             (* data[]: start of the kernel's data segment *)
  sym_trapret : Z;
  sym_forkret : Z;
  initcode : list Z         (* _binary_initcode_start[0.._binary_initcode_size) *)
}.

(** Where the linker script puts the kernel: from KERNLINK up, below PHYSTOP,
    the data segment on a page boundary after the text. *)
Class ImageOk `{Image} : Prop := {
  end_low : KERNLINK <= sym_end;
  end_high : sym_end <= KERNBASE + PHYSTOP;
  data_after_text : KERNLINK < sym_data < sym_end;
  data_aligned : sym_data mod PGSIZE = 0
}.
