(* ===== verification/Mem.v ===== *)
(** Flat byte memory: loads and stores of bytes and little-endian words, block
    load/store, and the lemmas that relate them. *)
From S2P Require Import Prelude.

Section memory.
Implicit Types (m : gmap Z Z) (a v : Z).

(** A byte that was never written reads as 0. *)
Definition rd8 m a : Z := u8 (default 0 (m !! a)).
Definition wr8 m a v : gmap Z Z := <[a := u8 v]> m.

Definition rd32 m a : Z :=
  rd8 m a + 2 ^ 8 * rd8 m (a + 1) + 2 ^ 16 * rd8 m (a + 2) + 2 ^ 24 * rd8 m (a + 3).
Definition wr32 m a v : gmap Z Z :=
  wr8 (wr8 (wr8 (wr8 m a v) (a + 1) (v / 2 ^ 8)) (a + 2) (v / 2 ^ 16)) (a + 3) (v / 2 ^ 24).

(** [n] bytes from [a], as a list; and a list written at [a]. *)
Fixpoint load m a (n : nat) : list Z :=
  match n with O => [] | S n' => rd8 m a :: load m (a + 1) n' end.
Fixpoint store m a (l : list Z) : gmap Z Z :=
  match l with [] => m | v :: l' => store (wr8 m a v) (a + 1) l' end.

Lemma u8_range v : 0 <= u8 v < 2 ^ 8.
Proof. apply Z.mod_pos_bound. lia. Qed.

Lemma u8_idem v : u8 (u8 v) = u8 v.
Proof. unfold u8. by rewrite Zmod_mod. Qed.

Lemma u8_small v : 0 <= v < 2 ^ 8 -> u8 v = v.
Proof. intros. unfold u8. by apply Z.mod_small. Qed.

Lemma rd8_range m a : 0 <= rd8 m a < 2 ^ 8.
Proof. apply u8_range. Qed.

Lemma u8_rd8 m a : u8 (rd8 m a) = rd8 m a.
Proof. apply u8_idem. Qed.

Lemma rd8_wr8 m a b v : rd8 (wr8 m a v) b = if decide (a = b) then u8 v else rd8 m b.
Proof.
  unfold rd8, wr8. rewrite lookup_insert. case_decide; simpl; [apply u8_idem|done].
Qed.

Lemma rd8_wr8_eq m a v : rd8 (wr8 m a v) a = u8 v.
Proof. rewrite rd8_wr8. by rewrite decide_True. Qed.

Lemma rd8_wr8_ne m a b v : a <> b -> rd8 (wr8 m a v) b = rd8 m b.
Proof. intros. rewrite rd8_wr8. by rewrite decide_False. Qed.

Lemma rd8_wr32_ne m a b v : b < a \/ a + 4 <= b -> rd8 (wr32 m a v) b = rd8 m b.
Proof. intros. unfold wr32. rewrite !rd8_wr8_ne by lia. done. Qed.

Lemma rd32_range m a : 0 <= rd32 m a < 2 ^ 32.
Proof.
  unfold rd32. pose proof (rd8_range m a). pose proof (rd8_range m (a + 1)).
  pose proof (rd8_range m (a + 2)). pose proof (rd8_range m (a + 3)). lia.
Qed.

(** The four bytes of a word. *)
Lemma bytes_of_word v :
  u8 v + 2 ^ 8 * u8 (v / 2 ^ 8) + 2 ^ 16 * u8 (v / 2 ^ 16) + 2 ^ 24 * u8 (v / 2 ^ 24) = u32 v.
Proof.
  unfold u8, u32.
  replace (v / 2 ^ 16) with (v / 2 ^ 8 / 2 ^ 8) by (rewrite Z.div_div by lia; done).
  replace (v / 2 ^ 24) with (v / 2 ^ 8 / 2 ^ 8 / 2 ^ 8) by (rewrite !Z.div_div by lia; done).
  replace (2 ^ 32) with (2 ^ 8 * (2 ^ 8 * (2 ^ 8 * 2 ^ 8))) by done.
  rewrite !Z.rem_mul_r by lia. ring.
Qed.

Lemma rd32_wr32_eq m a v : rd32 (wr32 m a v) a = u32 v.
Proof.
  unfold rd32, wr32.
  repeat first [rewrite rd8_wr8_eq | rewrite rd8_wr8_ne by lia].
  apply bytes_of_word.
Qed.

Lemma rd32_wr32_ne m a b v : b + 4 <= a \/ a + 4 <= b -> rd32 (wr32 m a v) b = rd32 m b.
Proof. intros. unfold rd32. rewrite !rd8_wr32_ne by lia. done. Qed.

(** Two memories that agree on a word's bytes agree on the word. *)
Lemma rd32_agree m m' a :
  (forall b, a <= b < a + 4 -> rd8 m b = rd8 m' b) -> rd32 m a = rd32 m' a.
Proof. intros H. unfold rd32. rewrite !H by lia. done. Qed.

Lemma length_load m a n : length (load m a n) = n.
Proof. revert a. induction n; intros; simpl; auto. Qed.

Lemma lookup_load m a n i :
  (i < n)%nat -> load m a n !! i = Some (rd8 m (a + Z.of_nat i)).
Proof.
  revert a i. induction n as [|n IH]; intros a i Hi; [lia|].
  destruct i as [|i]; simpl; [by rewrite Z.add_0_r|].
  rewrite IH by lia. do 2 f_equal. lia.
Qed.

Lemma load_agree m m' a a' n :
  (forall i, 0 <= i < Z.of_nat n -> rd8 m (a + i) = rd8 m' (a' + i)) ->
  load m a n = load m' a' n.
Proof.
  intros H. apply list_eq. intros i.
  destruct (decide (i < n)%nat) as [Hi|Hi].
  - rewrite !lookup_load by done. f_equal. apply H. lia.
  - rewrite !lookup_ge_None_2 by (rewrite length_load; lia). done.
Qed.

Lemma load_app m a n1 n2 :
  load m a (n1 + n2) = load m a n1 ++ load m (a + Z.of_nat n1) n2.
Proof.
  revert a. induction n1 as [|n IH]; intros a; simpl; [by rewrite Z.add_0_r|].
  rewrite IH. do 3 f_equal. lia.
Qed.

Lemma rd8_store_out m a l b :
  b < a \/ a + Z.of_nat (length l) <= b -> rd8 (store m a l) b = rd8 m b.
Proof.
  revert m a. induction l as [|v l IH]; intros m a Hb; simpl in *; [done|].
  rewrite IH by lia. apply rd8_wr8_ne. lia.
Qed.

Lemma rd8_store_in m a l i :
  0 <= i < Z.of_nat (length l) -> rd8 (store m a l) (a + i) = u8 (l !!! Z.to_nat i).
Proof.
  revert m a i. induction l as [|v l IH]; intros m a i Hi; simpl in *; [lia|].
  destruct (Z.eq_dec i 0) as [->|].
  - rewrite Z.add_0_r, rd8_store_out by lia. by rewrite rd8_wr8_eq.
  - replace (a + i) with (a + 1 + (i - 1)) by lia. rewrite IH by lia.
    replace (Z.to_nat i) with (S (Z.to_nat (i - 1))) by lia. done.
Qed.

Lemma rd8_store m a l b :
  rd8 (store m a l) b =
  if decide (a <= b < a + Z.of_nat (length l)) then u8 (l !!! Z.to_nat (b - a)) else rd8 m b.
Proof.
  case_decide.
  - replace b with (a + (b - a)) at 1 by lia. apply rd8_store_in. lia.
  - apply rd8_store_out. lia.
Qed.

Lemma load_store_eq m a l : load (store m a l) a (length l) = u8 <$> l.
Proof.
  apply list_eq. intros i. rewrite list_lookup_fmap.
  destruct (l !! i) as [v|] eqn:E; simpl.
  - pose proof (lookup_lt_Some _ _ _ E). rewrite lookup_load by done.
    rewrite rd8_store_in by lia. rewrite Nat2Z.id.
    by rewrite (list_lookup_total_correct _ _ _ E).
  - apply lookup_ge_None in E. by rewrite lookup_ge_None_2 by (rewrite length_load; lia).
Qed.

Lemma rd32_store_out m a l b :
  b + 4 <= a \/ a + Z.of_nat (length l) <= b -> rd32 (store m a l) b = rd32 m b.
Proof. intros. apply rd32_agree. intros. apply rd8_store_out. lia. Qed.
End memory.

(** * Little-endian integers in byte arrays (disk blocks, user stacks) *)

Definition le16 (v : Z) : list Z := [u8 v; u8 (v / 2 ^ 8)].
Definition le32 (v : Z) : list Z := [u8 v; u8 (v / 2 ^ 8); u8 (v / 2 ^ 16); u8 (v / 2 ^ 24)].
Definition get16 (l : list Z) (o : nat) : Z := u8 (l !!! o) + 2 ^ 8 * u8 (l !!! (o + 1)%nat).
Definition get32 (l : list Z) (o : nat) : Z :=
  u8 (l !!! o) + 2 ^ 8 * u8 (l !!! (o + 1)%nat) + 2 ^ 16 * u8 (l !!! (o + 2)%nat)
  + 2 ^ 24 * u8 (l !!! (o + 3)%nat).

Lemma lookup_total_app_len {A} `{Inhabited A} (l1 l2 : list A) (n : nat) :
  (l1 ++ l2) !!! (length l1 + n)%nat = l2 !!! n.
Proof. rewrite lookup_total_app_r by lia. f_equal. lia. Qed.

Lemma get32_le32 v l1 l2 : get32 (l1 ++ le32 v ++ l2) (length l1) = u32 v.
Proof.
  unfold get32. rewrite <- (Nat.add_0_r (length l1)) at 1.
  rewrite !lookup_total_app_len. cbn. rewrite !u8_idem. apply bytes_of_word.
Qed.

Lemma get16_le16 v l1 l2 : get16 (l1 ++ le16 v ++ l2) (length l1) = u16 v.
Proof.
  unfold get16. rewrite <- (Nat.add_0_r (length l1)) at 1.
  rewrite !lookup_total_app_len. cbn. rewrite !u8_idem. unfold u8, u16.
  change (2 ^ 16) with (2 ^ 8 * 2 ^ 8). rewrite Z.rem_mul_r by lia. done.
Qed.

(** Writing a run of bytes, a half word or a word into a byte array. *)
Definition put_bytes (l : list Z) (o : nat) (v : list Z) : list Z :=
  take o l ++ v ++ drop (o + length v) l.
Definition put16 (l : list Z) (o : nat) (v : Z) : list Z := put_bytes l o (le16 v).
Definition put32 (l : list Z) (o : nat) (v : Z) : list Z := put_bytes l o (le32 v).
