(* ===== verification/Fsformat.v ===== *)
(** The formats the kernel and the programs share: the on-disk structures of
    fs.h, struct stat of stat.h and the open modes of fcntl.h. *)
From S2P Require Import Prelude Kernel Mem.

(** * The disk format (fs.h, stat.h) *)

Definition T_DIR : Z := 1.
Definition T_FILE : Z := 2.
Definition T_DEV : Z := 3.

Definition sizeof_dinode : Z := 64.
Definition IPB : Z := BSIZE / sizeof_dinode.
Definition IBLOCK (i : Z) (sb : superblock) : Z := u32 (i / IPB + sb_inodestart sb).
Definition BPB : Z := BSIZE * 8.
Definition BBLOCK (b : Z) (sb : superblock) : Z := u32 (b / BPB + sb_bmapstart sb).

(** struct dinode, at its place in a block. *)
Record dinode := mkDinode {
  di_type : Z;
  di_major : Z;
  di_minor : Z;
  di_nlink : Z;
  di_size : Z;
  di_addrs : list Z
}.
Definition dinode_off (inum : Z) : nat := Z.to_nat (inum mod IPB * sizeof_dinode).
Definition get_dinode (d : list Z) (o : nat) : dinode :=
  mkDinode (i16 (get16 d o)) (i16 (get16 d (o + 2))) (i16 (get16 d (o + 4)))
    (i16 (get16 d (o + 6))) (get32 d (o + 8))
    ((fun j => get32 d (o + 12 + 4 * j)) <$> seq 0 13).
Definition dinode_bytes (di : dinode) : list Z :=
  le16 (di_type di) ++ le16 (di_major di) ++ le16 (di_minor di) ++ le16 (di_nlink di) ++
  le32 (di_size di) ++ mjoin (le32 <$> di_addrs di).

(** struct dirent *)
Definition sizeof_dirent : Z := 16.
Definition de_inum (de : list Z) : Z := get16 de 0.
Definition de_name (de : list Z) : list Z := drop 2 de.
Definition dirent_bytes (inum : Z) (name : list Z) : list Z := le16 inum ++ name.

(** struct stat *)
Record stat := mkStat { st_type : Z; st_dev : Z; st_ino : Z; st_nlink : Z; st_size : Z }.

(** fcntl.h *)
Definition O_RDONLY : Z := 0x000.
Definition O_WRONLY : Z := 0x001.
Definition O_RDWR : Z := 0x002.
Definition O_CREATE : Z := 0x200.
