(* ===== verification/Spinlock.v ===== *)
(** spinlock.c: interrupt nesting ([pushcli]/[popcli]) and spin locks, with
    [mycpu]/[myproc] of proc.c which they rest on.  A critical section entered
    on a free lock leaves the machine as [touch] describes; many CPUs contending
    for one lock exclude each other. *)
From S2P Require Import Prelude Kernel Mem.

(** * mycpu, myproc (proc.c) *)

Definition readeflags_if : K bool := gets k_if.
Definition cli : K unit := modify (fun k => k <| k_if := false |>).
Definition sti : K unit := modify (fun k => k <| k_if := true |>).

(** The index found by mycpu's search of cpus[0..ncpu-1]. *)
Definition this_cpu (k : kernel) : option nat :=
  findi (fun c => c_apicid c =? k_lapicid k) (take (Z.to_nat (k_ncpu k)) (k_cpus k)).

Definition mycpu : K nat :=
  ifl <- readeflags_if ;;
  if (ifl : bool) then panic "mycpu called with interrupts enabled\n"
  else
    r <- gets this_cpu ;;
    match r with
    | Some i => ret i
    | None => panic "unknown apicid\n"
    end.

Definition cpuid : K Z := c <- mycpu ;; ret (Z.of_nat c).

(** Update the per-CPU struct cpus[i]. *)
Definition upd_cpu (i : nat) (f : cpu -> cpu) (k : kernel) : kernel :=
  k <| k_cpus ::= alter f i |>.

(** * pushcli, popcli, holding, acquire, release (spinlock.c) *)

Definition pushcli : K unit :=
  eflags <- readeflags_if ;;
  cli ;;
  i <- mycpu ;;
  n <- gets (fun k => c_ncli (k_cpus k !!! i)) ;;
  when (n =? 0) (modify (upd_cpu i (fun c => c <| c_intena := eflags |>))) ;;
  modify (upd_cpu i (fun c => c <| c_ncli ::= fun n => n + 1 |>)).

Definition popcli : K unit :=
  ifl <- readeflags_if ;;
  if (ifl : bool) then panic "popcli - interruptible"
  else
    i <- mycpu ;;
    modify (upd_cpu i (fun c => c <| c_ncli ::= fun n => n - 1 |>)) ;;
    c <- gets (fun k => k_cpus k !!! i) ;;
    if c_ncli c <? 0 then panic "popcli"
    else when ((c_ncli c =? 0) && c_intena c) sti.

(** The lock an address names; a lock that was never initialised is zero. *)
Definition lock_of (k : kernel) (l : lockid) : spinlock :=
  default (mkSpinlock 0 EmptyString None) (k_locks k !! l).
Definition set_lock (l : lockid) (v : spinlock) (k : kernel) : kernel :=
  k <| k_locks ::= insert l v |>.

Definition initlock (l : lockid) (name : string) : K unit :=
  modify (set_lock l (mkSpinlock 0 name None)).

Definition holding (l : lockid) : K bool :=
  pushcli ;;
  lk <- gets (fun k => lock_of k l) ;;
  r <- (if nz (locked lk) then
          i <- mycpu ;; ret (bool_decide (lk_cpu lk = Some i))
        else ret false) ;;
  popcli ;;
  ret r.

(** The atomic exchange on [lk->locked]: store, and return the old value. *)
Definition xchg_locked (l : lockid) (v : Z) : K Z :=
  lk <- gets (fun k => lock_of k l) ;;
  modify (set_lock l (mkSpinlock v (lk_name lk) (lk_cpu lk))) ;;
  ret (locked lk).

(** while(xchg(&lk->locked, 1) != 0) ; *)
Definition spin (l : lockid) : K unit :=
  wait_loop (
    old <- xchg_locked l 1 ;;
    if old =? 0 then ret (Some tt) else wait_env ;; ret None).

Definition acquire (l : lockid) : K unit :=
  pushcli ;;
  h <- holding l ;;
  if (h : bool) then panic "acquire"
  else
    spin l ;;
    i <- mycpu ;;
    modify (fun k => set_lock l (mkSpinlock (locked (lock_of k l)) (lk_name (lock_of k l)) (Some i)) k).

Definition release (l : lockid) : K unit :=
  h <- holding l ;;
  if negb (h : bool) then panic "release"
  else
    modify (fun k => set_lock l (mkSpinlock (locked (lock_of k l)) (lk_name (lock_of k l)) None) k) ;;
    modify (fun k => set_lock l (mkSpinlock 0 (lk_name (lock_of k l)) (lk_cpu (lock_of k l))) k) ;;
    popcli.

(** myproc: the process running on this CPU. *)
Definition myproc : K (option nat) :=
  pushcli ;;
  i <- mycpu ;;
  p <- gets (fun k => c_proc (k_cpus k !!! i)) ;;
  popcli ;;
  ret p.

(** getcallerpcs: follow the %ebp chain from the frame below [v]. *)
Fixpoint getcallerpcs_loop (m : gmap Z Z) (n : nat) (ebp : Z) : list Z :=
  match n with
  | O => []
  | S n' =>
      if (ebp =? 0) || (ebp <? KERNBASE) || (ebp =? 0xffffffff)
      then replicate n 0
      else rd32 m (ebp + 4) :: getcallerpcs_loop m n' (rd32 m ebp)
  end.
Definition getcallerpcs (m : gmap Z Z) (v : Z) : list Z := getcallerpcs_loop m 10 (u32 (v - 8)).

(** * The effect of the lock operations *)

(** [cpu_at i k]: CPU [i] executes, and interrupts are off inside pushcli. *)
Definition cpu_at (i : nat) (k : kernel) : Prop :=
  this_cpu k = Some i /\ 0 <= c_ncli (k_cpus k !!! i) /\
  (0 < c_ncli (k_cpus k !!! i) -> k_if k = false).

Definition lock_free (l : lockid) (k : kernel) : Prop := locked (lock_of k l) = 0.
Definition lock_held (i : nat) (l : lockid) (k : kernel) : Prop :=
  locked (lock_of k l) <> 0 /\ lk_cpu (lock_of k l) = Some i.

(** pushcli and popcli as functions of the state. *)
Definition pushed (i : nat) (k : kernel) : kernel :=
  upd_cpu i (fun c => (if c_ncli c =? 0 then c <| c_intena := k_if k |> else c)
                        <| c_ncli ::= fun n => n + 1 |>) (k <| k_if := false |>).
Definition popped (i : nat) (k : kernel) : kernel :=
  (upd_cpu i (fun c => c <| c_ncli ::= fun n => n - 1 |>) k)
    <| k_if := (c_ncli (k_cpus k !!! i) =? 1) && c_intena (k_cpus k !!! i) || k_if k |>.

Definition locked_by (i : nat) (l : lockid) (k : kernel) : kernel :=
  set_lock l (mkSpinlock 1 (lk_name (lock_of k l)) (Some i)) (pushed i k).
Definition unlocked_by (i : nat) (l : lockid) (k : kernel) : kernel :=
  popped i (set_lock l (mkSpinlock 0 (lk_name (lock_of k l)) None) k).

(** What a critical section on [l] leaves behind besides its body's effect:
    the lock free, and the CPU's saved interrupt flag refreshed. *)
Definition touch (i : nat) (l : lockid) (k : kernel) : kernel := unlocked_by i l (locked_by i l k).

Section spinlock_facts.
Implicit Types (i : nat) (l : lockid) (k : kernel) (e : env).

Lemma this_cpu_upd i f k :
  (forall c, c_apicid (f c) = c_apicid c) -> this_cpu (upd_cpu i f k) = this_cpu k.
Proof.
  intros Hf. unfold this_cpu, upd_cpu. fields.
  generalize (Z.to_nat (k_ncpu k)) as n. generalize (k_lapicid k) as a.
  intros a. generalize (k_cpus k) as cs. revert i.
  intros i cs. revert i.
  induction cs as [|c cs IH]; intros [|i] [|n]; simpl; try done.
  - by rewrite Hf.
  - destruct (c_apicid c =? a); [done|]. f_equal. apply (IH i n).
Qed.

Lemma this_cpu_lookup i k : this_cpu k = Some i -> k_cpus k !! i = Some (k_cpus k !!! i).
Proof.
  unfold this_cpu. intros H. apply findi_lt in H.
  rewrite length_take in H. apply list_lookup_lookup_total_lt. lia.
Qed.

Lemma mycpu_ok i k e : this_cpu k = Some i -> k_if k = false -> mycpu k e = Ok i k e.
Proof. intros Hi Hif. unfold mycpu, readeflags_if. step. rewrite Hif. step. by rewrite Hi. Qed.

Lemma alter_total i (f : cpu -> cpu) (cs : list cpu) c :
  cs !! i = Some c -> alter f i cs !!! i = f c.
Proof.
  intros H. apply list_lookup_total_correct. rewrite list_lookup_alter_eq, H. done.
Qed.

Lemma pushcli_ok i k e : this_cpu k = Some i -> pushcli k e = Ok tt (pushed i k) e.
Proof.
  intros Hi. unfold pushcli, readeflags_if, cli. step.
  run (mycpu_ok i).
  step. fields. unfold pushed, upd_cpu. pose proof (this_cpu_lookup i k Hi) as Hc.
  unfold when. destruct (c_ncli (k_cpus k !!! i) =? 0) eqn:E; step;
    unfold modify; f_equal; unfold upd_cpu, over, over_k_cpus, over_k_if; simpl; f_equal.
  all: rewrite ?list_alter_alter_eq; apply list_alter_ext; [|done].
  all: intros c; rewrite Hc; intros [= <-]; simpl; by rewrite E.
Qed.

Lemma popcli_ok i k e :
  this_cpu k = Some i -> k_if k = false -> 0 < c_ncli (k_cpus k !!! i) ->
  popcli k e = Ok tt (popped i k) e.
Proof.
  intros Hi Hif Hn. unfold popcli, readeflags_if, sti. step. rewrite Hif. step.
  run (mycpu_ok i). step.
  pose proof (this_cpu_lookup i k Hi) as Hc.
  unfold popped, upd_cpu. fields. rewrite (alter_total _ _ _ _ Hc). fields.
  destruct (Z.ltb_spec (c_ncli (k_cpus k !!! i) - 1) 0); [lia|].
  rewrite Hif, orb_false_r.
  replace (c_ncli (k_cpus k !!! i) - 1 =? 0) with (c_ncli (k_cpus k !!! i) =? 1)
    by (destruct (Z.eqb_spec (c_ncli (k_cpus k !!! i)) 1),
                 (Z.eqb_spec (c_ncli (k_cpus k !!! i) - 1) 0); lia).
  unfold when. destruct (_ && _); [done|].
  unfold ret. f_equal. unfold over, over_k_cpus, over_k_if; simpl. by rewrite Hif.
Qed.

Lemma restore_cpus_if k cs b :
  cs = k_cpus k -> b = k_if k -> k <| k_cpus := cs |> <| k_if := b |> = k.
Proof. intros -> ->. by destruct k. Qed.

(** A matched pair inside an outer pushcli changes nothing. *)
Lemma popped_pushed_nested i k :
  cpu_at i k -> 0 < c_ncli (k_cpus k !!! i) -> popped i (pushed i k) = k.
Proof.
  intros (Hi & _ & Hif) Hn. specialize (Hif Hn).
  pose proof (this_cpu_lookup i k Hi) as Hc.
  unfold popped, pushed, upd_cpu. fields. rewrite (alter_total _ _ _ _ Hc).
  destruct (Z.eqb_spec (c_ncli (k_cpus k !!! i)) 0); [lia|]. fields.
  destruct (Z.eqb_spec (c_ncli (k_cpus k !!! i) + 1) 1); [lia|].
  set (f := fun c : cpu => _). set (g := fun c : cpu => _).
  change (k <| k_cpus := alter f i (alter g i (k_cpus k)) |> <| k_if := false |> = k).
  apply restore_cpus_if; [|done]. rewrite list_alter_alter_eq.
  rewrite <- (list_alter_id id (k_cpus k) i) at 2 by done.
  apply list_alter_ext; [|done]. intros c. rewrite Hc. intros [= <-]. unfold f, g. simpl.
  destruct (Z.eqb_spec (c_ncli (k_cpus k !!! i)) 0); [lia|].
  unfold over, over_c_ncli. destruct (k_cpus k !!! i). simpl. unfold id. f_equal. lia.
Qed.

Lemma ncli_pushed i k :
  this_cpu k = Some i -> c_ncli (k_cpus (pushed i k) !!! i) = c_ncli (k_cpus k !!! i) + 1.
Proof.
  intros Hi. unfold pushed, upd_cpu. fields.
  rewrite (alter_total _ _ _ _ (this_cpu_lookup i k Hi)). fields. by destruct (_ =? _).
Qed.

Lemma this_cpu_pushed i k : this_cpu (pushed i k) = this_cpu k.
Proof.
  unfold pushed. rewrite this_cpu_upd; [done|].
  intros c. by destruct (c_ncli c =? 0).
Qed.

Lemma this_cpu_popped i k : this_cpu (popped i k) = this_cpu k.
Proof.
  unfold popped. change (this_cpu (upd_cpu i (fun c => c <| c_ncli ::= fun n => n - 1 |>) k) = this_cpu k).
  by rewrite this_cpu_upd.
Qed.

Lemma pushed_ready i k : cpu_at i k -> cpu_at i (pushed i k).
Proof.
  intros (Hi & Hn & _). split; [by rewrite this_cpu_pushed|].
  rewrite ncli_pushed by done. split; [lia|done].
Qed.

Lemma holding_ok i l k e :
  cpu_at i k ->
  holding l k e =
  Ok (nz (locked (lock_of k l)) && bool_decide (lk_cpu (lock_of k l) = Some i))
     (popped i (pushed i k)) e.
Proof.
  intros H. destruct H as (Hi & Hn & Hif). unfold holding.
  run (pushcli_ok i). step.
  change (lock_of (pushed i k) l) with (lock_of k l).
  assert (Hpop : popcli (pushed i k) e = Ok tt (popped i (pushed i k)) e).
  { apply popcli_ok; [by rewrite this_cpu_pushed|done|rewrite ncli_pushed by done; lia]. }
  destruct (nz _); simpl.
  - rewrite bind_assoc.
    run (mycpu_ok i) by (first [done | exact (eq_trans (this_cpu_pushed i k) Hi)]). step.
    by rewrite (bind_ok _ _ _ _ _ _ _ Hpop).
  - step. by rewrite (bind_ok _ _ _ _ _ _ _ Hpop).
Qed.

Lemma holding_nested i l k e :
  cpu_at i k -> 0 < c_ncli (k_cpus k !!! i) ->
  holding l k e =
  Ok (nz (locked (lock_of k l)) && bool_decide (lk_cpu (lock_of k l) = Some i)) k e.
Proof.
  intros H Hn. rewrite (holding_ok i) by done. by rewrite popped_pushed_nested.
Qed.

Lemma lock_of_set l l' v k :
  lock_of (set_lock l v k) l' = if decide (l = l') then v else lock_of k l'.
Proof. unfold lock_of, set_lock. fields. rewrite lookup_insert. by case_decide. Qed.

Lemma lock_of_set_eq l v k : lock_of (set_lock l v k) l = v.
Proof. rewrite lock_of_set. by rewrite decide_True. Qed.

Lemma lock_of_set_ne l l' v k : l <> l' -> lock_of (set_lock l v k) l' = lock_of k l'.
Proof. intros. rewrite lock_of_set. by rewrite decide_False. Qed.

Lemma set_lock_twice l v w k : set_lock l v (set_lock l w k) = set_lock l v k.
Proof.
  unfold set_lock, over, over_k_locks. simpl. by rewrite insert_insert_eq.
Qed.

(** The spinning body gives up a round only by waiting. *)
Lemma spin_waits l :
  waits (bind (xchg_locked l 1) (fun old =>
    if old =? 0 then ret (Some tt) else bind wait_env (fun _ => ret None))).
Proof.
  intros k e k' e'. unfold xchg_locked. step.
  destruct (_ =? 0); [done|]. unfold bind, wait_env.
  destruct e as [|f e]; [done|]. unfold ret. intros [= <- <-]. simpl. lia.
Qed.

Lemma spin_free l k e :
  lock_free l k ->
  spin l k e = Ok tt (set_lock l (mkSpinlock 1 (lk_name (lock_of k l)) (lk_cpu (lock_of k l))) k) e.
Proof.
  intros Hf. unfold spin. rewrite wait_loop_unfold by apply spin_waits.
  unfold xchg_locked. step. by rewrite Hf.
Qed.

Lemma acquire_ok i l k e :
  cpu_at i k -> lock_free l k -> acquire l k e = Ok tt (locked_by i l k) e.
Proof.
  intros Hc Hf. pose proof Hc as (Hi & Hn & Hif). unfold acquire.
  run (pushcli_ok i).
  assert (Hh : holding l (pushed i k) e = Ok false (pushed i k) e).
  { rewrite (holding_nested i) by
      first [by apply pushed_ready | rewrite ncli_pushed by done; lia].
    change (lock_of (pushed i k) l) with (lock_of k l). by rewrite Hf. }
  rewrite (bind_ok _ _ _ _ _ _ _ Hh).
  run (spin_free l).
  run (mycpu_ok i) by (first [done | exact (eq_trans (this_cpu_pushed i k) Hi)]).
  unfold modify. f_equal. rewrite lock_of_set_eq, set_lock_twice. done.
Qed.

Lemma release_ok i l k e :
  cpu_at i k -> lock_held i l k -> 0 < c_ncli (k_cpus k !!! i) ->
  release l k e = Ok tt (unlocked_by i l k) e.
Proof.
  intros Hc [Hl Hcpu] Hn. pose proof Hc as (Hi & _ & Hif). unfold release.
  run (holding_nested i).
  rewrite Hcpu. rewrite bool_decide_eq_true_2 by done.
  destruct (nz _) eqn:E; [|unfold nz in E; by destruct (Z.eqb_spec (locked (lock_of k l)) 0)].
  cbn [negb andb]. step. rewrite lock_of_set_eq, set_lock_twice.
  unfold unlocked_by. apply popcli_ok; [done|by apply Hif|exact Hn].
Qed.

(** Re-acquiring a lock this CPU holds, and releasing one it does not hold,
    are caught. *)
Lemma acquire_held_panics i l k e :
  cpu_at i k -> lock_held i l k -> exists k', acquire l k e = Panic "acquire" k'.
Proof.
  intros Hc [Hl Hcpu]. pose proof Hc as (Hi & Hn & Hif). unfold acquire.
  run (pushcli_ok i).
  run (holding_ok i) by (by apply pushed_ready).
  change (lock_of (pushed i k) l) with (lock_of k l).
  rewrite Hcpu, bool_decide_eq_true_2 by done. unfold nz.
  destruct (Z.eqb_spec (locked (lock_of k l)) 0); [done|]. simpl. by eexists.
Qed.

Lemma release_unheld_panics i l k e :
  cpu_at i k -> ~ lock_held i l k -> exists k', release l k e = Panic "release" k'.
Proof.
  intros Hc Hh. unfold release.
  run (holding_ok i).
  destruct (nz _) eqn:E; simpl; [|by eexists].
  destruct (bool_decide_reflect (lk_cpu (lock_of k l) = Some i)); simpl; [|by eexists].
  exfalso. apply Hh. split; [|done]. unfold nz in E.
  by destruct (Z.eqb_spec (locked (lock_of k l)) 0).
Qed.
End spinlock_facts.

(** * Critical sections *)

Section critical_sections.
Implicit Types (i : nat) (l : lockid) (k : kernel) (e : env).

Lemma locked_by_ready i l k :
  cpu_at i k ->
  cpu_at i (locked_by i l k) /\ lock_held i l (locked_by i l k) /\
  0 < c_ncli (k_cpus (locked_by i l k) !!! i).
Proof.
  intros Hc. pose proof Hc as (Hi & Hn & _). split_and!.
  - exact (pushed_ready i k Hc).
  - unfold lock_held, locked_by. by rewrite lock_of_set_eq.
  - change (0 < c_ncli (k_cpus (pushed i k) !!! i)). rewrite ncli_pushed by done. lia.
Qed.

Lemma popped_ready i k :
  cpu_at i k -> 0 < c_ncli (k_cpus k !!! i) -> cpu_at i (popped i k).
Proof.
  intros (Hi & Hn & Hif) Hpos. specialize (Hif Hpos).
  split; [by rewrite this_cpu_popped|]. unfold popped, upd_cpu. fields.
  rewrite (alter_total _ _ _ _ (this_cpu_lookup i k Hi)). fields. split; [lia|].
  intros H. rewrite Hif, orb_false_r.
  destruct (Z.eqb_spec (c_ncli (k_cpus k !!! i)) 1); [lia|done].
Qed.

Lemma touch_ready i l k : cpu_at i k -> cpu_at i (touch i l k).
Proof.
  intros Hc. destruct (locked_by_ready i l k Hc) as (Hc' & _ & Hn).
  exact (popped_ready i (set_lock l _ (locked_by i l k)) Hc' Hn).
Qed.

Lemma lock_of_touch i l l' k :
  lock_of (touch i l k) l' =
  if decide (l = l') then mkSpinlock 0 (lk_name (lock_of k l)) None else lock_of k l'.
Proof.
  unfold touch, unlocked_by.
  change (lock_of (set_lock l (mkSpinlock 0 (lk_name (lock_of (locked_by i l k) l)) None)
                     (locked_by i l k)) l' = if decide (l = l') then
            mkSpinlock 0 (lk_name (lock_of k l)) None else lock_of k l').
  rewrite lock_of_set. case_decide.
  - unfold locked_by. by rewrite lock_of_set_eq.
  - unfold locked_by. rewrite lock_of_set. by rewrite decide_False.
Qed.

Lemma touch_free i l l' k : lock_free l' k -> lock_free l' (touch i l k).
Proof. unfold lock_free. rewrite lock_of_touch. by case_decide. Qed.

Lemma touch_lock_free i l k : lock_free l (touch i l k).
Proof. unfold lock_free. rewrite lock_of_touch. by rewrite decide_True. Qed.

(** The per-CPU struct after a critical section: only [c_intena] may move. *)
Lemma touch_cpus i l k :
  cpu_at i k ->
  k_cpus (touch i l k) =
  alter (fun c => if c_ncli c =? 0 then c <| c_intena := k_if k |> else c) i (k_cpus k).
Proof.
  intros (Hi & _ & _). unfold touch, unlocked_by, popped, locked_by, pushed, upd_cpu, set_lock.
  fields. rewrite list_alter_alter_eq. apply list_alter_ext; [|done].
  intros c _. simpl. destruct (c_ncli c =? 0); unfold over, over_c_ncli, over_c_intena;
    destruct c; simpl; f_equal; lia.
Qed.

(** Inside another critical section it does not. *)
Lemma touch_nested i l k :
  cpu_at i k -> 0 < c_ncli (k_cpus k !!! i) -> k_cpus (touch i l k) = k_cpus k.
Proof.
  intros Hc Hn. rewrite touch_cpus by done.
  rewrite <- (list_alter_id id (k_cpus k) i) at 2 by done.
  apply list_alter_ext; [|done]. intros c Hci.
  rewrite (list_lookup_total_correct _ _ _ Hci) in Hn. unfold id.
  by rewrite (proj2 (Z.eqb_neq (c_ncli c) 0)) by lia.
Qed.

(** Interrupts are restored to what they were. *)
Lemma touch_if i l k : cpu_at i k -> k_if (touch i l k) = k_if k.
Proof.
  intros (Hi & Hn & Hif).
  unfold touch, unlocked_by, popped, locked_by, set_lock, pushed, upd_cpu. fields.
  rewrite (alter_total _ _ _ _ (this_cpu_lookup i k Hi)), orb_false_r.
  destruct (Z.eqb_spec (c_ncli (k_cpus k !!! i)) 0) as [E|E]; fields.
  - by rewrite E.
  - destruct (Z.eqb_spec (c_ncli (k_cpus k !!! i) + 1) 1); [lia|].
    symmetry. apply Hif. lia.
Qed.

Lemma touch_cproc i l k j :
  cpu_at i k -> c_proc (k_cpus (touch i l k) !!! j) = c_proc (k_cpus k !!! j).
Proof.
  intros Hc. rewrite touch_cpus by done.
  rewrite list_lookup_total_alter. case_decide as H; [|done].
  destruct H as [-> _]. by destruct (_ =? 0).
Qed.

(** Leaving a critical section whose body changed no lock and no CPU. *)
Lemma release_after i l k k' e :
  cpu_at i k ->
  k_cpus k' = k_cpus (locked_by i l k) -> k_if k' = false ->
  k_ncpu k' = k_ncpu k -> k_lapicid k' = k_lapicid k -> lock_held i l k' ->
  release l k' e = Ok tt (unlocked_by i l k') e.
Proof.
  intros Hc Hcs Hif Hnc Hla Hh. destruct (locked_by_ready i l k Hc) as (Hc' & _ & Hn).
  apply release_ok; [|done|by rewrite Hcs].
  destruct Hc' as (Hi & Hn' & _). split_and!; rewrite ?Hcs; try done.
  unfold this_cpu in *. by rewrite Hcs, Hnc, Hla.
Qed.

(** myproc reads the process of the executing CPU. *)
Lemma myproc_ok i k e :
  cpu_at i k -> myproc k e = Ok (c_proc (k_cpus k !!! i)) (popped i (pushed i k)) e.
Proof.
  intros Hc. pose proof Hc as (Hi & Hn & Hif). unfold myproc.
  run (pushcli_ok i). run (mycpu_ok i) by (first [done | by rewrite this_cpu_pushed]). step.
  erewrite bind_ok; [|apply (popcli_ok i); [by rewrite this_cpu_pushed|done|]].
  - unfold ret. f_equal. unfold pushed, upd_cpu. fields.
    rewrite (alter_total _ _ _ _ (this_cpu_lookup i k Hi)). by destruct (_ =? 0).
  - rewrite ncli_pushed by done. lia.
Qed.

Lemma myproc_ready i k : cpu_at i k -> cpu_at i (popped i (pushed i k)).
Proof.
  intros Hc. apply popped_ready; [by apply pushed_ready|].
  destruct Hc as (Hi & Hn & _). rewrite ncli_pushed by done. lia.
Qed.
End critical_sections.

#[export] Hint Resolve touch_ready touch_free touch_lock_free : kern.

(** * Many CPUs, one lock *)

(** Where a CPU stands in acquire/release; each constructor to the next is one
    atomic store or exchange on the shared lock. *)
Module Mutex.
Inductive pc := Outside | Spinning | Got | Inside | Leaving.

Record sys := mkSys { shared : kernel; at_ : nat -> pc }.

Definition move (c : nat) (p : pc) (f : nat -> pc) : nat -> pc :=
  fun c' => if decide (c' = c) then p else f c'.

Inductive step (l : lockid) : sys -> sys -> Prop :=
| step_call c k f :
    f c = Outside -> step l (mkSys k f) (mkSys k (move c Spinning f))
| step_xchg c k f old k' :
    f c = Spinning -> xchg_locked l 1 k [] = Ok old k' [] ->
    step l (mkSys k f) (mkSys k' (move c (if old =? 0 then Got else Spinning) f))
| step_owner c k f lk :
    f c = Got -> lk = lock_of k l ->
    step l (mkSys k f)
      (mkSys (set_lock l (mkSpinlock (locked lk) (lk_name lk) (Some c)) k) (move c Inside f))
| step_disown c k f lk :
    f c = Inside -> lk = lock_of k l ->
    step l (mkSys k f)
      (mkSys (set_lock l (mkSpinlock (locked lk) (lk_name lk) None) k) (move c Leaving f))
| step_store0 c k f lk :
    f c = Leaving -> lk = lock_of k l ->
    step l (mkSys k f)
      (mkSys (set_lock l (mkSpinlock 0 (lk_name lk) (lk_cpu lk)) k) (move c Outside f)).

Definition owns (p : pc) : Prop := p = Got \/ p = Inside \/ p = Leaving.

Inductive reachable (l : lockid) : sys -> Prop :=
| reach_init k : lock_free l k -> reachable l (mkSys k (fun _ => Outside))
| reach_step s s' : reachable l s -> step l s s' -> reachable l s'.

(** The lock word is set exactly when one CPU owns the lock. *)
Definition inv (l : lockid) (s : sys) : Prop :=
  (forall c c', owns (at_ s c) -> owns (at_ s c') -> c = c') /\
  (lock_free l (shared s) -> forall c, ~ owns (at_ s c)) /\
  (forall c, at_ s c = Inside -> lk_cpu (lock_of (shared s) l) = Some c).

Lemma owns_move c p f c' : owns (move c p f c') -> (c' = c /\ owns p) \/ (c' <> c /\ owns (f c')).
Proof. unfold move. case_decide; auto. Qed.

Lemma not_owns_outside : ~ owns Outside.
Proof. unfold owns. naive_solver. Qed.
Lemma not_owns_spinning : ~ owns Spinning.
Proof. unfold owns. naive_solver. Qed.

(** A step that neither frees the lock nor creates an owner. *)
Lemma inv_move l k k' f c p :
  inv l (mkSys k f) -> (owns p -> owns (f c)) ->
  (lock_free l k' -> lock_free l k) ->
  (forall c', c' <> c -> f c' = Inside -> lk_cpu (lock_of k' l) = Some c') ->
  (p = Inside -> lk_cpu (lock_of k' l) = Some c) ->
  inv l (mkSys k' (move c p f)).
Proof.
  intros (H1 & H2 & H3) Hp Hfree Hothers Hself. unfold inv in *. simpl in *. split_and!.
  - intros a b Ha%owns_move Hb%owns_move. apply H1;
      [destruct Ha as [[-> ?]|[_ ?]]|destruct Hb as [[-> ?]|[_ ?]]]; auto.
  - intros Hf a Ha%owns_move. specialize (H2 (Hfree Hf)).
    destruct Ha as [[-> ?]|[_ ?]]; [apply (H2 c); auto|by apply (H2 a)].
  - intros a. unfold move. case_decide; [subst; auto|]. intros. by apply Hothers.
Qed.

Lemma inv_preserved l s s' : inv l s -> step l s s' -> inv l s'.
Proof.
  intros Hinv Hs. pose proof Hinv as (H1 & H2 & H3). simpl in *.
  destruct Hs as [c k f Hc|c k f old k' Hc Hx|c k f lk Hc ->|c k f lk Hc ->|c k f lk Hc ->];
    simpl in *.
  - apply (inv_move l k k); auto; [|done]. intros H%not_owns_spinning. done.
  - unfold xchg_locked in Hx. step.
    injection Hx as <- <-. destruct (Z.eqb_spec (locked (lock_of k l)) 0) as [E|E].
    + specialize (H2 E). split_and!; simpl.
      * intros a b Ha%owns_move Hb%owns_move.
        destruct Ha as [[-> ?]|[_ Ha]]; [|by destruct (H2 a)].
        destruct Hb as [[-> ?]|[_ Hb]]; [done|by destruct (H2 b)].
      * unfold lock_free. rewrite lock_of_set_eq. done.
      * intros a Ha. unfold move in Ha. case_decide; [done|].
        rewrite lock_of_set_eq. simpl. by apply H3.
    + eapply inv_move; eauto.
      * intros H%not_owns_spinning. done.
      * unfold lock_free. rewrite lock_of_set_eq. done.
      * intros. rewrite lock_of_set_eq. simpl. by apply H3.
      * done.
  - eapply inv_move; eauto.
    + rewrite Hc. unfold owns. auto.
    + unfold lock_free. by rewrite lock_of_set_eq.
    + intros c' Hne Hin. exfalso. apply Hne. apply H1; unfold owns; [rewrite Hin|rewrite Hc]; auto.
    + intros _. by rewrite lock_of_set_eq.
  - eapply inv_move; eauto.
    + rewrite Hc. unfold owns. auto.
    + unfold lock_free. by rewrite lock_of_set_eq.
    + intros c' Hne Hin. exfalso. apply Hne. apply H1; unfold owns; [rewrite Hin|rewrite Hc]; auto.
    + done.
  - assert (Hnone : forall a, ~ owns (move c Outside f a)).
    { intros a [[_ Ha]|[Hne Ha]]%owns_move; [by apply not_owns_outside in Ha|].
      apply Hne. apply H1; [done|]. rewrite Hc. unfold owns. auto. }
    split_and!; simpl.
    + intros a b Ha. by destruct (Hnone a).
    + intros _. exact Hnone.
    + intros a Ha. destruct (Hnone a). rewrite Ha. unfold owns. auto.
Qed.

Lemma inv_reachable l s : reachable l s -> inv l s.
Proof.
  induction 1 as [k Hk|s s' _ IH Hs]; [|by eapply inv_preserved].
  assert (Hno : forall c : nat, ~ owns ((fun _ : nat => Outside) c)) by (intros; apply not_owns_outside).
  split_and!; simpl; [naive_solver|auto|done].
Qed.

(** C6 (mutual exclusion, spinlock.c): however the exchanges and stores of any
    number of CPUs calling acquire and release on one lock interleave, at most
    one CPU at a time is between its successful exchange and the store that
    frees the lock, and while a CPU is inside, lk->cpu names it. *)
Theorem mutual_exclusion l s c c' :
  reachable l s -> owns (at_ s c) -> owns (at_ s c') ->
  c = c' /\ (at_ s c = Inside -> lk_cpu (lock_of (shared s) l) = Some c).
Proof. intros (H1 & _ & H3)%inv_reachable ??. split; [by apply H1|apply H3]. Qed.

(** CPUs 0 and 1 contend; CPU 1 gets the lock and enters. *)
Definition contended : sys :=
  mkSys (set_lock L_ptable (mkSpinlock 1 EmptyString (Some 1%nat))
           (set_lock L_ptable (mkSpinlock 1 EmptyString None) kernel0))
    (move 1 Inside (move 1 Got (move 1 Spinning (move 0 Spinning (fun _ => Outside))))).

Lemma contended_reachable : reachable L_ptable contended.
Proof.
  unfold contended.
  eapply reach_step; [|by apply (step_owner _ 1%nat _ _ (mkSpinlock 1 EmptyString None))].
  eapply reach_step; [|by apply (step_xchg _ 1%nat kernel0 _ 0)].
  eapply reach_step; [|by apply step_call]. eapply reach_step; [|by apply step_call].
  by apply reach_init.
Qed.

Lemma mutual_exclusion_witness : owns (at_ contended 1) /\ ~ owns (at_ contended 0).
Proof.
  split; [right; left; reflexivity|]. intros H0.
  assert (H1 : owns (at_ contended 1)) by (right; left; reflexivity).
  destruct (mutual_exclusion L_ptable contended 0 1 contended_reachable H0 H1) as [H _].
  discriminate H.
Defined.
End Mutex.

(** C34 (critical sections, spinlock.c): on a free lock, acquire followed by
    release returns without panic or wait; the lock is free again, the interrupt
    flag and this CPU's pushcli depth are what they were, and no other lock
    changed. *)
Theorem acquire_release_restores i l k e :
  cpu_at i k -> lock_free l k ->
  exists k', (acquire l ;; release l) k e = Ok tt k' e /\
    lock_free l k' /\ k_if k' = k_if k /\
    c_ncli (k_cpus k' !!! i) = c_ncli (k_cpus k !!! i) /\
    (forall l', l' <> l -> lock_of k' l' = lock_of k l') /\ cpu_at i k'.
Proof.
  intros Hc Hf. exists (touch i l k).
  destruct (locked_by_ready i l k Hc) as (Hc' & Hh & Hn). split_and!.
  - run (acquire_ok i). by apply release_ok.
  - apply touch_lock_free.
  - by apply touch_if.
  - rewrite touch_cpus, list_lookup_total_alter by done. case_decide as H; [|done].
    by destruct (_ =? 0).
  - intros l' Hl. rewrite lock_of_touch. by rewrite decide_False.
  - by apply touch_ready.
Qed.

Lemma acquire_release_restores_witness :
  exists k', (acquire L_kmem ;; release L_kmem) (kernel0 <| k_if := true |>) [] = Ok tt k' [] /\
    k_if k' = true.
Proof.
  destruct (acquire_release_restores 0 L_kmem (kernel0 <| k_if := true |>) [])
    as (k' & H1 & _ & H2 & _).
  - split; [reflexivity|]. vm_compute. split; [discriminate|]. intros [=].
  - reflexivity.
  - exists k'. split; [exact H1|exact H2].
Defined.
