(* ===== verification/Locks.v ===== *)
(** Reasoning about critical sections: what a held lock allows, what the state
    may do in between, and what leaving restores. *)
From S2P Require Import Prelude Kernel Spinlock.

Section locks.
Implicit Types (i : nat) (l : lockid) (k : kernel) (e : env).

(** The part of the state the lock code reads and writes. *)
Record lk_same (k k' : kernel) : Prop := {
  ls_cpus : k_cpus k' = k_cpus k;
  ls_locks : k_locks k' = k_locks k;
  ls_if : k_if k' = k_if k;
  ls_ncpu : k_ncpu k' = k_ncpu k;
  ls_lapicid : k_lapicid k' = k_lapicid k
}.

(** What a completed operation owes its caller. *)
Record lframe (i : nat) (k k' : kernel) : Prop := {
  lf_cpu : cpu_at i k -> cpu_at i k';
  lf_if : cpu_at i k -> k_if k' = k_if k;
  lf_proc : cpu_at i k -> c_proc (k_cpus k' !!! i) = c_proc (k_cpus k !!! i);
  lf_free : forall l, lock_free l k -> lock_free l k'
}.

#[global] Instance lframe_preorder i : PreOrder (lframe i).
Proof.
  split; [done|]. intros k1 k2 k3 [C1 I1 P1 F1] [C2 I2 P2 F2].
  split; [auto| | |auto]; intros Hc; [rewrite I2, I1|rewrite P2, P1]; auto.
Qed.

Lemma lk_same_cpu i k k' : lk_same k k' -> cpu_at i k -> cpu_at i k'.
Proof.
  intros [Hc _ Hi Hn Hl]. unfold cpu_at, this_cpu. by rewrite Hc, Hi, Hn, Hl.
Qed.
Lemma lk_same_lock k k' l : lk_same k k' -> lock_of k' l = lock_of k l.
Proof. intros [_ Hl _ _ _]. unfold lock_of. by rewrite Hl. Qed.
Lemma lk_same_frame i k k' : lk_same k k' -> lframe i k k'.
Proof.
  intros Hs. pose proof Hs as [Hc _ Hi _ _]. split.
  - by apply lk_same_cpu.
  - done.
  - by rewrite Hc.
  - intros l. unfold lock_free. by rewrite (lk_same_lock k k').
Qed.

Lemma touch_frame i l k : lframe i k (touch i l k).
Proof.
  split; [apply touch_ready|apply touch_if| |intros l'; apply touch_free].
  intros Hc. by apply touch_cproc.
Qed.

(** A matched pushcli and popcli, as in myproc. *)
Lemma myproc_frame i k : lframe i k (popped i (pushed i k)).
Proof.
  destruct (touch_frame i L_ptable k) as [_ Ti Tp _].
  split; [apply myproc_ready|exact Ti|exact Tp|done].
Qed.

(** Inside the critical section on [l] entered from [k0]. *)
Record entered (i : nat) (l : lockid) (k0 k : kernel) : Prop := {
  en_cpus : k_cpus k = k_cpus (locked_by i l k0);
  en_if : k_if k = false;
  en_ncpu : k_ncpu k = k_ncpu k0;
  en_lapicid : k_lapicid k = k_lapicid k0;
  en_held : lock_held i l k;
  en_free : forall l', l' <> l -> lock_free l' k0 -> lock_free l' k
}.

Lemma entered_init i l k0 : cpu_at i k0 -> entered i l k0 (locked_by i l k0).
Proof.
  intros Hc. destruct (locked_by_ready i l k0 Hc) as (_ & Hh & _). split; try done.
  intros l' Hne. unfold lock_free, locked_by. rewrite lock_of_set. by rewrite decide_False.
Qed.

Lemma entered_same i l k0 k k' : lk_same k k' -> entered i l k0 k -> entered i l k0 k'.
Proof.
  intros Hs [Hc Hi Hn Hl Hh Hf]. pose proof Hs as [Sc Sl Si Sn Sa].
  split; [congruence..| |].
  - unfold lock_held. by rewrite (lk_same_lock k k').
  - intros l' Hne Hl'. unfold lock_free. rewrite (lk_same_lock k k') by done. by apply Hf.
Qed.

Lemma entered_ready i l k0 k :
  cpu_at i k0 -> entered i l k0 k ->
  cpu_at i k /\ lock_held i l k /\ 0 < c_ncli (k_cpus k !!! i).
Proof.
  intros Hc [Hcs Hif Hn Hl Hh _]. destruct (locked_by_ready i l k0 Hc) as (Hc' & _ & Hp).
  split_and!; [|done|by rewrite Hcs].
  destruct Hc' as (Hi & Hn' & _). split_and!; rewrite ?Hcs; try done.
  unfold this_cpu in *. by rewrite Hcs, Hn, Hl.
Qed.

(** A critical section on another lock, inside this one. *)
Lemma entered_touch i l l' k0 k :
  cpu_at i k0 -> l' <> l -> entered i l k0 k -> entered i l k0 (touch i l' k).
Proof.
  intros Hc Hne He. destruct (entered_ready i l k0 k Hc He) as (Hc' & Hh & Hp).
  destruct He as [Hcs Hif Hn Hl _ Hf]. split; try done.
  - rewrite touch_nested by done. done.
  - by rewrite touch_if.
  - unfold lock_held. rewrite lock_of_touch. by rewrite decide_False.
  - intros l2 Hl2 Hfr. by apply touch_free, Hf.
Qed.

Lemma acquire_enter i l k e :
  cpu_at i k -> lock_free l k ->
  acquire l k e = Ok tt (locked_by i l k) e /\ entered i l k (locked_by i l k).
Proof. intros Hc Hf. split; [by apply acquire_ok|by apply entered_init]. Qed.

(** The frame an exit restores only depends on what [entered] says. *)
Lemma entered_leave i l k0 k e :
  cpu_at i k0 -> entered i l k0 k ->
  release l k e = Ok tt (unlocked_by i l k) e /\ lframe i k0 (unlocked_by i l k) /\
  lock_free l (unlocked_by i l k).
Proof.
  intros Hc He. destruct (entered_ready i l k0 k Hc He) as (Hc' & Hh & Hp).
  split; [by apply release_ok|].
  assert (Hlf : forall l', lock_of (unlocked_by i l k) l' =
            if decide (l = l') then mkSpinlock 0 (lk_name (lock_of k l)) None else lock_of k l').
  { intros l'. unfold unlocked_by. apply (lock_of_set l l'). }
  assert (Hcp : k_cpus (unlocked_by i l k) = k_cpus (touch i l k0)).
  { unfold touch, unlocked_by, popped, upd_cpu, set_lock. fields. by rewrite (en_cpus _ _ _ _ He). }
  destruct (touch_frame i l k0) as [Tc Ti Tp _].
  split; [split|].
  - intros _. exact (popped_ready i (set_lock l _ k) Hc' Hp).
  - intros _. rewrite <- Ti by done. unfold touch, unlocked_by, popped, set_lock, upd_cpu. fields.
    by rewrite (en_cpus _ _ _ _ He), (en_if _ _ _ _ He).
  - intros _. rewrite <- Tp, Hcp by done. done.
  - intros l' Hl'. unfold lock_free. rewrite Hlf. case_decide; [done|]. by apply (en_free _ _ _ _ He).
  - unfold lock_free. rewrite Hlf. by rewrite decide_True.
Qed.

End locks.
