(* ===== verification/Str.v ===== *)
(** string.c.  [memset], [memcmp] and [memmove] act on the flat memory; the
    string functions act on C strings as byte lists (a list stands for its
    bytes followed by NULs, an array of fixed size for itself). *)
From S2P Require Import Prelude Mem.

(** * Block operations on memory *)

(** rep stosb / rep stosl (x86.h). *)
Fixpoint stosb (m : gmap Z Z) (addr data : Z) (cnt : nat) : gmap Z Z :=
  match cnt with O => m | S n => stosb (wr8 m addr data) (addr + 1) data n end.
Fixpoint stosl (m : gmap Z Z) (addr data : Z) (cnt : nat) : gmap Z Z :=
  match cnt with O => m | S n => stosl (wr32 m addr data) (addr + 4) data n end.

Definition memset (m : gmap Z Z) (dst c n : Z) : gmap Z Z :=
  if (dst mod 4 =? 0) && (n mod 4 =? 0) then
    let c := Z.land c 0xFF in
    stosl m dst (Z.lor (Z.lor (Z.lor (Z.shiftl c 24) (Z.shiftl c 16)) (Z.shiftl c 8)) c)
      (Z.to_nat (n / 4))
  else stosb m dst c (Z.to_nat n).

Fixpoint memcmp (m : gmap Z Z) (s1 s2 : Z) (n : nat) : Z :=
  match n with
  | O => 0
  | S n' =>
      if rd8 m s1 =? rd8 m s2 then memcmp m (s1 + 1) (s2 + 1) n'
      else rd8 m s1 - rd8 m s2
  end.

Fixpoint copy_up (m : gmap Z Z) (d s : Z) (n : nat) : gmap Z Z :=
  match n with O => m | S n' => copy_up (wr8 m d (rd8 m s)) (d + 1) (s + 1) n' end.
(** [d] and [s] point one past the bytes still to be copied. *)
Fixpoint copy_down (m : gmap Z Z) (d s : Z) (n : nat) : gmap Z Z :=
  match n with
  | O => m
  | S n' => copy_down (wr8 m (d - 1) (rd8 m (s - 1))) (d - 1) (s - 1) n'
  end.

Definition memmove (m : gmap Z Z) (dst src n : Z) : gmap Z Z :=
  if (src <? dst) && (dst <? u32 (src + n)) then
    copy_down m (dst + n) (src + n) (Z.to_nat n)
  else copy_up m dst src (Z.to_nat n).

Definition memcpy := memmove.

(** * C strings *)

Fixpoint strncmp (p q : list Z) (n : nat) : Z :=
  match n with
  | O => 0
  | S n' =>
      let a := default 0 (head p) in
      let b := default 0 (head q) in
      if nz a && (a =? b) then strncmp (tail p) (tail q) n' else u8 a - u8 b
  end.

Fixpoint strncpy_pad (n : nat) (i : Z) (s : list Z) : list Z :=
  match n with O => s | S n' => strncpy_pad n' (i + 1) (zset s i 0) end.
Fixpoint strncpy_loop (n : nat) (i : Z) (s t : list Z) : list Z :=
  match n with
  | O => s
  | S n' =>
      let c := zget t i in
      if nz c then strncpy_loop n' (i + 1) (zset s i c) t
      else strncpy_pad n' (i + 1) (zset s i c)
  end.
Definition strncpy (s t : list Z) (n : Z) : list Z := strncpy_loop (Z.to_nat n) 0 s t.

(** [n] is the number of bytes the loop may still copy. *)
Fixpoint safestrcpy_loop (n : nat) (i : Z) (s t : list Z) : list Z :=
  match n with
  | O => zset s i 0
  | S n' =>
      let c := zget t i in
      if nz c then safestrcpy_loop n' (i + 1) (zset s i c) t
      else zset (zset s i c) (i + 1) 0
  end.
Definition safestrcpy (s t : list Z) (n : Z) : list Z :=
  if n <=? 0 then s else safestrcpy_loop (Z.to_nat (n - 1)) 0 s t.

(** Length up to the first NUL. *)
Fixpoint strlen (s : list Z) : Z :=
  match s with
  | [] => 0
  | c :: s' => if nz c then 1 + strlen s' else 0
  end.

(** * memset *)

Section block_facts.
Implicit Types (m : gmap Z Z).

Lemma rd8_stosb m a c n b :
  rd8 (stosb m a c n) b = if decide (a <= b < a + Z.of_nat n) then u8 c else rd8 m b.
Proof.
  revert m a. induction n as [|n IH]; intros m a; simpl.
  - by rewrite decide_False by lia.
  - rewrite IH. rewrite rd8_wr8. repeat case_decide; try done; lia.
Qed.

(** The word memset replicates holds the byte four times. *)
Lemma splat_word c :
  0 <= c < 2 ^ 8 ->
  Z.lor (Z.lor (Z.lor (Z.shiftl c 24) (Z.shiftl c 16)) (Z.shiftl c 8)) c
  = c + 2 ^ 8 * (c + 2 ^ 8 * (c + 2 ^ 8 * c)).
Proof.
  intros Hc. rewrite !Z.shiftl_mul_pow2 by lia.
  rewrite (lor_add_low c (c * 2 ^ 16) 24) by lia.
  replace (c * 2 ^ 24 + c * 2 ^ 16) with ((c * 2 ^ 8 + c) * 2 ^ 16) by lia.
  rewrite (lor_add_low _ (c * 2 ^ 8) 16) by lia.
  replace ((c * 2 ^ 8 + c) * 2 ^ 16 + c * 2 ^ 8) with ((c * 2 ^ 16 + c * 2 ^ 8 + c) * 2 ^ 8) by lia.
  rewrite (lor_add_low _ c 8) by lia. lia.
Qed.

Lemma rd8_wr32_splat m a c b :
  0 <= c < 2 ^ 8 ->
  rd8 (wr32 m a (c + 2 ^ 8 * (c + 2 ^ 8 * (c + 2 ^ 8 * c)))) b
  = if decide (a <= b < a + 4) then c else rd8 m b.
Proof.
  intros Hc. unfold wr32.
  assert (Hdiv : forall x, (c + 2 ^ 8 * x) / 2 ^ 8 = x).
  { intros x. rewrite Z.mul_comm, Z.div_add, Z.div_small by lia. done. }
  assert (Hmod : forall x, u8 (c + 2 ^ 8 * x) = c).
  { intros x. unfold u8. rewrite Z.mul_comm, Z_mod_plus_full. by apply Z.mod_small. }
  replace (2 ^ 16) with (2 ^ 8 * 2 ^ 8) by done.
  replace (2 ^ 24) with (2 ^ 8 * 2 ^ 8 * 2 ^ 8) by done.
  rewrite <- !Z.div_div by lia. rewrite !Hdiv.
  rewrite !rd8_wr8. rewrite !Hmod, (u8_small c) by done.
  repeat case_decide; try done; lia.
Qed.

Lemma rd8_stosl m a c n b :
  0 <= c < 2 ^ 8 ->
  rd8 (stosl m a (c + 2 ^ 8 * (c + 2 ^ 8 * (c + 2 ^ 8 * c))) n) b
  = if decide (a <= b < a + 4 * Z.of_nat n) then c else rd8 m b.
Proof.
  intros Hc. revert m a. induction n as [|n IH]; intros m a; simpl stosl.
  - by rewrite decide_False by lia.
  - rewrite IH, rd8_wr32_splat by done. repeat case_decide; try done; lia.
Qed.

(** memset fills exactly its range, whichever of its two loops runs. *)
Lemma rd8_memset m dst c n b :
  0 <= n ->
  rd8 (memset m dst c n) b = if decide (dst <= b < dst + n) then u8 c else rd8 m b.
Proof.
  intros Hn. unfold memset.
  destruct ((dst mod 4 =? 0) && (n mod 4 =? 0)) eqn:E.
  - apply andb_prop in E as [_ E]. apply Z.eqb_eq in E.
    change 255 with (Z.ones 8). rewrite Z.land_ones by lia. change (c mod 2 ^ 8) with (u8 c).
    rewrite splat_word by apply u8_range. rewrite rd8_stosl by apply u8_range.
    rewrite Z2Nat.id by (apply Z.div_pos; lia).
    replace (4 * (n / 4)) with n by (rewrite (Z.div_mod n 4) at 1; lia). done.
  - rewrite rd8_stosb, Z2Nat.id by lia. done.
Qed.

Lemma rd32_memset_zero m dst n a :
  0 <= n -> dst <= a -> a + 4 <= dst + n -> rd32 (memset m dst 0 n) a = 0.
Proof.
  intros. unfold rd32. rewrite !rd8_memset by done.
  rewrite !decide_True by lia. done.
Qed.

Lemma rd32_memset_out m dst c n a :
  0 <= n -> a + 4 <= dst \/ dst + n <= a -> rd32 (memset m dst c n) a = rd32 m a.
Proof.
  intros. apply rd32_agree. intros b Hb. rewrite rd8_memset by done.
  by rewrite decide_False by lia.
Qed.

(** * memmove *)

(** Ascending copy is right when the destination does not overtake. *)
Lemma rd8_copy_up m d s n b :
  d <= s \/ s + Z.of_nat n <= d ->
  rd8 (copy_up m d s n) b
  = if decide (d <= b < d + Z.of_nat n) then rd8 m (s + (b - d)) else rd8 m b.
Proof.
  revert m d s. induction n as [|n IH]; intros m d s Hov; simpl.
  - by rewrite decide_False by lia.
  - rewrite IH by lia. destruct (decide (b = d)) as [->|].
    + rewrite decide_False by lia. rewrite rd8_wr8_eq, u8_rd8.
      rewrite decide_True by lia. f_equal. lia.
    + destruct (decide (d + 1 <= b < d + 1 + Z.of_nat n)).
      * rewrite decide_True by lia. rewrite rd8_wr8_ne by lia. f_equal. lia.
      * rewrite decide_False by lia. rewrite rd8_wr8_ne by lia. done.
Qed.

(** Descending copy is right when the source does not overtake. *)
Lemma rd8_copy_down m d s n b :
  s <= d ->
  rd8 (copy_down m d s n) b
  = if decide (d - Z.of_nat n <= b < d) then rd8 m (s + (b - d)) else rd8 m b.
Proof.
  revert m d s. induction n as [|n IH]; intros m d s Hov; simpl.
  - by rewrite decide_False by lia.
  - rewrite IH by lia. destruct (decide (b = d - 1)) as [->|].
    + rewrite decide_False by lia. rewrite rd8_wr8_eq, u8_rd8.
      rewrite decide_True by lia. f_equal. lia.
    + destruct (decide (d - 1 - Z.of_nat n <= b < d - 1)).
      * rewrite decide_True by lia. rewrite rd8_wr8_ne by lia. f_equal. lia.
      * rewrite decide_False by lia. rewrite rd8_wr8_ne by lia. done.
Qed.

Lemma rd8_memmove m dst src n b :
  0 <= n -> 0 <= src -> src + n < 2 ^ 32 ->
  rd8 (memmove m dst src n) b
  = if decide (dst <= b < dst + n) then rd8 m (src + (b - dst)) else rd8 m b.
Proof.
  intros Hn Hs Hw. unfold memmove. rewrite u32_small by lia.
  destruct (Z.ltb_spec src dst), (Z.ltb_spec dst (src + n)); simpl.
  - rewrite rd8_copy_down, Z2Nat.id by lia.
    replace (dst + n - n) with dst by lia.
    case_decide; [|done]. f_equal. lia.
  - rewrite rd8_copy_up; rewrite Z2Nat.id by lia; [done|lia].
  - rewrite rd8_copy_up; rewrite Z2Nat.id by lia; [done|lia].
  - rewrite rd8_copy_up; rewrite Z2Nat.id by lia; [done|lia].
Qed.

(** memmove is copying through a temporary, overlap or not. *)
Lemma memmove_load m dst src n :
  0 <= src -> src + Z.of_nat n < 2 ^ 32 ->
  forall b, rd8 (memmove m dst src (Z.of_nat n)) b = rd8 (store m dst (load m src n)) b.
Proof.
  intros Hs Hw b. rewrite rd8_memmove by lia. rewrite rd8_store, length_load.
  case_decide as Hd; [|done].
  rewrite (list_lookup_total_correct _ _ (rd8 m (src + (b - dst)))).
  - by rewrite u8_rd8.
  - rewrite lookup_load by lia. do 2 f_equal. lia.
Qed.

Lemma memcmp_zero m s1 s2 n : memcmp m s1 s2 n = 0 <-> load m s1 n = load m s2 n.
Proof.
  revert s1 s2. induction n as [|n IH]; intros s1 s2; simpl; [done|].
  destruct (Z.eqb_spec (rd8 m s1) (rd8 m s2)) as [->|Hne].
  - rewrite IH. split; [by intros ->|by intros [= ->]].
  - split; [lia|by intros [= ? ?]].
Qed.
End block_facts.

(** * Strings *)

Section string_facts.
Implicit Types (p q s t : list Z).

Definition nulfree (s : list Z) : Prop := Forall (fun c => c <> 0) s.
Definition isbytes (s : list Z) : Prop := Forall (fun c => 0 <= c < 2 ^ 8) s.

(** [strncmp] is zero exactly when the first [n] bytes agree, reading both
    strings up to their NUL. *)
Lemma strncmp_zero p q n :
  nulfree p -> nulfree q -> isbytes p -> isbytes q ->
  strncmp p q n = 0 <-> take n p = take n q.
Proof.
  revert p q. induction n as [|n IH]; intros p q Hp Hq Bp Bq; [done|].
  destruct p as [|a p], q as [|b q]; simpl; [done|..].
  - inversion Hq; inversion Bq; subst. unfold nz. simpl.
    rewrite (u8_small b) by done. change (u8 0) with 0. split; [lia|done].
  - inversion Hp; inversion Bp; subst. unfold nz.
    destruct (Z.eqb_spec a 0); [done|]. simpl. destruct (Z.eqb_spec a 0); [done|].
    rewrite (u8_small a) by done. change (u8 0) with 0. split; [lia|done].
  - inversion Hp; inversion Hq; inversion Bp; inversion Bq; subst. unfold nz.
    destruct (Z.eqb_spec a 0); [done|]. simpl. destruct (Z.eqb_spec a b) as [->|].
    + rewrite IH by done. split; [by intros ->|by intros [= ->]].
    + rewrite !u8_small by done. split; [lia|by intros [= ? ?]].
Qed.

(** Reading a C string past its last character gives NUL. *)
Lemma zget_past t i : zlen t <= i -> zget t i = 0.
Proof.
  unfold zlen, zget. intros. rewrite list_lookup_total_alt.
  by rewrite lookup_ge_None_2 by lia.
Qed.

Lemma zget_nulfree t i : nulfree t -> 0 <= i -> nz (zget t i) = true <-> i < zlen t.
Proof.
  intros Ht Hi. unfold nz. split.
  - intros H. destruct (Z.lt_ge_cases i (zlen t)) as [|Hge]; [done|].
    by rewrite zget_past in H.
  - intros H. unfold zlen, zget in *.
    destruct (lookup_lt_is_Some_2 t (Z.to_nat i) ltac:(lia)) as [c Hc].
    rewrite (list_lookup_total_correct _ _ _ Hc).
    pose proof (proj1 (Forall_lookup _ _) Ht _ _ Hc). simpl in *.
    by destruct (Z.eqb_spec c 0).
Qed.

Lemma strncpy_pad_get n i s j :
  0 <= i -> i + Z.of_nat n <= zlen s -> 0 <= j ->
  zget (strncpy_pad n i s) j = if decide (i <= j < i + Z.of_nat n) then 0 else zget s j.
Proof.
  revert i s. induction n as [|n IH]; intros i s Hi Hn Hj; simpl.
  - by rewrite decide_False by lia.
  - rewrite IH by (rewrite ?zlen_zset; lia).
    destruct (decide (j = i)) as [->|].
    + rewrite decide_False by lia. rewrite decide_True by lia. apply zget_zset_eq. lia.
    + rewrite zget_zset_ne by lia. repeat case_decide; try done; lia.
Qed.

(** The loop copies while it reads characters, then pads. *)
Lemma strncpy_loop_get n i s t j :
  nulfree t -> 0 <= i <= zlen t -> i + Z.of_nat n <= zlen s -> 0 <= j ->
  zget (strncpy_loop n i s t) j = if decide (i <= j < i + Z.of_nat n) then zget t j else zget s j.
Proof.
  intros Ht. revert i s. induction n as [|n IH]; intros i s Hi Hn Hj; simpl.
  - by rewrite decide_False by lia.
  - destruct (nz (zget t i)) eqn:E.
    + apply zget_nulfree in E; [|done|lia].
      rewrite IH by (rewrite ?zlen_zset; lia).
      destruct (decide (j = i)) as [->|].
      * rewrite decide_False by lia. rewrite decide_True by lia. apply zget_zset_eq. lia.
      * rewrite zget_zset_ne by lia. repeat case_decide; try done; lia.
    + assert (Hend : zlen t <= i).
      { destruct (Z.lt_ge_cases i (zlen t)) as [H|]; [|done].
        apply (zget_nulfree t i Ht) in H; [congruence|lia]. }
      rewrite strncpy_pad_get by (rewrite ?zlen_zset; lia).
      destruct (decide (j = i)) as [->|].
      * rewrite decide_False by lia. rewrite decide_True by lia. apply zget_zset_eq. lia.
      * rewrite zget_zset_ne by lia. repeat case_decide; try done; try lia.
        symmetry. apply zget_past. lia.
Qed.

(** strncpy fills exactly [n] bytes: the source, then NULs. *)
Lemma strncpy_get s t n j :
  nulfree t -> 0 <= n <= zlen s -> 0 <= j ->
  zget (strncpy s t n) j = if decide (j < n) then zget t j else zget s j.
Proof.
  intros Ht Hn Hj. unfold strncpy. unfold zlen in *.
  rewrite strncpy_loop_get by (try done; unfold zlen; lia).
  rewrite Z2Nat.id by lia. repeat case_decide; try done; lia.
Qed.

Lemma safestrcpy_loop_get n i s t j :
  nulfree t -> 0 <= i <= zlen t -> i + Z.of_nat n < zlen s -> 0 <= j ->
  zget (safestrcpy_loop n i s t) j =
    if decide (i <= j < i + Z.of_nat n /\ j < zlen t) then zget t j
    else if decide (j = Z.min (zlen t) (i + Z.of_nat n)) then 0
    else if decide (j = zlen t + 1 /\ zlen t < i + Z.of_nat n) then 0 else zget s j.
Proof.
  intros Ht. revert i s. induction n as [|n IH]; intros i s Hi Hn Hj; simpl.
  - rewrite decide_False by lia. destruct (decide (j = i)) as [->|].
    + rewrite decide_True by lia. apply zget_zset_eq. lia.
    + rewrite zget_zset_ne by lia. rewrite !decide_False by lia. done.
  - destruct (nz (zget t i)) eqn:E.
    + apply zget_nulfree in E; [|done|lia].
      rewrite IH by (rewrite ?zlen_zset; lia).
      destruct (decide (j = i)) as [->|].
      * rewrite decide_False by lia. rewrite !decide_False by lia.
        rewrite decide_True by lia. apply zget_zset_eq. lia.
      * rewrite zget_zset_ne by lia. repeat case_decide; try done; lia.
    + assert (Hend : zlen t <= i).
      { destruct (Z.lt_ge_cases i (zlen t)) as [H|]; [|done].
        apply (zget_nulfree t i Ht) in H; [congruence|lia]. }
      destruct (decide (j = i + 1)) as [->|].
      * rewrite zget_zset_eq by (rewrite zlen_zset; lia).
        rewrite decide_False by lia. repeat case_decide; try done; lia.
      * rewrite zget_zset_ne by lia. destruct (decide (j = i)) as [->|].
        -- rewrite zget_zset_eq by lia. rewrite zget_past by lia.
           rewrite decide_False by lia. by rewrite decide_True by lia.
        -- rewrite zget_zset_ne by lia. repeat case_decide; try done; lia.
Qed.

(** safestrcpy truncates to [n-1] characters and always terminates the
    string within the [n] bytes of the destination. *)
Lemma safestrcpy_get s t n j :
  nulfree t -> 0 < n <= zlen s -> 0 <= j < Z.min (zlen t) (n - 1) ->
  zget (safestrcpy s t n) j = zget t j.
Proof.
  intros Ht Hn Hj. unfold safestrcpy. destruct (Z.leb_spec n 0); [lia|].
  pose proof (Zle_0_nat (length t)). unfold zlen in *.
  rewrite safestrcpy_loop_get by (try done; unfold zlen; lia).
  rewrite decide_True by (unfold zlen; lia). done.
Qed.

Lemma safestrcpy_terminated s t n :
  nulfree t -> 0 < n <= zlen s ->
  zget (safestrcpy s t n) (Z.min (zlen t) (n - 1)) = 0.
Proof.
  intros Ht Hn. unfold safestrcpy. destruct (Z.leb_spec n 0); [lia|].
  pose proof (Zle_0_nat (length t)). unfold zlen in *.
  rewrite safestrcpy_loop_get by (try done; unfold zlen; lia).
  rewrite decide_False by (unfold zlen; lia). by rewrite decide_True by (unfold zlen; lia).
Qed.

Lemma safestrcpy_outside s t n j :
  nulfree t -> 0 < n <= zlen s -> n <= j -> zget (safestrcpy s t n) j = zget s j.
Proof.
  intros Ht Hn Hj. unfold safestrcpy. destruct (Z.leb_spec n 0); [lia|].
  pose proof (Zle_0_nat (length t)). unfold zlen in *.
  rewrite safestrcpy_loop_get by (try done; unfold zlen; lia).
  rewrite !decide_False by (unfold zlen; lia). done.
Qed.

Lemma strlen_nulfree s : nulfree s -> strlen s = zlen s.
Proof.
  unfold zlen. induction 1 as [|c s Hc _ IH]; simpl; [done|].
  unfold nz. destruct (Z.eqb_spec c 0); [done|]. simpl. lia.
Qed.
End string_facts.
