(* ===== verification/Kalloc.v ===== *)
(** kalloc.c: the physical page allocator.  The free list is a linked list
    threaded through the free pages themselves, in the flat memory; the
    invariant [kmem_inv] says which list of pages it represents, and every
    operation is a push or pop on that list. *)
From S2P Require Import Prelude Kernel Mem Spinlock Str.

(** * Page rounding (mmu.h) *)

Lemma PGROUNDDOWN_spec a : 0 <= a < 2 ^ 32 -> PGROUNDDOWN a = a - a mod PGSIZE.
Proof.
  intros Ha. unfold PGROUNDDOWN. change (u32 (Z.lnot (PGSIZE - 1))) with (2 ^ 32 - 2 ^ 12).
  rewrite land_clear_low by lia. done.
Qed.

Lemma PGROUNDUP_spec a : 0 <= a -> a + PGSIZE <= 2 ^ 32 ->
  PGROUNDUP a = (a + PGSIZE - 1) / PGSIZE * PGSIZE.
Proof.
  intros Ha Hw. unfold PGSIZE in *. unfold PGROUNDUP, PGSIZE.
  rewrite u32_small by lia. change (u32 (Z.lnot (4096 - 1))) with (2 ^ 32 - 2 ^ 12).
  rewrite land_clear_low by lia. change (2 ^ 12) with 4096.
  rewrite (Z.mod_eq _ 4096) by lia. lia.
Qed.

Lemma PTE_ADDR_spec a : 0 <= a < 2 ^ 32 -> PTE_ADDR a = a - a mod PGSIZE.
Proof. exact (PGROUNDDOWN_spec a). Qed.

(** * The allocator *)

Section kalloc.
Context `{Image}.

Definition kfree (v : Z) : K unit :=
  if nz (v mod PGSIZE) || (v <? sym_end) || (PHYSTOP <=? V2P v) then panic "kfree"
  else
    (* Fill with junk to catch dangling refs. *)
    modify (fun k => k <| k_mem ::= fun m => memset m v 1 PGSIZE |>) ;;
    ul <- gets (fun k => use_lock (k_kmem k)) ;;
    when ul (acquire L_kmem) ;;
    fl <- gets (fun k => freelist (k_kmem k)) ;;
    modify (fun k => k <| k_mem ::= fun m => wr32 m v fl |>) ;;
    modify (fun k => k <| k_kmem ::= fun km => km <| freelist := v |> |>) ;;
    ul <- gets (fun k => use_lock (k_kmem k)) ;;
    when ul (release L_kmem).

Definition kalloc : K Z :=
  ul <- gets (fun k => use_lock (k_kmem k)) ;;
  when ul (acquire L_kmem) ;;
  r <- gets (fun k => freelist (k_kmem k)) ;;
  when (nz r) (modify (fun k => k <| k_kmem ::= fun km => km <| freelist := rd32 (k_mem k) r |> |>)) ;;
  ul <- gets (fun k => use_lock (k_kmem k)) ;;
  when ul (release L_kmem) ;;
  ret r.

(** for(; p + PGSIZE <= vend; p += PGSIZE) kfree(p); the fuel is the number
    of pages up to [vend], and running out of it is an endless loop. *)
Fixpoint freerange_loop (n : nat) (p vend : Z) : K unit :=
  match n with
  | O => fun k _ => Blocked k
  | S n' =>
      if u32 (p + PGSIZE) <=? vend then kfree p ;; freerange_loop n' (u32 (p + PGSIZE)) vend
      else ret tt
  end.
Definition freerange (vstart vend : Z) : K unit :=
  freerange_loop (S (Z.to_nat (vend / PGSIZE))) (PGROUNDUP vstart) vend.

Definition kinit1 (vstart vend : Z) : K unit :=
  initlock L_kmem "kmem" ;;
  modify (fun k => k <| k_kmem ::= fun km => km <| use_lock := false |> |>) ;;
  freerange vstart vend.

Definition kinit2 (vstart vend : Z) : K unit :=
  freerange vstart vend ;;
  modify (fun k => k <| k_kmem ::= fun km => km <| use_lock := true |> |>).

(** * The list of free pages *)

Definition page_ok (a : Z) : Prop :=
  a mod PGSIZE = 0 /\ sym_end <= a /\ 0 <= a < 2 ^ 32 /\ V2P a < PHYSTOP.

(** [l] is the chain of [next] pointers from [h]. *)
Fixpoint chain (m : gmap Z Z) (h : Z) (l : list Z) : Prop :=
  match l with
  | [] => h = 0
  | a :: l' => h = a /\ a <> 0 /\ chain m (rd32 m a) l'
  end.

Definition kmem_inv (k : kernel) (l : list Z) : Prop :=
  chain (k_mem k) (freelist (k_kmem k)) l /\ NoDup l /\ Forall page_ok l.

(** What the allocator needs of the machine: nothing before kinit2, then a
    free lock. *)
Definition kmem_ready (i : nat) (k : kernel) : Prop :=
  use_lock (k_kmem k) = true -> cpu_at i k /\ lock_free L_kmem k.
Definition ktouch (i : nat) (k : kernel) : kernel :=
  if use_lock (k_kmem k) then touch i L_kmem k else k.

Definition kpush (v : Z) (k : kernel) : kernel :=
  k <| k_mem ::= fun m => wr32 (memset m v 1 PGSIZE) v (freelist (k_kmem k)) |>
    <| k_kmem ::= fun km => km <| freelist := v |> |>.
Definition kpop (k : kernel) : kernel :=
  if nz (freelist (k_kmem k)) then
    k <| k_kmem ::= fun km => km <| freelist := rd32 (k_mem k) (freelist (k_kmem k)) |> |>
  else k.

Lemma nz_false z : nz z = false <-> z = 0.
Proof. unfold nz. destruct (Z.eqb_spec z 0); split; naive_solver. Qed.
Lemma nz_true z : nz z = true <-> z <> 0.
Proof. unfold nz. destruct (Z.eqb_spec z 0); split; naive_solver. Qed.

Lemma page_ok_test a :
  page_ok a -> nz (a mod PGSIZE) || (a <? sym_end) || (PHYSTOP <=? V2P a) = false.
Proof.
  intros (Ha & He & _ & Hp). unfold nz. rewrite Ha. simpl.
  destruct (Z.ltb_spec a sym_end); [lia|]. by destruct (Z.leb_spec PHYSTOP (V2P a)); [lia|].
Qed.

(** The two calls as state functions. *)
Lemma kalloc_ok i k e :
  kmem_ready i k -> kalloc k e = Ok (freelist (k_kmem k)) (kpop (ktouch i k)) e.
Proof.
  intros Hr. unfold kalloc, ktouch, kpop. step.
  destruct (use_lock (k_kmem k)) eqn:Hul; step.
  - destruct (Hr Hul) as [Hc Hl]. run (acquire_ok i). step.
    destruct (locked_by_ready i L_kmem k Hc) as (Hc' & Hh & Hn).
    change (freelist (k_kmem (locked_by i L_kmem k))) with (freelist (k_kmem k)).
    change (freelist (k_kmem (touch i L_kmem k))) with (freelist (k_kmem k)).
    destruct (nz (freelist (k_kmem k))); step; fields.
    + change (use_lock _) with (use_lock (k_kmem k)). rewrite Hul. step.
      by run (release_ok i).
    + change (use_lock (k_kmem (locked_by i L_kmem k))) with (use_lock (k_kmem k)).
      rewrite Hul. step. by run (release_ok i).
  - destruct (nz (freelist (k_kmem k))); step; fields; rewrite Hul; step; done.
Qed.

Lemma kfree_ok i v k e :
  kmem_ready i k -> page_ok v -> kfree v k e = Ok tt (kpush v (ktouch i k)) e.
Proof.
  intros Hr Hv. unfold kfree. rewrite page_ok_test by done. step. fields.
  unfold ktouch, kpush. destruct (use_lock (k_kmem k)) eqn:Hul; step.
  - destruct (Hr Hul) as [Hc Hl].
    set (k1 := k <| k_mem ::= fun m => memset m v 1 PGSIZE |>).
    assert (Hc1 : cpu_at i k1) by exact Hc. assert (Hl1 : lock_free L_kmem k1) by exact Hl.
    run (acquire_ok i). step.
    destruct (locked_by_ready i L_kmem k1 Hc1) as (Hc' & Hh & Hn).
    fields. change (use_lock _) with (use_lock (k_kmem k)). rewrite Hul. unfold when.
    by rewrite (release_ok i).
  - fields. rewrite Hul. step. done.
Qed.

Lemma kfree_bad v k e :
  nz (v mod PGSIZE) || (v <? sym_end) || (PHYSTOP <=? V2P v) = true ->
  kfree v k e = Panic "kfree" k.
Proof. intros Hb. unfold kfree. by rewrite Hb. Qed.

(** * Pushes and pops on the free list *)

Lemma chain_agree m m' h l :
  (forall a b, a ∈ l -> a <= b < a + 4 -> rd8 m b = rd8 m' b) -> chain m h l -> chain m' h l.
Proof.
  revert h. induction l as [|a l IH]; intros h Hag; simpl; [done|].
  intros (-> & Ha & Hc). split_and!; [done..|].
  rewrite <- (rd32_agree m m') by (intros b; apply Hag; set_solver).
  apply IH; [|done]. intros a' b Ha'. apply Hag. set_solver.
Qed.

Lemma pages_disjoint a b x :
  a mod PGSIZE = 0 -> b mod PGSIZE = 0 -> a <> b -> b <= x < b + 4 ->
  x < a \/ a + PGSIZE <= x.
Proof.
  unfold PGSIZE. intros Ha Hb Hne Hx.
  apply Z.mod_divide in Ha as [p ->]; [|done]. apply Z.mod_divide in Hb as [q ->]; [|done].
  lia.
Qed.

Lemma kpush_inv v k l :
  page_ok v -> v <> 0 -> v ∉ l -> kmem_inv k l -> kmem_inv (kpush v k) (v :: l).
Proof.
  intros Hv Hv0 Hnot (Hch & Hnd & Hok). unfold kmem_inv, kpush. fields. simpl. split_and!.
  - done.
  - done.
  - rewrite rd32_wr32_eq.
    assert (Hrange : u32 (freelist (k_kmem k)) = freelist (k_kmem k)).
    { destruct l as [|a l]; simpl in Hch; [by rewrite Hch|].
      destruct Hch as (-> & _). apply u32_small.
      apply Forall_cons_iff in Hok as [(_ & _ & Ha & _) _]. done. }
    rewrite Hrange. eapply chain_agree; [|exact Hch].
    intros a b Ha Hb. pose proof (proj1 (Forall_forall _ _) Hok a (proj1 (list_elem_of_In _ _) Ha)) as (Hm & _).
    assert (v <> a) by (intros ->; done).
    destruct Hv as (Hvm & _).
    pose proof (pages_disjoint v a b Hvm Hm ltac:(done) Hb). unfold PGSIZE in *.
    rewrite rd8_wr32_ne by lia. rewrite rd8_memset by lia. by rewrite decide_False by lia.
  - by constructor.
  - by constructor.
Qed.

Lemma kpop_inv v k l : kmem_inv k (v :: l) -> kmem_inv (kpop k) l /\ freelist (k_kmem k) = v.
Proof.
  intros ((Hh & Hv & Hch) & Hnd & Hok). inversion Hnd; inversion Hok; subst.
  unfold kpop. rewrite (proj2 (nz_true _)) by done. unfold kmem_inv. fields. done.
Qed.

Lemma kmem_inv_touch i l k ps : kmem_inv (touch i l k) ps <-> kmem_inv k ps.
Proof. done. Qed.

Lemma kmem_inv_ktouch i k ps : kmem_inv (ktouch i k) ps <-> kmem_inv k ps.
Proof. unfold ktouch. by destruct (use_lock _). Qed.

Lemma kmem_ready_ktouch i k : kmem_ready i k -> kmem_ready i (ktouch i k).
Proof.
  unfold kmem_ready, ktouch. intros Hr. destruct (use_lock (k_kmem k)) eqn:Hul; [|by rewrite Hul].
  intros _. destruct (Hr eq_refl). split; [by apply touch_ready|by apply touch_free].
Qed.

Lemma kmem_ready_kpush i v k : kmem_ready i k -> kmem_ready i (kpush v k).
Proof. done. Qed.

Lemma use_lock_ktouch i k : use_lock (k_kmem (ktouch i k)) = use_lock (k_kmem k).
Proof. unfold ktouch. by destruct (use_lock (k_kmem k)) eqn:E. Qed.

Lemma k_mem_ktouch i k : k_mem (ktouch i k) = k_mem k.
Proof. unfold ktouch. by destruct (use_lock _). Qed.

Lemma freelist_ktouch i k : freelist (k_kmem (ktouch i k)) = freelist (k_kmem k).
Proof. unfold ktouch. by destruct (use_lock _). Qed.

(** ** What the allocator leaves alone *)

(** Everything but the memory, the allocator's state, the locks and the
    per-CPU interrupt bookkeeping. *)
Definition forget (k : kernel) : kernel :=
  k <| k_mem := empty |> <| k_kmem := mkKmem false 0 |> <| k_cpus := [] |>
    <| k_locks := empty |> <| k_if := false |>.

Record kframe (i : nat) (k k' : kernel) : Prop := {
  kf_rest : forget k' = forget k;
  kf_use : use_lock (k_kmem k') = use_lock (k_kmem k);
  kf_cpu : cpu_at i k -> cpu_at i k';
  kf_if : cpu_at i k -> k_if k' = k_if k;
  kf_free : forall l, lock_free l k -> lock_free l k';
  kf_nested : cpu_at i k -> 0 < c_ncli (k_cpus k !!! i) -> k_cpus k' = k_cpus k;
  kf_locks : forall l, l <> L_kmem -> lock_of k' l = lock_of k l
}.

#[export] Instance kframe_preorder i : PreOrder (kframe i).
Proof.
  split; [done|]. intros k1 k2 k3 [R1 U1 C1 I1 F1 N1 L1] [R2 U2 C2 I2 F2 N2 L2].
  split; [congruence|congruence|auto| |auto| |].
  - intros Hc. rewrite I2, I1; auto.
  - intros Hc Hn. rewrite N2, N1; auto. by rewrite N1.
  - intros l Hl. rewrite L2, L1; auto.
Qed.

Lemma kframe_ktouch i k : kframe i k (ktouch i k).
Proof.
  unfold ktouch. destruct (use_lock (k_kmem k)) eqn:E; [|done].
  split; [done..|apply touch_ready|apply touch_if|intros l; apply touch_free| |].
  - intros Hc Hn. by apply touch_nested.
  - intros l Hl. rewrite lock_of_touch. by rewrite decide_False.
Qed.

Lemma kframe_mem i k f : kframe i k (k <| k_mem ::= f |>).
Proof. done. Qed.

Lemma kframe_kpush i v k : kframe i k (kpush v (ktouch i k)).
Proof. etrans; [apply (kframe_ktouch i)|done]. Qed.

Lemma kframe_kpop i k : kframe i k (kpop (ktouch i k)).
Proof.
  etrans; [apply (kframe_ktouch i)|]. unfold kpop. by destruct (nz _).
Qed.

(** kalloc on an exhausted, and on a non-empty, free list. *)
Lemma kalloc_nil i k e :
  kmem_ready i k -> kmem_inv k [] -> kalloc k e = Ok 0 (ktouch i k) e.
Proof.
  intros Hr (Hc & _). simpl in Hc. rewrite (kalloc_ok i) by done.
  unfold kpop. by rewrite freelist_ktouch, Hc.
Qed.

Lemma kalloc_cons i k e p l :
  kmem_ready i k -> kmem_inv k (p :: l) ->
  kalloc k e = Ok p (kpop (ktouch i k)) e /\ k_mem (kpop (ktouch i k)) = k_mem k /\
  kmem_inv (kpop (ktouch i k)) l /\ kmem_ready i (kpop (ktouch i k)) /\ p <> 0 /\ p ∉ l.
Proof.
  intros Hr Hi. pose proof Hi as ((Hh & Hp & _) & Hnd & _). inversion Hnd; subst.
  apply (kmem_inv_ktouch i) in Hi as Hi'. apply kpop_inv in Hi' as [Hi' _].
  pose proof (kmem_ready_ktouch i k Hr) as Hr'. split_and!; try done.
  - by rewrite (kalloc_ok i).
  - rewrite <- (k_mem_ktouch i k). unfold kpop. by destruct (nz _).
  - unfold kpop. by destruct (nz _).
Qed.

(** kfree of a page that is not on the list. *)
Lemma kfree_page i k e v l :
  kmem_ready i k -> kmem_inv k l -> page_ok v -> v <> 0 -> v ∉ l ->
  let k' := kpush v (ktouch i k) in
  kfree v k e = Ok tt k' e /\ kmem_inv k' (v :: l) /\ kmem_ready i k' /\ kframe i k k' /\
  (forall b, b < v \/ v + PGSIZE <= b -> rd8 (k_mem k') b = rd8 (k_mem k) b).
Proof.
  intros Hr Hi Hv Hv0 Hl k'. split_and!.
  - by apply kfree_ok.
  - apply kpush_inv; [done..|]. by rewrite kmem_inv_ktouch.
  - by apply kmem_ready_kpush, kmem_ready_ktouch.
  - apply kframe_kpush.
  - intros b Hb. unfold k', kpush. fields. rewrite k_mem_ktouch. unfold PGSIZE in *.
    rewrite rd8_wr32_ne, rd8_memset by lia. by rewrite decide_False by lia.
Qed.

(** * freerange *)

(** The [n] pages from [p]. *)
Definition pages (p : Z) (n : nat) : list Z := (fun j => p + PGSIZE * Z.of_nat j) <$> seq 0 n.

Lemma pages_S p n : pages p (S n) = p :: pages (p + PGSIZE) n.
Proof.
  unfold pages. simpl. f_equal; [lia|]. rewrite <- seq_shift, <- list_fmap_compose.
  apply list_fmap_ext. intros j x _. simpl. lia.
Qed.

Lemma elem_of_pages a p n : a ∈ pages p n <-> exists j, a = p + PGSIZE * Z.of_nat j /\ (j < n)%nat.
Proof.
  unfold pages. rewrite list_elem_of_fmap. setoid_rewrite elem_of_seq.
  split; intros (j & ? & ?); exists j; split; try done; lia.
Qed.

Lemma freerange_loop_ok i n : forall fuel p vend k e l,
  (n < fuel)%nat -> 0 <= p -> vend + 4096 < 2 ^ 32 ->
  p + 4096 * Z.of_nat n <= vend < p + 4096 * Z.of_nat n + 4096 ->
  kmem_ready i k -> kmem_inv k l ->
  (forall a, a ∈ pages p n -> page_ok a /\ a <> 0 /\ a ∉ l) ->
  exists k', freerange_loop fuel p vend k e = Ok tt k' e /\
    kmem_inv k' (rev (pages p n) ++ l) /\ kmem_ready i k' /\
    use_lock (k_kmem k') = use_lock (k_kmem k).
Proof.
  induction n as [|n IH]; intros fuel p vend k e l Hf Hp Hw Hv Hr Hi Hall;
    (destruct fuel as [|fuel]; [lia|]); simpl freerange_loop;
    (rewrite u32_small by (unfold PGSIZE; lia)); unfold PGSIZE at 1.
  - destruct (Z.leb_spec (p + 4096) vend); [lia|]. eauto.
  - destruct (Z.leb_spec (p + 4096) vend); [|lia].
    rewrite pages_S in Hall. destruct (Hall p) as (Hok & Hp0 & Hnot); [set_solver|].
    run (kfree_ok i).
    destruct (IH fuel (p + PGSIZE) vend (kpush p (ktouch i k)) e (p :: l))
      as (k' & E & Hi' & Hr' & Hu); try (unfold PGSIZE; lia).
    + by apply kmem_ready_kpush, kmem_ready_ktouch.
    + apply kpush_inv; [done..|]. by rewrite kmem_inv_ktouch.
    + intros a Ha. destruct (Hall a) as (? & ? & ?); [set_solver|]. split_and!; [done..|].
      intros [->|?]%elem_of_cons; [|done].
      apply elem_of_pages in Ha as (j & ? & _). unfold PGSIZE in *. lia.
    + exists k'. rewrite E. split_and!; [done| |done|by rewrite Hu; apply use_lock_ktouch].
      rewrite pages_S. simpl. by rewrite <- app_assoc.
Qed.

(** freerange gives the allocator exactly the whole pages of the range. *)
Lemma freerange_ok i vstart vend k e l :
  0 <= vstart -> vend + PGSIZE < 2 ^ 32 -> PGROUNDUP vstart <= vend ->
  vstart + PGSIZE <= 2 ^ 32 ->
  kmem_ready i k -> kmem_inv k l ->
  (forall a, a ∈ pages (PGROUNDUP vstart) (Z.to_nat ((vend - PGROUNDUP vstart) / PGSIZE)) ->
     page_ok a /\ a <> 0 /\ a ∉ l) ->
  exists k', freerange vstart vend k e = Ok tt k' e /\
    kmem_inv k' (rev (pages (PGROUNDUP vstart)
                        (Z.to_nat ((vend - PGROUNDUP vstart) / PGSIZE))) ++ l) /\
    kmem_ready i k' /\ use_lock (k_kmem k') = use_lock (k_kmem k).
Proof.
  intros Hs Hw Hle Hsw Hr Hi Hall. unfold freerange.
  assert (Hup : 0 <= PGROUNDUP vstart).
  { rewrite PGROUNDUP_spec by done. apply Z.mul_nonneg_nonneg; [apply Z.div_pos|]; unfold PGSIZE; lia. }
  set (p := PGROUNDUP vstart) in *. unfold PGSIZE in *.
  pose proof (Z.div_mod (vend - p) 4096 ltac:(lia)).
  pose proof (Z.mod_pos_bound (vend - p) 4096 ltac:(lia)).
  assert (0 <= (vend - p) / 4096 <= vend / 4096).
  { split; [apply Z.div_pos; lia|apply Z.div_le_mono; lia]. }
  apply freerange_loop_ok; try done; rewrite ?Z2Nat.id by lia; lia.
Qed.
End kalloc.
