(* ===== verification/Console.v ===== *)
(** Console output: [uartputc] of uart.c, and [cgaputc], [consputc],
    [printint], [cprintf] of console.c. *)
From S2P Require Import Prelude Kernel Mem Spinlock.
From Stdlib Require Import Ascii.

(** Characters and C string literals (with the escape [\n]) as bytes. *)
Definition ord (c : ascii) : Z := Z.of_N (N_of_ascii c).
Fixpoint bytes (s : string) : list Z :=
  match s with
  | EmptyString => []
  | String "\"%char (String "n"%char s') => 10 :: bytes s'
  | String c s' => ord c :: bytes s'
  end.

Definition BACKSPACE : Z := 0x100.

(** * Devices *)

(** uart.c; the wait for the transmitter gives up after 128 polls, so the
    byte is always written. *)
Definition uartputc (c : Z) : K unit :=
  u <- gets k_uart ;;
  if negb (u : bool) then ret tt
  else modify (fun k => k <| k_out ::= fun o => o ++ [u8 c] |>).

Definition put_cell (i v : Z) : K unit := modify (fun k => k <| k_crt ::= fun t => zset t i v |>).

(** memmove(crt, crt+80, sizeof(crt[0])*23*80): rows 1..23 move up. *)
Definition crt_scroll (t : list Z) : list Z :=
  take (Z.to_nat (23 * 80)) (drop (Z.to_nat 80) t) ++ drop (Z.to_nat (23 * 80)) t.
(** memset(crt+pos, 0, sizeof(crt[0])*n) *)
Definition crt_clear (t : list Z) (pos n : Z) : list Z :=
  take (Z.to_nat pos) t ++ replicate (Z.to_nat n) 0 ++ drop (Z.to_nat pos + Z.to_nat n) t.

Definition cgaputc (c : Z) : K unit :=
  pos <- gets k_crtpos ;;
  pos <- (if c =? 10 then ret (pos + (80 - pos mod 80))
          else if c =? BACKSPACE then ret (if 0 <? pos then pos - 1 else pos)
          else put_cell pos (Z.lor (Z.land c 0xff) 0x0700) ;; ret (pos + 1)) ;;
  if (pos <? 0) || (25 * 80 <? pos) then panic "pos under/overflow"
  else
    pos <- (if 24 <=? pos / 80 then
              modify (fun k => k <| k_crt ::= crt_scroll |>) ;;
              modify (fun k => k <| k_crt ::= fun t => crt_clear t (pos - 80) (24 * 80 - (pos - 80)) |>) ;;
              ret (pos - 80)
            else ret pos) ;;
    modify (fun k => k <| k_crtpos := u16 pos |>) ;;
    put_cell pos (Z.lor 32 0x0700).

(** After a panic every CPU that prints freezes. *)
Definition consputc (c : Z) : K unit :=
  p <- gets (fun k => panicked (k_console k)) ;;
  if (p : bool) then (fun k e => Blocked k)
  else
    (if c =? BACKSPACE then uartputc 8 ;; uartputc 32 ;; uartputc 8 else uartputc c) ;;
    cgaputc c.

Fixpoint consputs (s : list Z) : K unit :=
  match s with [] => ret tt | c :: s' => consputc c ;; consputs s' end.

(** * printint and cprintf *)

Definition digits : list Z := bytes "0123456789abcdef".

(** do { buf[i++] = digits[x % base]; } while((x /= base) != 0): the digits,
    least significant first; 32 rounds are enough for any base above 1. *)
Fixpoint printint_digits (n : nat) (x base : Z) : list Z :=
  match n with
  | O => []
  | S n' =>
      zget digits (x mod base) ::
      (if nz (x / base) then printint_digits n' (x / base) base else [])
  end.

(** The filled part of buf[]. *)
Definition printint_buf (xx base : Z) (sign : bool) : list Z :=
  let neg := sign && (i32 xx <? 0) in
  let x := if neg then u32 (- i32 xx) else u32 xx in
  printint_digits 32 x base ++ (if neg then [ord "-"] else []).

Definition printint (xx base : Z) (sign : bool) : K unit :=
  consputs (rev (printint_buf xx base sign)).

(** One word of the variable arguments: an integer, or a string pointer. *)
Inductive parg := AInt (z : Z) | AStr (s : option (list Z)).
Definition arg_int (l : list parg) : Z := match l with AInt z :: _ => z | _ => 0 end.
Definition arg_str (l : list parg) : list Z :=
  match l with
  | AStr (Some s) :: _ => s
  | _ => bytes "(null)"
  end.

Fixpoint cprintf_loop (fmt : list Z) (argp : list parg) : K unit :=
  match fmt with
  | [] => ret tt
  | c :: fmt' =>
      if negb (c =? ord "%") then consputc c ;; cprintf_loop fmt' argp
      else
        match fmt' with
        | [] => ret tt
        | c :: fmt'' =>
            if c =? ord "d" then printint (arg_int argp) 10 true ;; cprintf_loop fmt'' (tail argp)
            else if (c =? ord "x") || (c =? ord "p") then
              printint (arg_int argp) 16 false ;; cprintf_loop fmt'' (tail argp)
            else if c =? ord "s" then consputs (arg_str argp) ;; cprintf_loop fmt'' (tail argp)
            else if c =? ord "%" then consputc (ord "%") ;; cprintf_loop fmt'' argp
            else consputc (ord "%") ;; consputc c ;; cprintf_loop fmt'' argp
        end
  end.

Definition cprintf (fmt : string) (args : list parg) : K unit :=
  locking <- gets (fun k => cons_locking (k_console k)) ;;
  when locking (acquire L_cons) ;;
  cprintf_loop (bytes fmt) args ;;
  when locking (release L_cons).

(** * Output as text *)

(** What a format prints, as a function. *)
Fixpoint render (fmt : list Z) (argp : list parg) : list Z :=
  match fmt with
  | [] => []
  | c :: fmt' =>
      if negb (c =? ord "%") then [c] ++ render fmt' argp
      else
        match fmt' with
        | [] => []
        | c :: fmt'' =>
            if c =? ord "d" then rev (printint_buf (arg_int argp) 10 true) ++ render fmt'' (tail argp)
            else if (c =? ord "x") || (c =? ord "p") then
              rev (printint_buf (arg_int argp) 16 false) ++ render fmt'' (tail argp)
            else if c =? ord "s" then arg_str argp ++ render fmt'' (tail argp)
            else if c =? ord "%" then [ord "%"] ++ render fmt'' argp
            else [ord "%"] ++ [c] ++ render fmt'' argp
        end
  end.

(** The screen is the size the code assumes and the cursor is on it. *)
Definition screen_ok (k : kernel) : Prop :=
  length (k_crt k) = 2000%nat /\ 0 <= k_crtpos k <= 24 * 80.
Definition console_ok (k : kernel) : Prop := panicked (k_console k) = false /\ screen_ok k.

(** The screen after [cgaputc]: the character, then a scroll if the cursor
    reached the last row. *)
Definition cga_char (c : Z) (t : list Z) (pos : Z) : list Z * Z :=
  if c =? 10 then (t, pos + (80 - pos mod 80))
  else if c =? BACKSPACE then (t, if 0 <? pos then pos - 1 else pos)
  else (zset t pos (Z.lor (Z.land c 0xff) 0x0700), pos + 1).
Definition cga_scroll (t : list Z) (pos : Z) : list Z * Z :=
  if 24 <=? pos / 80
  then (crt_clear (crt_scroll t) (pos - 80) (24 * 80 - (pos - 80)), pos - 80) else (t, pos).
Definition cga (c : Z) (t : list Z) (pos : Z) : list Z * Z :=
  let t1 := cga_char c t pos in
  let t2 := cga_scroll t1.1 t1.2 in
  (zset t2.1 t2.2 (Z.lor 32 0x0700), t2.2).

Definition uart_bytes (c : Z) : list Z :=
  if c =? BACKSPACE then [8; 32; 8] else [u8 c].

(** What has been printed: the uart's bytes, the screen and its cursor. *)
Definition screen (k : kernel) : list Z * (list Z * Z) := (k_out k, (k_crt k, k_crtpos k)).
Definition put_screen (x : list Z * (list Z * Z)) (k : kernel) : kernel :=
  k <| k_out := x.1 |> <| k_crt := x.2.1 |> <| k_crtpos := x.2.2 |>.
Definition emit (uart : bool) (x : list Z * (list Z * Z)) (c : Z) : list Z * (list Z * Z) :=
  (x.1 ++ (if uart then uart_bytes c else []), cga c x.2.1 x.2.2).

(** Printing the characters [s]. *)
Definition puts (s : list Z) (k : kernel) : kernel :=
  put_screen (foldl (emit (k_uart k)) (screen k) s) k.

Section console_facts.
Implicit Types (k : kernel) (e : env).

Lemma length_crt_scroll t : length t = 2000%nat -> length (crt_scroll t) = 2000%nat.
Proof. intros Ht. unfold crt_scroll. rewrite length_app, length_take, !length_drop. lia. Qed.

Lemma length_crt_clear t pos n :
  0 <= pos -> 0 <= n -> pos + n <= Z.of_nat (length t) -> length (crt_clear t pos n) = length t.
Proof.
  intros. unfold crt_clear. rewrite !length_app, length_take, length_replicate, length_drop. lia.
Qed.

Lemma cga_char_bounds c t pos :
  length t = 2000%nat -> 0 <= pos <= 24 * 80 ->
  length (cga_char c t pos).1 = 2000%nat /\ 0 <= (cga_char c t pos).2 <= 25 * 80.
Proof.
  intros Ht Hp. unfold cga_char.
  pose proof (Z.mod_pos_bound pos 80 ltac:(lia)).
  pose proof (Z.div_mod pos 80 ltac:(lia)).
  repeat case_match; cbn [fst snd]; rewrite ?length_zset; lia.
Qed.

Lemma cga_scroll_bounds t pos :
  length t = 2000%nat -> 0 <= pos <= 25 * 80 ->
  length (cga_scroll t pos).1 = 2000%nat /\ 0 <= (cga_scroll t pos).2 <= 24 * 80.
Proof.
  intros Ht Hp. unfold cga_scroll.
  pose proof (Z.div_mod pos 80 ltac:(lia)).
  pose proof (Z.mod_pos_bound pos 80 ltac:(lia)).
  destruct (Z.leb_spec 24 (pos / 80)); cbn [fst snd]; [|lia].
  rewrite length_crt_clear; rewrite ?length_crt_scroll; lia.
Qed.

(** The cursor never leaves the screen, whatever is printed. *)
Lemma cga_bounds c t pos :
  length t = 2000%nat -> 0 <= pos <= 24 * 80 ->
  length (cga c t pos).1 = 2000%nat /\ 0 <= (cga c t pos).2 <= 24 * 80.
Proof.
  intros Ht Hp. unfold cga. cbn [fst snd].
  destruct (cga_char_bounds c t pos Ht Hp) as [H1 H2].
  rewrite length_zset. by apply cga_scroll_bounds.
Qed.

Lemma cgaputc_ok c k e :
  screen_ok k ->
  cgaputc c k e = Ok tt (k <| k_crt := (cga c (k_crt k) (k_crtpos k)).1 |>
                           <| k_crtpos := (cga c (k_crt k) (k_crtpos k)).2 |>) e.
Proof.
  intros [Ht Hp]. destruct (cga_char_bounds c _ _ Ht Hp) as [_ Hc].
  destruct (cga_bounds c _ _ Ht Hp) as [_ Hb]. unfold cga in *. cbn [fst snd] in *.
  unfold cgaputc, put_cell. step.
  erewrite bind_ok with (a := (cga_char c (k_crt k) (k_crtpos k)).2)
    (s' := k <| k_crt := (cga_char c (k_crt k) (k_crtpos k)).1 |>) (e' := e).
  2:{ unfold cga_char. destruct (c =? 10); [by destruct k|].
      destruct (c =? BACKSPACE); [by destruct k|]. done. }
  destruct (cga_char c (k_crt k) (k_crtpos k)) as [t pos]; cbn [fst snd] in *.
  destruct (Z.ltb_spec pos 0); [lia|]. destruct (Z.ltb_spec (25 * 80) pos); [lia|]. cbn [orb].
  unfold cga_scroll in *.
  destruct (24 <=? pos / 80); step; cbn [fst snd] in *.
  all: unfold u16; rewrite Z.mod_small by lia; done.
Qed.

Lemma uartputc_ok c k e :
  uartputc c k e = Ok tt (k <| k_out ::= fun o => o ++ (if k_uart k then [u8 c] else []) |>) e.
Proof.
  unfold uartputc. step. destruct (k_uart k); [done|].
  destruct k; unfold ret, over, over_k_out; simpl. by rewrite app_nil_r.
Qed.

Lemma out_app k (a b : list Z) :
  k <| k_out ::= fun o => o ++ a |> <| k_out ::= fun o => o ++ b |> =
  k <| k_out ::= fun o => o ++ (a ++ b) |>.
Proof. unfold over, over_k_out. fields. simpl. by rewrite <- app_assoc. Qed.

Lemma consputc_ok c k e : console_ok k -> consputc c k e = Ok tt (puts [c] k) e.
Proof.
  intros [Hp Hs]. unfold consputc. step. rewrite Hp.
  unfold puts, put_screen, screen, emit, uart_bytes. cbn [foldl fst snd].
  destruct (c =? BACKSPACE) eqn:Hc; step.
  - do 3 (step; run uartputc_ok). rewrite !out_app. fields.
    rewrite cgaputc_ok by done. fields. generalize (cga c (k_crt k) (k_crtpos k)).
    intros p. by destruct (k_uart k).
  - run uartputc_ok. rewrite cgaputc_ok by done. fields.
    by generalize (cga c (k_crt k) (k_crtpos k)).
Qed.

Lemma puts_app s t k : puts (s ++ t) k = puts t (puts s k).
Proof.
  unfold puts at 1. rewrite foldl_app. unfold puts at 1.
  change (k_uart (puts s k)) with (k_uart k).
  replace (screen (puts s k)) with (foldl (emit (k_uart k)) (screen k) s); [done|].
  unfold puts, screen at 2. unfold put_screen. fields. by destruct (foldl _ _ _) as [? [? ?]].
Qed.

Lemma puts_nil k : puts [] k = k.
Proof. by destruct k. Qed.

Lemma puts_cons c s k : puts (c :: s) k = puts s (puts [c] k).
Proof. exact (puts_app [c] s k). Qed.

Lemma puts_ok s : forall k, console_ok k -> console_ok (puts s k).
Proof.
  induction s as [|c s IH]; intros k (Hp & Ht & Hq); [done|].
  rewrite puts_cons. apply IH. split; [done|]. exact (cga_bounds c _ _ Ht Hq).
Qed.

#[local] Hint Resolve puts_ok : kern.
#[local] Opaque puts consputc.

Lemma consputs_ok s : forall k e, console_ok k -> consputs s k e = Ok tt (puts s k) e.
Proof.
  induction s as [|c s IH]; intros k e Hk; simpl; [by rewrite puts_nil|].
  run consputc_ok. rewrite puts_cons. auto with kern.
Qed.

#[local] Opaque consputs.

(** The format loop prints the rendered text. *)
Lemma cprintf_loop_ok n : forall fmt args k e,
  (length fmt <= n)%nat -> console_ok k ->
  cprintf_loop fmt args k e = Ok tt (puts (render fmt args) k) e.
Proof.
  induction n as [|n IH]; intros fmt args k e Hn Hk;
    (destruct fmt as [|c fmt]; [simpl; by rewrite puts_nil|]); simpl in Hn; [lia|].
  cbn [cprintf_loop render]. destruct (negb (c =? ord "%")).
  { rewrite puts_app. run consputc_ok. apply IH; [lia|auto with kern]. }
  destruct fmt as [|d fmt]; [by rewrite puts_nil|]. simpl in Hn. unfold printint.
  repeat case_match; rewrite ?puts_app.
  all: repeat match goal with
         | |- bind (consputs _) _ _ _ = _ => run consputs_ok by (auto with kern)
         | |- bind (consputc _) _ _ _ = _ => run consputc_ok by (auto with kern)
         end.
  all: apply IH; [lia|auto with kern].
Qed.
#[local] Transparent puts consputc consputs.

(** What printing needs of the machine, and what it leaves. *)
Definition cons_ready (i : nat) (k : kernel) : Prop :=
  console_ok k /\ (cons_locking (k_console k) = true -> cpu_at i k /\ lock_free L_cons k).
Definition ctouch (i : nat) (k : kernel) : kernel :=
  if cons_locking (k_console k) then touch i L_cons k else k.

Lemma cprintf_ok i fmt args k e :
  cons_ready i k ->
  cprintf fmt args k e = Ok tt (puts (render (bytes fmt) args) (ctouch i k)) e.
Proof.
  intros [Hk Hl]. unfold cprintf, ctouch. step.
  destruct (cons_locking (k_console k)) eqn:E; step.
  - destruct (Hl eq_refl) as [Hc Hf]. run (acquire_ok i).
    destruct (locked_by_ready i L_cons k Hc) as (Hc' & Hh & Hn).
    run cprintf_loop_ok. apply (release_ok i); done.
  - by run cprintf_loop_ok.
Qed.
End console_facts.

(** * Reading back what printint prints *)

Definition digit_val (c : Z) : Z :=
  match findi (Z.eqb c) digits with Some n => Z.of_nat n | None => 0 end.
(** The number a string of digits stands for, most significant first. *)
Definition read_num (base : Z) (s : list Z) : Z := foldl (fun v c => v * base + digit_val c) 0 s.
Definition read_int (base : Z) (s : list Z) : Z :=
  match s with
  | c :: s' => if c =? ord "-" then - read_num base s' else read_num base s
  | [] => 0
  end.

Section printint_facts.
Lemma digit_val_digits d : 0 <= d < 16 -> digit_val (zget digits d) = d.
Proof.
  intros Hd. assert (H : Forall (fun d => digit_val (zget digits d) = d) (seqZ 0 16)).
  { vm_compute. repeat constructor. }
  rewrite Forall_forall in H. apply H, list_elem_of_In, elem_of_seqZ. lia.
Qed.

Lemma digits_not_minus d : 0 <= d < 16 -> zget digits d <> ord "-".
Proof.
  intros Hd. assert (H : Forall (fun d => zget digits d <> ord "-") (seqZ 0 16)).
  { vm_compute. repeat constructor; lia. }
  rewrite Forall_forall in H. apply H, list_elem_of_In, elem_of_seqZ. lia.
Qed.

Lemma read_num_snoc base s c : read_num base (s ++ [c]) = read_num base s * base + digit_val c.
Proof. unfold read_num. by rewrite foldl_app. Qed.

Lemma read_printint_digits base n : forall x,
  2 <= base <= 16 -> 0 <= x < base ^ Z.of_nat n ->
  read_num base (rev (printint_digits n x base)) = x.
Proof.
  induction n as [|n IH]; intros x Hb Hx; [simpl in Hx; assert (x = 0) as -> by lia; done|].
  cbn [printint_digits rev]. rewrite read_num_snoc, digit_val_digits.
  2:{ pose proof (Z.mod_pos_bound x base). lia. }
  pose proof (Z.div_mod x base ltac:(lia)).
  rewrite Nat2Z.inj_succ, Z.pow_succ_r in Hx by lia.
  destruct (nz (x / base)) eqn:E.
  - rewrite IH; [lia|done|]. split; [apply Z.div_pos; lia|]. apply Z.div_lt_upper_bound; lia.
  - unfold nz in E. destruct (Z.eqb_spec (x / base) 0); [|done].
    change (read_num base (rev [])) with 0. lia.
Qed.

Lemma length_printint_digits base n m : forall x,
  2 <= base -> 0 <= x < base ^ Z.of_nat (S m) ->
  (length (printint_digits n x base) <= S m)%nat.
Proof.
  revert m. induction n as [|n IH]; intros m x Hb Hx; cbn [printint_digits length]; [lia|].
  rewrite Nat2Z.inj_succ, Z.pow_succ_r in Hx by lia.
  destruct (nz (x / base)) eqn:E; cbn [length]; [|lia].
  assert (0 < x / base < base ^ Z.of_nat m).
  { unfold nz in E. destruct (Z.eqb_spec (x / base) 0); [done|].
    pose proof (Z.div_pos x base ltac:(lia) ltac:(lia)).
    split; [lia|]. apply Z.div_lt_upper_bound; lia. }
  destruct m as [|m]; [simpl in *; lia|].
  apply le_n_S, IH; [done|lia].
Qed.

(** buf[] has 16 bytes: the digits and the sign always fit. *)
Lemma printint_buf_bound xx base sign :
  10 <= base -> (length (printint_buf xx base sign) <= 11)%nat.
Proof.
  intros Hb. unfold printint_buf. set (x := if sign && (i32 xx <? 0) then u32 (- i32 xx) else u32 xx).
  assert (Hx : 0 <= x < 2 ^ 32) by (unfold x; destruct (_ && _); apply u32_range).
  rewrite length_app.
  pose proof (length_printint_digits base 32 9 x ltac:(lia)) as Hl.
  assert (length (printint_digits 32 x base) <= 10)%nat.
  { apply Hl. split; [lia|]. apply (Z.lt_le_trans _ (10 ^ 10)); [lia|].
    apply Z.pow_le_mono_l. lia. }
  destruct (_ && _); cbn [length]; lia.
Qed.

Lemma printint_digits_head base n x : 2 <= base <= 16 ->
  Forall (fun c => c <> ord "-") (printint_digits n x base).
Proof.
  intros Hb. revert x. induction n as [|n IH]; intros x; cbn [printint_digits]; constructor.
  - apply digits_not_minus. pose proof (Z.mod_pos_bound x base). lia.
  - by destruct (nz _); [apply IH|constructor].
Qed.

Lemma read_int_unsigned base s :
  Forall (fun c => c <> ord "-") s -> read_int base s = read_num base s.
Proof.
  destruct s as [|c s]; [done|]. intros [Hc _]%Forall_cons_iff. cbn [read_int].
  by destruct (Z.eqb_spec c (ord "-")).
Qed.

(** Printed signed, a number reads back as itself. *)
Lemma read_printint_signed xx base :
  2 <= base <= 16 -> read_int base (rev (printint_buf xx base true)) = i32 xx.
Proof.
  intros Hb. unfold printint_buf. cbn [andb].
  assert (Hp : 2 ^ 32 <= base ^ Z.of_nat 32) by (apply Z.pow_le_mono_l; lia).
  destruct (Z.ltb_spec (i32 xx) 0).
  - rewrite rev_app_distr. cbn [rev app read_int]. change (ord "-" =? ord "-") with true.
    cbn iota. pose proof (u32_range (- i32 xx)). rewrite read_printint_digits by lia.
    pose proof (i32_range xx). rewrite u32_small; lia.
  - rewrite app_nil_r, read_int_unsigned by (by apply Forall_rev, printint_digits_head).
    pose proof (u32_range xx). rewrite read_printint_digits by lia.
    pose proof (i32_range xx). rewrite <- u32_i32. apply u32_small. lia.
Qed.

(** Printed unsigned, a word reads back as itself. *)
Lemma read_printint_unsigned xx base :
  2 <= base <= 16 -> read_num base (rev (printint_buf xx base false)) = u32 xx.
Proof.
  intros Hb. unfold printint_buf. cbn [andb]. rewrite app_nil_r.
  assert (Hp : 2 ^ 32 <= base ^ Z.of_nat 32) by (apply Z.pow_le_mono_l; lia).
  pose proof (u32_range xx). apply read_printint_digits; lia.
Qed.
End printint_facts.
