(* ===== verification/Kbd.v ===== *)
(** kbd.c and kbd.h: scan codes to characters, with the shift state. *)
From S2P Require Import Prelude Kernel Mem Spinlock Console.
From Stdlib Require Import Ascii.

(** kbd.h *)
Definition SHIFT : Z := 1.
Definition CTL : Z := 2.
Definition ALT : Z := 4.
Definition CAPSLOCK : Z := 8.
Definition NUMLOCK : Z := 16.
Definition SCROLLLOCK : Z := 32.
Definition E0ESC : Z := 64.

Definition KEY_HOME : Z := 0xE0.
Definition KEY_END : Z := 0xE1.
Definition KEY_UP : Z := 0xE2.
Definition KEY_DN : Z := 0xE3.
Definition KEY_LF : Z := 0xE4.
Definition KEY_RT : Z := 0xE5.
Definition KEY_PGUP : Z := 0xE6.
Definition KEY_PGDN : Z := 0xE7.
Definition KEY_INS : Z := 0xE8.
Definition KEY_DEL : Z := 0xE9.

(** The character Control-x. *)
Definition C (x : ascii) : Z := u8 (ord x - ord "@").
Arguments C x%_char_scope.
Definition NO : Z := 0.

Definition shiftcode (d : Z) : Z :=
  if d =? 0x1D then CTL else if d =? 0x2A then SHIFT else if d =? 0x36 then SHIFT
  else if d =? 0x38 then ALT else if d =? 0x9D then CTL else if d =? 0xB8 then ALT else 0.

Definition togglecode (d : Z) : Z :=
  if d =? 0x3A then CAPSLOCK else if d =? 0x45 then NUMLOCK
  else if d =? 0x46 then SCROLLLOCK else 0.

(** The entries above 0x80 that the three maps share. *)
Definition keypad (enter div d : Z) : Z :=
  if d =? 0x9C then enter else if d =? 0xB5 then div
  else if d =? 0xC8 then KEY_UP else if d =? 0xD0 then KEY_DN
  else if d =? 0xC9 then KEY_PGUP else if d =? 0xD1 then KEY_PGDN
  else if d =? 0xCB then KEY_LF else if d =? 0xCD then KEY_RT
  else if d =? 0x97 then KEY_HOME else if d =? 0xCF then KEY_END
  else if d =? 0xD2 then KEY_INS else if d =? 0xD3 then KEY_DEL else 0.

Definition normal_low : list Z :=
  [NO; 0x1B] ++ bytes "1234567890-=" ++ [8; 9] ++ bytes "qwertyuiop[]\n" ++ [NO] ++
  bytes "asdfghjkl;'`" ++ [NO; 92] ++ bytes "zxcvbnm,./" ++ [NO; ord "*"; NO; ord " "] ++
  replicate 13 NO ++ bytes "789-456+1230." ++ replicate 4 NO.
Definition normalmap (d : Z) : Z :=
  if d <? zlen normal_low then zget normal_low d else keypad 10 (ord "/") d.

Definition shift_low : list Z :=
  [NO; 27] ++ bytes "!@#$%^&*()_+" ++ [8; 9] ++ bytes "QWERTYUIOP{}\n" ++ [NO] ++
  bytes "ASDFGHJKL:" ++ [34] ++ bytes "~" ++ [NO] ++ bytes "|ZXCVBNM<>?" ++
  [NO; ord "*"; NO; ord " "] ++ replicate 13 NO ++ bytes "789-456+1230." ++ replicate 4 NO.
Definition shiftmap (d : Z) : Z :=
  if d <? zlen shift_low then zget shift_low d else keypad 10 (ord "/") d.

Definition ctl_low : list Z :=
  replicate 16 NO ++ (C <$> ["Q"; "W"; "E"; "R"; "T"; "Y"; "U"; "I"; "O"; "P"]%char) ++
  [NO; NO; 13; NO] ++ (C <$> ["A"; "S"; "D"; "F"; "G"; "H"; "J"; "K"; "L"]%char) ++
  [NO; NO; NO; NO] ++ (C <$> ["\"; "Z"; "X"; "C"; "V"; "B"; "N"; "M"]%char) ++
  [NO; NO; C "/"; NO; NO].
Definition ctlmap (d : Z) : Z :=
  if d <? zlen ctl_low then zget ctl_low d else keypad 13 (C "/") d.

Definition charcode (s d : Z) : Z :=
  if s =? 0 then normalmap d else if s =? SHIFT then shiftmap d else ctlmap d.

(** One scan code: the shift state it leaves and the character it gives. *)
Definition kbd_code (shift data : Z) : Z * Z :=
  if data =? 0xE0 then (Z.lor shift E0ESC, 0)
  else if bit_set data 0x80 then
    (* Key released *)
    let data := if bit_set shift E0ESC then data else Z.land data 0x7F in
    (Z.land shift (Z.lnot (Z.lor (shiftcode data) E0ESC)), 0)
  else
    let '(data, shift) :=
      if bit_set shift E0ESC
      (* Last character was an E0 escape; or with 0x80 *)
      then (Z.lor data 0x80, Z.land shift (Z.lnot E0ESC)) else (data, shift) in
    let shift := Z.lor shift (shiftcode data) in
    let shift := Z.lxor shift (togglecode data) in
    let c := charcode (Z.land shift (Z.lor CTL SHIFT)) data in
    let c :=
      if bit_set shift CAPSLOCK then
        if (ord "a" <=? c) && (c <=? ord "z") then c + (ord "A" - ord "a")
        else if (ord "A" <=? c) && (c <=? ord "Z") then c + (ord "a" - ord "A")
        else c
      else c in
    (shift, c).

(** -1 when no scan code is waiting at the port. *)
Definition kbdgetc : K Z :=
  q <- gets (fun k => k_kbd k) ;;
  match kbd_data q with
  | [] => ret (-1)
  | data :: rest =>
      let '(shift, c) := kbd_code (kbd_shift q) data in
      modify (fun k => k <| k_kbd := mkKbd rest shift |>) ;;
      ret c
  end.
