(* ===== verification/Vm.v ===== *)
(** vm.c: two-level x86 page tables in the flat memory, address spaces, and
    copying to user memory.  [loaduvm], which reads a file, is in Exec.v. *)
From S2P Require Import Prelude Kernel Mem Spinlock Str Kalloc Console.

(** * The MMU *)

(** The page table walk of the hardware: the physical address and the leaf
    entry of [va] under the page directory at kernel address [pgdir]. *)
Definition pde_of (m : gmap Z Z) (pgdir va : Z) : Z := rd32 m (pgdir + 4 * PDX va).
Definition pgtab_of (pde : Z) : Z := P2V (PTE_ADDR pde).
Definition pte_of (m : gmap Z Z) (pgdir va : Z) : Z :=
  let pde := pde_of m pgdir va in
  if bit_set pde PTE_P then rd32 m (pgtab_of pde + 4 * PTX va) else 0.
Definition translate (m : gmap Z Z) (pgdir va : Z) : option Z :=
  let pte := pte_of m pgdir va in
  if bit_set pte PTE_P then Some (PTE_ADDR pte + va mod PGSIZE) else None.

(** A word load by kernel code: directly from the kernel's part of the address
    space, through the current page table below it. *)
Definition load_word (va : Z) : K Z :=
  m <- gets k_mem ;;
  if KERNBASE <=? va then ret (rd32 m va)
  else
    cr3 <- gets k_cr3 ;;
    match translate m (P2V cr3) va with
    | Some pa => ret (rd32 m (P2V pa))
    | None => fault va
    end.

Definition set_mem (f : gmap Z Z -> gmap Z Z) : K unit := modify (fun k => k <| k_mem ::= f |>).

(** The loops below carry fuel computed from their bounds; running out of it
    is an endless loop. *)
Definition diverge {A} : K A := fun k _ => Blocked k.

Section vm.
Context `{Image}.

(** * walkpgdir, mappages *)

Definition walkpgdir (pgdir va : Z) (alloc : bool) : K Z :=
  let pde := pgdir + 4 * PDX va in
  w <- gets (fun k => rd32 (k_mem k) pde) ;;
  if bit_set w PTE_P then ret (P2V (PTE_ADDR w) + 4 * PTX va)
  else if negb alloc then ret 0
  else
    pgtab <- kalloc ;;
    if pgtab =? 0 then ret 0
    else
      (* Make sure all those PTE_P bits are zero. *)
      set_mem (fun m => memset m pgtab 0 PGSIZE) ;;
      set_mem (fun m => wr32 m pde (Z.lor (Z.lor (Z.lor (V2P pgtab) PTE_P) PTE_W) PTE_U)) ;;
      ret (pgtab + 4 * PTX va).

Fixpoint mappages_loop (n : nat) (pgdir a last pa perm : Z) : K Z :=
  match n with
  | O => diverge
  | S n' =>
      pte <- walkpgdir pgdir a true ;;
      if pte =? 0 then ret (-1)
      else
        w <- gets (fun k => rd32 (k_mem k) pte) ;;
        if bit_set w PTE_P then panic "remap"
        else
          set_mem (fun m => wr32 m pte (Z.lor (Z.lor pa perm) PTE_P)) ;;
          if a =? last then ret 0
          else mappages_loop n' pgdir (u32 (a + PGSIZE)) last (u32 (pa + PGSIZE)) perm
  end.
Definition mappages (pgdir va size pa perm : Z) : K Z :=
  let a := PGROUNDDOWN va in
  let last := PGROUNDDOWN (u32 (va + size - 1)) in
  mappages_loop (S (Z.to_nat (u32 (last - a) / PGSIZE))) pgdir a last pa perm.

(** * Releasing user memory and page tables *)

Fixpoint deallocuvm_loop (n : nat) (pgdir a oldsz : Z) : K unit :=
  match n with
  | O => diverge
  | S n' =>
      if negb (a <? oldsz) then ret tt
      else
        pte <- walkpgdir pgdir a false ;;
        if pte =? 0 then
          let a := u32 (PGADDR (PDX a + 1) 0 0 - PGSIZE) in
          deallocuvm_loop n' pgdir (u32 (a + PGSIZE)) oldsz
        else
          w <- gets (fun k => rd32 (k_mem k) pte) ;;
          when (bit_set w PTE_P)
            (let pa := PTE_ADDR w in
             if pa =? 0 then panic "kfree"
             else
               kfree (P2V pa) ;;
               set_mem (fun m => wr32 m pte 0)) ;;
          deallocuvm_loop n' pgdir (u32 (a + PGSIZE)) oldsz
  end.
Definition deallocuvm (pgdir oldsz newsz : Z) : K Z :=
  if oldsz <=? newsz then ret oldsz
  else
    deallocuvm_loop (S (Z.to_nat (oldsz / PGSIZE + 1))) pgdir (PGROUNDUP newsz) oldsz ;;
    ret newsz.

Definition freevm (pgdir : Z) : K unit :=
  if pgdir =? 0 then panic "freevm: no pgdir"
  else
    deallocuvm pgdir KERNBASE 0 ;;
    for_ (Z.to_nat NPDENTRIES) 0 (fun i =>
      w <- gets (fun k => rd32 (k_mem k) (pgdir + 4 * i)) ;;
      when (bit_set w PTE_P) (kfree (P2V (PTE_ADDR w)))) ;;
    kfree pgdir.

(** * The kernel part of a page table *)

Record kmap := mkKmap { virt : Z; phys_start : Z; phys_end : Z; perm : Z }.
Definition kmaps : list kmap := [
  mkKmap KERNBASE 0              EXTMEM         PTE_W;  (* I/O space *)
  mkKmap KERNLINK (V2P KERNLINK) (V2P sym_data) 0;      (* kern text+rodata *)
  mkKmap sym_data (V2P sym_data) PHYSTOP        PTE_W;  (* kern data+memory *)
  mkKmap DEVSPACE DEVSPACE       0              PTE_W   (* more devices *)
].

Fixpoint setupkvm_loop (ks : list kmap) (pgdir : Z) : K Z :=
  match ks with
  | [] => ret pgdir
  | q :: ks' =>
      r <- mappages pgdir (virt q) (u32 (phys_end q - phys_start q)) (phys_start q) (perm q) ;;
      if r <? 0 then freevm pgdir ;; ret 0
      else setupkvm_loop ks' pgdir
  end.
Definition setupkvm : K Z :=
  pgdir <- kalloc ;;
  if pgdir =? 0 then ret 0
  else
    set_mem (fun m => memset m pgdir 0 PGSIZE) ;;
    if DEVSPACE <? P2V PHYSTOP then panic "PHYSTOP too high"
    else setupkvm_loop kmaps pgdir.

Definition switchkvm : K unit := modify (fun k => k <| k_cr3 := V2P (k_kpgdir k) |>).
Definition kvmalloc : K unit :=
  p <- setupkvm ;;
  modify (fun k => k <| k_kpgdir := p |>) ;;
  switchkvm.

(** Of the task state segment the model keeps [esp0], the stack the CPU
    switches to on a trap. *)
Definition switchuvm (p : option nat) : K unit :=
  match p with
  | None => panic "switchuvm: no process"
  | Some p =>
      pr <- gets (fun k => k_ptable k !!! p) ;;
      if p_kstack pr =? 0 then panic "switchuvm: no kstack"
      else if p_pgdir pr =? 0 then panic "switchuvm: no pgdir"
      else
        pushcli ;;
        c <- mycpu ;;
        modify (upd_cpu c (fun x => x <| c_esp0 := u32 (p_kstack pr + KSTACKSIZE) |>)) ;;
        modify (fun k => k <| k_cr3 := V2P (p_pgdir pr) |>) ;;
        popcli
  end.

(** * Building user memory *)

(** Load the initcode into address 0 of pgdir. *)
Definition inituvm (pgdir : Z) (init : list Z) (sz : Z) : K unit :=
  if PGSIZE <=? sz then panic "inituvm: more than a page"
  else
    mem <- kalloc ;;
    set_mem (fun m => memset m mem 0 PGSIZE) ;;
    mappages pgdir 0 PGSIZE (V2P mem) (Z.lor PTE_W PTE_U) ;;
    set_mem (fun m => store m mem (take (Z.to_nat sz) init)).

Fixpoint allocuvm_loop (n : nat) (pgdir a oldsz newsz : Z) : K Z :=
  match n with
  | O => diverge
  | S n' =>
      if negb (a <? newsz) then ret newsz
      else
        mem <- kalloc ;;
        if mem =? 0 then
          cprintf "allocuvm out of memory\n" [] ;;
          deallocuvm pgdir newsz oldsz ;;
          ret 0
        else
          set_mem (fun m => memset m mem 0 PGSIZE) ;;
          r <- mappages pgdir a PGSIZE (V2P mem) (Z.lor PTE_W PTE_U) ;;
          if r <? 0 then
            cprintf "allocuvm out of memory (2)\n" [] ;;
            deallocuvm pgdir newsz oldsz ;;
            kfree mem ;;
            ret 0
          else allocuvm_loop n' pgdir (u32 (a + PGSIZE)) oldsz newsz
  end.
Definition allocuvm (pgdir oldsz newsz : Z) : K Z :=
  if KERNBASE <=? newsz then ret 0
  else if newsz <? oldsz then ret oldsz
  else
    allocuvm_loop (S (Z.to_nat (newsz / PGSIZE + 1))) pgdir (PGROUNDUP oldsz) oldsz newsz.

Definition clearpteu (pgdir uva : Z) : K unit :=
  pte <- walkpgdir pgdir uva false ;;
  if pte =? 0 then panic "clearpteu"
  else set_mem (fun m => wr32 m pte (Z.land (rd32 m pte) (u32 (Z.lnot PTE_U)))).

Fixpoint copyuvm_loop (n : nat) (pgdir d i sz : Z) : K Z :=
  match n with
  | O => diverge
  | S n' =>
      if negb (i <? sz) then ret d
      else
        pte <- walkpgdir pgdir i false ;;
        if pte =? 0 then panic "copyuvm: pte should exist"
        else
          w <- gets (fun k => rd32 (k_mem k) pte) ;;
          if negb (bit_set w PTE_P) then panic "copyuvm: page not present"
          else
            mem <- kalloc ;;
            if mem =? 0 then freevm d ;; ret 0
            else
              set_mem (fun m => memmove m mem (P2V (PTE_ADDR w)) PGSIZE) ;;
              r <- mappages d i PGSIZE (V2P mem) (PTE_FLAGS w) ;;
              if r <? 0 then kfree mem ;; freevm d ;; ret 0
              else copyuvm_loop n' pgdir d (u32 (i + PGSIZE)) sz
  end.
Definition copyuvm (pgdir sz : Z) : K Z :=
  d <- setupkvm ;;
  if d =? 0 then ret 0
  else copyuvm_loop (S (Z.to_nat (sz / PGSIZE + 1))) pgdir d 0 sz.

(** * Copying to user memory *)

(** uva2ka does not test the pointer walkpgdir returns: without a page table
    for [uva] it reads its flags from address 0. *)
Definition uva2ka (pgdir uva : Z) : K Z :=
  pte <- walkpgdir pgdir uva false ;;
  w <- load_word pte ;;
  if negb (bit_set w PTE_P) then ret 0
  else if negb (bit_set w PTE_U) then ret 0
  else ret (P2V (PTE_ADDR w)).

(** [buf] are the bytes of the object the source pointer points to; reading
    past its end is a fault.  Each round copies at least one byte. *)
Fixpoint copyout_loop (n : nat) (pgdir va : Z) (buf : list Z) (len : Z) : K Z :=
  match n with
  | O => diverge
  | S n' =>
      if len =? 0 then ret 0
      else
        let va0 := PGROUNDDOWN va in
        pa0 <- uva2ka pgdir va0 ;;
        if pa0 =? 0 then ret (-1)
        else
          let n := Z.min (PGSIZE - (va - va0)) len in
          if zlen buf <? n then fault (zlen buf)
          else
            set_mem (fun m => store m (pa0 + (va - va0)) (take (Z.to_nat n) buf)) ;;
            copyout_loop n' pgdir (u32 (va0 + PGSIZE)) (drop (Z.to_nat n) buf) (len - n)
  end.
Definition copyout (pgdir va : Z) (p : list Z) (len : Z) : K Z :=
  copyout_loop (S (Z.to_nat len)) pgdir va p len.

End vm.
