(* ===== verification/VmFacts.v ===== *)
(** Page tables: what walkpgdir and mappages do to the mapping the MMU sees,
    and the address spaces built from them. *)
From S2P Require Import Prelude Kernel Mem Spinlock Str Kalloc Console Vm.

(** * Addresses and entries *)

Lemma PDX_div va : 0 <= va < 2 ^ 32 -> PDX va = va / 2 ^ 22.
Proof.
  intros Hva. unfold PDX, PDXSHIFT. rewrite Z.shiftr_div_pow2 by lia.
  change 0x3FF with (Z.ones 10). rewrite Z.land_ones by lia.
  apply Z.mod_small. split; [apply Z.div_pos; lia|apply Z.div_lt_upper_bound; lia].
Qed.

Lemma PTX_mod va : PTX va = va / 2 ^ 12 mod 2 ^ 10.
Proof.
  unfold PTX, PTXSHIFT. rewrite Z.shiftr_div_pow2 by lia.
  change 0x3FF with (Z.ones 10). by rewrite Z.land_ones by lia.
Qed.

Lemma PDX_range va : 0 <= va < 2 ^ 32 -> 0 <= PDX va < 1024.
Proof.
  intros Hva. rewrite PDX_div by done.
  split; [apply Z.div_pos; lia|apply Z.div_lt_upper_bound; lia].
Qed.

Lemma PTX_range va : 0 <= PTX va < 1024.
Proof. rewrite PTX_mod. apply Z.mod_pos_bound. lia. Qed.

(** Two addresses use the same entry exactly when they are in the same page. *)
Lemma same_entry va va' :
  0 <= va < 2 ^ 32 -> 0 <= va' < 2 ^ 32 ->
  PDX va = PDX va' /\ PTX va = PTX va' <-> va / PGSIZE = va' / PGSIZE.
Proof.
  intros H H'. rewrite !PDX_div, !PTX_mod by done. unfold PGSIZE.
  change (2 ^ 22) with (4096 * 1024). change (2 ^ 12) with 4096. change (2 ^ 10) with 1024.
  rewrite <- !Z.div_div by lia. split; [|by intros ->].
  intros [Hd Ht].
  rewrite (Z.div_mod (va / 4096) 1024), (Z.div_mod (va' / 4096) 1024) by lia. lia.
Qed.

Lemma lor_page a f : a mod PGSIZE = 0 -> 0 <= f < PGSIZE -> Z.lor a f = a + f.
Proof.
  unfold PGSIZE. intros Ha Hf. apply Z.mod_divide in Ha as [q ->]; [|done].
  apply (lor_add_low q f 12); lia.
Qed.

Lemma PTE_ADDR_page a f :
  a mod PGSIZE = 0 -> 0 <= f < PGSIZE -> 0 <= a -> a + f < 2 ^ 32 -> PTE_ADDR (a + f) = a.
Proof.
  unfold PGSIZE. intros Ha Hf H0 Hw. rewrite PTE_ADDR_spec by lia. unfold PGSIZE.
  rewrite Z.add_mod, Ha, Z.add_0_l, Z.mod_mod, Z.mod_small by lia. lia.
Qed.

Lemma land_page_low a f g :
  a mod PGSIZE = 0 -> 0 <= f < PGSIZE -> 0 <= g < PGSIZE -> Z.land (a + f) g = Z.land f g.
Proof.
  unfold PGSIZE. intros Ha Hf Hg. rewrite <- lor_page by done.
  apply Z.mod_divide in Ha as [q ->]; [|done].
  rewrite Z.land_lor_distr_l. change 4096 with (2 ^ 12) in *.
  by rewrite land_shifted_small, Z.lor_0_l by lia.
Qed.

Lemma bit_set_page a f g :
  a mod PGSIZE = 0 -> 0 <= f < PGSIZE -> 0 <= g < PGSIZE -> bit_set (a + f) g = bit_set f g.
Proof. intros. unfold bit_set. by rewrite land_page_low. Qed.

Section vm_facts.
Context `{Image} `{!ImageOk}.

Lemma page_kernel a : page_ok a -> KERNBASE <= a < KERNBASE + PHYSTOP /\ V2P a = a - KERNBASE.
Proof.
  intros (_ & He & Hr & Hp). pose proof end_low. unfold KERNLINK, V2P, u32, KERNBASE, PHYSTOP, EXTMEM in *.
  rewrite Z.mod_small in * by lia. lia.
Qed.

Lemma P2V_V2P a : page_ok a -> P2V (V2P a) = a.
Proof.
  intros Ha. destruct (page_kernel a Ha) as [Hr ->]. unfold P2V.
  rewrite u32_small; unfold KERNBASE, PHYSTOP in *; lia.
Qed.

Lemma V2P_pos a : page_ok a -> 0 < V2P a.
Proof.
  intros Ha. destruct (page_kernel a Ha) as [_ ->]. destruct Ha as (_ & He & _).
  pose proof end_low. unfold KERNLINK, KERNBASE, EXTMEM in *. lia.
Qed.

Lemma page_aligned a : page_ok a -> a mod PGSIZE = 0.
Proof. by intros (? & _). Qed.

Lemma V2P_aligned a : page_ok a -> V2P a mod PGSIZE = 0 /\ 0 <= V2P a < PHYSTOP.
Proof.
  intros Ha. destruct (page_kernel a Ha) as [Hr ->]. pose proof (page_aligned a Ha) as Hm.
  unfold PGSIZE, KERNBASE in *. split; [|lia]. rewrite Zminus_mod, Hm. done.
Qed.

(** * Well-formed page tables *)

(** [T]: the page table page of each present directory entry. *)
Record pt_wf (m : gmap Z Z) (pgdir : Z) (T : gmap Z Z) : Prop := {
  wf_dir : page_ok pgdir;
  wf_table : forall i t, T !! i = Some t -> 0 <= i < 1024 /\ page_ok t /\ t <> pgdir;
  wf_inj : forall i j t, T !! i = Some t -> T !! j = Some t -> i = j;
  wf_present : forall i t, T !! i = Some t ->
    bit_set (rd32 m (pgdir + 4 * i)) PTE_P = true /\ pgtab_of (rd32 m (pgdir + 4 * i)) = t;
  wf_absent : forall i, 0 <= i < 1024 -> T !! i = None ->
    bit_set (rd32 m (pgdir + 4 * i)) PTE_P = false
}.

(** The pages of the table itself. *)
Definition pt_page (pgdir : Z) (T : gmap Z Z) (a : Z) : Prop :=
  a = pgdir \/ exists i, T !! i = Some a.
Definition in_page (a b : Z) : Prop := a <= b < a + PGSIZE.

Lemma in_page_disjoint a a' b :
  page_ok a -> page_ok a' -> in_page a b -> in_page a' b -> a = a'.
Proof.
  intros (Ha & _) (Ha' & _). unfold in_page, PGSIZE in *.
  apply Z.mod_divide in Ha as [p ->]; [|done]. apply Z.mod_divide in Ha' as [q ->]; [|done]. lia.
Qed.

Lemma pte_of_eq m pgdir T va :
  pt_wf m pgdir T -> 0 <= va < 2 ^ 32 ->
  pte_of m pgdir va =
    match T !! PDX va with Some t => rd32 m (t + 4 * PTX va) | None => 0 end.
Proof.
  intros Hwf Hva. unfold pte_of, pde_of. pose proof (PDX_range va Hva) as Hr.
  destruct (T !! PDX va) as [t|] eqn:E.
  - destruct (wf_present _ _ _ Hwf _ _ E) as [-> ->]. done.
  - by rewrite (wf_absent _ _ _ Hwf _ Hr E).
Qed.

(** Memory outside the table's pages does not matter to it. *)
Lemma pt_wf_agree m m' pgdir T :
  pt_wf m pgdir T ->
  (forall b, in_page pgdir b -> rd8 m b = rd8 m' b) -> pt_wf m' pgdir T.
Proof.
  intros [H1 H2 H3 H4 H5] Hag.
  assert (Hrd : forall i, 0 <= i < 1024 -> rd32 m (pgdir + 4 * i) = rd32 m' (pgdir + 4 * i)).
  { intros i Hi. apply rd32_agree. intros b Hb. apply Hag. unfold in_page, PGSIZE. lia. }
  split; [done..| |].
  - intros i t Hi. rewrite <- Hrd by (by eapply H2). by apply H4.
  - intros i Hi HN. rewrite <- Hrd by done. by apply H5.
Qed.

Lemma pte_of_agree m m' pgdir T va :
  pt_wf m pgdir T -> 0 <= va < 2 ^ 32 ->
  (forall a b, pt_page pgdir T a -> in_page a b -> rd8 m b = rd8 m' b) ->
  pte_of m' pgdir va = pte_of m pgdir va.
Proof.
  intros Hwf Hva Hag.
  assert (Hwf' : pt_wf m' pgdir T).
  { eapply pt_wf_agree; [done|]. intros b. apply Hag. by left. }
  rewrite !(pte_of_eq _ _ T) by done. destruct (T !! PDX va) as [t|] eqn:E; [|done].
  symmetry. apply rd32_agree. intros b Hb. apply (Hag t); [right; eauto|].
  pose proof (PTX_range va). unfold in_page, PGSIZE. lia.
Qed.

(** * Updates *)

(** Storing an entry changes the mapping of exactly one page. *)
Lemma pt_set_pte m pgdir T va t v :
  pt_wf m pgdir T -> 0 <= va < 2 ^ 32 -> T !! PDX va = Some t ->
  pt_wf (wr32 m (t + 4 * PTX va) v) pgdir T /\
  forall va', 0 <= va' < 2 ^ 32 ->
    pte_of (wr32 m (t + 4 * PTX va) v) pgdir va' =
      if decide (va' / PGSIZE = va / PGSIZE) then u32 v else pte_of m pgdir va'.
Proof.
  intros Hwf Hva Ht. pose proof (PTX_range va) as Hx.
  destruct (wf_table _ _ _ Hwf _ _ Ht) as (_ & Hpt & Hne).
  assert (Hwf' : pt_wf (wr32 m (t + 4 * PTX va) v) pgdir T).
  { eapply pt_wf_agree; [done|]. intros b Hb. symmetry. apply rd8_wr32_ne.
    destruct (decide (in_page t b)) as [Hb'|Hb'];
      [|unfold in_page, PGSIZE in *; lia].
    destruct Hne. eapply in_page_disjoint; eauto using wf_dir. }
  split; [done|]. intros va' Hva'. pose proof (PTX_range va') as Hx'.
  rewrite !(pte_of_eq _ _ T) by done.
  destruct (decide (va' / PGSIZE = va / PGSIZE)) as [Hs|Hs].
  - apply same_entry in Hs as [-> ->]; [|done..]. rewrite Ht. apply rd32_wr32_eq.
  - destruct (T !! PDX va') as [t'|] eqn:E; [|done]. apply rd32_wr32_ne.
    destruct (wf_table _ _ _ Hwf _ _ E) as (_ & Hpt' & _).
    destruct (decide (t' = t)) as [->|Hd].
    + assert (PTX va' <> PTX va).
      { intros Hp. apply Hs. apply same_entry; [done..|]. split; [|done].
        by eapply (wf_inj _ _ _ Hwf). }
      lia.
    + destruct Hpt as (Ha & _), Hpt' as (Ha' & _). unfold PGSIZE in *.
      apply Z.mod_divide in Ha as [q ->]; [|done]. apply Z.mod_divide in Ha' as [q' ->]; [|done].
      lia.
Qed.

Definition pde_flags (p : Z) : Z := Z.lor (Z.lor (Z.lor (V2P p) PTE_P) PTE_W) PTE_U.

Lemma pde_flags_eq p : page_ok p ->
  u32 (pde_flags p) = V2P p + 7 /\ bit_set (V2P p + 7) PTE_P = true /\ pgtab_of (V2P p + 7) = p.
Proof.
  intros Hp. destruct (V2P_aligned p Hp) as [Ha Hr]. unfold pde_flags, PHYSTOP in *.
  rewrite <- !Z.lor_assoc. change (Z.lor PTE_P (Z.lor PTE_W PTE_U)) with 7.
  rewrite lor_page by (done || unfold PGSIZE; lia). split_and!.
  - apply u32_small. lia.
  - rewrite bit_set_page by (done || unfold PGSIZE, PTE_P; lia). done.
  - unfold pgtab_of. rewrite PTE_ADDR_page by (done || unfold PGSIZE; lia). by apply P2V_V2P.
Qed.

(** A fresh, zeroed page table does not change the mapping. *)
Lemma pt_new_table m pgdir T i p m' :
  pt_wf m pgdir T -> 0 <= i < 1024 -> T !! i = None ->
  page_ok p -> ~ pt_page pgdir T p ->
  m' = wr32 (memset m p 0 PGSIZE) (pgdir + 4 * i) (pde_flags p) ->
  pt_wf m' pgdir (<[i := p]> T) /\
  (forall va, 0 <= va < 2 ^ 32 -> pte_of m' pgdir va = pte_of m pgdir va) /\
  (forall b, ~ in_page p b -> ~ in_page pgdir b -> rd8 m' b = rd8 m b).
Proof.
  intros Hwf Hi HT Hp Hnew ->. pose proof (wf_dir _ _ _ Hwf) as Hd.
  destruct (pde_flags_eq p Hp) as (Hpde & Hpres & Htab).
  assert (Hpd : p <> pgdir) by (intros ->; apply Hnew; by left).
  assert (Hmem : forall b, ~ in_page p b -> rd8 (memset m p 0 PGSIZE) b = rd8 m b).
  { intros b Hb. rewrite rd8_memset by (unfold PGSIZE; lia). by rewrite decide_False. }
  assert (Hdir : forall j, 0 <= j < 1024 -> j <> i ->
    rd32 (wr32 (memset m p 0 PGSIZE) (pgdir + 4 * i) (pde_flags p)) (pgdir + 4 * j)
    = rd32 m (pgdir + 4 * j)).
  { intros j Hj Hne. rewrite rd32_wr32_ne by lia. apply rd32_agree. intros b Hb. apply Hmem.
    intros Hb'. apply Hpd. eapply in_page_disjoint; [done..|]. unfold in_page, PGSIZE. lia. }
  assert (Hout : forall b, ~ in_page p b -> ~ in_page pgdir b ->
    rd8 (wr32 (memset m p 0 PGSIZE) (pgdir + 4 * i) (pde_flags p)) b = rd8 m b).
  { intros b Hb Hb'. rewrite rd8_wr32_ne; [by apply Hmem|]. unfold in_page, PGSIZE in *. lia. }
  assert (Hwf' : pt_wf (wr32 (memset m p 0 PGSIZE) (pgdir + 4 * i) (pde_flags p)) pgdir (<[i := p]> T)).
  { split; [done|..].
    - intros j t. rewrite lookup_insert_Some. intros [[<- <-]|[_ Hj]]; [done|by eapply wf_table].
    - intros j j' t. rewrite !lookup_insert_Some. intros [[<- <-]|[_ Hj]] [[<- ?]|[_ Hj']];
        subst; try done; [| |by eapply (wf_inj _ _ _ Hwf)]; destruct Hnew; right; eauto.
    - intros j t. rewrite lookup_insert_Some. intros [[<- <-]|[Hne Hj]].
      + by rewrite rd32_wr32_eq, Hpde.
      + rewrite Hdir by (done || by eapply wf_table). by apply (wf_present _ _ _ Hwf).
    - intros j Hj. rewrite lookup_insert_None. intros [Hj' Hne]. rewrite Hdir by done.
      by apply (wf_absent _ _ _ Hwf). }
  split_and!; [done| |done].
  intros va Hva. pose proof (PTX_range va).
  rewrite (pte_of_eq _ _ _ va Hwf'), (pte_of_eq _ _ _ va Hwf) by done.
  destruct (decide (PDX va = i)) as [<-|Hne].
  - rewrite lookup_insert_eq, HT. rewrite rd32_wr32_ne.
    + apply rd32_memset_zero; unfold PGSIZE; lia.
    + destruct Hp as (Ha & _), Hd as (Ha' & _). unfold PGSIZE in *.
      apply Z.mod_divide in Ha as [q ->]; [|done]. apply Z.mod_divide in Ha' as [q' ->]; [|done].
      lia.
  - rewrite lookup_insert_ne by done. destruct (T !! PDX va) as [t|] eqn:E; [|done].
    destruct (wf_table _ _ _ Hwf _ _ E) as (_ & Hpt & Htd).
    apply rd32_agree. intros b Hb.
    assert (Hbt : in_page t b) by (unfold in_page, PGSIZE; lia).
    apply Hout; intros Hb'; [apply Hnew; right; exists (PDX va)|apply Htd].
    + rewrite E. f_equal. by eapply in_page_disjoint.
    + by eapply in_page_disjoint.
Qed.

(** * walkpgdir *)

(** The table [T] of [pgdir] and the free list [l], apart from each other. *)
Record vm_inv (k : kernel) (pgdir : Z) (T : gmap Z Z) (l : list Z) : Prop := {
  vi_wf : pt_wf (k_mem k) pgdir T;
  vi_kmem : kmem_inv k l;
  vi_sep : forall a, a ∈ l -> ~ pt_page pgdir T a
}.

(** What an operation that only adds page tables may do: pages move from the
    free list to the table, and no other page changes. *)
Record vm_step (i : nat) (pgdir : Z) (k : kernel) (T : gmap Z Z) (l : list Z)
    (k' : kernel) (T' : gmap Z Z) (l' : list Z) : Prop := {
  vs_inv : vm_inv k' pgdir T' l';
  vs_ready : kmem_ready i k';
  vs_tables : T ⊆ T';
  vs_free : exists used, l = used ++ l' /\
    forall a, pt_page pgdir T' a <-> pt_page pgdir T a \/ a ∈ used;
  vs_other : forall a b, page_ok a -> a ∉ l -> ~ pt_page pgdir T a -> in_page a b ->
    rd8 (k_mem k') b = rd8 (k_mem k) b;
  vs_frame : kframe i k k'
}.

Lemma pt_page_mono pgdir T T' a : T ⊆ T' -> pt_page pgdir T a -> pt_page pgdir T' a.
Proof. intros HT [->|[j Hj]]; [by left|]. right. exists j. by eapply lookup_weaken. Qed.

Lemma pt_page_ok m pgdir T a : pt_wf m pgdir T -> pt_page pgdir T a -> page_ok a.
Proof. intros Hwf [->|[j Hj]]; [by eapply wf_dir|by eapply wf_table]. Qed.

Lemma free_page_ok k l a : kmem_inv k l -> a ∈ l -> page_ok a.
Proof. intros (_ & _ & Hok) Ha. rewrite Forall_forall in Hok. by apply Hok, list_elem_of_In. Qed.

Lemma kmem_inv_mem k l f :
  kmem_inv k l -> (forall a b, a ∈ l -> in_page a b -> rd8 (k_mem k) b = rd8 (f (k_mem k)) b) ->
  kmem_inv (k <| k_mem ::= f |>) l.
Proof.
  intros (Hc & Hn & Ho) Hag. split; [|done]. fields.
  eapply chain_agree; [|done]. intros a b Ha Hb. apply (Hag a); [done|].
  unfold in_page, PGSIZE. lia.
Qed.

Lemma none_used (l : list Z) pgdir T :
  exists used, l = used ++ l /\ forall a, pt_page pgdir T a <-> pt_page pgdir T a \/ a ∈ used.
Proof.
  exists []. split; [done|]. intros a. split; [by left|]. by intros [?|?%elem_of_nil].
Qed.

Lemma vm_step_refl i pgdir k T l :
  vm_inv k pgdir T l -> kmem_ready i k -> vm_step i pgdir k T l k T l.
Proof. intros Hi Hr. split; try done. apply none_used. Qed.

Lemma vm_step_trans i pgdir k1 T1 l1 k2 T2 l2 k3 T3 l3 :
  vm_step i pgdir k1 T1 l1 k2 T2 l2 -> vm_step i pgdir k2 T2 l2 k3 T3 l3 ->
  vm_step i pgdir k1 T1 l1 k3 T3 l3.
Proof.
  intros [I1 R1 S1 (u1 & -> & U1) O1 F1] [I2 R2 S2 (u2 & -> & U2) O2 F2].
  split; [done|done|by etrans| | |by etrans].
  - exists (u1 ++ u2). split; [by rewrite app_assoc|]. intros a. rewrite U2, U1. set_solver.
  - intros a b Ha Hl Hp Hb. rewrite (O2 a b); [apply (O1 a b)|..]; try done; [set_solver|].
    rewrite U1. set_solver.
Qed.

Lemma vm_step_ktouch i pgdir k T l k' T' l' :
  vm_step i pgdir k T l k' T' l' -> vm_step i pgdir k T l (ktouch i k') T' l'.
Proof.
  intros [[H1 H2 H3] R S F O G]. pose proof (kmem_ready_ktouch i k' R).
  split; [split| | | | |]; try done; rewrite ?k_mem_ktouch, ?kmem_inv_ktouch; try done.
  etrans; [done|apply kframe_ktouch].
Qed.

(** Only the memory of the first state matters. *)
Lemma vm_step_mem i pgdir k1 k T l k' T' l' :
  k_mem k1 = k_mem k -> kframe i k k1 ->
  vm_step i pgdir k1 T l k' T' l' -> vm_step i pgdir k T l k' T' l'.
Proof.
  intros Hm Hf [I R S F O G]. split; try done; [|by etrans].
  intros. rewrite <- Hm. by eapply O.
Qed.

(** Taking the free page [p] for the table of entry [j]. *)
Lemma vm_step_new_table i pgdir k T l p j :
  pt_wf (k_mem k) pgdir T -> kmem_inv k l -> kmem_ready i k ->
  (forall a, a ∈ p :: l -> ~ pt_page pgdir T a) -> p ∉ l -> page_ok p ->
  0 <= j < 1024 -> T !! j = None ->
  let f m := wr32 (memset m p 0 PGSIZE) (pgdir + 4 * j) (pde_flags p) in
  vm_step i pgdir k T (p :: l) (k <| k_mem ::= f |>) (<[j := p]> T) l.
Proof.
  intros Hwf Hk Hr Hsep Hpl Hp Hj HT f.
  destruct (pt_new_table (k_mem k) pgdir T j p _ Hwf Hj HT Hp (Hsep p ltac:(set_solver)) eq_refl)
    as (Hwf' & _ & Hout).
  assert (Hpages : forall a, pt_page pgdir (<[j := p]> T) a <-> pt_page pgdir T a \/ a ∈ [p]).
  { intros a. unfold pt_page. setoid_rewrite lookup_insert_Some. split.
    - intros [->|(j' & [[_ <-]|[_ Hj']])]; [by left; left|by right; set_solver|].
      left. right. eauto.
    - intros [[->|[j' Hj']]|Ha%list_elem_of_singleton]; [by left| |right; by exists j; left].
      right. exists j'. right. split; [congruence|done]. }
  split.
  - split; [done| |].
    + apply kmem_inv_mem; [done|]. intros a b Ha Hb. symmetry. apply Hout; intros Hb'.
      * assert (a = p) as -> by (eapply in_page_disjoint; eauto using free_page_ok). done.
      * apply (Hsep a); [set_solver|]. left.
        eapply in_page_disjoint; eauto using free_page_ok, wf_dir.
    + intros a Ha. rewrite Hpages. intros [?|Ha'%list_elem_of_singleton]; [|by subst].
      apply (Hsep a); [set_solver|done].
  - done.
  - by apply insert_subseteq.
  - exists [p]. split; [done|exact Hpages].
  - intros a b Ha Hl Hpt Hb. apply Hout; intros Hb'.
    + apply Hl. assert (a = p) as -> by (by eapply in_page_disjoint). set_solver.
    + apply Hpt. left. eapply in_page_disjoint; eauto using wf_dir.
  - apply kframe_mem.
Qed.

Lemma walkpgdir_present k e pgdir T va t alloc :
  pt_wf (k_mem k) pgdir T -> T !! PDX va = Some t ->
  walkpgdir pgdir va alloc k e = Ok (t + 4 * PTX va) k e.
Proof.
  intros Hwf Ht. destruct (wf_present _ _ _ Hwf _ _ Ht) as [Hp Htab].
  unfold walkpgdir. step. rewrite Hp. unfold pgtab_of in Htab. by rewrite Htab.
Qed.

Lemma walkpgdir_absent k e pgdir T va :
  pt_wf (k_mem k) pgdir T -> 0 <= va < 2 ^ 32 -> T !! PDX va = None ->
  walkpgdir pgdir va false k e = Ok 0 k e.
Proof.
  intros Hwf Hva HT. unfold walkpgdir. step.
  by rewrite (wf_absent _ _ _ Hwf _ (PDX_range va Hva) HT).
Qed.

(** walkpgdir with alloc finds or makes the page table of [va]; the mapping is
    what it was.  It fails only when memory is exhausted. *)
Lemma walkpgdir_alloc i k e pgdir T l va :
  vm_inv k pgdir T l -> kmem_ready i k -> 0 <= va < 2 ^ 32 ->
  exists r k' T' l', walkpgdir pgdir va true k e = Ok r k' e /\
    vm_step i pgdir k T l k' T' l' /\
    (forall va', 0 <= va' < 2 ^ 32 -> pte_of (k_mem k') pgdir va' = pte_of (k_mem k) pgdir va') /\
    ((exists t, T' !! PDX va = Some t /\ r = t + 4 * PTX va) \/ (r = 0 /\ l' = [])).
Proof.
  intros Hinv Hr Hva. pose proof Hinv as [Hwf Hk Hsep]. pose proof (PDX_range va Hva) as Hd.
  destruct (T !! PDX va) as [t|] eqn:E.
  { exists (t + 4 * PTX va), k, T, l. rewrite (walkpgdir_present _ _ _ T _ t) by done.
    split_and!; [done|by apply vm_step_refl|done|eauto]. }
  unfold walkpgdir. step. rewrite (wf_absent _ _ _ Hwf _ Hd E). cbn [negb].
  destruct l as [|p l].
  { run (kalloc_nil i). cbn. exists 0, (ktouch i k), T, []. rewrite k_mem_ktouch.
    split_and!; [done| |done|by right]. apply vm_step_ktouch. by apply vm_step_refl. }
  destruct (kalloc_cons i k e p l Hr Hk) as (Hrun & Hmem & Hk' & Hr' & Hp0 & Hpl).
  rewrite (bind_ok _ _ _ _ _ _ _ Hrun). destruct (Z.eqb_spec p 0); [done|]. unfold set_mem. step.
  assert (Hin : p ∈ p :: l) by constructor.
  pose proof (free_page_ok _ _ _ Hk Hin) as Hpok. pose proof (Hsep p Hin) as Hnew.
  set (k1 := kpop (ktouch i k)) in *. rewrite <- Hmem in Hwf.
  destruct (pt_new_table (k_mem k1) pgdir T (PDX va) p _ Hwf Hd E Hpok Hnew eq_refl)
    as (Hwf' & Hpte & _).
  eexists _, _, (<[PDX va := p]> T), l. split; [reflexivity|]. rewrite <- Hmem.
  split; [|split; [exact Hpte|left; exists p; by rewrite lookup_insert_eq]].
  pose proof (vm_step_new_table i pgdir k1 T l p (PDX va)) as Hs.
  eapply vm_step_mem; [exact Hmem|apply kframe_kpop|]. by apply Hs.
Qed.

(** * mappages *)

(** Storing into a page table page that is there. *)
Lemma vm_step_set_pte i pgdir k T l va t v :
  vm_inv k pgdir T l -> kmem_ready i k -> 0 <= va < 2 ^ 32 -> T !! PDX va = Some t ->
  vm_step i pgdir k T l (k <| k_mem ::= fun m => wr32 m (t + 4 * PTX va) v |>) T l.
Proof.
  intros [Hwf Hk Hsep] Hr Hva Ht. pose proof (PTX_range va) as Hx.
  destruct (wf_table _ _ _ Hwf _ _ Ht) as (_ & Hpt & _).
  assert (Hptp : pt_page pgdir T t) by (right; eauto).
  assert (Hout : forall b, ~ in_page t b -> rd8 (wr32 (k_mem k) (t + 4 * PTX va) v) b = rd8 (k_mem k) b).
  { intros b Hb. apply rd8_wr32_ne. unfold in_page, PGSIZE in *. lia. }
  split.
  - split; [by apply pt_set_pte| |done].
    apply kmem_inv_mem; [done|]. intros a b Ha Hb. symmetry. apply Hout. intros Hb'.
    apply (Hsep a Ha). replace a with t; [done|]. eapply in_page_disjoint; eauto using free_page_ok.
  - done.
  - done.
  - apply none_used.
  - intros a b Ha Hl Hp Hb. apply Hout. intros Hb'. apply Hp.
    replace a with t; [done|]. by eapply in_page_disjoint.
  - apply kframe_mem.
Qed.

(** The entry mappages stores. *)
Definition leaf (pa perm : Z) : Z := Z.lor (Z.lor pa perm) PTE_P.

Lemma lor_P_bound perm : 0 <= perm < PGSIZE -> 0 <= Z.lor perm PTE_P < PGSIZE.
Proof.
  intros Hp. split; [apply Z.lor_nonneg; unfold PTE_P; lia|].
  destruct (Z.eq_dec (Z.lor perm PTE_P) 0) as [->|]; [done|].
  change PGSIZE with (2 ^ 12) in *. apply Z.log2_lt_pow2.
  { pose proof (proj2 (Z.lor_nonneg perm PTE_P)). unfold PTE_P in *. lia. }
  rewrite Z.log2_lor by (unfold PTE_P; lia). change (Z.log2 PTE_P) with 0.
  destruct (Z.eq_dec perm 0) as [->|]; [done|].
  pose proof (proj1 (Z.log2_lt_pow2 perm 12 ltac:(lia))). pose proof (Z.log2_nonneg perm). lia.
Qed.

Lemma leaf_eq pa perm :
  pa mod PGSIZE = 0 -> 0 <= pa < 2 ^ 32 -> 0 <= perm < PGSIZE ->
  u32 (leaf pa perm) = leaf pa perm /\ bit_set (leaf pa perm) PTE_P = true /\
  PTE_ADDR (leaf pa perm) = pa /\ leaf pa perm = pa + Z.lor perm PTE_P.
Proof.
  intros Ha Hr Hp. unfold leaf. rewrite <- Z.lor_assoc.
  pose proof (lor_P_bound perm Hp) as Hb.
  rewrite lor_page by done.
  assert (Hw : pa + Z.lor perm PTE_P < 2 ^ 32).
  { unfold PGSIZE in *. apply Z.mod_divide in Ha as [q ->]; [|done]. lia. }
  split_and!; [apply u32_small; lia| |apply PTE_ADDR_page; (done || lia)|done].
  rewrite bit_set_page by (done || unfold PGSIZE, PTE_P; lia).
  unfold bit_set. rewrite Z.land_lor_distr_l, Z.land_diag. unfold nz.
  destruct (Z.eqb_spec (Z.lor (Z.land perm PTE_P) PTE_P) 0) as [E|]; [|done].
  apply Z.lor_eq_0_iff in E as [_ E]. done.
Qed.

(** The mapping after [n] pages from [a] are mapped to the pages from [pa]. *)
Definition mapped (a pa perm : Z) (n : nat) (f : Z -> Z) (va : Z) : Z :=
  if decide (a <= va < a + PGSIZE * Z.of_nat n)
  then leaf (pa + (va / PGSIZE * PGSIZE - a)) perm else f va.

Lemma mapped_S a pa perm n f va :
  a mod PGSIZE = 0 -> 
  mapped (a + PGSIZE) (pa + PGSIZE) perm n
    (fun va => if decide (va / PGSIZE = a / PGSIZE) then leaf pa perm else f va) va
  = mapped a pa perm (S n) f va.
Proof.
  intros Ha. unfold mapped, PGSIZE in *. apply Z.mod_divide in Ha as [q ->]; [|done].
  rewrite Z.div_mul by done. pose proof (Z.div_mod va 4096 ltac:(lia)).
  pose proof (Z.mod_pos_bound va 4096 ltac:(lia)).
  repeat case_decide; try lia; try done; f_equal; lia.
Qed.

Lemma table_nonzero m pgdir T va t :
  pt_wf m pgdir T -> T !! PDX va = Some t -> t + 4 * PTX va <> 0.
Proof.
  intros Hwf Ht. destruct (wf_table _ _ _ Hwf _ _ Ht) as (_ & Hpt & _).
  destruct (page_kernel t Hpt) as [Hr _]. pose proof (PTX_range va). unfold KERNBASE in *. lia.
Qed.

(** One round of the loop: the page at [a] is mapped, or memory is exhausted. *)
Lemma map_one i pgdir perm a pa k e T l (rest : K Z) :
  vm_inv k pgdir T l -> kmem_ready i k ->
  0 <= a < 2 ^ 32 -> pa mod PGSIZE = 0 -> 0 <= pa < 2 ^ 32 -> 0 <= perm < PGSIZE ->
  bit_set (pte_of (k_mem k) pgdir a) PTE_P = false ->
  exists k' T' l', vm_step i pgdir k T l k' T' l' /\
    let body :=
      pte <- walkpgdir pgdir a true ;;
      if pte =? 0 then ret (-1)
      else
        w <- gets (fun k => rd32 (k_mem k) pte) ;;
        if bit_set w PTE_P then panic "remap"
        else set_mem (fun m => wr32 m pte (Z.lor (Z.lor pa perm) PTE_P)) ;; rest in
    (body k e = rest k' e /\
       (forall va, 0 <= va < 2 ^ 32 -> pte_of (k_mem k') pgdir va =
          if decide (va / PGSIZE = a / PGSIZE) then leaf pa perm else pte_of (k_mem k) pgdir va)) \/
    (body k e = Ok (-1) k' e /\ l' = [] /\
       forall va, 0 <= va < 2 ^ 32 -> pte_of (k_mem k') pgdir va = pte_of (k_mem k) pgdir va).
Proof.
  intros Hinv Hr Ha Hpa Hpr Hperm Hnp. cbv zeta.
  destruct (walkpgdir_alloc i k e pgdir T l a Hinv Hr Ha)
    as (r & k1 & T1 & l1 & Hrun & Hstep & Hpte & Hres).
  rewrite (bind_ok _ _ _ _ _ _ _ Hrun).
  destruct Hres as [(t & Ht & ->)|(-> & ->)]; [|exists k1, T1, []; eauto].
  pose proof Hstep as [Hinv1 Hr1 _ _ _]. pose proof Hinv1 as [Hwf1 _ _].
  destruct (Z.eqb_spec (t + 4 * PTX a) 0); [by eapply table_nonzero in Ht|].
  step. pose proof (Hpte a Ha) as Hold. rewrite (pte_of_eq _ _ _ _ Hwf1 Ha), Ht in Hold.
  rewrite Hold, Hnp. unfold set_mem. step.
  destruct (leaf_eq pa perm Hpa Hpr Hperm) as (Hu & _).
  destruct (pt_set_pte _ _ _ a t (leaf pa perm) Hwf1 Ha Ht) as [_ Hpte2].
  eexists _, T1, l1. split; [|left; split; [reflexivity|]].
  - eapply vm_step_trans; [exact Hstep|]. by apply vm_step_set_pte.
  - intros va Hva. fields. fold (leaf pa perm). rewrite Hpte2, Hu by done.
    case_decide; [done|by apply Hpte].
Qed.

Lemma mappages_loop_ok i pgdir perm n : forall a pa k e T l,
  vm_inv k pgdir T l -> kmem_ready i k ->
  a mod PGSIZE = 0 -> 0 <= a -> a + PGSIZE * Z.of_nat n < 2 ^ 32 ->
  pa mod PGSIZE = 0 -> 0 <= pa -> pa + PGSIZE * Z.of_nat n < 2 ^ 32 -> 0 <= perm < PGSIZE ->
  (forall va, a <= va < a + PGSIZE * Z.of_nat (S n) ->
     bit_set (pte_of (k_mem k) pgdir va) PTE_P = false) ->
  exists r k' T' l',
    mappages_loop (S n) pgdir a (a + PGSIZE * Z.of_nat n) pa perm k e = Ok r k' e /\
    vm_step i pgdir k T l k' T' l' /\
    ((r = 0 /\ forall va, 0 <= va < 2 ^ 32 ->
        pte_of (k_mem k') pgdir va = mapped a pa perm (S n) (pte_of (k_mem k) pgdir) va) \/
     (r = -1 /\ l' = [] /\ forall va, 0 <= va < 2 ^ 32 ->
        va < a \/ a + PGSIZE * Z.of_nat (S n) <= va ->
        pte_of (k_mem k') pgdir va = pte_of (k_mem k) pgdir va)).
Proof.
  induction n as [|n IH]; intros a pa k e T l Hinv Hr Ha Ha0 Haw Hp Hp0 Hpw Hperm Hfree;
    cbn [mappages_loop].
  all: edestruct (map_one i pgdir perm a pa k e T l)
         as (k1 & T1 & l1 & Hs & [[Hb Hpte]|(Hb & Hl & Hpte)]);
         [done|done|unfold PGSIZE in *; lia|done|unfold PGSIZE in *; lia|done
         |apply Hfree; unfold PGSIZE; lia|..]; rewrite Hb.
  - rewrite (proj2 (Z.eqb_eq a _)) by lia. exists 0, k1, T1, l1. split_and!; [done..|left].
    split; [done|]. intros va Hva. rewrite Hpte, <- mapped_S by done.
    unfold mapped. by rewrite (decide_False (P := _ <= va < _)) by lia.
  - exists (-1), k1, T1, l1. split_and!; [done..|right; eauto].
  - rewrite (proj2 (Z.eqb_neq a _)) by (unfold PGSIZE; lia).
    rewrite !u32_small by (unfold PGSIZE in *; lia).
    replace (a + PGSIZE * Z.of_nat (S n)) with (a + PGSIZE + PGSIZE * Z.of_nat n) by lia.
    destruct (IH (a + PGSIZE) (pa + PGSIZE) k1 e T1 l1) as (r & k' & T' & l' & Hrun & Hs' & Hres);
      [by eapply vs_inv|by eapply vs_ready|..]; try (unfold PGSIZE in *; lia).
    { unfold PGSIZE in *. by rewrite Zplus_mod, Ha. }
    { unfold PGSIZE in *. by rewrite Zplus_mod, Hp. }
    { assert (a + PGSIZE * (Z.of_nat n + 2) <= 2 ^ 32).
      { unfold PGSIZE in *. apply Z.mod_divide in Ha as [q ->]; [lia|done]. }
      intros va Hva. rewrite Hpte by (unfold PGSIZE in *; lia). rewrite decide_False.
      - apply Hfree. unfold PGSIZE in *; lia.
      - unfold PGSIZE in *. apply Z.mod_divide in Ha as [q ->]; [|done]. rewrite Z.div_mul by done.
        intros E. pose proof (Z.div_mod va 4096). pose proof (Z.mod_pos_bound va 4096). lia. }
    exists r, k', T', l'. split_and!; [exact Hrun|by eapply vm_step_trans|].
    destruct Hres as [[-> Hm]|(-> & -> & Hm)]; [left|right].
    + split; [done|]. intros va Hva. rewrite Hm, <- (mapped_S a) by done.
      unfold mapped. case_decide; [done|]. by apply Hpte.
    + split_and!; [done..|]. intros va Hva Hout. rewrite Hm, Hpte by (unfold PGSIZE in *; lia).
      rewrite decide_False; [done|]. unfold PGSIZE in *. apply Z.mod_divide in Ha as [q ->]; [|done].
      rewrite Z.div_mul by done. pose proof (Z.div_mod va 4096). pose proof (Z.mod_pos_bound va 4096). lia.
  - exists (-1), k1, T1, l1. split_and!; [done..|right; eauto].
Qed.

(** mappages on a range of addresses: [n] is one less than the number of pages
    the range touches. *)
Lemma mappages_ok i pgdir va size pa perm k e T l n :
  vm_inv k pgdir T l -> kmem_ready i k ->
  0 <= va -> 0 < size -> va + size <= 2 ^ 32 ->
  let a := va / PGSIZE * PGSIZE in
  Z.of_nat n = (va + size - 1) / PGSIZE - va / PGSIZE ->
  pa mod PGSIZE = 0 -> 0 <= pa -> pa + PGSIZE * Z.of_nat n < 2 ^ 32 -> 0 <= perm < PGSIZE ->
  (forall x, a <= x < a + PGSIZE * Z.of_nat (S n) ->
     bit_set (pte_of (k_mem k) pgdir x) PTE_P = false) ->
  exists r k' T' l',
    mappages pgdir va size pa perm k e = Ok r k' e /\
    vm_step i pgdir k T l k' T' l' /\
    ((r = 0 /\ forall x, 0 <= x < 2 ^ 32 ->
        pte_of (k_mem k') pgdir x = mapped a pa perm (S n) (pte_of (k_mem k) pgdir) x) \/
     (r = -1 /\ l' = [] /\ forall x, 0 <= x < 2 ^ 32 ->
        x < a \/ a + PGSIZE * Z.of_nat (S n) <= x ->
        pte_of (k_mem k') pgdir x = pte_of (k_mem k) pgdir x)).
Proof.
  intros Hinv Hr Hva Hsz Hw a Hn Hpa Hp0 Hpw Hperm Hfree. unfold PGSIZE in *.
  assert (Hlow : PGROUNDDOWN va = a).
  { rewrite PGROUNDDOWN_spec by lia. unfold a, PGSIZE. pose proof (Z.div_mod va 4096). lia. }
  assert (Hlast : PGROUNDDOWN (u32 (va + size - 1)) = a + 4096 * Z.of_nat n).
  { rewrite u32_small, PGROUNDDOWN_spec by lia. unfold a, PGSIZE.
    pose proof (Z.div_mod (va + size - 1) 4096). lia. }
  assert (Ha0 : 0 <= va / 4096) by (apply Z.div_pos; lia).
  assert (Hb : (va + size - 1) / 4096 < 2 ^ 20) by (apply Z.div_lt_upper_bound; lia).
  unfold mappages. rewrite Hlow, Hlast. unfold a in *.
  replace (Z.to_nat _) with n.
  2:{ rewrite u32_small by lia. unfold PGSIZE.
      replace (va / 4096 * 4096 + 4096 * Z.of_nat n - va / 4096 * 4096) with (Z.of_nat n * 4096) by lia.
      rewrite Z.div_mul by lia. lia. }
  apply (mappages_loop_ok i); unfold PGSIZE; try done; try lia.
  by rewrite Z.mod_mul.
Qed.

(** One page, as allocuvm, copyuvm and inituvm use it. *)
Lemma mappages_page i pgdir a pa perm k e T l :
  vm_inv k pgdir T l -> kmem_ready i k ->
  a mod PGSIZE = 0 -> 0 <= a < 2 ^ 32 -> pa mod PGSIZE = 0 -> 0 <= pa < 2 ^ 32 ->
  0 <= perm < PGSIZE ->
  bit_set (pte_of (k_mem k) pgdir a) PTE_P = false ->
  exists r k' T' l',
    mappages pgdir a PGSIZE pa perm k e = Ok r k' e /\
    vm_step i pgdir k T l k' T' l' /\
    ((r = 0 /\ forall x, 0 <= x < 2 ^ 32 -> pte_of (k_mem k') pgdir x =
        if decide (x / PGSIZE = a / PGSIZE) then leaf pa perm else pte_of (k_mem k) pgdir x) \/
     (r = -1 /\ l' = [] /\ forall x, 0 <= x < 2 ^ 32 ->
        pte_of (k_mem k') pgdir x = pte_of (k_mem k) pgdir x)).
Proof.
  intros Hinv Hr Ha Har Hpa Hpr Hperm Hfree. unfold PGSIZE in *.
  assert (Hq : exists q, a = q * 4096) by (apply Z.mod_divide in Ha as [q ->]; [eauto|done]).
  destruct Hq as [q ->].
  assert (Hlow : PGROUNDDOWN (q * 4096) = q * 4096).
  { rewrite PGROUNDDOWN_spec by lia. unfold PGSIZE. lia. }
  assert (Hlast : PGROUNDDOWN (u32 (q * 4096 + 4096 - 1)) = q * 4096).
  { rewrite u32_small, PGROUNDDOWN_spec by lia. unfold PGSIZE.
    replace (q * 4096 + 4096 - 1) with (4095 + q * 4096) by lia.
    rewrite Z_mod_plus_full, Z.mod_small by lia. lia. }
  unfold mappages, PGSIZE. rewrite Hlow, Hlast, Z.sub_diag. cbn [Z.to_nat].
  edestruct (map_one i pgdir perm (q * 4096) pa k e T l)
    as (k1 & T1 & l1 & Hs & [[Hb Hpte]|(Hb & Hl & Hpte)]); try done.
  - change (S (Z.to_nat (u32 0 / 4096))) with 1%nat. cbn [mappages_loop]. rewrite Hb, Z.eqb_refl.
    exists 0, k1, T1, l1. split_and!; [done..|left]. done.
  - change (S (Z.to_nat (u32 0 / 4096))) with 1%nat. cbn [mappages_loop]. rewrite Hb.
    exists (-1), k1, T1, l1. split_and!; [done..|right; done].
Qed.

End vm_facts.
