(* ===== verification/UvmFacts.v ===== *)
(** User address spaces: which physical page backs each user page, and how
    allocuvm, deallocuvm and freevm move pages between an address space and the
    free list. *)
From S2P Require Import Prelude Kernel Mem Spinlock Str Kalloc Console Vm VmFacts.

Section uvm.
Context `{Image} `{!ImageOk}.

(** The number of user pages. *)
Definition UPAGES : Z := KERNBASE / PGSIZE.

(** [P]: the page behind each user page number.  Everything is apart: free
    pages, the pages of the table, the user's pages. *)
Record uvm_inv (k : kernel) (pgdir : Z) (T : gmap Z Z) (l : list Z) (P : gmap Z Z) : Prop := {
  ui_vm : vm_inv k pgdir T l;
  ui_page : forall v u, P !! v = Some u -> 0 <= v < UPAGES /\ page_ok u;
  ui_present : forall v u, P !! v = Some u ->
    bit_set (pte_of (k_mem k) pgdir (v * PGSIZE)) PTE_P = true /\
    pgtab_of (pte_of (k_mem k) pgdir (v * PGSIZE)) = u;
  ui_absent : forall v, 0 <= v < UPAGES -> P !! v = None ->
    bit_set (pte_of (k_mem k) pgdir (v * PGSIZE)) PTE_P = false;
  ui_inj : forall v w u, P !! v = Some u -> P !! w = Some u -> v = w;
  ui_sep : forall v u, P !! v = Some u -> u ∉ l /\ ~ pt_page pgdir T u
}.

Lemma user_va v : 0 <= v < UPAGES -> 0 <= v * PGSIZE < 2 ^ 32.
Proof. unfold UPAGES, PGSIZE, KERNBASE. change (0x80000000 / 4096) with 524288. lia. Qed.

Lemma page_nonzero a : page_ok a -> a <> 0.
Proof. intros Ha. destruct (page_kernel a Ha) as [Hr _]. unfold KERNBASE in Hr. lia. Qed.

(** A mapped user page has a page table. *)
Lemma user_table k pgdir T l P v u :
  uvm_inv k pgdir T l P -> P !! v = Some u -> exists t, T !! PDX (v * PGSIZE) = Some t.
Proof.
  intros Hi Hv. destruct (ui_page _ _ _ _ _ Hi _ _ Hv) as [Hr _].
  destruct (ui_present _ _ _ _ _ Hi _ _ Hv) as [Hp _].
  rewrite (pte_of_eq _ _ T) in Hp by (eauto using user_va, vi_wf, ui_vm).
  destruct (T !! PDX (v * PGSIZE)); [eauto|done].
Qed.

(** Releasing the page behind [v]: kfree, then a zero entry. *)
Lemma uvm_release i k e pgdir T l P v u t :
  uvm_inv k pgdir T l P -> kmem_ready i k -> P !! v = Some u -> T !! PDX (v * PGSIZE) = Some t ->
  let pte := t + 4 * PTX (v * PGSIZE) in
  exists k', (kfree u ;; set_mem (fun m => wr32 m pte 0)) k e = Ok tt k' e /\
    uvm_inv k' pgdir T (u :: l) (delete v P) /\ kmem_ready i k' /\ kframe i k k' /\
    (forall a b, page_ok a -> a <> u -> ~ pt_page pgdir T a -> in_page a b ->
       rd8 (k_mem k') b = rd8 (k_mem k) b).
Proof.
  intros Hi Hr Hv Ht pte. pose proof Hi as [[Hwf Hk Hsep] Hpage Hpres Habs Hinj Hs].
  destruct (Hpage _ _ Hv) as [Hvr Hu]. destruct (Hs _ _ Hv) as [Hul Hup].
  pose proof (user_va v Hvr) as Hva. pose proof (PTX_range (v * PGSIZE)) as Hx.
  destruct (wf_table _ _ _ Hwf _ _ Ht) as (_ & Hpt & _).
  destruct (kfree_page i k e u l Hr Hk Hu (page_nonzero u Hu) Hul) as (Hrun & Hk' & Hr' & Hfr & Hmem).
  set (k1 := kpush u (ktouch i k)) in *.
  assert (Hag : forall a b, page_ok a -> a <> u -> in_page a b -> rd8 (k_mem k) b = rd8 (k_mem k1) b).
  { intros a b Ha Hne Hb. symmetry. apply Hmem.
    destruct (decide (in_page u b)) as [Hb'|Hb']; [|unfold in_page in Hb'; lia].
    destruct Hne. by eapply in_page_disjoint. }
  assert (Hagt : forall a b, pt_page pgdir T a -> in_page a b -> rd8 (k_mem k) b = rd8 (k_mem k1) b).
  { intros a b Ha. apply Hag; [by eapply pt_page_ok|]. by intros ->. }
  assert (Hwf1 : pt_wf (k_mem k1) pgdir T).
  { eapply pt_wf_agree; [done|]. intros b. apply Hagt. by left. }
  assert (Hinv1 : vm_inv k1 pgdir T (u :: l)).
  { split; [done..|]. intros a [->|Ha]%elem_of_cons; [done|by apply Hsep]. }
  assert (Hpte1 : forall x, 0 <= x < 2 ^ 32 -> pte_of (k_mem k1) pgdir x = pte_of (k_mem k) pgdir x).
  { intros x Hx'. by eapply pte_of_agree. }
  destruct (pt_set_pte _ _ _ (v * PGSIZE) t 0 Hwf1 Hva Ht) as [_ Hpte2].
  pose proof (vm_step_set_pte i pgdir k1 T (u :: l) (v * PGSIZE) t 0 Hinv1 Hr' Hva Ht)
    as [Hinv2 Hr2 _ _ _ Hfr2].
  assert (Hpte : forall w, 0 <= w < UPAGES -> pte_of (wr32 (k_mem k1) pte 0) pgdir (w * PGSIZE) =
    if decide (w = v) then 0 else pte_of (k_mem k) pgdir (w * PGSIZE)).
  { intros w Hw. unfold pte. rewrite Hpte2, Hpte1, !Z.div_mul by (try done; by apply user_va).
    destruct (decide (w = v)); done. }
  eexists. rewrite (bind_ok _ _ _ _ _ _ _ Hrun). split; [reflexivity|]. split_and!.
  - split; [done|..]; fields.
    + intros w x [_ Hw]%lookup_delete_Some. by eapply Hpage.
    + intros w x [Hne Hw]%lookup_delete_Some. rewrite Hpte by (by eapply Hpage).
      rewrite decide_False by done. by apply Hpres.
    + intros w Hw Hd. rewrite Hpte by done. case_decide; [done|].
      rewrite lookup_delete_ne in Hd by done. by apply Habs.
    + intros w x y [_ Hw]%lookup_delete_Some [_ Hx']%lookup_delete_Some. by eapply Hinj.
    + intros w x [Hne Hw]%lookup_delete_Some. destruct (Hs _ _ Hw) as [Hxl Hxp]. split; [|done].
      intros [->|?]%elem_of_cons; [|done]. apply Hne. by eapply Hinj.
  - done.
  - by etrans.
  - intros a b Ha Hne Hnp Hb. fields. rewrite rd8_wr32_ne; [symmetry; by apply (Hag a)|].
    destruct (decide (in_page t b)) as [Hb'|Hb']; [|unfold in_page, pte, PGSIZE in *; lia].
    destruct Hnp. replace a with t by (by eapply in_page_disjoint). right; eauto.
Qed.

(** The pages of [P] with number in [lo, hi), in the order the loop meets them. *)
Definition drop_range (lo hi : Z) (P : gmap Z Z) : gmap Z Z :=
  filter (fun p => ~ (lo <= p.1 < hi)) P.

Lemma drop_range_empty lo hi P : hi <= lo -> drop_range lo hi P = P.
Proof. intros Hle. apply map_filter_id. intros v u _; simpl. lia. Qed.

Lemma drop_range_absent lo mid hi P :
  lo <= mid -> (forall v, lo <= v < mid -> v < hi -> P !! v = None) ->
  drop_range mid hi P = drop_range lo hi P.
Proof.
  intros Hle Hn. apply map_filter_ext. intros v u Hv; simpl. split; [|lia].
  intros Hm Hr. assert (lo <= v < mid) by lia. rewrite Hn in Hv by lia. done.
Qed.

Lemma drop_range_step lo hi P : lo < hi -> drop_range (lo + 1) hi (delete lo P) = drop_range lo hi P.
Proof.
  intros Hlt. apply map_eq. intros v. apply option_eq. intros u.
  unfold drop_range. rewrite !map_lookup_filter_Some, lookup_delete_Some. simpl.
  split; [intros [[? ?] ?]; split; [done|lia]|intros [? ?]; split; [split; [lia|done]|lia]].
Qed.

(** The number of pages a process of [sz] bytes has. *)
Definition npages (sz : Z) : Z := (sz + PGSIZE - 1) / PGSIZE.

Lemma npages_lt a sz : a < npages sz <-> a * PGSIZE < sz.
Proof. unfold npages, PGSIZE. dlia. Qed.

Lemma PGROUNDUP_npages sz : 0 <= sz <= KERNBASE -> PGROUNDUP sz = npages sz * PGSIZE.
Proof. unfold KERNBASE, PGSIZE. intros Hs. rewrite PGROUNDUP_spec; unfold npages, PGSIZE; done || lia. Qed.

Lemma PDX_page v : 0 <= v < UPAGES -> PDX (v * PGSIZE) = v / 1024.
Proof.
  intros Hv. rewrite PDX_div by (by apply user_va). unfold PGSIZE. dlia.
Qed.

(** Where the loop resumes after a region without a page table. *)
Lemma next_region v : 0 <= v < UPAGES ->
  u32 (u32 (PGADDR (PDX (v * PGSIZE) + 1) 0 0 - PGSIZE) + PGSIZE) = (v / 1024 + 1) * 1024 * PGSIZE.
Proof.
  intros Hv. rewrite PDX_page by done. unfold PGADDR, PDXSHIFT, PTXSHIFT.
  rewrite !Z.shiftl_mul_pow2, Z.mul_0_l, !Z.lor_0_r by lia.
  unfold UPAGES, KERNBASE, PGSIZE in *. change (0x80000000 / 4096) with 524288 in Hv.
  unfold u32. change (2 ^ 22) with 4194304.
  rewrite (Z.mod_small ((v / 1024 + 1) * 4194304)) by dlia.
  rewrite (Z.mod_small (_ - 4096)) by dlia. rewrite Z.mod_small by dlia. dlia.
Qed.

Lemma next_page v : 0 <= v < UPAGES -> u32 (v * PGSIZE + PGSIZE) = (v + 1) * PGSIZE.
Proof.
  unfold UPAGES, KERNBASE, PGSIZE. change (0x80000000 / 4096) with 524288.
  intros Hv. rewrite u32_small; lia.
Qed.

Lemma npages_user sz : sz <= KERNBASE -> npages sz <= UPAGES.
Proof.
  unfold npages, UPAGES, KERNBASE, PGSIZE. change (0x80000000 / 4096) with 524288. dlia.
Qed.

Lemma absent_region k pgdir T l P a v :
  uvm_inv k pgdir T l P -> 0 <= a < UPAGES -> T !! PDX (a * PGSIZE) = None ->
  a <= v < (a / 1024 + 1) * 1024 -> P !! v = None.
Proof.
  intros Hi Ha HT Hv. destruct (P !! v) as [u|] eqn:Hp; [|done]. exfalso.
  destruct (user_table _ _ _ _ _ _ _ Hi Hp) as [t Ht].
  destruct (ui_page _ _ _ _ _ Hi _ _ Hp) as [Hvr _].
  rewrite PDX_page in * by done. replace (v / 1024) with (a / 1024) in Ht by dlia. congruence.
Qed.

Lemma backed_pa pa u : page_ok u -> P2V pa = u -> (pa =? 0) = false.
Proof.
  intros Hu <-. apply Z.eqb_neq. intros ->. pose proof (V2P_pos _ Hu) as Hp.
  by change (0 < 0) in Hp.
Qed.

(** What a pass over the pages [lo, hi) leaves: those pages are on the free
    list, the others are mapped and hold what they held. *)
Record uvm_freed (i : nat) (pgdir : Z) (k : kernel) (T : gmap Z Z) (l : list Z) (P : gmap Z Z)
    (lo hi : Z) (k' : kernel) (freed : list Z) : Prop := {
  uf_inv : uvm_inv k' pgdir T (freed ++ l) (drop_range lo hi P);
  uf_ready : kmem_ready i k';
  uf_pages : forall u, u ∈ freed <-> exists v, P !! v = Some u /\ lo <= v < hi;
  uf_other : forall a b, page_ok a -> a ∉ freed -> ~ pt_page pgdir T a -> in_page a b ->
    rd8 (k_mem k') b = rd8 (k_mem k) b;
  uf_frame : kframe i k k'
}.

Lemma uvm_freed_none i pgdir k T l P lo hi :
  uvm_inv k pgdir T l P -> kmem_ready i k -> hi <= lo -> uvm_freed i pgdir k T l P lo hi k [].
Proof.
  intros Hi Hr Hle. split; [by rewrite drop_range_empty|done| |done..].
  intros u. rewrite elem_of_nil. split; [done|]. intros (v & _ & Hv). lia.
Qed.

Lemma uvm_freed_skip i pgdir k T l P lo mid hi k' freed :
  lo <= mid -> (forall v, lo <= v < mid -> P !! v = None) ->
  uvm_freed i pgdir k T l P mid hi k' freed -> uvm_freed i pgdir k T l P lo hi k' freed.
Proof.
  intros Hle Hn [Hi Hr Hp Ho Hf]. split; [|done| |done..].
  - rewrite <- (drop_range_absent lo mid) by auto. done.
  - intros u. rewrite Hp. split; intros (v & Hv & Hr'); exists v; split; try done; [lia|].
    destruct (decide (v < mid)); [|lia]. by rewrite Hn in Hv by lia.
Qed.

Lemma uvm_freed_step i pgdir k T l P lo hi u k1 k' freed :
  lo < hi -> P !! lo = Some u ->
  (forall a b, page_ok a -> a <> u -> ~ pt_page pgdir T a -> in_page a b ->
    rd8 (k_mem k1) b = rd8 (k_mem k) b) -> kframe i k k1 ->
  uvm_freed i pgdir k1 T (u :: l) (delete lo P) (lo + 1) hi k' freed ->
  uvm_freed i pgdir k T l P lo hi k' (freed ++ [u]).
Proof.
  intros Hlt Hu Hf Hfr [Hi Hr Hp Ho Hfr']. split.
  - rewrite <- app_assoc. simpl. by rewrite drop_range_step in Hi by done.
  - done.
  - intros x. rewrite elem_of_app, Hp, list_elem_of_singleton. split.
    + intros [(v & Hv & Hr')| ->]; [|exists lo; split; [done|lia]].
      apply lookup_delete_Some in Hv as [? ?]. exists v; split; [done|lia].
    + intros (v & Hv & Hr'). destruct (decide (v = lo)) as [->|]; [right; congruence|].
      left. exists v. rewrite lookup_delete_ne by done. split; [done|lia].
  - intros a b Ha [Hn1 Hn2]%not_elem_of_app Hnp Hb. rewrite (Ho a), (Hf a); try done.
    intros ->. apply Hn2. by apply list_elem_of_singleton.
  - by etrans.
Qed.

(** The loop of deallocuvm releases exactly the pages it passes, skipping the
    regions that have no page table. *)
Lemma deallocuvm_loop_ok i pgdir oldsz n : forall a k e T l P,
  uvm_inv k pgdir T l P -> kmem_ready i k -> 0 <= a <= UPAGES -> 0 <= oldsz <= KERNBASE ->
  (Z.to_nat (npages oldsz - a) < n)%nat ->
  exists k' freed, deallocuvm_loop n pgdir (a * PGSIZE) oldsz k e = Ok tt k' e /\
    uvm_freed i pgdir k T l P a (npages oldsz) k' freed.
Proof.
  induction n as [|n IH]; intros a k e T l P Hi Hr Ha Ho Hn; [lia|].
  cbn [deallocuvm_loop]. destruct (a * PGSIZE <? oldsz) eqn:E; cbn [negb].
  2: { exists k, []. split; [done|]. apply uvm_freed_none; [done..|].
       rewrite <- Z.nlt_ge, npages_lt. lia. }
  apply Z.ltb_lt, npages_lt in E. pose proof (npages_user oldsz (proj2 Ho)) as Hu.
  assert (Har : 0 <= a < UPAGES) by lia. pose proof (user_va a Har) as Hva.
  pose proof (vi_wf _ _ _ _ (ui_vm _ _ _ _ _ Hi)) as Hwf.
  destruct (T !! PDX (a * PGSIZE)) as [t|] eqn:Ht.
  - rewrite (bind_ok _ _ _ _ _ _ _ (walkpgdir_present k e pgdir T _ t false Hwf Ht)).
    pose proof (table_nonzero _ _ _ _ _ Hwf Ht) as Htz.
    rewrite (proj2 (Z.eqb_neq _ 0) Htz). step. rewrite next_page by done.
    pose proof (pte_of_eq _ _ _ _ Hwf Hva) as Hpte. rewrite Ht in Hpte. rewrite <- Hpte.
    destruct (P !! a) as [u|] eqn:Hp.
    + destruct (ui_present _ _ _ _ _ Hi _ _ Hp) as [Hpp Hpu]. 
      destruct (ui_page _ _ _ _ _ Hi _ _ Hp) as [_ Hup].
      rewrite Hpp. cbn [when].
      destruct (uvm_release i k e pgdir T l P a u t Hi Hr Hp Ht) as (k1 & Hrun & Hi1 & Hr1 & Hfr1 & Hf1).
      unfold pgtab_of in Hpu. rewrite (backed_pa _ u Hup Hpu), Hpu.
      rewrite (bind_ok _ _ _ _ _ _ _ Hrun).
      destruct (IH (a + 1) k1 e T (u :: l) (delete a P)) as (k' & freed & Hrun' & Hfr); [done..|lia|done|lia|].
      exists k', (freed ++ [u]). split; [done|]. by eapply uvm_freed_step.
    + rewrite (ui_absent _ _ _ _ _ Hi _ Har Hp). cbn [when]. step.
      destruct (IH (a + 1) k e T l P) as (k' & freed & Hrun & Hfr); [done..|lia|done|lia|].
      exists k', freed. split; [done|]. eapply uvm_freed_skip, Hfr; [lia|].
      intros v Hv. by replace v with a by lia.
  - rewrite (bind_ok _ _ _ _ _ _ _ (walkpgdir_absent k e pgdir T _ Hwf Hva Ht)).
    change (0 =? 0) with true. cbv iota. rewrite next_region by done.
    assert (a < (a / 1024 + 1) * 1024 <= UPAGES).
    { revert Har. unfold UPAGES, KERNBASE, PGSIZE. change (0x80000000 / 4096) with 524288. dlia. }
    destruct (IH ((a / 1024 + 1) * 1024) k e T l P) as (k' & freed & Hrun & Hfr); [done..|lia|done|lia|].
    exists k', freed. split; [done|]. eapply uvm_freed_skip, Hfr; [lia|].
    intros v. by eapply absent_region.
Qed.

(** deallocuvm gives back exactly the pages between the new and the old size. *)
Lemma deallocuvm_ok i pgdir oldsz newsz k e T l P :
  uvm_inv k pgdir T l P -> kmem_ready i k -> 0 <= newsz < oldsz -> oldsz <= KERNBASE ->
  exists k' freed, deallocuvm pgdir oldsz newsz k e = Ok newsz k' e /\
    uvm_freed i pgdir k T l P (npages newsz) (npages oldsz) k' freed.
Proof.
  intros Hi Hr Hn Ho. unfold deallocuvm. rewrite (proj2 (Z.leb_gt _ _)) by lia.
  rewrite PGROUNDUP_npages by lia. pose proof (npages_user newsz ltac:(lia)).
  destruct (deallocuvm_loop_ok i pgdir oldsz (S (Z.to_nat (oldsz / PGSIZE + 1)))
              (npages newsz) k e T l P) as (k' & freed & Hrun & Hf); [done|done| |lia| |].
  - split; [|done]. unfold npages, PGSIZE. dlia.
  - unfold npages, PGSIZE. dlia.
  - exists k', freed. by rewrite (bind_ok _ _ _ _ _ _ _ Hrun).
Qed.

(** The page tables with index below [j] are free, the directory is intact. *)
Record tables_freed (i : nat) (k0 : kernel) (pgdir : Z) (T : gmap Z Z) (l : list Z) (j : Z)
    (k : kernel) (freed : list Z) : Prop := {
  tf_free : kmem_inv k (freed ++ l);
  tf_ready : kmem_ready i k;
  tf_wf : pt_wf (k_mem k) pgdir T;
  tf_sep : forall a, a ∈ l -> ~ pt_page pgdir T a;
  tf_pages : forall t, t ∈ freed <-> exists x, T !! x = Some t /\ x < j;
  tf_frame : kframe i k0 k;
  tf_other : forall a b, page_ok a -> ~ pt_page pgdir T a -> in_page a b ->
    rd8 (k_mem k) b = rd8 (k_mem k0) b
}.

Lemma free_table i k0 pgdir T l j k e freed t :
  tables_freed i k0 pgdir T l j k freed -> T !! j = Some t ->
  exists k', kfree t k e = Ok tt k' e /\ tables_freed i k0 pgdir T l (j + 1) k' (t :: freed).
Proof.
  intros [Hk Hr Hwf Hsep Hp Hfr Hot] Ht. destruct (wf_table _ _ _ Hwf _ _ Ht) as (_ & Hpt & Hne).
  destruct (kfree_page i k e t (freed ++ l)) as (Hrun & Hk' & Hr' & Hfr' & Hm); try done.
  { by apply page_nonzero. }
  { rewrite elem_of_app, Hp. intros [(x & Hx & Hlt)|Hl].
    - pose proof (wf_inj _ _ _ Hwf _ _ _ Ht Hx). lia.
    - destruct (Hsep _ Hl). right. eauto. }
  eexists. split; [done|]. split; try done.
  - eapply pt_wf_agree; [done|]. intros b Hb. symmetry. apply Hm.
    destruct (decide (in_page t b)) as [Hb'|Hb']; [|unfold in_page in Hb'; lia].
    destruct Hne. eapply in_page_disjoint; [done|apply Hwf|done..].
  - intros x. rewrite elem_of_cons, Hp. split.
    + intros [->|(y & Hy & Hlt)]; [exists j|exists y]; (split; [done|lia]).
    + intros (y & Hy & Hlt). destruct (decide (y = j)) as [->|]; [left; congruence|].
      right. exists y. split; [done|lia].
  - by etrans.
  - intros a b Ha Hn Hb. rewrite Hm; [by apply (Hot a)|].
    destruct (decide (in_page t b)) as [Hb'|Hb']; [|unfold in_page in Hb'; lia].
    destruct Hn. right. exists j. by rewrite (in_page_disjoint a t b).
Qed.

Lemma free_tables i k0 pgdir T l n : forall j k e freed,
  tables_freed i k0 pgdir T l j k freed -> 0 <= j -> j + Z.of_nat n = 1024 ->
  exists k' freed',
    for_ n j (fun i => w <- gets (fun k => rd32 (k_mem k) (pgdir + 4 * i)) ;;
      when (bit_set w PTE_P) (kfree (P2V (PTE_ADDR w)))) k e = Ok tt k' e /\
    tables_freed i k0 pgdir T l 1024 k' freed'.
Proof.
  induction n as [|n IH]; intros j k e freed Hf Hj Hn.
  { exists k, freed. split; [done|]. by replace 1024 with j by lia. }
  cbn [for_]. rewrite bind_assoc. step. pose proof (tf_wf _ _ _ _ _ _ _ _ Hf) as Hwf.
  destruct (T !! j) as [t|] eqn:Ht.
  - destruct (wf_present _ _ _ Hwf _ _ Ht) as [-> Htab]. unfold pgtab_of in Htab. rewrite Htab.
    destruct (free_table i k0 pgdir T l j k e freed t Hf Ht) as (k1 & Hrun & Hf1). cbn [when].
    rewrite (bind_ok _ _ _ _ _ _ _ Hrun). by apply (IH (j + 1) k1 e (t :: freed)); try lia.
  - rewrite (wf_absent _ _ _ Hwf) by (lia || done). cbn [when]. step.
    apply (IH (j + 1) k e freed); try lia. destruct Hf as [? ? ? ? Hp Hfr Hot]. split; try done.
    intros x. rewrite Hp. split; intros (y & Hy & Hlt); exists y; (split; [done|]); [lia|].
    destruct (decide (y = j)) as [->|]; [congruence|lia].
Qed.

Lemma UPAGES_npages : npages KERNBASE = UPAGES.
Proof. reflexivity. Qed.

(** freevm gives every page of the address space back, once: the user pages,
    the page tables and the directory. *)
Lemma freevm_ok i pgdir k e T l P :
  uvm_inv k pgdir T l P -> kmem_ready i k ->
  exists k' l', freevm pgdir k e = Ok tt k' e /\ kmem_inv k' l' /\ kmem_ready i k' /\ kframe i k k' /\
    (forall a, a ∈ l' <-> a ∈ l \/ pt_page pgdir T a \/ exists v, P !! v = Some a) /\
    forall a b, page_ok a -> a ∉ l' -> in_page a b -> rd8 (k_mem k') b = rd8 (k_mem k) b.
Proof.
  intros Hi Hr. pose proof (vi_wf _ _ _ _ (ui_vm _ _ _ _ _ Hi)) as Hwf.
  pose proof (wf_dir _ _ _ Hwf) as Hd. unfold freevm.
  rewrite (proj2 (Z.eqb_neq pgdir 0) (page_nonzero _ Hd)).
  destruct (deallocuvm_ok i pgdir KERNBASE 0 k e T l P) as (k1 & fr & Hrun & [Hi1 Hr1 Hp1 Ho1 Hf1]);
    [done..|unfold KERNBASE; lia|done|].
  rewrite (bind_ok _ _ _ _ _ _ _ Hrun). destruct (ui_vm _ _ _ _ _ Hi1) as [Hwf1 Hk1 Hsep1].
  destruct (free_tables i k1 pgdir T (fr ++ l) (Z.to_nat NPDENTRIES) 0 k1 e []) as (k2 & ft & Hrun2 & [Hk2 Hr2 Hwf2 Hs2 Hp2 Hf2 Ho2]).
  { split; try done. intros t. rewrite elem_of_nil. split; [done|]. intros (x & Hx & Hlt).
    destruct (wf_table _ _ _ Hwf1 _ _ Hx). lia. }
  { done. } { done. }
  rewrite (bind_ok _ _ _ _ _ _ _ Hrun2).
  destruct (kfree_page i k2 e pgdir (ft ++ fr ++ l)) as (Hrun3 & Hk3 & Hr3 & Hf3 & Ho3); try done.
  { by apply page_nonzero. }
  { rewrite elem_of_app, Hp2. intros [(x & Hx & _)|Hl].
    - by destruct (wf_table _ _ _ Hwf1 _ _ Hx) as (_ & _ & ?).
    - destruct (Hsep1 _ Hl). by left. }
  eexists _, _. split_and!; [done..|by etrans; [|etrans]| |].
  - intros a. rewrite elem_of_cons, !elem_of_app, Hp1, Hp2.
    assert (Hall : (exists v, P !! v = Some a /\ npages 0 <= v < npages KERNBASE) <->
                   exists v, P !! v = Some a).
    { split; [intros (v & Hv & _); eauto|]. intros (v & Hv). exists v. split; [done|].
      rewrite UPAGES_npages. change (npages 0) with 0. by destruct (ui_page _ _ _ _ _ Hi _ _ Hv). }
    assert (Htab : (exists x, T !! x = Some a /\ x < 1024) <-> exists x, T !! x = Some a).
    { split; [intros (x & Hx & _); eauto|]. intros (x & Hx). exists x. split; [done|].
      by destruct (wf_table _ _ _ Hwf1 _ _ Hx) as [[_ ?] _]. }
    rewrite Hall, Htab. unfold pt_page. tauto.
  - intros a b Ha Hn Hb. rewrite elem_of_cons, !elem_of_app in Hn.
    assert (Hnp : ~ pt_page pgdir T a).
    { intros [->|[x Hx]]; [tauto|]. apply Hn. right. left. apply Hp2. exists x. split; [done|].
      by destruct (wf_table _ _ _ Hwf1 _ _ Hx) as [[_ ?] _]. }
    rewrite Ho3; [by rewrite (Ho2 a), (Ho1 a) by (done || tauto)|].
    destruct (decide (in_page pgdir b)) as [Hb'|Hb']; [|unfold in_page in Hb'; lia].
    destruct Hn. left. by eapply in_page_disjoint.
Qed.

(** * Growing *)

(** A page the address space does not use and the allocator does not own. *)
Definition spare (pgdir : Z) (T : gmap Z Z) (l : list Z) (P : gmap Z Z) (u : Z) : Prop :=
  page_ok u /\ u ∉ l /\ ~ pt_page pgdir T u /\ forall v, P !! v <> Some u.

(** Taking the first free page and filling it. *)
Lemma uvm_take i k e pgdir T u l P f :
  uvm_inv k pgdir T (u :: l) P -> kmem_ready i k ->
  (forall m b, ~ in_page u b -> rd8 (f m) b = rd8 m b) ->
  let k' := kpop (ktouch i k) <| k_mem ::= f |> in
  kalloc k e = Ok u (kpop (ktouch i k)) e /\ u <> 0 /\
  uvm_inv k' pgdir T l P /\ kmem_ready i k' /\ kframe i k k' /\ spare pgdir T l P u /\
  k_mem k' = f (k_mem k) /\
  (forall a b, page_ok a -> a <> u -> in_page a b -> rd8 (k_mem k') b = rd8 (k_mem k) b) /\
  (forall x, 0 <= x < 2 ^ 32 -> pte_of (k_mem k') pgdir x = pte_of (k_mem k) pgdir x).
Proof.
  intros Hi Hr Hf k'. pose proof Hi as [[Hwf Hk Hsep] Hpage Hpres Habs Hinj Hs].
  destruct (kalloc_cons i k e u l Hr Hk) as (Hrun & Hm & Hk1 & Hr1 & Hu0 & Hul).
  pose proof (free_page_ok k _ u Hk ltac:(by left)) as Hu.
  assert (Hup : ~ pt_page pgdir T u) by (apply Hsep; by left).
  assert (Hmem : k_mem k' = f (k_mem k)) by (unfold k'; fields; by rewrite Hm).
  assert (Hag : forall a b, page_ok a -> a <> u -> in_page a b -> rd8 (k_mem k) b = rd8 (k_mem k') b).
  { intros a b Ha Hne Hb. rewrite Hmem, Hf; [done|]. intros Hb'. destruct Hne.
    by eapply in_page_disjoint. }
  assert (Hagt : forall a b, pt_page pgdir T a -> in_page a b -> rd8 (k_mem k) b = rd8 (k_mem k') b).
  { intros a b Ha. apply Hag; [by eapply pt_page_ok|]. by intros ->. }
  assert (Hpte : forall x, 0 <= x < 2 ^ 32 -> pte_of (k_mem k') pgdir x = pte_of (k_mem k) pgdir x).
  { intros x Hx. by eapply pte_of_agree. }
  split_and!; try done.
  - split.
    + split.
      * eapply pt_wf_agree; [done|]. intros b. apply Hagt. by left.
      * apply kmem_inv_mem; [done|]. rewrite Hm, <- Hmem. intros a b Ha. apply Hag.
        -- by eapply free_page_ok.
        -- by intros ->.
      * intros a Ha. apply Hsep. by right.
    + done.
    + intros v x Hv. rewrite Hpte by (by eapply user_va, Hpage). by apply Hpres.
    + intros v Hv Hn. rewrite Hpte by (by apply user_va). by apply Habs.
    + done.
    + intros v x Hv. destruct (Hs _ _ Hv) as [Hx ?]. split; [|done]. intros ?. apply Hx. by right.
  - etrans; [apply kframe_kpop|done].
  - split_and!; try done. intros v Hv. destruct (Hs _ _ Hv) as [Hx _]. apply Hx. by left.
  - intros a b Ha Hne Hb. symmetry. by apply (Hag a).
Qed.

(** A step of the page-table code that leaves the user's entries alone. *)
Lemma uvm_inv_step i pgdir k T l k' T' l' P :
  uvm_inv k pgdir T l P -> vm_step i pgdir k T l k' T' l' ->
  (forall x, 0 <= x < 2 ^ 32 -> pte_of (k_mem k') pgdir x = pte_of (k_mem k) pgdir x) ->
  uvm_inv k' pgdir T' l' P.
Proof.
  intros [_ Hpage Hpres Habs Hinj Hs] [Hi' _ _ (used & -> & Hused) _ _] Hpte. split; try done.
  - intros v x Hv. rewrite Hpte by (by eapply user_va, Hpage). by apply Hpres.
  - intros v Hv Hn. rewrite Hpte by (by apply user_va). by apply Habs.
  - intros v x Hv. destruct (Hs _ _ Hv) as [Hx Hp]. rewrite elem_of_app in Hx.
    split; [tauto|]. rewrite Hused. tauto.
Qed.

(** A step that maps the spare page [u] at [v]. *)
Lemma uvm_inv_map i pgdir k T l k' T' l' P v u perm :
  uvm_inv k pgdir T l P -> vm_step i pgdir k T l k' T' l' -> spare pgdir T l P u ->
  0 <= v < UPAGES -> P !! v = None -> 0 <= perm < PGSIZE ->
  (forall x, 0 <= x < 2 ^ 32 -> pte_of (k_mem k') pgdir x =
    if decide (x / PGSIZE = v) then leaf (V2P u) perm else pte_of (k_mem k) pgdir x) ->
  uvm_inv k' pgdir T' l' (<[v := u]> P) /\ spare pgdir T' l' P u.
Proof.
  intros [_ Hpage Hpres Habs Hinj Hs] [Hi' _ _ (used & -> & Hused) _ _] (Hu & Hul & Hup & HuP)
    Hv Hn Hperm Hpte. rewrite elem_of_app in Hul.
  assert (Hsu : u ∉ l' /\ ~ pt_page pgdir T' u) by (rewrite Hused; tauto).
  assert (Hpte' : forall w, 0 <= w < UPAGES -> pte_of (k_mem k') pgdir (w * PGSIZE) =
    if decide (w = v) then leaf (V2P u) perm else pte_of (k_mem k) pgdir (w * PGSIZE)).
  { intros w Hw. rewrite Hpte by (by apply user_va). by rewrite Z.div_mul. }
  destruct (V2P_aligned u Hu) as [Hal Hlt]. unfold PHYSTOP in Hlt.
  destruct (leaf_eq (V2P u) perm Hal ltac:(lia) Hperm) as (_ & Hlp & Hla & _).
  split; [|split_and!; try done; by destruct Hsu]. split; try done.
  - intros w x [[<- <-]|[_ Hw]]%lookup_insert_Some; [done|by apply Hpage].
  - intros w x [[<- <-]|[Hne Hw]]%lookup_insert_Some.
    + rewrite Hpte', decide_True by done. unfold pgtab_of. by rewrite Hla, P2V_V2P.
    + rewrite Hpte' by (by eapply Hpage). rewrite decide_False by done. by apply Hpres.
  - intros w Hw [Hw' Hne]%lookup_insert_None. rewrite Hpte', decide_False by done. by apply Habs.
  - intros w w' x [[<- <-]|[_ Hw]]%lookup_insert_Some [[<- Hx]|[_ Hw']]%lookup_insert_Some;
      try done; [by destruct (HuP w')|by subst; destruct (HuP w)|by eapply Hinj].
  - intros w x [[<- <-]|[_ Hw]]%lookup_insert_Some; [done|].
    destruct (Hs _ _ Hw) as [Hx Hp]. rewrite elem_of_app in Hx. split; [tauto|].
    rewrite Hused. tauto.
Qed.

(** ** The console, as the out-of-memory paths use it *)

Lemma cons_ready_kframe i k k' : kframe i k k' -> cons_ready i k -> cons_ready i k'.
Proof.
  intros [Hf _ Hc _ Hl] [Hok Hlk].
  assert (Hcons : k_console k' = k_console k) by exact (f_equal k_console Hf).
  split.
  - unfold console_ok, screen_ok in *.
    assert (k_crt k' = k_crt k) as -> by exact (f_equal k_crt Hf).
    assert (k_crtpos k' = k_crtpos k) as -> by exact (f_equal k_crtpos Hf).
    by rewrite Hcons.
  - rewrite Hcons. intros Hb. destruct (Hlk Hb). auto.
Qed.

(** What a message leaves alone. *)
Record said (i : nat) (k k' : kernel) : Prop := {
  sd_mem : k_mem k' = k_mem k;
  sd_kmem : k_kmem k' = k_kmem k;
  sd_ptable : k_ptable k' = k_ptable k;
  sd_cpu : cpu_at i k -> cpu_at i k';
  sd_free : forall l, lock_free l k -> lock_free l k'
}.

Lemma cprintf_said i fmt args k e : cons_ready i k ->
  exists k', cprintf fmt args k e = Ok tt k' e /\ said i k k'.
Proof.
  intros Hr. eexists. split; [by apply (cprintf_ok i)|].
  unfold ctouch. destruct (cons_locking (k_console k)) eqn:E; [|done].
  split; [done..| |].
  - intros Hc. by apply (touch_ready i L_cons) in Hc.
  - intros l Hl. by apply (touch_free i L_cons) in Hl.
Qed.

Lemma uvm_inv_said i k k' pgdir T l P :
  said i k k' -> uvm_inv k pgdir T l P -> kmem_ready i k ->
  uvm_inv k' pgdir T l P /\ kmem_ready i k'.
Proof.
  intros [Hm Hk Hc Hf] [[Hwf Hki Hsep] Hpage Hpres Habs Hinj Hs] Hr. split.
  - split; rewrite ?Hm; try done. split; rewrite ?Hm; try done.
    unfold kmem_inv. by rewrite Hm, Hk.
  - unfold kmem_ready. rewrite Hk. intros Hb. destruct (Hr Hb). auto.
Qed.

(** ** allocuvm *)

Definition zero_page (k : kernel) (u : Z) : Prop := forall b, in_page u b -> rd8 (k_mem k) b = 0.

(** The address space [P0] with zeroed pages added at [lo, mid), [hand] zeroed
    pages in the hands of the code, and no page lost or used twice. *)
Record uvm_grown (i : nat) (pgdir : Z) (k0 : kernel) (T0 : gmap Z Z) (l0 : list Z) (P0 : gmap Z Z)
    (lo mid : Z) (hand : list Z) (k : kernel) (T : gmap Z Z) (l : list Z) (P : gmap Z Z) : Prop := {
  ug_inv : uvm_inv k pgdir T l P;
  ug_ready : kmem_ready i k;
  ug_tables : T0 ⊆ T;
  ug_same : forall v, ~ (lo <= v < mid) -> P !! v = P0 !! v;
  ug_new : forall v, lo <= v < mid -> exists u, P !! v = Some u /\ zero_page k u /\
    pte_of (k_mem k) pgdir (v * PGSIZE) = leaf (V2P u) (Z.lor PTE_W PTE_U);
  ug_hand : forall u, u ∈ hand -> spare pgdir T l P u /\ zero_page k u;
  ug_pages : forall a,
    (a ∈ hand \/ a ∈ l \/ pt_page pgdir T a \/ exists v, lo <= v < mid /\ P !! v = Some a) <->
    (a ∈ l0 \/ pt_page pgdir T0 a);
  ug_old : forall v u b, P0 !! v = Some u -> in_page u b -> rd8 (k_mem k) b = rd8 (k_mem k0) b;
  ug_frame : kframe i k0 k
}.

Lemma grown_refl i pgdir k T l P lo :
  uvm_inv k pgdir T l P -> kmem_ready i k -> uvm_grown i pgdir k T l P lo lo [] k T l P.
Proof.
  intros Hi Hr. split; try done; [lia|by intros u ?%elem_of_nil|].
  intros a. rewrite elem_of_nil. split; [|tauto]. intros [?|[?|[?|(v & ? & _)]]]; try tauto. lia.
Qed.

Lemma grown_take i pgdir k0 T0 l0 P0 lo mid k e T u l P :
  uvm_grown i pgdir k0 T0 l0 P0 lo mid [] k T (u :: l) P -> P0 ⊆ P ->
  let k' := kpop (ktouch i k) <| k_mem ::= fun m => memset m u 0 PGSIZE |> in
  kalloc k e = Ok u (kpop (ktouch i k)) e /\ u <> 0 /\
  uvm_grown i pgdir k0 T0 l0 P0 lo mid [u] k' T l P.
Proof.
  intros [Hi Hr HT Hsame Hnew _ Hpages Hold Hf] HP k'.
  pose proof (ui_page _ _ _ _ _ Hi) as Hpage.
  destruct (uvm_take i k e pgdir T u l P (fun m => memset m u 0 PGSIZE) Hi Hr)
    as (Hrun & Hu0 & Hi' & Hr' & Hf' & Hsp & Hm & Hoth & Hpte).
  { intros m b Hb. unfold in_page, PGSIZE in *. rewrite rd8_memset by lia.
    by rewrite decide_False by lia. }
  fold k' in Hi', Hr', Hf', Hm, Hoth, Hpte.
  assert (Hag : forall v x b, P !! v = Some x -> in_page x b -> rd8 (k_mem k') b = rd8 (k_mem k) b).
  { intros v x b Hv. apply Hoth; [by eapply Hpage|]. intros ->. by destruct Hsp as (_ & _ & _ & []%(.$ v)). }
  split_and!; [done..|]. split; try done.
  - intros v Hv. destruct (Hnew v Hv) as (x & Hx & Hz & Hp). exists x. split_and!; [done| |].
    + intros b Hb. rewrite (Hag v x) by done. by apply Hz.
    + rewrite <- Hp. apply Hpte. eapply user_va, Hpage, Hx.
  - intros x ->%list_elem_of_singleton. split; [done|]. intros b Hb. rewrite Hm.
    unfold in_page, PGSIZE in *. rewrite rd8_memset by lia. by rewrite decide_True by lia.
  - intros a. rewrite <- Hpages, list_elem_of_singleton, elem_of_nil, elem_of_cons. tauto.
  - intros v x b Hv Hb. rewrite (Hag v x); [by eapply Hold| |done]. by eapply lookup_weaken.
  - by etrans.
Qed.

Lemma grown_step i pgdir k0 T0 l0 P0 lo mid hand k T l k' T' l' P :
  uvm_grown i pgdir k0 T0 l0 P0 lo mid hand k T l P -> P0 ⊆ P ->
  vm_step i pgdir k T l k' T' l' ->
  (forall x, 0 <= x < 2 ^ 32 -> pte_of (k_mem k') pgdir x = pte_of (k_mem k) pgdir x) ->
  uvm_grown i pgdir k0 T0 l0 P0 lo mid hand k' T' l' P.
Proof.
  intros [Hi Hr HT Hsame Hnew Hhand Hpages Hold Hf] HP Hs Hpte.
  pose proof (uvm_inv_step _ _ _ _ _ _ _ _ _ Hi Hs Hpte) as Hi'.
  destruct Hs as [_ Hr' HT' (used & -> & Hused) Hoth Hf'].
  pose proof (ui_page _ _ _ _ _ Hi) as Hpage. pose proof (ui_sep _ _ _ _ _ Hi) as Hsep.
  assert (Hag : forall v x b, P !! v = Some x -> in_page x b -> rd8 (k_mem k') b = rd8 (k_mem k) b).
  { intros v x b Hv. destruct (Hsep _ _ Hv). apply Hoth; [by eapply Hpage|done..]. }
  split; try done.
  - by etrans.
  - intros v Hv. destruct (Hnew v Hv) as (x & Hx & Hz & Hp). exists x. split_and!; [done| |].
    + intros b Hb. rewrite (Hag v x) by done. by apply Hz.
    + rewrite <- Hp. apply Hpte. eapply user_va, Hpage, Hx.
  - intros u Hu. destruct (Hhand u Hu) as [(Ho & Hl & Hp & Hn) Hz].
    rewrite elem_of_app in Hl. split.
    + split_and!; try done; [tauto|rewrite Hused; tauto].
    + intros b Hb. rewrite (Hoth u); auto. rewrite elem_of_app. tauto.
  - intros a. rewrite <- Hpages, elem_of_app, Hused. tauto.
  - intros v x b Hv Hb. rewrite (Hag v x); [by eapply Hold| |done]. by eapply lookup_weaken.
  - by etrans.
Qed.

Lemma grown_map i pgdir k0 T0 l0 P0 lo mid u k T l k' T' l' P :
  uvm_grown i pgdir k0 T0 l0 P0 lo mid [u] k T l P -> P0 ⊆ P -> lo <= mid -> 0 <= mid < UPAGES ->
  P !! mid = None -> vm_step i pgdir k T l k' T' l' ->
  (forall x, 0 <= x < 2 ^ 32 -> pte_of (k_mem k') pgdir x =
    if decide (x / PGSIZE = mid) then leaf (V2P u) (Z.lor PTE_W PTE_U)
    else pte_of (k_mem k) pgdir x) ->
  uvm_grown i pgdir k0 T0 l0 P0 lo (mid + 1) [] k' T' l' (<[mid := u]> P).
Proof.
  intros [Hi Hr HT Hsame Hnew Hhand Hpages Hold Hf] HP Hlo Hmid Hn Hs Hpte.
  destruct (Hhand u ltac:(by left)) as [Hsp Hz].
  destruct (uvm_inv_map _ _ _ _ _ _ _ _ _ mid u (Z.lor PTE_W PTE_U) Hi Hs Hsp) as [Hi' _]; try done.
  pose proof (ui_page _ _ _ _ _ Hi) as Hpage. pose proof (ui_sep _ _ _ _ _ Hi) as Hsep.
  destruct Hs as [_ Hr' HT' (used & -> & Hused) Hoth Hf'].
  assert (Hag : forall v x b, P !! v = Some x -> in_page x b -> rd8 (k_mem k') b = rd8 (k_mem k) b).
  { intros v x b Hv. destruct (Hsep _ _ Hv). apply Hoth; [by eapply Hpage|done..]. }
  destruct Hsp as (Hu & Hul & Hup & HuP). split; try done.
  - by etrans.
  - intros v Hv. rewrite lookup_insert_ne by lia. apply Hsame. lia.
  - intros v Hv. destruct (decide (v = mid)) as [->|Hne].
    + exists u. rewrite lookup_insert_eq, Hpte, Z.div_mul, decide_True by (done || by apply user_va).
      split_and!; [done| |done]. intros b Hb. rewrite (Hoth u); auto.
    + destruct (Hnew v ltac:(lia)) as (x & Hx & Hxz & Hp). exists x. rewrite lookup_insert_ne by done.
      split_and!; [done| |].
      * intros b Hb. rewrite (Hag v x) by done. by apply Hxz.
      * pose proof (Hpage _ _ Hx) as [Hvr _].
        by rewrite Hpte, Z.div_mul, decide_False by (done || by apply user_va).
  - by intros x ?%elem_of_nil.
  - intros a. rewrite <- Hpages, elem_of_app, Hused, elem_of_nil, list_elem_of_singleton.
    assert (Hr1 : (exists v, lo <= v < mid + 1 /\ <[mid:=u]> P !! v = Some a) <->
                  a = u \/ exists v, lo <= v < mid /\ P !! v = Some a).
    { setoid_rewrite lookup_insert_Some. split.
      - intros (v & Hv & [[<- ->]|[Hne Hx]]); [by left|]. right. exists v. split; [lia|done].
      - intros [->|(v & Hv & Hx)]; [exists mid; split; [lia|tauto]|].
        exists v. split; [lia|]. right. split; [lia|done]. }
    rewrite Hr1. tauto.
  - intros v x b Hv Hb. rewrite (Hag v x); [by eapply Hold| |done]. by eapply lookup_weaken.
  - by etrans.
Qed.

(** Giving the new pages back undoes the growth; only page tables stay. *)
Lemma grown_undo i pgdir k0 T0 l0 P0 lo mid hand k T l P oldsz newsz kp e :
  uvm_grown i pgdir k0 T0 l0 P0 lo mid hand k T l P -> P0 ⊆ P -> said i k kp ->
  lo = npages oldsz -> mid <= npages newsz ->
  (forall v, lo <= v < npages newsz -> P0 !! v = None) ->
  0 <= oldsz < newsz -> newsz <= KERNBASE ->
  exists k' l', deallocuvm pgdir newsz oldsz kp e = Ok oldsz k' e /\
    uvm_inv k' pgdir T l' P0 /\ kmem_ready i k' /\
    (forall a, (a ∈ hand \/ a ∈ l' \/ pt_page pgdir T a) <-> (a ∈ l0 \/ pt_page pgdir T0 a)) /\
    (forall v u b, P0 !! v = Some u -> in_page u b -> rd8 (k_mem k') b = rd8 (k_mem k0) b) /\
    (forall u, u ∈ hand -> spare pgdir T l' P0 u) /\ k_ptable k' = k_ptable k0.
Proof.
  intros [Hi Hr HT Hsame Hnew Hhand Hpages Hold Hf] HP Hsd -> Hmid Hfree Ho Hnsz.
  destruct (uvm_inv_said _ _ _ _ _ _ _ Hsd Hi Hr) as [Hip Hrp].
  destruct (deallocuvm_ok i pgdir newsz oldsz kp e T l P) as (k' & fr & Hrun & [Hi' Hr' Hfr Hoth Hfrm]); try done.
  assert (HP0 : drop_range (npages oldsz) (npages newsz) P = P0).
  { apply map_eq. intros v. apply option_eq. intros u. unfold drop_range.
    rewrite map_lookup_filter_Some. simpl. split.
    - intros [Hv Hr1]. rewrite <- Hsame; [done|lia].
    - intros Hv. split; [by eapply lookup_weaken|]. intros Hr1. rewrite Hfree in Hv by lia. done. }
  assert (Hfr' : forall a, a ∈ fr <-> exists v, npages oldsz <= v < mid /\ P !! v = Some a).
  { intros a. rewrite Hfr. split; intros (v & Hv & Hv2); exists v; [|split; [done|lia]].
    split; [|done]. destruct (decide (v < mid)); [lia|].
    rewrite Hsame in Hv by lia. by rewrite Hfree in Hv by lia. }
  rewrite HP0 in Hi'. exists k', (fr ++ l). split_and!; try done.
  - intros a. rewrite <- Hpages, elem_of_app, Hfr'. tauto.
  - intros v u b Hv Hb. destruct (ui_sep _ _ _ _ _ Hi' _ _ Hv) as [Hu1 Hu2].
    rewrite elem_of_app in Hu1.
    rewrite (Hoth u), (sd_mem _ _ _ Hsd); [by eapply Hold|..]; try tauto.
    by eapply (ui_page _ _ _ _ _ Hi').
  - intros u Hu. destruct (Hhand u Hu) as [(Hok & Hul & Hup & HuP) _].
    split_and!; try done.
    + rewrite elem_of_app, Hfr'. intros [(v & _ & Hv)|]; [by destruct (HuP v)|done].
    + intros v Hv. apply (HuP v). by eapply lookup_weaken.
  - etrans; [exact (f_equal k_ptable (kf_rest _ _ _ Hfrm))|]. change (k_ptable kp = k_ptable k0). rewrite (sd_ptable _ _ _ Hsd).
    exact (f_equal k_ptable (kf_rest _ _ _ Hf)).
Qed.

Lemma grown_sub i pgdir k0 T0 l0 P0 lo mid hand k T l P :
  uvm_grown i pgdir k0 T0 l0 P0 lo mid hand k T l P ->
  (forall v, lo <= v < mid -> P0 !! v = None) -> P0 ⊆ P.
Proof.
  intros Hg Hn. apply map_subseteq_spec. intros v u Hv.
  rewrite (ug_same _ _ _ _ _ _ _ _ _ _ _ _ _ Hg); [done|]. intros Hr. by rewrite Hn in Hv.
Qed.

(** What allocuvm leaves when it runs out of memory: the old address space,
    with its contents, and every page accounted for. *)
Record uvm_kept (i : nat) (pgdir : Z) (k0 : kernel) (T0 : gmap Z Z) (l0 : list Z) (P0 : gmap Z Z)
    (k : kernel) (T : gmap Z Z) (l : list Z) : Prop := {
  uk_inv : uvm_inv k pgdir T l P0;
  uk_ready : kmem_ready i k;
  uk_pages : forall a, (a ∈ l \/ pt_page pgdir T a) <-> (a ∈ l0 \/ pt_page pgdir T0 a);
  uk_old : forall v u b, P0 !! v = Some u -> in_page u b -> rd8 (k_mem k) b = rd8 (k_mem k0) b;
  uk_ptable : k_ptable k = k_ptable k0
}.

(** kfree of a page the address space does not use. *)
Lemma uvm_inv_kfree i k e pgdir T l P u :
  uvm_inv k pgdir T l P -> kmem_ready i k -> spare pgdir T l P u ->
  exists k', kfree u k e = Ok tt k' e /\ uvm_inv k' pgdir T (u :: l) P /\ kmem_ready i k' /\ kframe i k k' /\
    (forall a b, page_ok a -> a <> u -> in_page a b -> rd8 (k_mem k') b = rd8 (k_mem k) b) /\
    forall x, 0 <= x < 2 ^ 32 -> pte_of (k_mem k') pgdir x = pte_of (k_mem k) pgdir x.
Proof.
  intros [[Hwf Hk Hsep] Hpage Hpres Habs Hinj Hs] Hr (Hu & Hul & Hup & HuP).
  destruct (kfree_page i k e u l Hr Hk Hu (page_nonzero u Hu) Hul) as (Hrun & Hk' & Hr' & Hf' & Hmem).
  set (k' := kpush u (ktouch i k)) in *.
  assert (Hag : forall a b, page_ok a -> a <> u -> in_page a b -> rd8 (k_mem k) b = rd8 (k_mem k') b).
  { intros a b Ha Hne Hb. symmetry. apply Hmem.
    destruct (decide (in_page u b)) as [Hb'|Hb']; [|unfold in_page in Hb'; lia].
    destruct Hne. by eapply in_page_disjoint. }
  assert (Hagt : forall a b, pt_page pgdir T a -> in_page a b -> rd8 (k_mem k) b = rd8 (k_mem k') b).
  { intros a b Ha. apply Hag; [by eapply pt_page_ok|]. by intros ->. }
  assert (Hpte : forall x, 0 <= x < 2 ^ 32 -> pte_of (k_mem k') pgdir x = pte_of (k_mem k) pgdir x).
  { intros x Hx. by eapply pte_of_agree. }
  exists k'. split_and!; try done.
  - split; [split|..]; try done.
    + eapply pt_wf_agree; [done|]. intros b. apply Hagt. by left.
    + intros a [->|Ha]%elem_of_cons; [done|by apply Hsep].
    + intros v x Hv. rewrite Hpte by (by eapply user_va, Hpage). by apply Hpres.
    + intros v Hv Hn. rewrite Hpte by (by apply user_va). by apply Habs.
    + intros v x Hv. destruct (Hs _ _ Hv) as [Hx ?]. split; [|done].
      intros [->|?]%elem_of_cons; [by destruct (HuP v)|done].
  - intros a b Ha Hne Hb. symmetry. by apply (Hag a).
Qed.

(** The two ways out of memory: no user page, and no page table for it. *)
Lemma allocuvm_nopage i pgdir k0 T0 l0 P0 lo mid k T P oldsz newsz e :
  uvm_grown i pgdir k0 T0 l0 P0 lo mid [] k T [] P -> P0 ⊆ P -> cons_ready i k ->
  lo = npages oldsz -> mid <= npages newsz ->
  (forall v, lo <= v < npages newsz -> P0 !! v = None) ->
  0 <= oldsz < newsz -> newsz <= KERNBASE ->
  exists k' l', kalloc k e = Ok 0 (ktouch i k) e /\
    (cprintf "allocuvm out of memory\n" [] ;; deallocuvm pgdir newsz oldsz ;; ret 0)
      (ktouch i k) e = Ok 0 k' e /\
    uvm_kept i pgdir k0 T0 l0 P0 k' T l'.
Proof.
  intros Hg Hsub Hck Hlo Hmid Hfree Ho Hn.
  pose proof (ug_inv _ _ _ _ _ _ _ _ _ _ _ _ _ Hg) as Hi.
  pose proof (ug_ready _ _ _ _ _ _ _ _ _ _ _ _ _ Hg) as Hr.
  assert (Hgk : uvm_grown i pgdir k0 T0 l0 P0 lo mid [] (ktouch i k) T [] P).
  { eapply grown_step; [done..|by apply vm_step_ktouch, vm_step_refl; [apply Hi|]|].
    by rewrite k_mem_ktouch. }
  pose proof (kalloc_nil i k e Hr (vi_kmem _ _ _ _ (ui_vm _ _ _ _ _ Hi))) as Hal.
  destruct (cprintf_said i "allocuvm out of memory\n" [] (ktouch i k) e) as (kp & Hpr & Hsd).
  { eapply cons_ready_kframe; [apply kframe_ktouch|done]. }
  rewrite (bind_ok _ _ _ _ _ _ _ Hpr).
  destruct (grown_undo _ _ _ _ _ _ _ _ _ _ _ _ _ oldsz newsz kp e Hgk Hsub Hsd)
    as (k' & l' & Hrun & Hi' & Hr' & Hpg & Hold & _ & Hpt); try done.
  rewrite (bind_ok _ _ _ _ _ _ _ Hrun). exists k', l'. split_and!; [done..|].
  split; try done. intros a. rewrite <- Hpg, elem_of_nil. tauto.
Qed.

Lemma allocuvm_notable i pgdir k0 T0 l0 P0 lo mid u k T l P oldsz newsz e :
  uvm_grown i pgdir k0 T0 l0 P0 lo mid [u] k T l P -> P0 ⊆ P -> cons_ready i k ->
  lo = npages oldsz -> mid <= npages newsz ->
  (forall v, lo <= v < npages newsz -> P0 !! v = None) ->
  0 <= oldsz < newsz -> newsz <= KERNBASE ->
  exists k' l', (cprintf "allocuvm out of memory (2)\n" [] ;; deallocuvm pgdir newsz oldsz ;;
                 kfree u ;; ret 0) k e = Ok 0 k' e /\
    uvm_kept i pgdir k0 T0 l0 P0 k' T l'.
Proof.
  intros Hg Hsub Hck Hlo Hmid Hfree Ho Hn.
  destruct (cprintf_said i "allocuvm out of memory (2)\n" [] k e Hck) as (kp & Hpr & Hsd).
  rewrite (bind_ok _ _ _ _ _ _ _ Hpr).
  destruct (grown_undo _ _ _ _ _ _ _ _ _ _ _ _ _ oldsz newsz kp e Hg Hsub Hsd)
    as (k1 & l1 & Hrun & Hi1 & Hr1 & Hpg & Hold & Hsp & Hpt); try done.
  rewrite (bind_ok _ _ _ _ _ _ _ Hrun).
  destruct (uvm_inv_kfree i k1 e pgdir T l1 P0 u Hi1 Hr1 (Hsp u ltac:(by left)))
    as (k' & Hkf & Hi' & Hr' & Hfrm & Hk' & _).
  rewrite (bind_ok _ _ _ _ _ _ _ Hkf). exists k', (u :: l1). split; [done|]. split; try done.
  - intros a. rewrite <- Hpg, elem_of_cons, list_elem_of_singleton. tauto.
  - intros v x b Hv Hb. rewrite (Hk' x); [by eapply Hold| | |done].
    + by eapply (ui_page _ _ _ _ _ Hi1).
    + intros ->. destruct (Hsp u ltac:(by left)) as (_ & _ & _ & HuP). by apply (HuP v).
  - rewrite <- Hpt. exact (f_equal k_ptable (kf_rest _ _ _ Hfrm)).
Qed.

Lemma allocuvm_loop_ok i pgdir k0 T0 l0 P0 oldsz newsz n : forall mid k e T l P,
  uvm_grown i pgdir k0 T0 l0 P0 (npages oldsz) mid [] k T l P -> cons_ready i k0 ->
  0 <= oldsz <= newsz -> newsz < KERNBASE -> npages oldsz <= mid <= npages newsz ->
  (forall v, npages oldsz <= v < npages newsz -> P0 !! v = None) ->
  (Z.to_nat (npages newsz - mid) < n)%nat ->
  exists r k' T' l', allocuvm_loop n pgdir (mid * PGSIZE) oldsz newsz k e = Ok r k' e /\
    ((r = newsz /\ exists P',
        uvm_grown i pgdir k0 T0 l0 P0 (npages oldsz) (npages newsz) [] k' T' l' P') \/
     (r = 0 /\ uvm_kept i pgdir k0 T0 l0 P0 k' T' l')).
Proof.
  induction n as [|n IH]; intros mid k e T l P Hg Hcr Ho Hnk Hm Hfree Hfuel; [lia|].
  cbn [allocuvm_loop]. destruct (mid * PGSIZE <? newsz) eqn:E; cbn [negb].
  2: { assert (mid = npages newsz) as ->.
       { destruct (decide (mid < npages newsz)) as [Hlt%npages_lt|]; lia. }
       exists newsz, k, T, l. split; [done|]. left. eauto. }
  apply Z.ltb_lt, npages_lt in E. assert (Hlt : oldsz < newsz).
  { destruct (decide (oldsz = newsz)) as [->|]; lia. }
  assert (Hsub : P0 ⊆ P) by (eapply grown_sub; [done|]; intros v Hv; apply Hfree; lia).
  pose proof (cons_ready_kframe _ _ _ (ug_frame _ _ _ _ _ _ _ _ _ _ _ _ _ Hg) Hcr) as Hck.
  assert (Hmid : 0 <= mid < UPAGES).
  { pose proof (npages_user newsz ltac:(lia)). unfold npages, PGSIZE in *. dlia. }
  destruct l as [|u l].
  - destruct (allocuvm_nopage i pgdir k0 T0 l0 P0 (npages oldsz) mid k T P oldsz newsz e)
      as (k' & l' & Hal & Hrun & Hk); try done; [lia..|].
    rewrite (bind_ok _ _ _ _ _ _ _ Hal). exists 0, k', T, l'. split; [done|by right].
  - destruct (grown_take _ _ _ _ _ _ _ _ k e _ _ _ _ Hg Hsub) as (Hrun & Hu0 & Hg1).
    rewrite (bind_ok _ _ _ _ _ _ _ Hrun), (proj2 (Z.eqb_neq u 0) Hu0). unfold set_mem. step.
    set (k1 := kpop (ktouch i k) <| k_mem ::= fun m => memset m u 0 PGSIZE |>) in *.
    destruct (ug_hand _ _ _ _ _ _ _ _ _ _ _ _ _ Hg1 u ltac:(by left)) as [Hsp _].
    assert (Hpn : P !! mid = None).
    { rewrite (ug_same _ _ _ _ _ _ _ _ _ _ _ _ _ Hg) by lia. apply Hfree. lia. }
    pose proof (ug_inv _ _ _ _ _ _ _ _ _ _ _ _ _ Hg1) as Hi1.
    destruct (V2P_aligned u (proj1 Hsp)) as [Hal Har].
    destruct (mappages_page i pgdir (mid * PGSIZE) (V2P u) (Z.lor PTE_W PTE_U) k1 e T l)
      as (r & k2 & T2 & l2 & Hmap & Hs & Hres); try done.
    { apply Hi1. } { apply Hg1. } { by rewrite Z.mod_mul. } { by apply user_va. }
    { unfold PHYSTOP in Har. lia. } { by apply (ui_absent _ _ _ _ _ Hi1). }
    rewrite Z.div_mul in Hres by done.
    rewrite (bind_ok _ _ _ _ _ _ _ Hmap). destruct Hres as [[-> Hpte]|(-> & -> & Hpte)].
    + change (0 <? 0) with false. cbv iota. rewrite next_page by done.
      apply (IH (mid + 1) k2 e T2 l2 (<[mid := u]> P)); try done; [|lia..].
      by eapply grown_map; try lia.
    + change (-1 <? 0) with true. cbv iota.
      destruct (allocuvm_notable i pgdir k0 T0 l0 P0 (npages oldsz) mid u k2 T2 [] P oldsz newsz e)
        as (k' & l' & Hrun' & Hk); try done; [by eapply grown_step| |lia..|].
      { eapply cons_ready_kframe, Hcr. etrans; [apply Hg1|apply Hs]. }
      exists 0, k', T2, l'. split; [done|by right].
Qed.

(** allocuvm adds zeroed, writable user pages up to the new size, or, out of
    memory, gives back what it took. *)
Lemma allocuvm_ok i pgdir k e T l P oldsz newsz :
  uvm_inv k pgdir T l P -> kmem_ready i k -> cons_ready i k ->
  0 <= oldsz <= newsz -> newsz < KERNBASE ->
  (forall v, npages oldsz <= v < npages newsz -> P !! v = None) ->
  exists r k' T' l', allocuvm pgdir oldsz newsz k e = Ok r k' e /\
    ((r = newsz /\ exists P',
        uvm_grown i pgdir k T l P (npages oldsz) (npages newsz) [] k' T' l' P') \/
     (r = 0 /\ uvm_kept i pgdir k T l P k' T' l')).
Proof.
  intros Hi Hr Hc Ho Hn Hfree. unfold allocuvm.
  rewrite (proj2 (Z.leb_gt _ _)), (proj2 (Z.ltb_ge _ _)), PGROUNDUP_npages by lia.
  eapply allocuvm_loop_ok; try done; [by apply grown_refl| |].
  - split; [done|]. unfold npages, PGSIZE. dlia.
  - unfold npages, PGSIZE. dlia.
Qed.

End uvm.
