(* ===== verification/KvmFacts.v ===== *)
(** setupkvm: every page table maps the kernel at the same place, out of reach
    of user code, and nothing below KERNBASE. *)
From S2P Require Import Prelude Kernel Mem Spinlock Str Kalloc Console Vm VmFacts UvmFacts.

Section kvm.
Context `{Image} `{!ImageOk}.

Definition kmap_size (q : kmap) : Z := u32 (phys_end q - phys_start q).
(** The mapping [g] with the region [q] added. *)
Definition kmapped (g : Z -> Z) (q : kmap) : Z -> Z :=
  mapped (virt q) (phys_start q) (perm q) (Z.to_nat (kmap_size q / PGSIZE)) g.

Record kmap_ok (lo : Z) (q : kmap) : Prop := {
  km_virt : virt q mod PGSIZE = 0;
  km_lo : lo <= virt q;
  km_size : 0 < kmap_size q;
  km_whole : kmap_size q mod PGSIZE = 0;
  km_high : virt q + kmap_size q <= 2 ^ 32;
  km_phys : phys_start q mod PGSIZE = 0;
  km_pos : 0 <= phys_start q;
  km_phigh : phys_start q + kmap_size q <= 2 ^ 32;
  km_perm : 0 <= perm q < PGSIZE
}.

(** Regions in increasing order, from [lo]. *)
Fixpoint kmaps_ok (lo : Z) (ks : list kmap) : Prop :=
  match ks with
  | [] => True
  | q :: ks' => kmap_ok lo q /\ kmaps_ok (virt q + kmap_size q) ks'
  end.

Lemma mappages_region i pgdir lo q k e T l :
  vm_inv k pgdir T l -> kmem_ready i k -> KERNBASE <= lo -> kmap_ok lo q ->
  (forall x, lo <= x < 2 ^ 32 -> bit_set (pte_of (k_mem k) pgdir x) PTE_P = false) ->
  exists r k' T' l',
    mappages pgdir (virt q) (kmap_size q) (phys_start q) (perm q) k e = Ok r k' e /\
    vm_step i pgdir k T l k' T' l' /\
    ((r = 0 /\ forall x, 0 <= x < 2 ^ 32 ->
        pte_of (k_mem k') pgdir x = kmapped (pte_of (k_mem k) pgdir) q x) \/
     (r = -1 /\ forall x, 0 <= x < KERNBASE ->
        pte_of (k_mem k') pgdir x = pte_of (k_mem k) pgdir x)).
Proof.
  intros Hi Hr Hlo [Hv Hl Hs Hw Hh Hp Hp0 Hph Hpm] Hfree. unfold KERNBASE in *.
  set (n := Z.to_nat (kmap_size q / PGSIZE)).
  assert (Hn : n = S (pred n)) by (unfold n, PGSIZE in *; dlia).
  assert (Ha : virt q / PGSIZE * PGSIZE = virt q) by (unfold PGSIZE in *; dlia).
  assert (Hsz : PGSIZE * Z.of_nat (S (pred n)) = kmap_size q)
    by (rewrite <- Hn; unfold n, PGSIZE in *; dlia).
  destruct (mappages_ok i pgdir (virt q) (kmap_size q) (phys_start q) (perm q) k e T l (pred n))
    as (r & k' & T' & l' & Hrun & Hst & Hres); try done; try lia.
  - unfold n, PGSIZE in *. dlia.
  - rewrite Ha, Hsz. intros x Hx. apply Hfree. lia.
  - rewrite Ha, Hsz in Hres. exists r, k', T', l'. split_and!; [done..|].
    destruct Hres as [[-> Hpte]|(-> & _ & Hpte)]; [left|right]; (split; [done|]); intros x Hx.
    + rewrite Hpte by done. unfold kmapped. by rewrite <- Hn.
    + apply Hpte; unfold KERNBASE in *; lia.
Qed.

Lemma kmapped_above g q x : virt q + kmap_size q <= x -> kmap_size q mod PGSIZE = 0 ->
  kmapped g q x = g x.
Proof.
  intros Hx Hm. unfold kmapped, mapped. rewrite decide_False; [done|]. unfold PGSIZE in *. dlia.
Qed.
Lemma kmapped_below g q x : x < virt q -> kmapped g q x = g x.
Proof. intros Hx. unfold kmapped, mapped. by rewrite decide_False by lia. Qed.

Lemma foldl_kmapped_ext ks x : forall g g', g x = g' x -> foldl kmapped g ks x = foldl kmapped g' ks x.
Proof.
  induction ks as [|q ks IH]; intros g g' Hg; [done|]. cbn [foldl]. apply IH.
  unfold kmapped, mapped. by case_decide.
Qed.

(** No user page is mapped. *)
Lemma uvm_inv_empty k pgdir T l :
  vm_inv k pgdir T l -> (forall x, 0 <= x < KERNBASE -> pte_of (k_mem k) pgdir x = 0) ->
  uvm_inv k pgdir T l ∅.
Proof.
  intros Hi Hz. split; try done. intros v Hv _. rewrite Hz; [done|].
  revert Hv. unfold UPAGES, KERNBASE, PGSIZE. change (0x80000000 / 4096) with 524288. lia.
Qed.

(** The loop of setupkvm: all the regions, or out of memory and every page
    given back. *)
Lemma setupkvm_loop_ok i pgdir ks : forall lo k e T l,
  vm_inv k pgdir T l -> kmem_ready i k -> KERNBASE <= lo -> kmaps_ok lo ks ->
  (forall x, lo <= x < 2 ^ 32 -> bit_set (pte_of (k_mem k) pgdir x) PTE_P = false) ->
  (forall x, 0 <= x < KERNBASE -> pte_of (k_mem k) pgdir x = 0) ->
  exists r k', setupkvm_loop ks pgdir k e = Ok r k' e /\ kmem_ready i k' /\ kframe i k k' /\
    ((r = pgdir /\ exists T' l', vm_step i pgdir k T l k' T' l' /\ uvm_inv k' pgdir T' l' ∅ /\
        forall x, 0 <= x < 2 ^ 32 ->
          pte_of (k_mem k') pgdir x = foldl kmapped (pte_of (k_mem k) pgdir) ks x) \/
     (r = 0 /\ exists l', kmem_inv k' l' /\ (forall a, a ∈ l' <-> a ∈ l \/ pt_page pgdir T a) /\
        forall a b, page_ok a -> a ∉ l' -> in_page a b -> rd8 (k_mem k') b = rd8 (k_mem k) b)).
Proof.
  induction ks as [|q ks IH]; intros lo k e T l Hi Hr Hlo Hok Hfree Hz.
  { exists pgdir, k. split_and!; try done. left. split; [done|]. exists T, l.
    split_and!; [by apply vm_step_refl|by apply uvm_inv_empty|done]. }
  destruct Hok as [Hq Hks]. cbn [setupkvm_loop]. fold (kmap_size q).
  destruct (mappages_region i pgdir lo q k e T l) as (r & k1 & T1 & l1 & Hrun & Hst & Hres); try done.
  rewrite (bind_ok _ _ _ _ _ _ _ Hrun). pose proof (km_lo _ _ Hq). pose proof (km_size _ _ Hq).
  destruct Hres as [[-> Hpte]|(-> & Hpte)].
  - change (0 <? 0) with false. cbv iota.
    destruct (IH (virt q + kmap_size q) k1 e T1 l1) as (r & k' & Hrun' & Hr' & Hf' & Hres); try done.
    { apply Hst. } { apply Hst. } { lia. }
    { intros x Hx. unfold KERNBASE in *. rewrite Hpte by lia.
      rewrite kmapped_above by (try apply Hq; lia). apply Hfree. lia. }
    { intros x Hx. rewrite Hpte by (unfold KERNBASE in *; lia). rewrite kmapped_below by lia. by apply Hz. }
    exists r, k'. split_and!; [done|done|etrans; [apply Hst|done]|].
    destruct Hres as [(-> & T' & l' & Hst' & Hi' & Hp)|(-> & l' & Hk' & Hl' & Ho')]; [left|right].
    + split; [done|]. exists T', l'. split_and!; [by eapply vm_step_trans|done|].
      intros x Hx. rewrite Hp by done. cbn [foldl]. apply foldl_kmapped_ext. by apply Hpte.
    + split; [done|]. exists l'.
      assert (Hall : forall a, a ∈ l' <-> a ∈ l \/ pt_page pgdir T a).
      { intros a. rewrite Hl'. destruct (vs_free _ _ _ _ _ _ _ _ Hst) as (used & -> & Hu).
        rewrite elem_of_app, Hu. tauto. }
      split_and!; [done..|]. intros a b Ha Hn Hb. rewrite (Ho' a) by done. rewrite Hall in Hn.
      apply (vs_other _ _ _ _ _ _ _ _ Hst a); tauto.
  - change (-1 <? 0) with true. cbv iota.
    destruct (freevm_ok i pgdir k1 e T1 l1 ∅) as (k' & l' & Hrun' & Hk' & Hr' & Hf' & Hl' & Ho').
    { apply uvm_inv_empty; [apply Hst|]. intros x Hx. rewrite Hpte by done. by apply Hz. }
    { apply Hst. }
    rewrite (bind_ok _ _ _ _ _ _ _ Hrun'). exists 0, k'.
    split_and!; [done|done|etrans; [apply Hst|done]|]. right. split; [done|]. exists l'.
    assert (Hall : forall a, a ∈ l' <-> a ∈ l \/ pt_page pgdir T a).
    { intros a. rewrite Hl'. destruct (vs_free _ _ _ _ _ _ _ _ Hst) as (used & -> & Hu).
      rewrite elem_of_app, Hu. split; [intros [?|[?|[v Hv]]]; [tauto..|done]|tauto]. }
    split_and!; [done..|]. intros a b Ha Hn Hb. rewrite (Ho' a) by done. rewrite Hall in Hn.
    apply (vs_other _ _ _ _ _ _ _ _ Hst a); tauto.
Qed.

Lemma sym_data_phys : V2P sym_data = sym_data - KERNBASE.
Proof.
  pose proof data_after_text as Hd. pose proof end_high as He.
  unfold V2P, KERNLINK, KERNBASE, EXTMEM, PHYSTOP in *. rewrite u32_small; lia.
Qed.

Lemma kmap_sizes :
  kmap_size (mkKmap KERNBASE 0 EXTMEM PTE_W) = EXTMEM /\
  kmap_size (mkKmap KERNLINK (V2P KERNLINK) (V2P sym_data) 0) = sym_data - KERNLINK /\
  kmap_size (mkKmap sym_data (V2P sym_data) PHYSTOP PTE_W) = KERNBASE + PHYSTOP - sym_data /\
  kmap_size (mkKmap DEVSPACE DEVSPACE 0 PTE_W) = 2 ^ 32 - DEVSPACE.
Proof.
  pose proof data_after_text as Hd. pose proof end_high as He.
  unfold kmap_size. cbn [phys_end phys_start]. rewrite sym_data_phys.
  change (V2P KERNLINK) with EXTMEM. unfold KERNLINK, KERNBASE, EXTMEM, PHYSTOP in *.
  split_and!; try reflexivity; rewrite u32_small; lia.
Qed.

Lemma kmaps_are_ok : kmaps_ok KERNBASE kmaps.
Proof.
  pose proof data_after_text as Hd. pose proof data_aligned as Ha. pose proof end_high as He.
  destruct kmap_sizes as (Hs1 & Hs2 & Hs3 & Hs4).
  unfold kmaps, kmaps_ok. rewrite Hs1, Hs2, Hs3. cbn [virt].
  split_and!; [split..|done]; rewrite ?Hs1, ?Hs2, ?Hs3, ?Hs4; cbn [virt phys_start phys_end perm];
    rewrite ?sym_data_phys; try done; change (V2P KERNLINK) with EXTMEM;
    unfold KERNLINK, EXTMEM, KERNBASE, PHYSTOP, DEVSPACE, PGSIZE, PTE_W in *; try lia; dlia.
Qed.

(** A zeroed page is an empty page directory. *)
Lemma empty_pgdir k e i l pgdir :
  kmem_inv k (pgdir :: l) -> kmem_ready i k ->
  let k' := kpop (ktouch i k) <| k_mem ::= fun m => memset m pgdir 0 PGSIZE |> in
  kalloc k e = Ok pgdir (kpop (ktouch i k)) e /\ pgdir <> 0 /\ kmem_ready i k' /\ kframe i k k' /\
  vm_inv k' pgdir ∅ l /\ forall x, 0 <= x < 2 ^ 32 -> pte_of (k_mem k') pgdir x = 0.
Proof.
  intros Hk Hr k'. destruct (kalloc_cons i k e pgdir l Hr Hk) as (Hrun & Hm & Hk1 & Hr1 & Hp0 & Hpl).
  pose proof (free_page_ok k _ pgdir Hk ltac:(by left)) as Hok.
  assert (Hz : forall j, 0 <= j < 1024 -> rd32 (k_mem k') (pgdir + 4 * j) = 0).
  { intros j Hj. unfold k'. fields. apply rd32_memset_zero; unfold PGSIZE; lia. }
  assert (Hwf : pt_wf (k_mem k') pgdir ∅).
  { split; try done. intros j Hj _. by rewrite Hz. }
  split_and!; try done.
  - etrans; [apply kframe_kpop|done].
  - split; [done| |].
    + apply kmem_inv_mem; [done|]. intros a b Ha Hb. rewrite rd8_memset by done.
      rewrite decide_False; [done|]. intros Hb'. destruct Hpl.
      by rewrite (in_page_disjoint pgdir a b) by (try done; by eapply free_page_ok).
    + intros a Ha [->|[j Hj]]; [done|by rewrite lookup_empty in Hj].
  - intros x Hx. by rewrite (pte_of_eq _ _ ∅), lookup_empty.
Qed.

(** setupkvm gives a directory with the kernel's regions and no user page, or
    0 with every page back on the free list. *)
Lemma setupkvm_ok i k e l :
  kmem_inv k l -> kmem_ready i k ->
  exists r k', setupkvm k e = Ok r k' e /\ kmem_ready i k' /\ kframe i k k' /\
    ((r <> 0 /\ exists T' l' used, l = used ++ l' /\ uvm_inv k' r T' l' ∅ /\
        (forall a, pt_page r T' a <-> a ∈ used) /\
        (forall a b, page_ok a -> a ∉ l -> in_page a b -> rd8 (k_mem k') b = rd8 (k_mem k) b) /\
        forall x, 0 <= x < 2 ^ 32 -> pte_of (k_mem k') r x = foldl kmapped (fun _ => 0) kmaps x) \/
     (r = 0 /\ exists l', kmem_inv k' l' /\ (forall a, a ∈ l' <-> a ∈ l) /\
        forall a b, page_ok a -> a ∉ l' -> in_page a b -> rd8 (k_mem k') b = rd8 (k_mem k) b)).
Proof.
  intros Hk Hr. unfold setupkvm. destruct l as [|p l].
  { run (kalloc_nil i). exists 0, (ktouch i k).
    split_and!; [done|by apply kmem_ready_ktouch|apply kframe_ktouch|]. right. split; [done|].
    exists []. rewrite kmem_inv_ktouch, k_mem_ktouch. done. }
  destruct (empty_pgdir k e i l p Hk Hr) as (Hrun & Hp0 & Hr1 & Hf1 & Hi1 & Hz).
  rewrite (bind_ok _ _ _ _ _ _ _ Hrun), (proj2 (Z.eqb_neq p 0) Hp0). unfold set_mem. step.
  set (k1 := kpop (ktouch i k) <| k_mem ::= fun m => memset m p 0 PGSIZE |>) in *.
  assert (Hk1 : forall a b, page_ok a -> a <> p -> in_page a b -> rd8 (k_mem k1) b = rd8 (k_mem k) b).
  { intros a b Ha Hne Hb. unfold k1. fields.
    destruct (kalloc_cons i k e p _ Hr Hk) as (_ & Hm & _). rewrite Hm.
    rewrite rd8_memset by done. rewrite decide_False; [done|]. intros Hb'. destruct Hne.
    eapply (in_page_disjoint a p b); try done. eapply free_page_ok; [done|by left]. }
  change (DEVSPACE <? P2V PHYSTOP) with false. cbv iota.
  destruct (setupkvm_loop_ok i p kmaps KERNBASE k1 e ∅ l) as (r & k' & Hrun' & Hr' & Hf' & Hres);
    try done; [apply kmaps_are_ok|..].
  { intros x Hx. unfold KERNBASE in Hx. by rewrite Hz by lia. }
  { intros x Hx. unfold KERNBASE in Hx. apply Hz. lia. }
  exists r, k'. split_and!; [done|done|by etrans|].
  destruct Hres as [(-> & T' & l' & Hst & Hi' & Hpte)|(-> & l' & Hk' & Hl' & Ho')]; [left|right].
  - split; [done|]. destruct (vs_free _ _ _ _ _ _ _ _ Hst) as (used & -> & Hu).
    exists T', l', (p :: used). split_and!; try done.
    + intros a. rewrite Hu, elem_of_cons. unfold pt_page. split; [|tauto].
      intros [[?|[j Hj]]|?]; [tauto|by rewrite lookup_empty in Hj|tauto].
    + intros a b Ha Hal Hb. rewrite elem_of_cons in Hal.
      rewrite (vs_other _ _ _ _ _ _ _ _ Hst a); [|done|tauto| |done].
      * apply (Hk1 a); tauto.
      * intros [->|[j Hj]]; [tauto|by rewrite lookup_empty in Hj].
    + intros x Hx. rewrite Hpte by done. apply foldl_kmapped_ext. by apply Hz.
  - split; [done|]. exists l'.
    assert (Hall : forall a, a ∈ l' <-> a ∈ p :: l).
    { intros a. rewrite Hl', elem_of_cons. unfold pt_page.
      split; [|tauto]. intros [?|[?|[j Hj]]]; [tauto..|by rewrite lookup_empty in Hj]. }
    split_and!; [done..|]. intros a b Ha Hn Hb. rewrite (Ho' a) by done.
    rewrite Hall, elem_of_cons in Hn. apply (Hk1 a); tauto.
Qed.

(** The kernel's part of the address space, by region. *)
Definition kernel_pte (x : Z) : Z :=
  let pg := x / PGSIZE * PGSIZE in
  if decide (x < KERNBASE) then 0
  else if decide (x < KERNLINK) then leaf (pg - KERNBASE) PTE_W
  else if decide (x < sym_data) then leaf (pg - KERNBASE) 0
  else if decide (x < KERNBASE + PHYSTOP) then leaf (pg - KERNBASE) PTE_W
  else if decide (x < DEVSPACE) then 0
  else leaf pg PTE_W.

Lemma kernel_pte_eq x : 0 <= x < 2 ^ 32 -> foldl kmapped (fun _ => 0) kmaps x = kernel_pte x.
Proof.
  intros Hx. pose proof data_after_text as Hd. pose proof data_aligned as Ha. pose proof end_high as He.
  destruct kmap_sizes as (Hs1 & Hs2 & Hs3 & Hs4).
  cbn [foldl kmaps]. unfold kmapped, mapped. rewrite Hs1, Hs2, Hs3, Hs4.
  cbn [virt phys_start phys_end perm]. rewrite !sym_data_phys. unfold kernel_pte.
  change (V2P KERNLINK) with EXTMEM.
  unfold KERNLINK, KERNBASE, EXTMEM, PHYSTOP, DEVSPACE, PGSIZE in *.
  repeat case_decide; try lia; try (f_equal; lia); exfalso; dlia.
Qed.

Lemma leaf_bit pa perm f :
  pa mod PGSIZE = 0 -> 0 <= pa < 2 ^ 32 -> 0 <= perm < PGSIZE -> 0 <= f < PGSIZE ->
  bit_set (leaf pa perm) f = bit_set (Z.lor perm PTE_P) f.
Proof.
  intros Ha Hr Hp Hf. destruct (leaf_eq pa perm Ha Hr Hp) as (_ & _ & _ & ->).
  apply bit_set_page; try done. by apply lor_P_bound.
Qed.

(** Kernel addresses translate to their physical addresses, user code reaches
    none of them, the kernel's text is read-only, and no user page is mapped. *)
Lemma kernel_pte_spec x : 0 <= x < 2 ^ 32 ->
  bit_set (kernel_pte x) PTE_U = false /\
  (bit_set (kernel_pte x) PTE_P = true <->
     KERNBASE <= x < KERNBASE + PHYSTOP \/ DEVSPACE <= x) /\
  (KERNBASE <= x < KERNBASE + PHYSTOP -> PTE_ADDR (kernel_pte x) + x mod PGSIZE = V2P x) /\
  (DEVSPACE <= x -> PTE_ADDR (kernel_pte x) + x mod PGSIZE = x) /\
  (KERNLINK <= x < sym_data -> bit_set (kernel_pte x) PTE_W = false).
Proof.
  intros Hx. pose proof data_after_text as Hd. pose proof end_high as He.
  assert (Hv : KERNBASE <= x -> V2P x = x - KERNBASE).
  { intros Hb. unfold V2P, KERNBASE in *. rewrite u32_small; lia. }
  set (pg := x / PGSIZE * PGSIZE).
  assert (Hp1 : KERNBASE <= x -> (pg - KERNBASE) mod PGSIZE = 0 /\ 0 <= pg - KERNBASE < 2 ^ 32).
  { unfold pg, KERNBASE, PGSIZE. dlia. }
  assert (Hp2 : pg mod PGSIZE = 0 /\ 0 <= pg < 2 ^ 32 /\ pg + x mod PGSIZE = x).
  { unfold pg, PGSIZE. dlia. }
  assert (Hw : 0 <= PTE_W < PGSIZE) by done. assert (H0' : 0 <= 0 < PGSIZE) by done.
  assert (Ha1 : forall perm, KERNBASE <= x -> 0 <= perm < PGSIZE ->
            PTE_ADDR (leaf (pg - KERNBASE) perm) = pg - KERNBASE).
  { intros perm Hb Hperm. by apply leaf_eq; try apply Hp1. }
  assert (Ha2 : PTE_ADDR (leaf pg PTE_W) = pg) by (by apply leaf_eq; try apply Hp2).
  unfold kernel_pte. fold pg.
  repeat case_decide; rewrite ?leaf_bit by (try done; lia || apply Hp1; lia || apply Hp2);
    rewrite ?Ha1, ?Ha2 by (done || lia);
    unfold KERNLINK, KERNBASE, EXTMEM, PHYSTOP, DEVSPACE in *;
    (split_and!; [reflexivity|split; [done || lia|done || lia]|lia..|]); done || lia.
Qed.

End kvm.
