(* ===== verification/CopyFacts.v ===== *)
(** What a user program sees through its page table, and copyout: the bytes the
    kernel copies out are the bytes the program then reads. *)
From S2P Require Import Prelude Kernel Mem Spinlock Str Kalloc Console Vm VmFacts UvmFacts.

(** The byte at [va], as the hardware translates it. *)
Definition user_read (m : gmap Z Z) (pgdir va : Z) : option Z :=
  (fun pa => rd8 m (P2V pa)) <$> translate m pgdir va.

Section copyfacts.
Context `{Image} `{!ImageOk}.

Lemma pte_of_page m pgdir va : 0 <= va < 2 ^ 32 ->
  pte_of m pgdir (va / PGSIZE * PGSIZE) = pte_of m pgdir va.
Proof.
  intros Hva. unfold pte_of, pde_of. rewrite !PDX_div, !PTX_mod by (unfold PGSIZE; dlia).
  unfold PGSIZE. change (2 ^ 22) with 4194304. change (2 ^ 12) with 4096.
  rewrite Z.div_mul by done.
  replace (va / 4096 * 4096 / 4194304) with (va / 4194304) by dlia. done.
Qed.

Lemma user_page va : 0 <= va < KERNBASE -> 0 <= va / PGSIZE < UPAGES.
Proof. unfold KERNBASE, UPAGES, PGSIZE. change (KERNBASE / 4096) with 524288. dlia. Qed.

Lemma user_next v : 0 <= v < UPAGES -> (v + 1) * PGSIZE <= KERNBASE.
Proof. unfold UPAGES, KERNBASE, PGSIZE. change (KERNBASE / 4096) with 524288. dlia. Qed.

(** Under the invariant, user memory is the contents of the pages of [P]. *)
Lemma user_read_page k pgdir T l P va :
  uvm_inv k pgdir T l P -> 0 <= va < KERNBASE ->
  user_read (k_mem k) pgdir va =
    (fun u => rd8 (k_mem k) (u + va mod PGSIZE)) <$> P !! (va / PGSIZE).
Proof.
  intros Hi Hva. pose proof (user_page va Hva) as Hv.
  unfold user_read, translate. rewrite <- pte_of_page by (unfold KERNBASE in Hva; lia).
  destruct (P !! (va / PGSIZE)) as [u|] eqn:E.
  - destruct (ui_present _ _ _ _ _ Hi _ _ E) as [-> Hu]. simpl.
    destruct (ui_page _ _ _ _ _ Hi _ _ E) as [_ Hok]. destruct (page_kernel u Hok) as [Hr _].
    f_equal. f_equal. unfold pgtab_of, P2V, u32 in *. unfold KERNBASE, PHYSTOP, PGSIZE in *.
    set (x := PTE_ADDR _) in *. replace (x + va mod 4096 + 0x80000000)
      with (x + 0x80000000 + va mod 4096) by lia.
    rewrite <- Zplus_mod_idemp_l, Hu. apply Z.mod_small. dlia.
  - by rewrite (ui_absent _ _ _ _ _ Hi _ Hv E).
Qed.

(** A store into a user page is seen at its addresses, and nowhere else. *)
Lemma uvm_store k pgdir T l P v u off bs :
  uvm_inv k pgdir T l P -> P !! v = Some u -> 0 <= off -> off + zlen bs <= PGSIZE ->
  let k' := k <| k_mem ::= fun m => store m (u + off) bs |> in
  uvm_inv k' pgdir T l P /\
  (forall x, 0 <= x < 2 ^ 32 -> pte_of (k_mem k') pgdir x = pte_of (k_mem k) pgdir x) /\
  (forall x, 0 <= x < KERNBASE -> user_read (k_mem k') pgdir x =
    if decide (v * PGSIZE + off <= x < v * PGSIZE + off + zlen bs)
    then Some (u8 (bs !!! Z.to_nat (x - (v * PGSIZE + off)))) else user_read (k_mem k) pgdir x) /\
  (forall a b, page_ok a -> a <> u -> in_page a b -> rd8 (k_mem k') b = rd8 (k_mem k) b).
Proof.
  intros Hi Hv Ho Hle k'. pose proof Hi as [[Hwf Hk Hsep] Hpage Hpres Habs Hinj Hs].
  destruct (Hpage _ _ Hv) as [Hvr Hu]. destruct (Hs _ _ Hv) as [Hul Hup]. unfold zlen in *.
  assert (Hag : forall a b, page_ok a -> a <> u -> in_page a b -> rd8 (k_mem k) b = rd8 (k_mem k') b).
  { intros a b Ha Hne Hb. unfold k'. fields. rewrite rd8_store_out; [done|].
    destruct (decide (in_page u b)) as [Hb'|Hb']; [|unfold in_page, PGSIZE in *; lia].
    destruct Hne. by eapply in_page_disjoint. }
  assert (Hagt : forall a b, pt_page pgdir T a -> in_page a b -> rd8 (k_mem k) b = rd8 (k_mem k') b).
  { intros a b Ha. apply Hag; [by eapply pt_page_ok|]. by intros ->. }
  assert (Hpte : forall x, 0 <= x < 2 ^ 32 -> pte_of (k_mem k') pgdir x = pte_of (k_mem k) pgdir x).
  { intros x Hx. by eapply pte_of_agree. }
  assert (Hi' : uvm_inv k' pgdir T l P).
  { split; [split|..]; try done.
    - eapply pt_wf_agree; [done|]. intros b. apply Hagt. by left.
    - apply kmem_inv_mem; [done|]. intros a b Ha. apply Hag; [by eapply free_page_ok|]. by intros ->.
    - intros w x Hw. rewrite Hpte by (by eapply user_va, Hpage). by apply Hpres.
    - intros w Hw Hn. rewrite Hpte by (by apply user_va). by apply Habs. }
  split_and!; try done.
  - intros x Hx. rewrite !(user_read_page _ _ T l P) by done.
    destruct (decide (x / PGSIZE = v)) as [Hxv|Hne].
    + rewrite Hxv, Hv. unfold k'; fields. cbn [fmap option_fmap option_map].
      rewrite rd8_store. unfold PGSIZE in *.
      destruct (decide (u + off <= _ < _)) as [Hd|Hd]; destruct (decide (v * 4096 + off <= _ < _)) as [Hd'|Hd'];
        try (exfalso; clear -Hd Hd' Hxv Hle Ho; dlia); [|done].
      do 3 f_equal. clear -Hxv. dlia.
    + rewrite decide_False by (clear -Hne Ho Hle; unfold PGSIZE in *; dlia).
      destruct (P !! (x / PGSIZE)) as [w|] eqn:E; [|done]. cbn [fmap option_fmap option_map]. f_equal.
      symmetry. apply (Hag w).
      * by eapply Hpage.
      * intros ->. apply Hne. by eapply Hinj.
      * unfold in_page, PGSIZE. clear. dlia.
  - intros a b Ha Hne Hb. symmetry. by apply (Hag a).
Qed.

(** User-accessible pages for the addresses [va, va + len). *)
Definition user_range (m : gmap Z Z) (pgdir : Z) (P : gmap Z Z) (va len : Z) : Prop :=
  forall x, va <= x < va + len -> is_Some (P !! (x / PGSIZE)) /\
    bit_set (pte_of m pgdir (x / PGSIZE * PGSIZE)) PTE_U = true.

(** User memory after [len] bytes of [buf] are written at [va]. *)
Definition user_written (m : gmap Z Z) (pgdir va len : Z) (buf : list Z) (x : Z) : option Z :=
  if decide (va <= x < va + len) then Some (u8 (buf !!! Z.to_nat (x - va)))
  else user_read m pgdir x.

Lemma uva2ka_ok k e pgdir T l P v u :
  uvm_inv k pgdir T l P -> P !! v = Some u ->
  bit_set (pte_of (k_mem k) pgdir (v * PGSIZE)) PTE_U = true ->
  uva2ka pgdir (v * PGSIZE) k e = Ok u k e.
Proof.
  intros Hi Hv Hb. destruct (user_table _ _ _ _ _ _ _ Hi Hv) as [t Ht].
  pose proof (vi_wf _ _ _ _ (ui_vm _ _ _ _ _ Hi)) as Hwf.
  destruct (ui_page _ _ _ _ _ Hi _ _ Hv) as [Hr _]. pose proof (user_va v Hr) as Hva.
  destruct (ui_present _ _ _ _ _ Hi _ _ Hv) as [Hp Hu].
  unfold uva2ka. rewrite (bind_ok _ _ _ _ _ _ _ (walkpgdir_present k e pgdir T _ t false Hwf Ht)).
  unfold load_word. rewrite bind_assoc. step.
  destruct (wf_table _ _ _ Hwf _ _ Ht) as (_ & Hpt & _).
  destruct (page_kernel t Hpt) as [Htr _]. pose proof (PTX_range (v * PGSIZE)).
  rewrite (proj2 (Z.leb_le KERNBASE (t + _))) by lia. step.
  pose proof (pte_of_eq _ _ _ _ Hwf Hva) as Hpte. rewrite Ht in Hpte.
  rewrite <- Hpte, Hp, Hb. cbn [negb]. unfold pgtab_of in Hu. by rewrite Hu.
Qed.

Lemma copyout_loop_ok pgdir T l P n : forall va buf len k e,
  uvm_inv k pgdir T l P -> user_range (k_mem k) pgdir P va len ->
  0 <= va -> va + len <= KERNBASE -> 0 <= len <= zlen buf -> (Z.to_nat len < n)%nat ->
  exists m', copyout_loop n pgdir va buf len k e = Ok 0 (k <| k_mem := m' |>) e /\
    uvm_inv (k <| k_mem := m' |>) pgdir T l P /\
    (forall x, 0 <= x < KERNBASE -> user_read m' pgdir x = user_written (k_mem k) pgdir va len buf x).
Proof.
  induction n as [|n IH]; intros va buf len k e Hi Hrange Hva Hend Hlen Hn; [lia|].
  cbn [copyout_loop]. destruct (Z.eqb_spec len 0) as [->|Hne].
  { exists (k_mem k). rewrite restore_mem by done. split_and!; [done..|]. intros x Hx.
    unfold user_written. by rewrite decide_False by lia. }
  assert (Hdown : PGROUNDDOWN va = va / PGSIZE * PGSIZE).
  { rewrite PGROUNDDOWN_spec by (unfold KERNBASE in Hend; lia). unfold PGSIZE. dlia. }
  destruct (Hrange va ltac:(lia)) as [[u Hu] Hbu]. set (v := va / PGSIZE) in *.
  rewrite Hdown, (bind_ok _ _ _ _ _ _ _ (uva2ka_ok k e _ _ _ _ v u Hi Hu Hbu)).
  destruct (ui_page _ _ _ _ _ Hi _ _ Hu) as [Hvr Huok].
  rewrite (proj2 (Z.eqb_neq u 0) (page_nonzero u Huok)).
  set (off := va - v * PGSIZE) in *. set (c := Z.min (PGSIZE - off) len).
  assert (Hoff : 0 <= off < PGSIZE) by (unfold off, v, PGSIZE; clear; dlia).
  rewrite (proj2 (Z.ltb_ge _ _)) by lia. unfold set_mem. step. rewrite next_page by done.
  set (bs := take (Z.to_nat c) buf).
  assert (Hbs : zlen bs = c) by (unfold bs, zlen in *; rewrite length_take; lia).
  destruct (uvm_store k pgdir T l P v u off bs Hi Hu) as (Hi1 & Hpte1 & Hrd1 & _); [lia..|].
  set (k1 := k <| k_mem ::= fun m => store m (u + off) bs |>) in *.
  assert (Hv1 : v * PGSIZE + off = va) by (unfold off; lia). rewrite Hv1, Hbs in Hrd1.
  assert (Hnext : len - c <> 0 -> (v + 1) * PGSIZE = va + c) by (unfold c; lia).
  destruct (IH ((v + 1) * PGSIZE) (drop (Z.to_nat c) buf) (len - c) k1 e) as (m' & Hrun & Hi' & Hrd).
  - done.
  - intros x Hx. destruct (Hrange x ltac:(lia)) as [HP HU]. split; [done|]. rewrite Hpte1; [done|].
    destruct HP as [w Hw]. eapply user_va, (ui_page _ _ _ _ _ Hi), Hw.
  - unfold PGSIZE. lia.
  - pose proof (user_next v Hvr). lia.
  - unfold zlen in *. rewrite length_drop. lia.
  - lia.
  - exists m'. split_and!; [exact Hrun|exact Hi'|]. intros x Hx. rewrite (Hrd x Hx).
    unfold user_written. rewrite (Hrd1 x Hx).
    destruct (decide (va <= x < va + len)) as [Hin|Hin].
    + destruct (decide (va <= x < va + c)).
      * rewrite decide_False by lia. unfold bs. by rewrite lookup_total_take_lt by lia.
      * rewrite decide_True by lia. rewrite lookup_total_drop. do 3 f_equal. lia.
    + by rewrite !decide_False by lia.
Qed.

(** copyout writes exactly the bytes asked for, as the program sees them. *)
Lemma copyout_ok pgdir T l P va buf len k e :
  uvm_inv k pgdir T l P -> user_range (k_mem k) pgdir P va len ->
  0 <= va -> va + len <= KERNBASE -> 0 <= len <= zlen buf ->
  exists m', copyout pgdir va buf len k e = Ok 0 (k <| k_mem := m' |>) e /\
    uvm_inv (k <| k_mem := m' |>) pgdir T l P /\
    (forall x, 0 <= x < KERNBASE -> user_read m' pgdir x = user_written (k_mem k) pgdir va len buf x).
Proof. intros. eapply copyout_loop_ok; (done || lia). Qed.

(** Asking copyout for more bytes than the kernel object has reads past its end. *)
Lemma copyout_loop_overread pgdir T l P n : forall va buf len k e,
  uvm_inv k pgdir T l P -> user_range (k_mem k) pgdir P va (zlen buf + 1) ->
  0 <= va -> va + zlen buf + 1 <= KERNBASE -> zlen buf < len -> (length buf < n)%nat ->
  exists off k', copyout_loop n pgdir va buf len k e = Fault off k'.
Proof.
  induction n as [|n IH]; intros va buf len k e Hi Hrange Hva Hend Hlen Hn; [lia|].
  cbn [copyout_loop]. assert (Hz : 0 <= zlen buf) by (unfold zlen; lia).
  rewrite (proj2 (Z.eqb_neq len 0)) by lia.
  assert (Hdown : PGROUNDDOWN va = va / PGSIZE * PGSIZE).
  { rewrite PGROUNDDOWN_spec by (unfold KERNBASE in Hend; lia). unfold PGSIZE. dlia. }
  destruct (Hrange va ltac:(lia)) as [[u Hu] Hbu]. set (v := va / PGSIZE) in *.
  rewrite Hdown, (bind_ok _ _ _ _ _ _ _ (uva2ka_ok k e _ _ _ _ v u Hi Hu Hbu)).
  destruct (ui_page _ _ _ _ _ Hi _ _ Hu) as [Hvr Huok].
  rewrite (proj2 (Z.eqb_neq u 0) (page_nonzero u Huok)).
  set (off := va - v * PGSIZE) in *. set (c := Z.min (PGSIZE - off) len).
  assert (Hoff : 0 <= off < PGSIZE) by (unfold off, v, PGSIZE; clear; dlia).
  destruct (Z.ltb_spec (zlen buf) c) as [Hlt|Hge]; [by eexists _, _|].
  unfold set_mem. step. rewrite next_page by done.
  set (bs := take (Z.to_nat c) buf).
  assert (Hbs : zlen bs = c) by (unfold bs, zlen in *; rewrite length_take; lia).
  destruct (uvm_store k pgdir T l P v u off bs Hi Hu) as (Hi1 & Hpte1 & _ & _); [lia..|].
  set (k1 := k <| k_mem ::= fun m => store m (u + off) bs |>) in *.
  assert (Hnext : (v + 1) * PGSIZE = va + c) by (unfold c, off; lia).
  assert (Hd : zlen (drop (Z.to_nat c) buf) = zlen buf - c) by (unfold zlen in *; rewrite length_drop; lia).
  apply (IH ((v + 1) * PGSIZE) (drop (Z.to_nat c) buf) (len - c) k1 e); rewrite ?Hd; try lia; try done.
  - intros x Hx. destruct (Hrange x ltac:(lia)) as [HP HU]. split; [done|]. rewrite Hpte1; [done|].
    destruct HP as [w Hw]. eapply user_va, (ui_page _ _ _ _ _ Hi), Hw.
  - rewrite length_drop. unfold zlen in *. lia.
Qed.

End copyfacts.
