(* ===== verification/CopyuvmFacts.v ===== *)
(** copyuvm: fork's copy of an address space.  The child reads what the parent
    reads, from pages of its own. *)
From S2P Require Import Prelude Kernel Mem Spinlock Str Kalloc Console Vm VmFacts UvmFacts KvmFacts CopyFacts.

Section copyuvm.
Context `{Image} `{!ImageOk}.

(** A page of the address space: the directory, a table or a user page. *)
Definition owned (pgdir : Z) (T P : gmap Z Z) (a : Z) : Prop :=
  pt_page pgdir T a \/ exists v, P !! v = Some a.

Lemma owned_ok k pgdir T l P a : uvm_inv k pgdir T l P -> owned pgdir T P a -> page_ok a /\ a ∉ l.
Proof.
  intros Hi [Ha|[v Hv]].
  - split; [eapply pt_page_ok, Ha; apply Hi|]. intros Hl. by apply (vi_sep _ _ _ _ (ui_vm _ _ _ _ _ Hi) a).
  - split; [by eapply (ui_page _ _ _ _ _ Hi)|by eapply (ui_sep _ _ _ _ _ Hi)].
Qed.

(** An address space survives a change that leaves its pages alone. *)
Lemma uvm_inv_frame k k' pgdir T l l' P :
  uvm_inv k pgdir T l P -> kmem_inv k' l' -> (forall a, a ∈ l' -> ~ owned pgdir T P a) ->
  (forall a b, owned pgdir T P a -> in_page a b -> rd8 (k_mem k') b = rd8 (k_mem k) b) ->
  uvm_inv k' pgdir T l' P.
Proof.
  intros [[Hwf Hk Hsep] Hpage Hpres Habs Hinj Hs] Hk' Hsub Hag.
  assert (Hagt : forall a b, pt_page pgdir T a -> in_page a b -> rd8 (k_mem k) b = rd8 (k_mem k') b).
  { intros a b Ha Hb. symmetry. apply (Hag a); [by left|done]. }
  assert (Hpte : forall x, 0 <= x < 2 ^ 32 -> pte_of (k_mem k') pgdir x = pte_of (k_mem k) pgdir x).
  { intros x Hx. by eapply pte_of_agree. }
  split; [split|..]; try done.
  - eapply pt_wf_agree; [done|]. intros b. apply Hagt. by left.
  - intros a Ha Hp. apply (Hsub a Ha). by left.
  - intros v x Hv. rewrite Hpte by (by eapply user_va, Hpage). by apply Hpres.
  - intros v Hv Hn. rewrite Hpte by (by apply user_va). by apply Habs.
  - intros v x Hv. destruct (Hs _ _ Hv) as [Hx ?]. split; [|done].
    intros Hl. apply (Hsub x Hl). right. eauto.
Qed.

(** The first [mid] pages copied into the address space [d]. *)
Record uvm_copied (i : nat) (pgdir : Z) (k0 : kernel) (T : gmap Z Z) (l0 : list Z) (P : gmap Z Z)
    (mid d : Z) (hand : list Z) (k : kernel) (Td : gmap Z Z) (l : list Z) (C : gmap Z Z) : Prop := {
  uc_parent : uvm_inv k pgdir T l P;
  uc_child : uvm_inv k d Td l C;
  uc_ready : kmem_ready i k;
  uc_apart : forall a, owned pgdir T P a -> ~ owned d Td C a /\ a ∉ hand;
  uc_hand : forall u, u ∈ hand -> spare d Td l C u;
  uc_dom : forall v, is_Some (C !! v) <-> 0 <= v < mid;
  uc_same : forall v u c, P !! v = Some u -> C !! v = Some c ->
    (forall o, 0 <= o < PGSIZE -> rd8 (k_mem k) (c + o) = rd8 (k_mem k0) (u + o)) /\
    PTE_FLAGS (pte_of (k_mem k) d (v * PGSIZE)) = PTE_FLAGS (pte_of (k_mem k0) pgdir (v * PGSIZE));
  uc_pages : forall a, (a ∈ hand \/ a ∈ l \/ owned d Td C a) <-> a ∈ l0;
  uc_kept : forall a b, owned pgdir T P a -> in_page a b -> rd8 (k_mem k) b = rd8 (k_mem k0) b;
  uc_frame : kframe i k0 k
}.

Lemma flags_mod w : PTE_FLAGS w = w mod PGSIZE.
Proof. unfold PTE_FLAGS. change 0xFFF with (Z.ones 12). by rewrite Z.land_ones. Qed.

Lemma flags_bit w f : 0 <= f < PGSIZE -> bit_set (PTE_FLAGS w) f = bit_set w f.
Proof.
  intros Hf. rewrite flags_mod. unfold bit_set. f_equal.
  rewrite (Z.div_mod w PGSIZE) at 2 by done. rewrite land_page_low; try done.
  - by rewrite Z.mul_comm, Z.mod_mul.
  - by apply Z.mod_pos_bound.
Qed.

Lemma lor_P_id w : bit_set w PTE_P = true -> Z.lor w PTE_P = w.
Proof.
  unfold bit_set, PTE_P, nz. change 1 with (Z.ones 1). rewrite Z.land_ones by lia. intros Hb.
  apply Z.bits_inj'. intros n Hn. rewrite Z.lor_spec. destruct (decide (n = 0)) as [->|].
  - rewrite !Z.bit0_odd. rewrite Zodd_mod. destruct (Z.eqb_spec (w mod 2 ^ 1) 0) as [|Hz]; [done|].
    change (2 ^ 1) with 2 in *. pose proof (Z.mod_pos_bound w 2 ltac:(lia)).
    by rewrite (proj2 (Zeq_is_eq_bool (w mod 2) 1)) by lia.
  - rewrite Z.testbit_ones_nonneg by lia. rewrite (proj2 (Z.ltb_ge n 1)) by lia. apply orb_false_r.
Qed.

(** The entry copyuvm stores has the flags of the entry it copies. *)
Lemma leaf_flags pa w : pa mod PGSIZE = 0 -> 0 <= pa < 2 ^ 32 -> bit_set w PTE_P = true ->
  0 <= PTE_FLAGS w < PGSIZE /\ PTE_FLAGS (leaf pa (PTE_FLAGS w)) = PTE_FLAGS w.
Proof.
  intros Ha Hr Hp.
  assert (Hb : 0 <= PTE_FLAGS w < PGSIZE) by (rewrite flags_mod; by apply Z.mod_pos_bound).
  split; [done|]. destruct (leaf_eq pa (PTE_FLAGS w) Ha Hr Hb) as (_ & _ & _ & ->).
  rewrite lor_P_id by (by rewrite flags_bit). rewrite (flags_mod (pa + _)).
  rewrite <- Zplus_mod_idemp_l, Ha. by apply Z.mod_small.
Qed.

Lemma copied_take i pgdir k0 T l0 P mid d k e Td u l C v x :
  uvm_copied i pgdir k0 T l0 P mid d [] k Td (u :: l) C -> P !! v = Some x ->
  let k' := kpop (ktouch i k) <| k_mem ::= fun m => memmove m u x PGSIZE |> in
  kalloc k e = Ok u (kpop (ktouch i k)) e /\ u <> 0 /\
  uvm_copied i pgdir k0 T l0 P mid d [u] k' Td l C /\
  (forall o, 0 <= o < PGSIZE -> rd8 (k_mem k') (u + o) = rd8 (k_mem k0) (x + o)).
Proof.
  intros [Hp Hc Hr Hap _ Hdom Hsame Hpg Hkept Hf] Hv k'.
  assert (Hux : owned pgdir T P x) by (right; eauto).
  assert (Hxr : 0 <= x /\ x + PGSIZE < 2 ^ 32).
  { destruct (owned_ok _ _ _ _ _ _ Hp Hux) as [Hok _]. destruct (page_kernel x Hok) as [Hb _].
    unfold KERNBASE, PHYSTOP, PGSIZE in *. lia. }
  assert (Hmv : forall m b, ~ in_page u b -> rd8 (memmove m u x PGSIZE) b = rd8 m b).
  { intros m b Hb. unfold in_page, PGSIZE in *. rewrite rd8_memmove by lia.
    by rewrite decide_False by lia. }
  destruct (uvm_take i k e d Td u l C (fun m => memmove m u x PGSIZE) Hc Hr Hmv)
    as (Hrun & Hu0 & Hc' & Hr' & Hf' & Hsp & Hm & Hoth & Hpte). fold k' in Hc', Hr', Hf', Hm, Hoth, Hpte. clearbody k'.
  assert (Hown : forall a, owned pgdir T P a -> page_ok a /\ a <> u).
  { intros a Ha. destruct (owned_ok _ _ _ _ _ _ Hp Ha) as [Hok Hl]. split; [done|].
    intros ->. apply Hl. by left. }
  assert (Hcown : forall w c, C !! w = Some c -> page_ok c /\ c <> u).
  { intros w c Hw. split; [by eapply (ui_page _ _ _ _ _ Hc)|]. intros ->.
    destruct (ui_sep _ _ _ _ _ Hc _ _ Hw) as [Hl _]. apply Hl. by left. }
  split_and!; try done.
  - split; try done.
    + eapply uvm_inv_frame; [exact Hp|apply Hc'| |].
      * intros a Ha Ho. apply (owned_ok _ _ _ _ _ _ Hp) in Ho as [_ []]. by right.
      * intros a b Ha Hb. destruct (Hown a Ha). by apply (Hoth a).
    + intros a Ha. destruct (Hap a Ha) as [Hn _]. split; [done|].
      destruct (Hown a Ha) as [_ Hne]. by intros ?%list_elem_of_singleton.
    + by intros y ->%list_elem_of_singleton.
    + intros w y c Hw Hwc. destruct (Hsame w y c Hw Hwc) as [Hb Hfl]. split.
      * intros o Ho. rewrite (Hoth c); [by apply Hb|..]; try (by eapply Hcown).
        unfold in_page. lia.
      * rewrite Hpte; [done|]. eapply user_va, (ui_page _ _ _ _ _ Hc), Hwc.
    + intros a. rewrite <- Hpg, list_elem_of_singleton, elem_of_nil, elem_of_cons. tauto.
    + intros a b Ha Hb. destruct (Hown a Ha). rewrite (Hoth a) by done. by apply (Hkept a).
    + by etrans.
  - intros o Ho. rewrite Hm. unfold PGSIZE in *. rewrite rd8_memmove by lia. rewrite decide_True by lia.
    replace (x + (u + o - u)) with (x + o) by lia. apply (Hkept x); [done|].
    unfold in_page, PGSIZE. lia.
Qed.

(** A step of the page-table code on the child's table. *)
Lemma copied_parent i pgdir k0 T l0 P mid d hand k Td l k' Td' l' C :
  uvm_copied i pgdir k0 T l0 P mid d hand k Td l C -> vm_step i d k Td l k' Td' l' ->
  uvm_inv k' pgdir T l' P /\
  (forall a b, owned pgdir T P a -> in_page a b -> rd8 (k_mem k') b = rd8 (k_mem k0) b) /\
  (forall a b, (exists v, C !! v = Some a) \/ a ∈ hand -> in_page a b ->
     rd8 (k_mem k') b = rd8 (k_mem k) b).
Proof.
  intros [Hp Hc Hr Hap Hh _ _ _ Hkept _] [Hi' _ _ (used & -> & _) Hoth _].
  assert (Hag : forall a b, owned pgdir T P a -> in_page a b -> rd8 (k_mem k') b = rd8 (k_mem k) b).
  { intros a b Ha Hb. destruct (owned_ok _ _ _ _ _ _ Hp Ha) as [Hok Hl]. apply (Hoth a); try done.
    destruct (Hap a Ha) as [Hn _]. intros Ht. apply Hn. by left. }
  split_and!.
  - eapply uvm_inv_frame; [exact Hp|apply Hi'| |done]. intros a Ha Ho.
    apply (owned_ok _ _ _ _ _ _ Hp) in Ho as [_ Hl]. rewrite elem_of_app in Hl. tauto.
  - intros a b Ha Hb. rewrite (Hag a) by done. by apply (Hkept a).
  - intros a b [[v Hv]|Ha] Hb.
    + destruct (ui_sep _ _ _ _ _ Hc _ _ Hv). apply (Hoth a); try done. by eapply (ui_page _ _ _ _ _ Hc).
    + destruct (Hh a Ha) as (? & ? & ? & _). by apply (Hoth a).
Qed.

Lemma copied_step i pgdir k0 T l0 P mid d hand k Td l k' Td' l' C :
  uvm_copied i pgdir k0 T l0 P mid d hand k Td l C -> vm_step i d k Td l k' Td' l' ->
  (forall x, 0 <= x < 2 ^ 32 -> pte_of (k_mem k') d x = pte_of (k_mem k) d x) ->
  uvm_copied i pgdir k0 T l0 P mid d hand k' Td' l' C.
Proof.
  intros Hcp Hs Hpte.
  destruct (copied_parent _ _ _ _ _ _ _ _ _ _ _ _ _ _ _ _ Hcp Hs) as (Hp' & Hkept' & Hag).
  destruct Hcp as [Hp Hc Hr Hap Hh Hdom Hsame Hpg Hkept Hf].
  pose proof (uvm_inv_step _ _ _ _ _ _ _ _ _ Hc Hs Hpte) as Hc'.
  destruct Hs as [_ Hr' _ (used & -> & Hused) _ Hf'].
  assert (Howned : forall a, owned d Td' C a <-> owned d Td C a \/ a ∈ used).
  { intros a. unfold owned. rewrite Hused. tauto. }
  split; try done.
  - intros a Ha. destruct (Hap a Ha) as [Hno Hnh]. split; [|done]. rewrite Howned.
    destruct (owned_ok _ _ _ _ _ _ Hp Ha) as [_ Hl]. rewrite elem_of_app in Hl. tauto.
  - intros u Hu. destruct (Hh u Hu) as (? & Hl & Hnp & ?). rewrite elem_of_app in Hl.
    split_and!; try done; [tauto|]. rewrite Hused. tauto.
  - intros v y c Hv Hvc. destruct (Hsame v y c Hv Hvc) as [Hb Hfl]. split.
    + intros o Ho. rewrite (Hag c); [by apply Hb|left; eauto|unfold in_page; lia].
    + pose proof (ui_page _ _ _ _ _ Hc _ _ Hvc) as [Hvr _]. rewrite Hpte; [done|]. by apply user_va.
  - intros a. rewrite <- Hpg, Howned, elem_of_app. tauto.
  - by etrans.
Qed.

Lemma copied_map i pgdir k0 T l0 P mid d u x k Td l k' Td' l' C :
  uvm_copied i pgdir k0 T l0 P mid d [u] k Td l C -> 0 <= mid < UPAGES -> P !! mid = Some x ->
  bit_set (pte_of (k_mem k0) pgdir (mid * PGSIZE)) PTE_P = true ->
  (forall o, 0 <= o < PGSIZE -> rd8 (k_mem k) (u + o) = rd8 (k_mem k0) (x + o)) ->
  vm_step i d k Td l k' Td' l' ->
  (forall y, 0 <= y < 2 ^ 32 -> pte_of (k_mem k') d y =
    if decide (y / PGSIZE = mid) then leaf (V2P u) (PTE_FLAGS (pte_of (k_mem k0) pgdir (mid * PGSIZE)))
    else pte_of (k_mem k) d y) ->
  uvm_copied i pgdir k0 T l0 P (mid + 1) d [] k' Td' l' (<[mid := u]> C).
Proof.
  intros Hcp Hmid Hx Hpr Hcont Hs Hpte.
  destruct (copied_parent _ _ _ _ _ _ _ _ _ _ _ _ _ _ _ _ Hcp Hs) as (Hp' & Hkept' & Hag).
  destruct Hcp as [Hp Hc Hr Hap Hh Hdom Hsame Hpg Hkept Hf].
  pose proof (Hh u ltac:(by left)) as Hsp.
  assert (Hn : C !! mid = None).
  { apply eq_None_not_Some. rewrite Hdom. lia. }
  destruct (V2P_aligned u (proj1 Hsp)) as [Hal Har]. unfold PHYSTOP in Har.
  destruct (leaf_flags (V2P u) _ Hal ltac:(lia) Hpr) as [Hfb Hfl].
  destruct (uvm_inv_map _ _ _ _ _ _ _ _ _ mid u _ Hc Hs Hsp Hmid Hn Hfb Hpte) as [Hc' _].
  destruct Hs as [_ Hr' _ (used & -> & Hused) _ Hf'].
  assert (Howned : forall a, owned d Td' (<[mid := u]> C) a <-> owned d Td C a \/ a = u \/ a ∈ used).
  { intros a. unfold owned. rewrite Hused. setoid_rewrite lookup_insert_Some. split.
    - intros [?|[v [[<- ->]|[_ Hv]]]]; [tauto..|]. left. right. eauto.
    - intros [[?|[v Hv]]|[->|?]]; [tauto| |right; exists mid; tauto|tauto].
      right. exists v. right. split; [congruence|done]. }
  split; try done.
  - intros a Ha. destruct (Hap a Ha) as [Hno Hnh]. rewrite Howned, elem_of_nil.
    destruct (owned_ok _ _ _ _ _ _ Hp Ha) as [_ Hl]. rewrite elem_of_app in Hl.
    rewrite list_elem_of_singleton in Hnh. tauto.
  - by intros y ?%elem_of_nil.
  - intros v. destruct (decide (v = mid)) as [->|Hne].
    + rewrite lookup_insert_eq. split; [lia|eauto].
    + rewrite lookup_insert_ne, Hdom by done. lia.
  - intros v y c Hv [[<- <-]|[Hne Hvc]]%lookup_insert_Some.
    + rewrite Hx in Hv. injection Hv as <-. split.
      * intros o Ho. rewrite (Hag u); [by apply Hcont|right; by left|unfold in_page; lia].
      * by rewrite Hpte, Z.div_mul, decide_True by (done || by apply user_va).
    + destruct (Hsame v y c Hv Hvc) as [Hb Hfl']. split.
      * intros o Ho. rewrite (Hag c); [by apply Hb|left; eauto|unfold in_page; lia].
      * pose proof (ui_page _ _ _ _ _ Hc _ _ Hvc) as [Hvr _].
        by rewrite Hpte, Z.div_mul, decide_False by (done || by apply user_va).
  - intros a. rewrite <- Hpg, Howned, elem_of_nil, elem_of_app, list_elem_of_singleton. tauto.
  - by etrans.
Qed.

(** Out of memory: the child is gone, the parent is as it was, and the free
    pages are those there were. *)
Record uvm_restored (i : nat) (pgdir : Z) (k0 : kernel) (T : gmap Z Z) (l0 : list Z) (P : gmap Z Z)
    (k : kernel) (l : list Z) : Prop := {
  ur_inv : uvm_inv k pgdir T l P;
  ur_ready : kmem_ready i k;
  ur_pages : forall a, a ∈ l <-> a ∈ l0;
  ur_kept : forall a b, owned pgdir T P a -> in_page a b -> rd8 (k_mem k) b = rd8 (k_mem k0) b;
  ur_frame : kframe i k0 k
}.

Lemma copied_abort i pgdir k0 T l0 P mid d k e Td l C :
  uvm_copied i pgdir k0 T l0 P mid d [] k Td l C -> (forall a, owned pgdir T P a -> a ∉ l0) ->
  exists k' l', freevm d k e = Ok tt k' e /\ uvm_restored i pgdir k0 T l0 P k' l'.
Proof.
  intros [Hp Hc Hr Hap _ _ _ Hpg Hkept Hf] Hl0.
  destruct (freevm_ok i d k e Td l C Hc Hr) as (k' & l' & Hrun & Hk' & Hr' & Hf' & Hl' & Ho').
  exists k', l'. split; [done|].
  assert (Hall : forall a, a ∈ l' <-> a ∈ l0).
  { intros a. rewrite <- Hpg, Hl', elem_of_nil. unfold owned. tauto. }
  assert (Hag : forall a b, owned pgdir T P a -> in_page a b -> rd8 (k_mem k') b = rd8 (k_mem k) b).
  { intros a b Ha Hb. apply (Ho' a); [apply (owned_ok _ _ _ _ _ _ Hp Ha)| |done]. rewrite Hall. by apply Hl0. }
  assert (Hi' : uvm_inv k' pgdir T l' P).
  { eapply uvm_inv_frame; [exact Hp|done| |done]. intros a Ha Ho. apply Hall in Ha. by apply (Hl0 a). }
  split; try done.
  - intros a b Ha Hb. rewrite (Hag a) by done. by apply (Hkept a).
  - by etrans.
Qed.

(** Giving back the page in hand first. *)
Lemma copied_drop i pgdir k0 T l0 P mid d u k e Td l C :
  uvm_copied i pgdir k0 T l0 P mid d [u] k Td l C ->
  exists k', kfree u k e = Ok tt k' e /\ uvm_copied i pgdir k0 T l0 P mid d [] k' Td (u :: l) C.
Proof.
  intros [Hp Hc Hr Hap Hh Hdom Hsame Hpg Hkept Hf]. pose proof (Hh u ltac:(by left)) as Hsp.
  destruct (uvm_inv_kfree i k e d Td l C u Hc Hr Hsp) as (k' & Hrun & Hc' & Hr' & Hf' & Hag & Hpte).
  assert (Hown : forall a, owned pgdir T P a -> page_ok a /\ a <> u).
  { intros a Ha. split; [by apply (owned_ok _ _ _ _ _ _ Hp Ha)|]. intros ->.
    destruct (Hap u Ha) as [_ Hn]. apply Hn. by left. }
  exists k'. split; [done|]. split; try done.
  - eapply uvm_inv_frame; [exact Hp|apply Hc'| |].
    + intros a [->|Ha]%elem_of_cons Ho; [by destruct (Hown u Ho)|].
      by destruct (owned_ok _ _ _ _ _ _ Hp Ho).
    + intros a b Ha Hb. destruct (Hown a Ha). by apply (Hag a).
  - intros a Ha. destruct (Hap a Ha) as [? _]. split; [done|]. apply not_elem_of_nil.
  - by intros y ?%elem_of_nil.
  - intros v y c Hv Hvc. destruct (Hsame v y c Hv Hvc) as [Hb Hfl].
    destruct (ui_page _ _ _ _ _ Hc _ _ Hvc) as [Hvr Hcok]. split.
    + intros o Ho. rewrite (Hag c); [by apply Hb|done| |unfold in_page; lia].
      intros ->. destruct Hsp as (_ & _ & _ & HuP). by apply (HuP v).
    + rewrite Hpte; [done|]. by apply user_va.
  - intros a. rewrite <- Hpg, elem_of_cons, elem_of_nil, list_elem_of_singleton. tauto.
  - intros a b Ha Hb. destruct (Hown a Ha). rewrite (Hag a) by done. by apply (Hkept a).
  - by etrans.
Qed.

(** The parent's page table read in the current state. *)
Lemma copied_walk i pgdir k0 T l0 P mid d hand k e Td l C v u :
  uvm_copied i pgdir k0 T l0 P mid d hand k Td l C -> uvm_inv k0 pgdir T l0 P -> P !! v = Some u ->
  exists t, walkpgdir pgdir (v * PGSIZE) false k e = Ok t k e /\ t <> 0 /\
    rd32 (k_mem k) t = pte_of (k_mem k0) pgdir (v * PGSIZE).
Proof.
  intros Hcp Hi0 Hv. pose proof (uc_parent _ _ _ _ _ _ _ _ _ _ _ _ _ Hcp) as Hp.
  destruct (user_table _ _ _ _ _ _ _ Hp Hv) as [t Ht]. destruct (ui_page _ _ _ _ _ Hp _ _ Hv) as [Hvr _].
  pose proof (vi_wf _ _ _ _ (ui_vm _ _ _ _ _ Hp)) as Hwf.
  exists (t + 4 * PTX (v * PGSIZE)). split_and!.
  - by apply (walkpgdir_present k e pgdir T).
  - by eapply table_nonzero.
  - pose proof (pte_of_eq _ _ _ _ Hwf (user_va v Hvr)) as Hpte. rewrite Ht in Hpte. rewrite <- Hpte.
    apply (pte_of_agree _ _ _ T); [apply Hi0|by apply user_va|]. intros a b Ha Hb. symmetry.
    eapply uc_kept; [done|by left|done].
Qed.

(** One page: mapped in the child, or no memory for its page table. *)
Lemma copyuvm_page i pgdir k0 T l0 P mid d u x k e Td l C :
  uvm_copied i pgdir k0 T l0 P mid d [u] k Td l C -> uvm_inv k0 pgdir T l0 P ->
  0 <= mid < UPAGES -> P !! mid = Some x ->
  (forall o, 0 <= o < PGSIZE -> rd8 (k_mem k) (u + o) = rd8 (k_mem k0) (x + o)) ->
  exists r k' Td' l',
    mappages d (mid * PGSIZE) PGSIZE (V2P u) (PTE_FLAGS (pte_of (k_mem k0) pgdir (mid * PGSIZE))) k e
      = Ok r k' e /\
    ((r = 0 /\ uvm_copied i pgdir k0 T l0 P (mid + 1) d [] k' Td' l' (<[mid := u]> C)) \/
     (r = -1 /\ uvm_copied i pgdir k0 T l0 P mid d [u] k' Td' l' C)).
Proof.
  intros Hcp Hi0 Hmid Hx Hcont. destruct (ui_present _ _ _ _ _ Hi0 _ _ Hx) as [Hpp _].
  pose proof (uc_child _ _ _ _ _ _ _ _ _ _ _ _ _ Hcp) as Hc.
  pose proof (uc_hand _ _ _ _ _ _ _ _ _ _ _ _ _ Hcp u ltac:(by left)) as Hsp.
  destruct (V2P_aligned u (proj1 Hsp)) as [Hal Har]. unfold PHYSTOP in Har.
  destruct (leaf_flags (V2P u) _ Hal ltac:(lia) Hpp) as [Hfb _].
  destruct (mappages_page i d (mid * PGSIZE) (V2P u)
              (PTE_FLAGS (pte_of (k_mem k0) pgdir (mid * PGSIZE))) k e Td l)
    as (r & k' & Td' & l' & Hrun & Hs & Hres); try done.
  { apply Hc. } { by eapply uc_ready. } { by rewrite Z.mod_mul. } { by apply user_va. } { lia. }
  { apply (ui_absent _ _ _ _ _ Hc); [done|]. apply eq_None_not_Some.
    rewrite (uc_dom _ _ _ _ _ _ _ _ _ _ _ _ _ Hcp). lia. }
  rewrite Z.div_mul in Hres by done. exists r, k', Td', l'. split; [done|].
  destruct Hres as [[-> Hpte]|(-> & _ & Hpte)]; [left|right]; (split; [done|]).
  - by eapply copied_map.
  - by eapply copied_step.
Qed.

Lemma copyuvm_loop_ok i pgdir k0 T l0 P sz d n : forall mid k e Td l C,
  uvm_copied i pgdir k0 T l0 P mid d [] k Td l C -> uvm_inv k0 pgdir T l0 P ->
  0 <= mid <= npages sz -> sz <= KERNBASE -> (forall v, 0 <= v < npages sz -> is_Some (P !! v)) ->
  (Z.to_nat (npages sz - mid) < n)%nat ->
  exists r k', copyuvm_loop n pgdir d (mid * PGSIZE) sz k e = Ok r k' e /\
    ((r = d /\ exists Td' l' C', uvm_copied i pgdir k0 T l0 P (npages sz) d [] k' Td' l' C') \/
     (r = 0 /\ exists l', uvm_restored i pgdir k0 T l0 P k' l')).
Proof.
  induction n as [|n IH]; intros mid k e Td l C Hcp Hi0 Hmid Hsz HP Hn; [lia|].
  cbn [copyuvm_loop]. destruct (mid * PGSIZE <? sz) eqn:E; cbn [negb].
  2: { assert (mid = npages sz) as ->.
       { destruct (decide (mid < npages sz)) as [Hlt%npages_lt|]; lia. }
       exists d, k. split; [done|]. left. split; [done|]. eauto. }
  apply Z.ltb_lt, npages_lt in E. pose proof (npages_user sz Hsz) as Hu.
  assert (Hown0 : forall a, owned pgdir T P a -> a ∉ l0) by (intros a Ha; by eapply owned_ok).
  destruct (HP mid ltac:(lia)) as [x Hx].
  destruct (copied_walk _ _ _ _ _ _ _ _ _ k e _ _ _ mid x Hcp Hi0 Hx) as (t & Hw & Ht0 & Hpte).
  rewrite (bind_ok _ _ _ _ _ _ _ Hw), (proj2 (Z.eqb_neq t 0) Ht0). step. rewrite Hpte.
  destruct (ui_present _ _ _ _ _ Hi0 _ _ Hx) as [Hpp Hpx]. rewrite Hpp. cbn [negb].
  unfold pgtab_of in Hpx. rewrite Hpx. destruct l as [|u l].
  - pose proof (uc_ready _ _ _ _ _ _ _ _ _ _ _ _ _ Hcp) as Hr.
    pose proof (uc_child _ _ _ _ _ _ _ _ _ _ _ _ _ Hcp) as Hc.
    rewrite (bind_ok _ _ _ _ _ _ _ (kalloc_nil i k e Hr (vi_kmem _ _ _ _ (ui_vm _ _ _ _ _ Hc)))).
    change (0 =? 0) with true. cbv iota.
    destruct (copied_abort i pgdir k0 T l0 P mid d (ktouch i k) e Td [] C) as (k' & l' & Hrun & Hres).
    { eapply copied_step; [done|by apply vm_step_ktouch, vm_step_refl; [apply Hc|]|].
      by rewrite k_mem_ktouch. }
    { done. }
    rewrite (bind_ok _ _ _ _ _ _ _ Hrun). exists 0, k'. split; [done|]. right. eauto.
  - destruct (copied_take _ _ _ _ _ _ _ _ k e _ _ _ _ mid x Hcp Hx) as (Hrun & Hu0 & Hcp1 & Hcont).
    rewrite (bind_ok _ _ _ _ _ _ _ Hrun), (proj2 (Z.eqb_neq u 0) Hu0). unfold set_mem. step.
    set (k1 := kpop (ktouch i k) <| k_mem ::= fun m => memmove m u x PGSIZE |>) in *. clearbody k1.
    destruct (copyuvm_page i pgdir k0 T l0 P mid d u x k1 e Td l C) as (r & k2 & Td2 & l2 & Hmap & Hres);
      try done; [lia|].
    rewrite (bind_ok _ _ _ _ _ _ _ Hmap). destruct Hres as [[-> Hcp2]|[-> Hcp2]].
    + change (0 <? 0) with false. cbv iota. rewrite next_page by lia.
      by apply (IH (mid + 1) k2 e Td2 l2 (<[mid := u]> C)); try lia.
    + change (-1 <? 0) with true. cbv iota.
      destruct (copied_drop _ _ _ _ _ _ _ _ _ k2 e _ _ _ Hcp2) as (k3 & Hrun3 & Hcp3).
      rewrite (bind_ok _ _ _ _ _ _ _ Hrun3).
      destruct (copied_abort _ _ _ _ _ _ _ _ k3 e _ _ _ Hcp3 Hown0) as (k4 & l4 & Hrun4 & Hres).
      rewrite (bind_ok _ _ _ _ _ _ _ Hrun4). exists 0, k4. split; [done|]. right. eauto.
Qed.
(** copyuvm: a new address space with the parent's contents and permissions
    in pages of its own, or 0 with everything as it was. *)
Lemma copyuvm_ok i pgdir k e T l P sz :
  uvm_inv k pgdir T l P -> kmem_ready i k -> 0 <= sz <= KERNBASE ->
  (forall v, 0 <= v < npages sz -> is_Some (P !! v)) ->
  exists r k', copyuvm pgdir sz k e = Ok r k' e /\
    ((r <> 0 /\ exists Td l' C, uvm_copied i pgdir k T l P (npages sz) r [] k' Td l' C) \/
     (r = 0 /\ exists l', uvm_restored i pgdir k T l P k' l')).
Proof.
  intros Hi Hr Hsz HP. pose proof (vi_kmem _ _ _ _ (ui_vm _ _ _ _ _ Hi)) as Hk.
  destruct (setupkvm_ok i k e l Hk Hr) as (d & k1 & Hrun & Hr1 & Hf1 & Hres).
  unfold copyuvm. rewrite (bind_ok _ _ _ _ _ _ _ Hrun).
  assert (Hown : forall a, owned pgdir T P a -> page_ok a /\ a ∉ l) by (intros a; by eapply owned_ok).
  destruct Hres as [(Hd0 & Td & l1 & used & -> & Hc1 & Hpt & Ho1 & _)|(-> & l1 & Hk1 & Hl1 & Ho1)].
  2: { exists 0, k1. split; [done|]. right. split; [done|]. exists l1.
       assert (Hag : forall a b, owned pgdir T P a -> in_page a b -> rd8 (k_mem k1) b = rd8 (k_mem k) b).
       { intros a b Ha Hb. destruct (Hown a Ha). apply (Ho1 a); try done. by rewrite Hl1. }
       split; try done. eapply uvm_inv_frame; [exact Hi|done| |done].
       intros a Ha Ho. apply Hl1 in Ha. by destruct (Hown a Ho). }
  rewrite (proj2 (Z.eqb_neq d 0) Hd0).
  assert (Hag : forall a b, owned pgdir T P a -> in_page a b -> rd8 (k_mem k1) b = rd8 (k_mem k) b).
  { intros a b Ha Hb. destruct (Hown a Ha). by apply (Ho1 a). }
  assert (Hcp : uvm_copied i pgdir k T (used ++ l1) P 0 d [] k1 Td l1 ∅).
  { split; try done.
    - eapply uvm_inv_frame; [exact Hi|apply Hc1| |done]. intros a Ha Ho.
      destruct (Hown a Ho) as [_ Hl]. apply Hl. rewrite elem_of_app. by right.
    - intros a Ha. split; [|apply not_elem_of_nil]. destruct (Hown a Ha) as [_ Hl].
      rewrite elem_of_app in Hl. intros [Ho%Hpt|[v Hv]]; [tauto|done].
    - by intros u ?%elem_of_nil.
    - intros v. rewrite lookup_empty. split; [by intros []|lia].
    - intros a. unfold owned. rewrite elem_of_nil, elem_of_app, Hpt. split; [|tauto].
      intros [?|[?|[?|[v Hv]]]]; [tauto..|done]. }
  destruct (copyuvm_loop_ok i pgdir k T (used ++ l1) P sz d (S (Z.to_nat (sz / PGSIZE + 1)))
              0 k1 e Td l1 ∅) as (r & k' & Hrun' & Hres); try done; [|lia| |].
  - split; [lia|]. unfold npages, PGSIZE. dlia.
  - unfold npages, PGSIZE. dlia.
  - exists r, k'. split; [done|]. destruct Hres as [[-> Hres]|Hres]; [left|right]; done.
Qed.

(** What the programs read after the copy. *)
Lemma copied_parent_reads i pgdir k0 T l0 P mid d k Td l C x :
  uvm_copied i pgdir k0 T l0 P mid d [] k Td l C -> uvm_inv k0 pgdir T l0 P -> 0 <= x < KERNBASE ->
  user_read (k_mem k) pgdir x = user_read (k_mem k0) pgdir x.
Proof.
  intros Hc Hi Hx. rewrite (user_read_page k pgdir T l P) by (done || by eapply uc_parent).
  rewrite (user_read_page k0 pgdir T l0 P) by done.
  destruct (P !! (x / PGSIZE)) as [u|] eqn:Hu; [|done]. cbn [fmap option_fmap option_map]. f_equal.
  eapply uc_kept; [done|right; eauto|]. unfold in_page, PGSIZE. clear. dlia.
Qed.

Lemma copied_reads i pgdir k0 T l0 P sz d k Td l C x :
  uvm_copied i pgdir k0 T l0 P (npages sz) d [] k Td l C -> uvm_inv k0 pgdir T l0 P -> sz <= KERNBASE ->
  (forall v, 0 <= v < npages sz -> is_Some (P !! v)) -> 0 <= x < npages sz * PGSIZE ->
  user_read (k_mem k) d x = user_read (k_mem k0) pgdir x.
Proof.
  intros Hc Hi Hsz HP Hx. pose proof (npages_user sz Hsz) as Hn.
  assert (Hxk : 0 <= x < KERNBASE).
  { revert Hn Hx. unfold UPAGES, KERNBASE, PGSIZE. change (0x80000000 / 4096) with 524288. lia. }
  assert (Hv : 0 <= x / PGSIZE < npages sz) by (revert Hx; unfold PGSIZE; dlia).
  rewrite (user_read_page k d Td l C) by (done || by eapply uc_child).
  rewrite (user_read_page k0 pgdir T l0 P) by done.
  destruct (HP _ Hv) as [u Hu]. destruct (proj2 (uc_dom _ _ _ _ _ _ _ _ _ _ _ _ _ Hc _) Hv) as [c Hcc].
  rewrite Hu, Hcc. cbn [fmap option_fmap option_map]. f_equal.
  eapply uc_same; [done..|]. apply Z.mod_pos_bound. done.
Qed.

End copyuvm.
