(* ===== verification/Sample.v ===== *)
(** A small concrete kernel state: one CPU, a process with two pages of user
    memory, three free pages, an empty pipe.  The properties are applied to it. *)
From S2P Require Import Prelude Kernel Mem Spinlock Str Kalloc Console Vm VmFacts UvmFacts.

#[global] Instance sample_image : Image := {|
  sym_end := 0x80120000; sym_data := 0x80110000;
  sym_trapret := 0x80101000; sym_forkret := 0x80102000; initcode := [] |}.
#[global] Instance sample_image_ok : ImageOk.
Proof. split; by vm_compute. Qed.

Module Sample.
Definition D : Z := 0x80200000.
Definition T0 : Z := 0x80201000.
Definition U0 : Z := 0x80202000.
Definition U1 : Z := 0x80203000.
Definition F1 : Z := 0x80204000.
Definition F2 : Z := 0x80205000.
Definition F3 : Z := 0x80206000.

Definition tables : gmap Z Z := {[0 := T0]}.
Definition upages : gmap Z Z := <[0 := U0]> {[1 := U1]}.
Definition free : list Z := [F1; F2; F3].

Definition mem : gmap Z Z :=
  wr32 (wr32 (wr32 (wr32 (wr32 (wr32 empty D (V2P T0 + 7)) T0 (V2P U0 + 7)) (T0 + 4) (V2P U1 + 7))
    F1 F2) F2 F3) F3 0.

Definition process : proc :=
  mkProc 8192 D 0x80210000 RUNNING 1 None 0 0 None 0 (replicate 16 None) None (replicate 16 0).

Definition k : kernel := kernel0
  <| k_mem := mem |> <| k_kmem := mkKmem true F1 |>
  <| k_cpus := [mkCpu 0 1 0 false (Some 0%nat) 0] |>
  <| k_ptable ::= fun t => <[0%nat := process]> t |>
  <| k_pipes := {[F3 := mkPipe (replicate 512 0) 0 0 1 1]} |>.

Lemma cpu : cpu_at 0 k.
Proof. by vm_compute. Qed.
Lemma locks l : lock_free l k.
Proof. done. Qed.
Lemma ready : kmem_ready 0 k.
Proof. intros _. split; [apply cpu|apply locks]. Qed.
Lemma console : cons_ready 0 k.
Proof. split; [by vm_compute|]. intros _. split; [apply cpu|apply locks]. Qed.

Lemma page a : a ∈ [D; T0; U0; U1; F1; F2; F3] -> page_ok a.
Proof.
  intros Ha. repeat (apply elem_of_cons in Ha as [->|Ha]; [by vm_compute|]). by apply elem_of_nil in Ha.
Qed.

(** Words of the memory that were not set read as zero. *)
Lemma mem_zero a :
  (a < D - 3 \/ D + 4 <= a) -> (a < T0 - 3 \/ T0 + 8 <= a) ->
  (a < F1 - 3 \/ F1 + 4 <= a) -> (a < F2 - 3 \/ F2 + 4 <= a) -> (a < F3 - 3 \/ F3 + 4 <= a) ->
  rd32 mem a = 0.
Proof.
  intros. unfold mem. rewrite !rd32_wr32_ne by lia. unfold rd32, rd8. by rewrite !lookup_empty.
Qed.

Lemma wf : pt_wf mem D tables.
Proof.
  unfold tables. split.
  - apply page. by left.
  - intros j t [<- <-]%lookup_singleton_Some. split_and!; [done|done|apply page; right; by left|done].
  - intros j j' t [<- _]%lookup_singleton_Some [<- _]%lookup_singleton_Some. done.
  - intros j t [<- <-]%lookup_singleton_Some. by vm_compute.
  - intros j Hj Hn. apply lookup_singleton_None in Hn.
    rewrite mem_zero; [done|unfold D, T0, F1, F2, F3; lia..].
Qed.

Lemma free_list : kmem_inv k free.
Proof.
  split; [by vm_compute|]. split.
  - apply (bool_decide_unpack _). by vm_compute.
  - repeat (constructor; [by vm_compute|]). constructor.
Qed.

Lemma pte v : 0 <= v < UPAGES -> pte_of mem D (v * PGSIZE) =
  if decide (v = 0) then V2P U0 + 7 else if decide (v = 1) then V2P U1 + 7 else 0.
Proof.
  intros Hv. pose proof (user_va v Hv) as Hr. rewrite (pte_of_eq _ _ _ _ wf) by done.
  rewrite PDX_page by done. unfold tables.
  destruct (decide (v = 0)) as [->|]; [by vm_compute|].
  destruct (decide (v = 1)) as [->|]; [by vm_compute|].
  destruct (decide (v / 1024 = 0)) as [Hz|Hz].
  - rewrite Hz, lookup_singleton_eq, PTX_mod. unfold PGSIZE in *. change (2 ^ 12) with 4096.
    rewrite Z.div_mul by done. rewrite Z.mod_small by dlia.
    apply mem_zero; unfold D, T0, F1, F2, F3; dlia.
  - by rewrite lookup_singleton_ne by done.
Qed.

Lemma uvm : uvm_inv k D tables free upages.
Proof.
  assert (HP : forall v u, upages !! v = Some u -> (v = 0 /\ u = U0) \/ (v = 1 /\ u = U1)).
  { intros v u Hv. unfold upages in Hv. apply lookup_insert_Some in Hv as [[<- <-]|[_ Hv]]; [by left|].
    apply lookup_singleton_Some in Hv as [<- <-]. by right. }
  split.
  - split; [apply wf|apply free_list|]. intros a Ha [->|[j Hj]].
    + by repeat (apply elem_of_cons in Ha as [Ha|Ha]; [by vm_compute in Ha|]); apply elem_of_nil in Ha.
    + unfold tables in Hj. apply lookup_singleton_Some in Hj as [_ <-].
      by repeat (apply elem_of_cons in Ha as [Ha|Ha]; [by vm_compute in Ha|]); apply elem_of_nil in Ha.
  - intros v u [[-> ->]|[-> ->]]%HP; (split; [by vm_compute|apply page; set_solver]).
  - intros v u [[-> ->]|[-> ->]]%HP; change (k_mem k) with mem; rewrite pte by (by vm_compute);
      by vm_compute.
  - intros v Hv Hn. change (k_mem k) with mem. rewrite pte by done.
    destruct (decide (v = 0)) as [->|]; [done|]. by destruct (decide (v = 1)) as [->|].
  - intros v w u Hv Hw. by apply HP in Hv as [[-> ->]|[-> ->]]; apply HP in Hw as [[-> ?]|[-> ?]].
  - intros v u Hv. assert (Hu : u = U0 \/ u = U1) by (apply HP in Hv as [[_ ->]|[_ ->]]; auto).
    split.
    + intros Ha. destruct Hu as [-> | ->];
        by repeat (apply elem_of_cons in Ha as [Ha|Ha]; [by vm_compute in Ha|]); apply elem_of_nil in Ha.
    + unfold tables. intros [->|[j [_ Hj]%lookup_singleton_Some]]; [by destruct Hu|].
      destruct Hu as [-> | ->]; by vm_compute in Hj.
Qed.
End Sample.
