(* ===== verification/VmSpec.v ===== *)
(** What vm.c promises: the properties of address spaces, each applied to the
    concrete state of Sample.v. *)
From S2P Require Import Prelude Kernel Mem Spinlock Str Kalloc Console Vm VmFacts UvmFacts KvmFacts.
From S2P Require Import CopyFacts CopyuvmFacts Sample.

Section vmspec.
Context `{Image} `{!ImageOk}.


(** C19: deallocuvm returns the new size and puts exactly the pages between the
    sizes back on the free list; the other pages keep their contents. *)
Theorem deallocuvm_frees i pgdir oldsz newsz k e T l P :
  uvm_inv k pgdir T l P -> kmem_ready i k -> 0 <= newsz < oldsz -> oldsz <= KERNBASE ->
  exists k' freed, deallocuvm pgdir oldsz newsz k e = Ok newsz k' e /\
    uvm_freed i pgdir k T l P (npages newsz) (npages oldsz) k' freed.
Proof. apply deallocuvm_ok. Qed.

(** C13: freevm returns and the free list then holds, once each, the pages it
    held, the user's pages, the page tables and the directory, and no others;
    no page outside of it changes. *)
Theorem freevm_returns_all i pgdir k e T l P :
  uvm_inv k pgdir T l P -> kmem_ready i k ->
  exists k' l', freevm pgdir k e = Ok tt k' e /\ kmem_inv k' l' /\ kmem_ready i k' /\
    (forall a, a ∈ l' <-> a ∈ l \/ pt_page pgdir T a \/ exists v, P !! v = Some a) /\
    forall a b, page_ok a -> a ∉ l' -> in_page a b -> rd8 (k_mem k') b = rd8 (k_mem k) b.
Proof.
  intros Hi Hr. destruct (freevm_ok i pgdir k e T l P Hi Hr) as (k' & l' & ? & ? & ? & _ & ? & ?).
  by exists k', l'.
Qed.

(** C14: copyout to addresses of user-accessible pages returns 0; the program
    then reads the copied bytes there, and what it read before elsewhere. *)
Theorem copyout_user_sees pgdir T l P va buf len k e :
  uvm_inv k pgdir T l P -> user_range (k_mem k) pgdir P va len ->
  0 <= va -> va + len <= KERNBASE -> 0 <= len <= zlen buf ->
  exists m', copyout pgdir va buf len k e = Ok 0 (k <| k_mem := m' |>) e /\
    uvm_inv (k <| k_mem := m' |>) pgdir T l P /\
    (forall x, 0 <= x < KERNBASE -> user_read m' pgdir x = user_written (k_mem k) pgdir va len buf x).
Proof. apply copyout_ok. Qed.


(** C15: setupkvm gives a directory in which the kernel's addresses translate to
    their physical addresses, the devices' to themselves, no page is
    accessible to the user, the kernel's text is read-only, and nothing is
    mapped below KERNBASE; or 0 with the set of free pages as it was. *)
Theorem setupkvm_kernel_map i k e l :
  kmem_inv k l -> kmem_ready i k ->
  exists r k', setupkvm k e = Ok r k' e /\
    ((r <> 0 /\ forall x, 0 <= x < 2 ^ 32 ->
        bit_set (pte_of (k_mem k') r x) PTE_U = false /\
        (KERNLINK <= x < sym_data -> bit_set (pte_of (k_mem k') r x) PTE_W = false) /\
        translate (k_mem k') r x =
          if decide (KERNBASE <= x < KERNBASE + PHYSTOP) then Some (V2P x)
          else if decide (DEVSPACE <= x) then Some x else None) \/
     (r = 0 /\ exists l', kmem_inv k' l' /\ forall a, a ∈ l' <-> a ∈ l)).
Proof.
  intros Hk Hr. destruct (setupkvm_ok i k e l Hk Hr) as (r & k' & Hrun & _ & _ & Hres).
  exists r, k'. split; [done|].
  destruct Hres as [(Hr0 & T' & l' & used & _ & _ & _ & _ & Hpte)|(-> & l' & Hk' & Hl' & _)]; [left|right].
  2: { split; [done|]. eauto. }
  split; [done|]. intros x Hx. unfold translate. rewrite Hpte, kernel_pte_eq by done.
  destruct (kernel_pte_spec x Hx) as (Hu & Hp & Ha & Hd & Hw). split_and!; [done..|].
  destruct (bit_set (kernel_pte x) PTE_P).
  - destruct (proj1 Hp eq_refl) as [Hin|Hin].
    + rewrite decide_True by done. by rewrite Ha.
    + rewrite decide_False, decide_True, Hd by (done || unfold KERNBASE, PHYSTOP, DEVSPACE in *; lia). done.
  - rewrite !decide_False; [done|..]; intros Hin; assert (false = true) by (apply Hp; auto); done.
Qed.
End vmspec.


Lemma deallocuvm_frees_witness :
  exists k' (freed : list Z), deallocuvm Sample.D 8192 4096 Sample.k [] = Ok 4096 k' [] /\
    forall u, u ∈ freed <-> exists v, Sample.upages !! v = Some u /\ 1 <= v < 2.
Proof.
  destruct (deallocuvm_frees 0 Sample.D 8192 4096 Sample.k [] Sample.tables Sample.free Sample.upages
              Sample.uvm Sample.ready) as (k' & freed & Hrun & Hf); [lia|by vm_compute|].
  exists k', freed. split; [done|]. exact (uf_pages _ _ _ _ _ _ _ _ _ _ Hf).
Defined.

Lemma freevm_returns_all_witness :
  exists k' (l' : list Z), freevm Sample.D Sample.k [] = Ok tt k' [] /\ Sample.U0 ∈ l' /\ Sample.T0 ∈ l' /\ Sample.D ∈ l'.
Proof.
  destruct (freevm_returns_all 0 Sample.D Sample.k [] Sample.tables Sample.free Sample.upages
              Sample.uvm Sample.ready) as (k' & l' & Hrun & _ & _ & Hl & _).
  exists k', l'. rewrite !Hl. split_and!; [done| | |].
  - right. right. by exists 0.
  - right. left. right. by exists 0.
  - right. left. by left.
Defined.

Lemma copyout_user_sees_witness :
  exists m', copyout Sample.D 4094 [1; 2; 3; 4] 4 Sample.k [] = Ok 0 (Sample.k <| k_mem := m' |>) [] /\
    user_read m' Sample.D 4096 = Some 3.
Proof.
  destruct (copyout_user_sees Sample.D Sample.tables Sample.free Sample.upages 4094 [1; 2; 3; 4] 4
              Sample.k [] Sample.uvm) as (m' & Hrun & _ & Hrd).
  - intros x Hx. change (k_mem Sample.k) with Sample.mem.
    assert (Hv : x / PGSIZE = 0 \/ x / PGSIZE = 1) by (unfold PGSIZE; dlia).
    destruct Hv as [-> | ->]; (split; [by eexists|]); rewrite Sample.pte by (by vm_compute); by vm_compute.
  - lia.
  - by vm_compute.
  - split; by vm_compute.
  - exists m'. split; [done|]. rewrite Hrd by (split; by vm_compute). reflexivity.
Defined.


Lemma setupkvm_kernel_map_witness :
  exists r k', setupkvm Sample.k [] = Ok r k' [].
Proof.
  destruct (setupkvm_kernel_map 0 Sample.k [] Sample.free Sample.free_list Sample.ready)
    as (r & k' & Hrun & _).
  by exists r, k'.
Defined.
