(* ===== verification/KallocSpec.v ===== *)
(** What kalloc.c promises to its callers: pages are never handed out twice and
    never lost, and a bad pointer is refused. *)
From S2P Require Import Prelude Kernel Mem Spinlock Str Kalloc Console Vm VmFacts UvmFacts Sample.

(** A client: it allocates, and gives back the [j]-th page it holds. *)
Inductive kop := Alloc | Free (j : nat).

Fixpoint kclient `{Image} (os : list kop) (held : list Z) : K (list Z) :=
  match os with
  | [] => ret held
  | Alloc :: os' =>
      r <- kalloc ;;
      if r =? 0 then kclient os' held else kclient os' (r :: held)
  | Free j :: os' =>
      match held !! j with
      | Some v => kfree v ;; kclient os' (delete j held)
      | None => kclient os' held
      end
  end.

Section kallocspec.
Context `{Image} `{!ImageOk}.

Lemma kclient_ok i os : forall held k e l,
  kmem_inv k l -> kmem_ready i k -> NoDup (held ++ l) -> Forall page_ok held ->
  exists held' k' l', kclient os held k e = Ok held' k' e /\ kmem_inv k' l' /\
    NoDup (held' ++ l') /\ held' ++ l' ≡ₚ held ++ l.
Proof.
  induction os as [|[|j] os IH]; intros held k e l Hk Hr Hnd Hok; cbn [kclient].
  - exists held, k, l. done.
  - destruct l as [|p l].
    + run (kalloc_nil i). change (0 =? 0) with true. cbv iota.
      apply IH; [by rewrite kmem_inv_ktouch|by apply kmem_ready_ktouch|done..].
    + pose proof (free_page_ok k _ p Hk ltac:(by left)) as Hp.
      destruct (kalloc_cons i k e p l Hr Hk) as (Hrun & _ & Hk' & Hr' & Hp0 & _).
      rewrite (bind_ok _ _ _ _ _ _ _ Hrun), (proj2 (Z.eqb_neq p 0) Hp0).
      assert (Hperm : (p :: held) ++ l ≡ₚ held ++ p :: l) by (simpl; by rewrite Permutation_middle).
      destruct (IH (p :: held) _ e l Hk' Hr') as (held' & k' & l' & Hrun' & Hi' & Hnd' & Hpm').
      * by rewrite Hperm.
      * by constructor.
      * exists held', k', l'. split_and!; [done..|]. by rewrite Hpm', Hperm.
  - destruct (held !! j) as [v|] eqn:Hj; [|by apply IH].
    assert (Hv : page_ok v) by (by eapply (Forall_lookup_1 _ held j)).
    assert (Hperm : delete j held ++ v :: l ≡ₚ held ++ l).
    { rewrite <- Permutation_middle. apply (delete_Permutation held j v) in Hj.
      symmetry. exact (Permutation_app Hj (Permutation_refl l)). }
    assert (Hvl : v ∉ l).
    { intros Hin. apply list.NoDup_app in Hnd as (_ & Hdis & _). apply (Hdis v); [|done].
      by eapply list_elem_of_lookup_2. }
    destruct (kfree_page i k e v l Hr Hk Hv (page_nonzero v Hv) Hvl) as (Hrun & Hk' & Hr' & _ & _).
    rewrite (bind_ok _ _ _ _ _ _ _ Hrun).
    destruct (IH (delete j held) _ e (v :: l) Hk' Hr') as (held' & k' & l' & Hrun' & Hi' & Hnd' & Hpm').
    + by rewrite Hperm.
    + by apply Forall_delete.
    + exists held', k', l'. split_and!; [done..|]. by rewrite Hpm'.
Qed.

(** C10: under any sequence of allocations and releases of pages held, no page
    is both held and free, none is held twice, and none appears or is lost. *)
Theorem kalloc_pages_conserved i os held k e l :
  kmem_inv k l -> kmem_ready i k -> NoDup (held ++ l) -> Forall page_ok held ->
  exists held' k' l', kclient os held k e = Ok held' k' e /\ kmem_inv k' l' /\
    NoDup (held' ++ l') /\ held' ++ l' ≡ₚ held ++ l.
Proof. apply kclient_ok. Qed.

(** Kfree refuses every address that is not a page of free memory, and
    changes nothing. *)
Theorem kfree_refuses v k e : 0 <= v < 2 ^ 32 -> ~ page_ok v -> kfree v k e = Panic "kfree" k.
Proof.
  intros Hv Hn. apply kfree_bad. unfold page_ok in Hn.
  destruct (nz (v mod PGSIZE)) eqn:E1; [done|]. apply nz_false in E1.
  destruct (Z.ltb_spec v sym_end) as [|E2]; [done|].
  destruct (Z.leb_spec PHYSTOP (V2P v)) as [|E3]; [done|]. exfalso. apply Hn. split_and!; (done || lia).
Qed.

(** Kinit1's freerange puts the whole pages of the range, and only those,
    on the list; with the loop's bound computed from [vend] it terminates. *)
Theorem freerange_adds_pages i vstart vend k e l :
  0 <= vstart -> vend + PGSIZE < 2 ^ 32 -> PGROUNDUP vstart <= vend ->
  vstart + PGSIZE <= 2 ^ 32 -> kmem_ready i k -> kmem_inv k l ->
  (forall a, a ∈ pages (PGROUNDUP vstart) (Z.to_nat ((vend - PGROUNDUP vstart) / PGSIZE)) ->
     page_ok a /\ a <> 0 /\ a ∉ l) ->
  exists k' l', freerange vstart vend k e = Ok tt k' e /\ kmem_inv k' l' /\
    forall a, a ∈ l' <-> a ∈ l \/
      (a mod PGSIZE = 0 /\ vstart <= a /\ a + PGSIZE <= vend).
Proof.
  intros Hs Hw Hle Hsw Hr Hi Hall.
  destruct (freerange_ok i vstart vend k e l Hs Hw Hle Hsw Hr Hi Hall) as (k' & Hrun & Hi' & _).
  eexists k', _. split_and!; [done..|]. intros a. rewrite elem_of_app.
  rewrite (list_elem_of_In (rev _)), <- in_rev, <- list_elem_of_In, elem_of_pages.
  rewrite PGROUNDUP_spec in * by done. unfold PGSIZE in *.
  set (q := (vstart + 4096 - 1) / 4096) in *.
  split; [intros [(j & -> & Hj)|?]; [right|by left]|intros [?|(Ha & Hlo & Hhi)]; [by right|left]].
  - unfold q. dlia.
  - exists (Z.to_nat (a / 4096 - q)). unfold q. dlia.
Qed.
End kallocspec.

Lemma kalloc_pages_conserved_witness :
  exists held' k' l', kclient [Alloc; Alloc; Free 1; Alloc] [Sample.U0] Sample.k [] = Ok held' k' [] /\
    held' ++ l' ≡ₚ [Sample.U0] ++ Sample.free.
Proof.
  destruct (kalloc_pages_conserved 0 [Alloc; Alloc; Free 1; Alloc] [Sample.U0] Sample.k [] Sample.free
              Sample.free_list Sample.ready) as (held' & k' & l' & Hrun & _ & _ & Hp).
  - apply (bool_decide_unpack _). by vm_compute.
  - constructor; [by vm_compute|constructor].
  - by exists held', k', l'.
Defined.

Lemma kfree_refuses_witness : kfree 0x80100000 Sample.k [] = Panic "kfree" Sample.k.
Proof.
  apply kfree_refuses; [split; by vm_compute|]. intros (_ & Hb & _). by vm_compute in Hb.
Defined.

Lemma freerange_adds_pages_witness :
  exists k' (l' : list Z), freerange 0x80300001 0x80304000 Sample.k [] = Ok tt k' [] /\ 0x80302000 ∈ l'.
Proof.
  destruct (freerange_adds_pages 0 0x80300001 0x80304000 Sample.k [] Sample.free)
    as (k' & l' & Hrun & _ & Hl);
    [lia|by vm_compute|by vm_compute|by vm_compute|apply Sample.ready|apply Sample.free_list| |].
  - change (PGROUNDUP 0x80300001) with 0x80301000. change (Z.to_nat _) with 3%nat.
    intros a (j & -> & Hj)%elem_of_pages.
    assert (j = 0 \/ j = 1 \/ j = 2)%nat as [-> |[-> | ->]] by lia;
      (split_and!; [by vm_compute|done|]); apply (bool_decide_unpack _); by vm_compute.
  - exists k', l'. split; [done|]. apply Hl. right. split_and!; by vm_compute.
Defined.
