(* ===== verification/LibSpec.v ===== *)
(** What string.c and the console's printing promise. *)
From S2P Require Import Prelude Kernel Mem Spinlock Str Kalloc Console Vm VmFacts UvmFacts Sample.

(** memmove copies as if through a temporary, whether or not source and
    destination overlap and in whichever direction, and changes no other byte. *)
Theorem memmove_as_if_buffered m dst src n :
  0 <= src -> src + Z.of_nat n < 2 ^ 32 ->
  forall b, rd8 (memmove m dst src (Z.of_nat n)) b = rd8 (store m dst (load m src n)) b.
Proof. apply memmove_load. Qed.

Lemma memmove_as_if_buffered_witness :
  let m := store empty 10 [1; 2; 3; 4; 5] in
  load (memmove m 12 10 5) 10 7 = [1; 2; 1; 2; 3; 4; 5] /\
  (forall b, rd8 (memmove m 12 10 5) b = rd8 (store m 12 (load m 10 5)) b).
Proof.
  intros m. split; [by vm_compute|].
  exact (memmove_as_if_buffered m 12 10 5 ltac:(lia) ltac:(lia)).
Defined.

(** Safestrcpy into an array of at least [n] bytes leaves a string that is
    the source truncated to [n - 1] characters, NUL-terminated within the [n]
    bytes, and writes no byte past them. *)
Theorem safestrcpy_truncates s t n :
  nulfree t -> 0 < n <= zlen s ->
  (forall j, 0 <= j < Z.min (zlen t) (n - 1) -> zget (safestrcpy s t n) j = zget t j) /\
  zget (safestrcpy s t n) (Z.min (zlen t) (n - 1)) = 0 /\
  (forall j, n <= j -> zget (safestrcpy s t n) j = zget s j).
Proof.
  intros Ht Hn. split_and!.
  - intros j Hj. by apply safestrcpy_get.
  - by apply safestrcpy_terminated.
  - intros j Hj. by apply safestrcpy_outside.
Qed.

Lemma safestrcpy_truncates_witness :
  zget (safestrcpy [9; 9; 9; 9; 7] [1; 2; 3; 4; 5] 4) 3 = 0 /\
  zget (safestrcpy [9; 9; 9; 9; 7] [1; 2; 3; 4; 5] 4) 4 = 7.
Proof.
  destruct (safestrcpy_truncates [9; 9; 9; 9; 7] [1; 2; 3; 4; 5] 4) as (_ & Ht & Ho).
  - unfold nulfree. repeat constructor; lia.
  - by vm_compute.
  - split; [exact Ht|]. by apply (Ho 4).
Defined.

(** cprintf returns and prints its format with the arguments rendered: the
    characters go, in order, to the serial port and to the screen. *)
Theorem cprintf_prints i fmt args k e :
  cons_ready i k ->
  cprintf fmt args k e = Ok tt (puts (render (bytes fmt) args) (ctouch i k)) e.
Proof. apply cprintf_ok. Qed.

Lemma cprintf_prints_witness :
  cprintf "%d %x\n" [AInt (-7); AInt 255] Sample.k [] =
    Ok tt (puts (bytes "-7 ff\n") (ctouch 0 Sample.k)) [].
Proof. exact (cprintf_prints 0 "%d %x\n" [AInt (-7); AInt 255] Sample.k [] Sample.console). Defined.

(** C31: printint's digits, in any base it is called with, read back as the
    number, signed and unsigned, down to the smallest int; in base 10 and 16
    they fit the 16 bytes of its buffer. *)
Theorem printint_roundtrip xx base :
  2 <= base <= 16 ->
  read_int base (rev (printint_buf xx base true)) = i32 xx /\
  read_num base (rev (printint_buf xx base false)) = u32 xx /\
  (10 <= base -> forall sign, (length (printint_buf xx base sign) <= 11)%nat).
Proof.
  intros Hb. split_and!.
  - by apply read_printint_signed.
  - by apply read_printint_unsigned.
  - intros H10 sign. by apply printint_buf_bound.
Qed.

Lemma printint_roundtrip_witness : read_int 10 (rev (printint_buf (- 2 ^ 31) 10 true)) = - 2 ^ 31.
Proof. exact (proj1 (printint_roundtrip (- 2 ^ 31) 10 ltac:(lia))). Defined.

(** C32: whatever has been printed, the next character prints without reaching
    cgaputc's check (pos under/overflow): the cursor stays within the first 24
    rows and the text buffer keeps its 25 x 80 cells. *)
Theorem cga_stays_on_screen (s : list Z) c k e :
  console_ok k ->
  exists k', consputc c (puts s k) e = Ok tt k' e /\ length (k_crt k') = 2000%nat /\
    0 <= k_crtpos k' <= 24 * 80.
Proof.
  intros Hk. pose proof (puts_ok s k Hk) as Hs. exists (puts [c] (puts s k)).
  split; [by apply consputc_ok|]. apply (puts_ok [c] _ Hs).
Qed.

Lemma cga_stays_on_screen_witness :
  exists k', consputc 66 (puts (replicate 100 65) Sample.k) [] = Ok tt k' [] /\ 0 <= k_crtpos k' <= 24 * 80.
Proof.
  destruct (cga_stays_on_screen (replicate 100 65) 66 Sample.k [] (proj1 Sample.console))
    as (k' & Hrun & _ & Hp).
  exists k'. exact (conj Hrun Hp).
Defined.
