(* ===== verification/Sched.v ===== *)
(** proc.c, the process table and scheduling: allocproc, growproc, wait, the
    scheduler, sched, yield, sleep, wakeup, kill, procdump.  [userinit], [fork],
    [exit] and [forkret], which use the file system, are in Proc.v. *)
From S2P Require Import Prelude Kernel Mem Spinlock Str Kalloc Console Vm.

(** * Trap frames and contexts (x86.h, proc.h) *)

(** Offsets of the fields of struct trapframe and struct context. *)
Module TF.
Definition edi : Z := 0.
Definition esi : Z := 4.
Definition ebp : Z := 8.
Definition oesp : Z := 12.
Definition ebx : Z := 16.
Definition edx : Z := 20.
Definition ecx : Z := 24.
Definition eax : Z := 28.
Definition gs : Z := 32.
Definition fs : Z := 36.
Definition es : Z := 40.
Definition ds : Z := 44.
Definition trapno : Z := 48.
Definition err : Z := 52.
Definition eip : Z := 56.
Definition cs : Z := 60.
Definition eflags : Z := 64.
Definition esp : Z := 68.
Definition ss : Z := 72.
Definition size : Z := 76.
End TF.
Module Ctx.
Definition edi : Z := 0.
Definition esi : Z := 4.
Definition ebx : Z := 8.
Definition ebp : Z := 12.
Definition eip : Z := 16.
Definition size : Z := 20.
End Ctx.

Definition upd_proc (i : nat) (f : proc -> proc) : K unit :=
  modify (fun k => k <| k_ptable ::= alter f i |>).
Definition get_proc (i : nat) : K proc := gets (fun k => k_ptable k !!! i).

(** [myproc()->...]: following the null pointer is a fault. *)
Definition curproc : K nat :=
  p <- myproc ;;
  match p with Some i => ret i | None => fault 0 end.

Definition pinit : K unit := initlock L_ptable "ptable".

(** * Sleeping and waking *)

(** swtch: this thread of control stops; what runs until it is switched back
    to (the scheduler, other processes) is a step of the environment. *)
Definition swtch : K unit := wait_env.

Definition sched : K unit :=
  p <- myproc ;;
  h <- holding L_ptable ;;
  if negb (h : bool) then panic "sched ptable.lock"
  else
    c <- mycpu ;;
    n <- gets (fun k => c_ncli (k_cpus k !!! c)) ;;
    if negb (n =? 1) then panic "sched locks"
    else
      p <- (match p with Some i => ret i | None => fault 0 end) ;;
      pr <- get_proc p ;;
      if bool_decide (p_state pr = RUNNING) then panic "sched running"
      else
        ifl <- readeflags_if ;;
        if (ifl : bool) then panic "sched interruptible"
        else
          c <- mycpu ;;
          intena <- gets (fun k => c_intena (k_cpus k !!! c)) ;;
          swtch ;;
          c <- mycpu ;;
          modify (upd_cpu c (fun x => x <| c_intena := intena |>)).

Definition yield : K unit :=
  acquire L_ptable ;;
  p <- curproc ;;
  upd_proc p (fun x => x <| p_state := RUNNABLE |>) ;;
  sched ;;
  release L_ptable.

Definition sleep (ch : chan) (lk : lockid) : K unit :=
  p <- myproc ;;
  match p with
  | None => panic "sleep"
  | Some p =>
      when (negb (bool_decide (lk = L_ptable))) (acquire L_ptable ;; release lk) ;;
      (* Go to sleep. *)
      upd_proc p (fun x => x <| p_chan := Some ch |>) ;;
      upd_proc p (fun x => x <| p_state := SLEEPING |>) ;;
      sched ;;
      (* Tidy up. *)
      upd_proc p (fun x => x <| p_chan := None |>) ;;
      (* Reacquire original lock. *)
      when (negb (bool_decide (lk = L_ptable))) (release L_ptable ;; acquire lk)
  end.

Definition wake (ch : option chan) (p : proc) : proc :=
  if bool_decide (p_state p = SLEEPING) && bool_decide (p_chan p = ch)
  then p <| p_state := RUNNABLE |> else p.
Definition wakeup1 (ch : option chan) : K unit :=
  modify (fun k => k <| k_ptable ::= fmap (wake ch) |>).

Definition wakeup (ch : chan) : K unit :=
  acquire L_ptable ;;
  wakeup1 (Some ch) ;;
  release L_ptable.

Definition kill (pid : Z) : K Z :=
  acquire L_ptable ;;
  o <- gets (fun k => findi (fun p => p_pid p =? pid) (k_ptable k)) ;;
  match o with
  | Some i =>
      upd_proc i (fun p => p <| p_killed := 1 |>) ;;
      (* Wake process from sleep if necessary. *)
      upd_proc i (fun p => if bool_decide (p_state p = SLEEPING)
                           then p <| p_state := RUNNABLE |> else p) ;;
      release L_ptable ;;
      ret 0
  | None => release L_ptable ;; ret (-1)
  end.

(** * The scheduler *)

(** One slot of the table in the scheduler's loop; [c] is this CPU. *)
Definition sched_slot (c : nat) (i : Z) : K unit :=
  let p := Z.to_nat i in
  pr <- get_proc p ;;
  when (bool_decide (p_state pr = RUNNABLE))
    (modify (upd_cpu c (fun x => x <| c_proc := Some p |>)) ;;
     switchuvm (Some p) ;;
     upd_proc p (fun x => x <| p_state := RUNNING |>) ;;
     swtch ;;
     switchkvm ;;
     modify (upd_cpu c (fun x => x <| c_proc := None |>))).

(** One round of the scheduler's endless loop, and [n] rounds of it. *)
Definition sched_round (c : nat) : K unit :=
  sti ;;
  acquire L_ptable ;;
  for_ (Z.to_nat NPROC) 0 (sched_slot c) ;;
  release L_ptable.
Definition scheduler (n : nat) : K unit :=
  c <- mycpu ;;
  modify (upd_cpu c (fun x => x <| c_proc := None |>)) ;;
  for_ n 0 (fun _ => sched_round c).

(** * Creating and reaping processes *)

Section proc.
Context `{Image}.

Definition allocproc : K (option nat) :=
  acquire L_ptable ;;
  o <- gets (fun k => findi (fun p => bool_decide (p_state p = UNUSED)) (k_ptable k)) ;;
  match o with
  | None => release L_ptable ;; ret None
  | Some p =>
      upd_proc p (fun x => x <| p_state := EMBRYO |>) ;;
      pid <- gets k_nextpid ;;
      modify (fun k => k <| k_nextpid := i32 (pid + 1) |>) ;;
      upd_proc p (fun x => x <| p_pid := pid |>) ;;
      release L_ptable ;;
      (* Allocate kernel stack. *)
      kstack <- kalloc ;;
      upd_proc p (fun x => x <| p_kstack := kstack |>) ;;
      if kstack =? 0 then
        upd_proc p (fun x => x <| p_state := UNUSED |>) ;;
        ret None
      else
        let sp := kstack + KSTACKSIZE in
        (* Leave room for trap frame. *)
        let sp := sp - TF.size in
        upd_proc p (fun x => x <| p_tf := sp |>) ;;
        (* Set up new context to start executing at forkret,
           which returns to trapret. *)
        let sp := sp - 4 in
        set_mem (fun m => wr32 m sp sym_trapret) ;;
        let sp := sp - Ctx.size in
        upd_proc p (fun x => x <| p_context := sp |>) ;;
        set_mem (fun m => memset m sp 0 Ctx.size) ;;
        set_mem (fun m => wr32 m (sp + Ctx.eip) sym_forkret) ;;
        ret (Some p)
  end.

Definition growproc (n : Z) : K Z :=
  p <- curproc ;;
  pr <- get_proc p ;;
  sz <- (if 0 <? n then allocuvm (p_pgdir pr) (p_sz pr) (u32 (p_sz pr + n))
         else if n <? 0 then deallocuvm (p_pgdir pr) (p_sz pr) (u32 (p_sz pr + n))
         else ret (p_sz pr)) ;;
  if negb (n =? 0) && (sz =? 0) then ret (-1)
  else
    upd_proc p (fun x => x <| p_sz := sz |>) ;;
    switchuvm (Some p) ;;
    ret 0.

(** Free the slot [i] of a zombie child. *)
Definition reap (i : nat) : K Z :=
  pr <- get_proc i ;;
  kfree (p_kstack pr) ;;
  upd_proc i (fun x => x <| p_kstack := 0 |>) ;;
  freevm (p_pgdir pr) ;;
  upd_proc i (fun x => x <| p_pid := 0 |> <| p_parent := None |>
                         <| p_name ::= fun s => zset s 0 0 |> <| p_killed := 0 |>
                         <| p_state := UNUSED |>) ;;
  ret (p_pid pr).

(** The scan of the table: the first zombie child, and whether there are any
    children at all. *)
Definition zombie_child (p : nat) (x : proc) : bool :=
  bool_decide (p_parent x = Some p) && bool_decide (p_state x = ZOMBIE).
Definition havekids (p : nat) (l : list proc) : bool :=
  existsb (fun x => bool_decide (p_parent x = Some p)) l.

Definition wait : K Z :=
  p <- curproc ;;
  acquire L_ptable ;;
  wait_loop (
    o <- gets (fun k => findi (zombie_child p) (k_ptable k)) ;;
    match o with
    | Some i =>
        pid <- reap i ;;
        release L_ptable ;;
        ret (Some pid)
    | None =>
        kids <- gets (fun k => havekids p (k_ptable k)) ;;
        pr <- get_proc p ;;
        if negb kids || nz (p_killed pr) then
          release L_ptable ;;
          ret (Some (-1))
        else
          (* Wait for children to exit. *)
          sleep (Ch_proc p) L_ptable ;;
          ret None
    end).

End proc.

(** * procdump *)

Definition state_name (s : procstate) : string :=
  match s with
  | UNUSED => "unused" | EMBRYO => "embryo" | SLEEPING => "sleep "
  | RUNNABLE => "runble" | RUNNING => "run   " | ZOMBIE => "zombie"
  end.

(** A char array as the C string it holds. *)
Fixpoint cstr (s : list Z) : list Z :=
  match s with [] => [] | c :: s' => if c =? 0 then [] else c :: cstr s' end.

Fixpoint dump_pcs (pc : list Z) : K unit :=
  match pc with
  | [] => ret tt
  | a :: pc' => if a =? 0 then ret tt else cprintf " %p" [AInt a] ;; dump_pcs pc'
  end.

Definition procdump : K unit :=
  for_ (Z.to_nat NPROC) 0 (fun i =>
    p <- get_proc (Z.to_nat i) ;;
    if bool_decide (p_state p = UNUSED) then ret tt
    else
      cprintf "%d %s %s" [AInt (p_pid p); AStr (Some (bytes (state_name (p_state p))));
                          AStr (Some (cstr (p_name p)))] ;;
      when (bool_decide (p_state p = SLEEPING))
        (m <- gets k_mem ;;
         dump_pcs (getcallerpcs m (u32 (rd32 m (p_context p + Ctx.ebp) + 8)))) ;;
      cprintf "\n" []).
