(* ===== verification/SchedFacts.v ===== *)
(** Sleeping, waking and killing: what proc.c does to the process table, and
    why a wakeup between the test and the sleep is not lost. *)
From S2P Require Import Prelude Kernel Mem Spinlock Locks Str Kalloc Console Vm Sched.

Section schedfacts.
Implicit Types (i : nat) (l : lockid) (k : kernel) (e : env).

(** ** wakeup *)

Definition woken (ch : chan) (k : kernel) : kernel := k <| k_ptable ::= fmap (wake (Some ch)) |>.

Lemma wakeup_ok i ch k e :
  cpu_at i k -> lock_free L_ptable k ->
  wakeup ch k e = Ok tt (woken ch (touch i L_ptable k)) e.
Proof.
  intros Hc Hf. unfold wakeup, wakeup1. run (acquire_ok i).
  destruct (locked_by_ready i L_ptable k Hc) as (Hc' & Hh & Hn). step.
  by apply (release_ok i).
Qed.

Lemma entered_wakeup i l k0 k e ch :
  cpu_at i k0 -> l <> L_ptable -> lock_free L_ptable k0 -> entered i l k0 k ->
  wakeup ch k e = Ok tt (woken ch (touch i L_ptable k)) e /\
  entered i l k0 (woken ch (touch i L_ptable k)).
Proof.
  intros Hc Hl Hf He. destruct (entered_ready i l k0 k Hc He) as (Hc' & _ & _). split.
  - apply wakeup_ok; [done|]. by apply (en_free _ _ _ _ He).
  - eapply entered_same; [|apply (entered_touch i l L_ptable); done]. done.
Qed.

Lemma wakeup_frame i ch k : lframe i k (woken ch (touch i L_ptable k)).
Proof. etrans; [apply (touch_frame i L_ptable)|by apply lk_same_frame]. Qed.

Lemma wake_sleeper ch x : p_state x = SLEEPING -> p_chan x = Some ch ->
  wake (Some ch) x = x <| p_state := RUNNABLE |>.
Proof. intros Hs Hc. unfold wake. by rewrite Hs, Hc, !bool_decide_eq_true_2. Qed.

(** ** kill *)

Definition kill_slot (x : proc) : proc :=
  let x := x <| p_killed := 1 |> in
  if bool_decide (p_state x = SLEEPING) then x <| p_state := RUNNABLE |> else x.

Lemma ptable_alter_twice (f g : proc -> proc) j k :
  k <| k_ptable ::= alter f j |> <| k_ptable ::= alter g j |> =
  k <| k_ptable ::= alter (fun x => g (f x)) j |>.
Proof.
  unfold over, over_k_ptable. fields. cbn [k_ptable]. f_equal.
  by rewrite list_alter_alter_eq.
Qed.

Lemma kill_ok i pid k e :
  cpu_at i k -> lock_free L_ptable k ->
  kill pid k e =
    match findi (fun p => p_pid p =? pid) (k_ptable k) with
    | Some j => Ok 0 (touch i L_ptable k <| k_ptable ::= alter kill_slot j |>) e
    | None => Ok (-1) (touch i L_ptable k) e
    end.
Proof.
  intros Hc Hf. unfold kill. run (acquire_ok i).
  destruct (locked_by_ready i L_ptable k Hc) as (Hc' & Hh & Hn). step.
  change (k_ptable (locked_by i L_ptable k)) with (k_ptable k).
  destruct (findi _ _) as [j|].
  - unfold upd_proc. step. rewrite ptable_alter_twice.
    by erewrite bind_ok; [|by apply (release_ok i)].
  - by erewrite bind_ok; [|by apply (release_ok i)].
Qed.
(** ** sleep *)

(** Process [p] asleep on [ch]: this CPU holds ptable.lock, and no longer [lk]. *)
Definition asleep (i : nat) (ch : chan) (lk : lockid) (p : nat) (k : kernel) : kernel :=
  unlocked_by i lk (locked_by i L_ptable k)
    <| k_ptable ::= alter (fun x => x <| p_chan := Some ch |> <| p_state := SLEEPING |>) p |>.

(** The only lock this CPU holds is [lk]. *)
Record holds_one (i : nat) (lk : lockid) (k : kernel) : Prop := {
  ho_cpu : cpu_at i k;
  ho_held : lock_held i lk k;
  ho_ncli : c_ncli (k_cpus k !!! i) = 1
}.

Lemma holding_one i lk k e : holds_one i lk k -> holding lk k e = Ok true k e.
Proof.
  intros [Hc [Hl Hcpu] Hn]. rewrite (holding_nested i) by (done || lia).
  rewrite Hcpu, bool_decide_eq_true_2 by done. unfold nz. by rewrite (proj2 (Z.eqb_neq _ 0) Hl).
Qed.

Lemma myproc_one i lk k e : holds_one i lk k -> myproc k e = Ok (c_proc (k_cpus k !!! i)) k e.
Proof.
  intros [Hc _ Hn]. rewrite (myproc_ok i) by done. by rewrite popped_pushed_nested by (done || lia).
Qed.

Lemma mycpu_one i lk k e : holds_one i lk k -> mycpu k e = Ok i k e.
Proof. intros [(Hi & _ & Hif) _ Hn]. apply mycpu_ok; [done|]. apply Hif. lia. Qed.

Lemma cpu_unlocked i l k :
  this_cpu k = Some i ->
  k_cpus (unlocked_by i l k) !!! i = (k_cpus k !!! i) <| c_ncli ::= fun n => n - 1 |>.
Proof.
  intros Hi. unfold unlocked_by, popped, upd_cpu, set_lock. fields.
  by rewrite (alter_total _ _ _ _ (this_cpu_lookup i k Hi)).
Qed.

Lemma cpu_locked i l k :
  this_cpu k = Some i ->
  k_cpus (locked_by i l k) !!! i =
  (if c_ncli (k_cpus k !!! i) =? 0 then (k_cpus k !!! i) <| c_intena := k_if k |> else k_cpus k !!! i)
    <| c_ncli ::= fun n => n + 1 |>.
Proof.
  intros Hi. unfold locked_by, pushed, upd_cpu, set_lock. fields.
  by rewrite (alter_total _ _ _ _ (this_cpu_lookup i k Hi)).
Qed.

(** Swapping one held lock for another. *)
Lemma asleep_holds i ch lk p k :
  holds_one i lk k -> lk <> L_ptable -> lock_free L_ptable k ->
  holds_one i L_ptable (asleep i ch lk p k) /\ lock_free lk (asleep i ch lk p k) /\
  c_proc (k_cpus (asleep i ch lk p k) !!! i) = c_proc (k_cpus k !!! i) /\
  c_intena (k_cpus (asleep i ch lk p k) !!! i) = c_intena (k_cpus k !!! i).
Proof.
  intros [Hc Hh Hn] Hne Hf. pose proof Hc as (Hi & _ & _).
  destruct (locked_by_ready i L_ptable k Hc) as (Hc1 & Hh1 & Hn1).
  assert (Hcpu : k_cpus (asleep i ch lk p k) !!! i = k_cpus k !!! i).
  { change (k_cpus (unlocked_by i lk (locked_by i L_ptable k)) !!! i = k_cpus k !!! i).
    rewrite cpu_unlocked by apply Hc1. rewrite cpu_locked by done.
    rewrite Hn. change (1 =? 0) with false. cbv iota. unfold over, over_c_ncli.
    destruct (k_cpus k !!! i). simpl. f_equal. lia. }
  split_and!; [split| |by rewrite Hcpu..].
  - change (cpu_at i (unlocked_by i lk (locked_by i L_ptable k))).
    exact (popped_ready i (set_lock lk _ (locked_by i L_ptable k)) Hc1 Hn1).
  - unfold lock_held. change (lock_of (asleep i ch lk p k) L_ptable)
      with (lock_of (set_lock lk (mkSpinlock 0 (lk_name (lock_of (locked_by i L_ptable k) lk)) None)
                       (locked_by i L_ptable k)) L_ptable).
    rewrite lock_of_set, decide_False by done. apply Hh1.
  - by rewrite Hcpu.
  - unfold lock_free. change (lock_of (asleep i ch lk p k) lk)
      with (lock_of (set_lock lk (mkSpinlock 0 (lk_name (lock_of (locked_by i L_ptable k) lk)) None)
                       (locked_by i L_ptable k)) lk).
    by rewrite lock_of_set_eq.
Qed.

(** What sched does once its checks pass: give the CPU away, and put back the
    saved interrupt flag on the CPU that resumes the process. *)
Definition resume (intena : bool) : K unit :=
  c <- mycpu ;; modify (upd_cpu c (fun x => x <| c_intena := intena |>)).

Lemma sched_ok i p k e :
  holds_one i L_ptable k -> c_proc (k_cpus k !!! i) = Some p ->
  p_state (k_ptable k !!! p) <> RUNNING ->
  sched k e = (swtch ;; resume (c_intena (k_cpus k !!! i))) k e.
Proof.
  intros Ho Hp Hs. unfold sched. run (myproc_one i). run (holding_one i). cbn [negb].
  run (mycpu_one i). step. rewrite (ho_ncli _ _ _ Ho). change (negb (1 =? 1)) with false. cbv iota.
  rewrite Hp. unfold get_proc. step. rewrite bool_decide_eq_false_2 by done.
  unfold readeflags_if. step. destruct (ho_cpu _ _ _ Ho) as (_ & _ & Hif).
  rewrite Hif by (rewrite (ho_ncli _ _ _ Ho); lia). run (mycpu_one i). by step.
Qed.

(** The checks of sched, each with its message. *)
Lemma sched_panics_unlocked i k e :
  cpu_at i k -> ~ lock_held i L_ptable k -> exists k', sched k e = Panic "sched ptable.lock" k'.
Proof.
  intros Hc Hh. unfold sched. run (myproc_ok i). pose proof (myproc_ready i k Hc) as Hc1.
  run (holding_ok i). change (lock_of (popped i (pushed i k)) L_ptable) with (lock_of k L_ptable).
  destruct (nz _) eqn:E; cbn [andb negb]; [|by eexists].
  destruct (bool_decide_reflect (lk_cpu (lock_of k L_ptable) = Some i)); [|by eexists].
  destruct Hh. split; [|done]. unfold nz in E. by destruct (Z.eqb_spec (locked (lock_of k L_ptable)) 0).
Qed.

Lemma sched_panics_locks i k e :
  cpu_at i k -> lock_held i L_ptable k -> 1 < c_ncli (k_cpus k !!! i) ->
  sched k e = Panic "sched locks" k.
Proof.
  intros Hc [Hl Hcpu] Hn. unfold sched. run (myproc_ok i). rewrite popped_pushed_nested by (done || lia).
  run (holding_nested i). rewrite Hcpu, bool_decide_eq_true_2 by done. unfold nz.
  rewrite (proj2 (Z.eqb_neq _ 0) Hl). cbn [negb andb]. pose proof Hc as (Hi & _ & Hif).
  run (mycpu_ok i) by (try done; apply Hif; lia). step.
  by rewrite (proj2 (Z.eqb_neq _ 1)) by lia.
Qed.

Lemma ptable_alter_state (p : nat) (f : proc -> proc) k x :
  k_ptable k !! p = Some x -> alter f p (k_ptable k) !!! p = f x.
Proof. intros Hx. apply list_lookup_total_correct. by rewrite list_lookup_alter_eq, Hx. Qed.

(** sleep: by the time the CPU is given away the process is marked asleep on
    [ch], under ptable.lock, and only [lk] has been let go. *)
Lemma sleep_to_swtch i p ch lk k e x :
  holds_one i lk k -> lk <> L_ptable -> lock_free L_ptable k ->
  c_proc (k_cpus k !!! i) = Some p -> k_ptable k !! p = Some x ->
  sleep ch lk k e =
  (swtch ;; resume (c_intena (k_cpus k !!! i)) ;;
   upd_proc p (fun x => x <| p_chan := None |>) ;; release L_ptable ;; acquire lk)
    (asleep i ch lk p k) e.
Proof.
  intros Ho Hne Hf Hp Hx. destruct (asleep_holds i ch lk p k Ho Hne Hf) as (Ho' & Hlk & Hp' & Hin).
  unfold sleep. run (myproc_one i). rewrite Hp. rewrite bool_decide_eq_false_2 by done. cbn [negb].
  pose proof Ho as [Hc Hh Hn]. destruct (locked_by_ready i L_ptable k Hc) as (Hc1 & Hh1 & Hn1).
  step. run (acquire_ok i). erewrite bind_ok.
  2: { apply (release_ok i); [done| |done]. unfold lock_held, locked_by. by rewrite lock_of_set_ne. }
  unfold upd_proc at 1 2. step. rewrite ptable_alter_twice.
  change (_ <| k_ptable ::= _ |>) with (asleep i ch lk p k).
  erewrite (bind_ext _ (swtch ;; resume (c_intena (k_cpus k !!! i)))).
  2: { rewrite <- Hin. apply (sched_ok i p); [done|by rewrite Hp'|].
       unfold asleep. fields. by rewrite (ptable_alter_state p _ k x). }
  by step.
Qed.

(** ** Resuming *)

Definition with_intena (j : nat) (b : bool) (k : kernel) : kernel :=
  upd_cpu j (fun x => x <| c_intena := b |>) k.

Lemma holds_one_intena j l b k : holds_one j l k -> holds_one j l (with_intena j b k).
Proof.
  intros [(Hi & Hp & Hif) Hh Hn]. unfold with_intena.
  assert (Hcpu : k_cpus (upd_cpu j (fun x => x <| c_intena := b |>) k) !!! j =
                 (k_cpus k !!! j) <| c_intena := b |>).
  { unfold upd_cpu. fields. by rewrite (alter_total _ _ _ _ (this_cpu_lookup j k Hi)). }
  split; [split_and!| |]; rewrite ?Hcpu; try done. by rewrite this_cpu_upd.
Qed.

(** Letting go of ptable.lock and taking [lk] back. *)
Lemma swap_locks j lk k e :
  holds_one j L_ptable k -> lk <> L_ptable -> lock_free lk k ->
  exists k', (release L_ptable ;; acquire lk) k e = Ok tt k' e /\ holds_one j lk k' /\
    lock_free L_ptable k' /\ k_ptable k' = k_ptable k.
Proof.
  intros [Hc Hh Hn] Hne Hf. assert (Hpos : 0 < c_ncli (k_cpus k !!! j)) by lia.
  run (release_ok j).
  assert (Hc1 : cpu_at j (unlocked_by j L_ptable k)).
  { exact (popped_ready j (set_lock L_ptable _ k) Hc Hpos). }
  assert (Hf1 : lock_free lk (unlocked_by j L_ptable k)).
  { unfold lock_free. change (lock_of (unlocked_by j L_ptable k) lk) with
      (lock_of (set_lock L_ptable (mkSpinlock 0 (lk_name (lock_of k L_ptable)) None) k) lk).
    by rewrite lock_of_set_ne. }
  rewrite (acquire_ok j) by done. eexists. split; [done|].
  destruct (locked_by_ready j lk _ Hc1) as (Hc2 & Hh2 & Hn2). split_and!; [split|..]; try done.
  - pose proof Hc as (Hi & _ & _). pose proof Hc1 as (Hi1 & _ & _).
    rewrite cpu_locked, cpu_unlocked by done. fields. rewrite Hn. change (1 - 1 =? 0) with true. cbv iota. fields. lia.
  - unfold lock_free, locked_by. rewrite lock_of_set_ne by done.
    change (lock_of (pushed j (unlocked_by j L_ptable k)) L_ptable) with
      (lock_of (set_lock L_ptable (mkSpinlock 0 (lk_name (lock_of k L_ptable)) None) k) L_ptable).
    by rewrite lock_of_set_eq.
Qed.

(** A sleeping process that is switched back to (on CPU [j], by a scheduler
    holding ptable.lock) returns from sleep off its channel and holding [lk]. *)
Lemma sleep_ok i j p ch lk k e x f :
  holds_one i lk k -> lk <> L_ptable -> lock_free L_ptable k ->
  c_proc (k_cpus k !!! i) = Some p -> k_ptable k !! p = Some x ->
  let k2 := f (asleep i ch lk p k) in
  holds_one j L_ptable k2 -> lock_free lk k2 ->
  exists k', sleep ch lk k (f :: e) = Ok tt k' e /\ holds_one j lk k' /\ lock_free L_ptable k' /\
    k_ptable k' = alter (fun x => x <| p_chan := None |>) p (k_ptable k2).
Proof.
  intros Ho Hne Hf Hp Hx k2 Ho2 Hf2. rewrite (sleep_to_swtch i p ch lk k _ x) by done.
  unfold swtch, wait_env at 1. unfold bind at 1. fold k2. unfold resume.
  rewrite bind_assoc. run (mycpu_one j). step. unfold upd_proc. step.
  set (b := c_intena _).
  destruct (swap_locks j lk (with_intena j b k2 <| k_ptable ::= alter (fun x => x <| p_chan := None |>) p |>) e)
    as (k' & Hrun & Ho' & Hf' & Hpt); [|done| |].
  - by apply (holds_one_intena j L_ptable b) in Ho2 as [? ? ?].
  - done.
  - exists k'. split_and!; [exact Hrun|done|done|]. by rewrite Hpt.
Qed.

End schedfacts.

(** ** allocproc *)

Section allocproc.
Context `{Image} `{!ImageOk}.
Implicit Types (i j : nat) (k : kernel) (e : env).

(** The slot [x] as allocproc leaves it, on the kernel stack [s]. *)
Definition embryo (pid s : Z) (x : proc) : proc :=
  let tf := s + KSTACKSIZE - TF.size in
  x <| p_state := EMBRYO |> <| p_pid := pid |> <| p_kstack := s |> <| p_tf := tf |>
    <| p_context := tf - 4 - Ctx.size |>.

(** The table part of allocproc, under ptable.lock. *)
Definition reserved (j : nat) (k : kernel) : kernel :=
  k <| k_ptable ::= alter (fun x => x <| p_state := EMBRYO |> <| p_pid := k_nextpid k |>) j |>
    <| k_nextpid := i32 (k_nextpid k + 1) |>.

Lemma reserved_eq j k :
  k <| k_ptable ::= alter (fun x => x <| p_state := EMBRYO |>) j |>
    <| k_nextpid := i32 (k_nextpid k + 1) |>
    <| k_ptable ::= alter (fun x => x <| p_pid := k_nextpid k |>) j |> = reserved j k.
Proof.
  unfold reserved. rewrite <- (ptable_alter_twice (fun x => x <| p_state := EMBRYO |>)
    (fun x => x <| p_pid := k_nextpid k |>)). done.
Qed.

(** The new process' stack: forkret's frame below a return to trapret. *)
Definition boot_stack (s : Z) (m : gmap Z Z) : gmap Z Z :=
  let tf := s + KSTACKSIZE - TF.size in
  wr32 (memset (wr32 m (tf - 4) sym_trapret) (tf - 4 - Ctx.size) 0 Ctx.size)
    (tf - 4 - Ctx.size + Ctx.eip) sym_forkret.

(** The second half of allocproc: the kernel stack. *)
Definition boot_slot (p : nat) : K (option nat) :=
  kstack <- kalloc ;;
  upd_proc p (fun x => x <| p_kstack := kstack |>) ;;
  if kstack =? 0 then
    upd_proc p (fun x => x <| p_state := UNUSED |>) ;;
    ret None
  else
    let sp := kstack + KSTACKSIZE in
    let sp := sp - TF.size in
    upd_proc p (fun x => x <| p_tf := sp |>) ;;
    let sp := sp - 4 in
    set_mem (fun m => wr32 m sp sym_trapret) ;;
    let sp := sp - Ctx.size in
    upd_proc p (fun x => x <| p_context := sp |>) ;;
    set_mem (fun m => memset m sp 0 Ctx.size) ;;
    set_mem (fun m => wr32 m (sp + Ctx.eip) sym_forkret) ;;
    ret (Some p).

Lemma allocproc_reserves i j k e :
  cpu_at i k -> lock_free L_ptable k ->
  findi (fun p => bool_decide (p_state p = UNUSED)) (k_ptable k) = Some j ->
  allocproc k e = boot_slot j (unlocked_by i L_ptable (reserved j (locked_by i L_ptable k))) e.
Proof.
  intros Hc Hf Hj. unfold allocproc. run (acquire_ok i).
  destruct (locked_by_ready i L_ptable k Hc) as (Hc' & Hh & Hn). step.
  change (k_ptable (locked_by i L_ptable k)) with (k_ptable k). rewrite Hj.
  unfold upd_proc at 1 2. step. set (k1 := locked_by i L_ptable k) in *. fields.
  rewrite (reserved_eq j k1). by erewrite bind_ok; [|by apply (release_ok i)].
Qed.

Lemma reserved_ready i j k :
  cpu_at i k -> lock_free L_ptable k -> kmem_ready i k ->
  let k' := unlocked_by i L_ptable (reserved j (locked_by i L_ptable k)) in
  kmem_ready i k' /\ lframe i k k'.
Proof.
  intros Hc Hf Hr k'.
  assert (He : entered i L_ptable k (reserved j (locked_by i L_ptable k))).
  { eapply entered_same; [|by apply entered_init]. done. }
  destruct (entered_leave i L_ptable k _ [] Hc He) as (_ & Hfr & _). fold k' in Hfr.
  split; [|done]. intros Hu. destruct (Hr Hu). split; by apply Hfr.
Qed.

(** No slot: nothing but the lock is touched. *)
Lemma allocproc_full i k e :
  cpu_at i k -> lock_free L_ptable k ->
  findi (fun p => bool_decide (p_state p = UNUSED)) (k_ptable k) = None ->
  allocproc k e = Ok None (touch i L_ptable k) e.
Proof.
  intros Hc Hf Hj. unfold allocproc. run (acquire_ok i).
  destruct (locked_by_ready i L_ptable k Hc) as (Hc' & Hh & Hn). step.
  change (k_ptable (locked_by i L_ptable k)) with (k_ptable k). rewrite Hj.
  by erewrite bind_ok; [|by apply (release_ok i)].
Qed.

(** No memory: the slot is unused again, but keeps the pid it was given. *)
Lemma allocproc_nomem i j k e :
  cpu_at i k -> lock_free L_ptable k -> kmem_ready i k -> kmem_inv k [] ->
  findi (fun p => bool_decide (p_state p = UNUSED)) (k_ptable k) = Some j ->
  exists k', allocproc k e = Ok None k' e /\
    k_ptable k' = alter (fun x => x <| p_state := EMBRYO |> <| p_pid := k_nextpid k |>
                                   <| p_kstack := 0 |> <| p_state := UNUSED |>) j (k_ptable k).
Proof.
  intros Hc Hf Hr Hk Hj. rewrite (allocproc_reserves i j) by done.
  destruct (reserved_ready i j k Hc Hf Hr) as [Hr' _].
  set (k1 := unlocked_by i L_ptable (reserved j (locked_by i L_ptable k))) in *.
  unfold boot_slot. rewrite (bind_ok _ _ _ _ _ _ _ (kalloc_nil i k1 e Hr' Hk)).
  change (0 =? 0) with true. cbv iota. unfold upd_proc. step. eexists. split; [reflexivity|].
  assert (Hp : k_ptable (ktouch i k1) = k_ptable k1) by (unfold ktouch; by destruct (use_lock _)).
  fields. rewrite Hp. unfold k1.
  change (k_ptable (unlocked_by i L_ptable (reserved j (locked_by i L_ptable k)))) with
    (alter (fun x => x <| p_state := EMBRYO |> <| p_pid := k_nextpid k |>) j (k_ptable k)).
  by rewrite !list_alter_alter_eq.
Qed.

(** A new process: EMBRYO, the next pid, a stack that starts in forkret. *)
Lemma allocproc_ok i j k e s l :
  cpu_at i k -> lock_free L_ptable k -> kmem_ready i k -> kmem_inv k (s :: l) ->
  findi (fun p => bool_decide (p_state p = UNUSED)) (k_ptable k) = Some j ->
  exists k', allocproc k e = Ok (Some j) k' e /\
    k_ptable k' = alter (embryo (k_nextpid k) s) j (k_ptable k) /\
    k_nextpid k' = i32 (k_nextpid k + 1) /\ k_mem k' = boot_stack s (k_mem k).
Proof.
  intros Hc Hf Hr Hk Hj. rewrite (allocproc_reserves i j) by done.
  destruct (reserved_ready i j k Hc Hf Hr) as [Hr' _].
  set (k1 := unlocked_by i L_ptable (reserved j (locked_by i L_ptable k))) in *.
  destruct (kalloc_cons i k1 e s l Hr' Hk) as (Hrun & Hm & _ & _ & Hs0 & _).
  unfold boot_slot. rewrite (bind_ok _ _ _ _ _ _ _ Hrun).
  pose proof (kframe_kpop i k1) as Hfr. set (k2 := kpop (ktouch i k1)) in *.
  rewrite (proj2 (Z.eqb_neq s 0) Hs0). unfold upd_proc, set_mem. step.
  eexists. split; [reflexivity|]. fields.
  assert (Hp : k_ptable k2 = k_ptable k1) by exact (f_equal k_ptable (kf_rest _ _ _ Hfr)).
  assert (Hnp : k_nextpid k2 = k_nextpid k1) by exact (f_equal k_nextpid (kf_rest _ _ _ Hfr)).
  rewrite Hp, Hnp, Hm. split_and!; [|done..].
  change (k_ptable k1) with
    (alter (fun x => x <| p_state := EMBRYO |> <| p_pid := k_nextpid k |>) j (k_ptable k)).
  by rewrite !list_alter_alter_eq.
Qed.
End allocproc.
