(* ===== verification/Sleeplock.v ===== *)
(** sleeplock.c: locks held across sleeps. *)
From S2P Require Import Prelude Kernel Mem Spinlock Console Vm Sched.

Definition slock_of (k : kernel) (s : sleepid) : sleeplock :=
  default (mkSleeplock 0 EmptyString 0) (k_slocks k !! s).
Definition set_slock (s : sleepid) (v : sleeplock) (k : kernel) : kernel :=
  k <| k_slocks ::= insert s v |>.

Definition initsleeplock (s : sleepid) (name : string) : K unit :=
  initlock (L_sleep s) "sleep lock" ;;
  modify (set_slock s (mkSleeplock 0 name 0)).

Definition acquiresleep (s : sleepid) : K unit :=
  acquire (L_sleep s) ;;
  wait_loop (
    lk <- gets (fun k => slock_of k s) ;;
    if nz (sl_locked lk) then sleep (Ch_sleep s) (L_sleep s) ;; ret None
    else ret (Some tt)) ;;
  modify (fun k => set_slock s (mkSleeplock 1 (sl_name (slock_of k s)) (sl_pid (slock_of k s))) k) ;;
  p <- curproc ;;
  pr <- get_proc p ;;
  modify (fun k => set_slock s (mkSleeplock (sl_locked (slock_of k s)) (sl_name (slock_of k s))
                                  (p_pid pr)) k) ;;
  release (L_sleep s).

Definition releasesleep (s : sleepid) : K unit :=
  acquire (L_sleep s) ;;
  modify (fun k => set_slock s (mkSleeplock 0 (sl_name (slock_of k s)) 0) k) ;;
  wakeup (Ch_sleep s) ;;
  release (L_sleep s).

Definition holdingsleep (s : sleepid) : K bool :=
  acquire (L_sleep s) ;;
  lk <- gets (fun k => slock_of k s) ;;
  r <- (if nz (sl_locked lk) then
          p <- curproc ;;
          pr <- get_proc p ;;
          ret (sl_pid lk =? p_pid pr)
        else ret false) ;;
  release (L_sleep s) ;;
  ret r.
