(* ===== verification/Klog.v ===== *)
(** klog.c: the kernel's flight recorder, a ring of the last KLOG_SIZE events.
    The ring refines the list of all events ever added. *)
From S2P Require Import Prelude Kernel Mem Spinlock Str Kalloc Console Vm Sched.

Definition get_klog {A} (f : klog -> A) : K A := gets (fun k => f (k_klog k)).
Definition upd_klog (f : klog -> klog) : K unit := modify (fun k => k <| k_klog ::= f |>).

(** klog.entries[klog.head].field = ... *)
Definition upd_head (f : logentry -> logentry) : K unit :=
  upd_klog (fun l => l <| kl_entries ::= alter f (Z.to_nat (kl_head l)) |>).

Definition klog_init : K unit :=
  initlock L_klog "klog" ;;
  upd_klog (fun l => l <| kl_head := 0 |>) ;;
  upd_klog (fun l => l <| kl_count := 0 |>) ;;
  upd_klog (fun l => l <| kl_ticks := 0 |>).

Definition klog_add (type pid ex : Z) : K unit :=
  acquire L_klog ;;
  t <- get_klog kl_ticks ;;
  upd_klog (fun l => l <| kl_ticks ::= fun n => u32 (n + 1) |>) ;;
  upd_head (fun x => x <| timestamp := t |>) ;;
  upd_head (fun x => x <| event_type := type |>) ;;
  upd_head (fun x => x <| e_pid := pid |>) ;;
  upd_head (fun x => x <| extra := ex |>) ;;
  upd_klog (fun l => l <| kl_head ::= fun h => Z.rem (h + 1) KLOG_SIZE |>) ;;
  c <- get_klog kl_count ;;
  when (c <? KLOG_SIZE) (upd_klog (fun l => l <| kl_count ::= fun n => n + 1 |>)) ;;
  release L_klog.

(** The loop over [count] entries from [start], as klog_dump reads them:
    klog.count is read again before every round. *)
Definition dump_entry (x : logentry) : K unit :=
  cprintf "[%d] type=%d pid=%d extra=%d\n"
    [AInt (timestamp x); AInt (event_type x); AInt (e_pid x); AInt (extra x)].
Fixpoint klog_dump_loop (n : nat) (start i : Z) : K unit :=
  match n with
  | O => diverge
  | S n' =>
      l <- get_klog id ;;
      if negb (i <? kl_count l) then ret tt
      else
        let idx := Z.rem (start + i) KLOG_SIZE in
        dump_entry (zget (kl_entries l) idx) ;;
        klog_dump_loop n' start (i + 1)
  end.
Definition klog_dump : K unit :=
  cprintf "\n=== KERNEL LOG DUMP ===\n" [] ;;
  l <- get_klog id ;;
  let start := Z.rem (kl_head l - kl_count l + KLOG_SIZE) KLOG_SIZE in
  klog_dump_loop (S (Z.to_nat KLOG_SIZE)) start 0.

(** struct logentry in memory: four 32-bit words.  No source file declares the
    struct; the size and the order of the fields are those of the compiled
    viewer, klogs.asm (offsets 0, 4, 8 and 12, 16 bytes an entry). *)
Definition sizeof_logentry : Z := 16.
Definition entry_bytes (x : logentry) : list Z :=
  le32 (timestamp x) ++ le32 (event_type x) ++ le32 (e_pid x) ++ le32 (extra x).

(** for(i = 0; i < n; i++) temp[i] = klog.entries[(start + i) % KLOG_SIZE]; *)
Fixpoint copy_entries (n : nat) (i start : Z) (entries temp : list logentry) : list logentry :=
  match n with
  | O => temp
  | S n' =>
      let idx := Z.rem (start + i) KLOG_SIZE in
      copy_entries n' (i + 1) start entries (zset temp i (zget entries idx))
  end.

(** [temp]: what the 256 entries of the local array hold on entry. *)
Definition klog_getlogs (temp : list logentry) (buf max : Z) : K Z :=
  p <- myproc ;;
  acquire L_klog ;;
  l <- get_klog id ;;
  let n := if kl_count l <? max then kl_count l else max in
  let n := if 256 <? n then 256 else n in
  let start := Z.rem (i32 (kl_head l - n + KLOG_SIZE)) KLOG_SIZE in
  let temp := copy_entries (Z.to_nat n) 0 start (kl_entries l) temp in
  release L_klog ;;
  p <- (match p with Some p => ret p | None => fault 0 end) ;;
  pr <- get_proc p ;;
  r <- copyout (p_pgdir pr) (u32 buf) (mjoin (entry_bytes <$> temp)) (u32 (n * sizeof_logentry)) ;;
  if r <? 0 then ret (-1) else ret n.

(** * The log as a list of events *)

(** An event as klog_add receives it. *)
Definition event : Type := Z * Z * Z.

(** The entry of the [i]-th event (from 0). *)
Definition entry_of (i : nat) (ev : event) : logentry :=
  let '(t, p, x) := ev in mkEntry (u32 (Z.of_nat i)) t p x.

(** The ring [l] represents the history [h], oldest event first. *)
Record repr (l : klog) (h : list event) : Prop := {
  r_len : length (kl_entries l) = Z.to_nat KLOG_SIZE;
  r_head : kl_head l = Z.of_nat (length h) mod KLOG_SIZE;
  r_count : kl_count l = Z.min (Z.of_nat (length h)) KLOG_SIZE;
  r_ticks : kl_ticks l = u32 (Z.of_nat (length h));
  r_entries : forall i ev, h !! i = Some ev -> Z.of_nat (length h) <= Z.of_nat i + KLOG_SIZE ->
    zget (kl_entries l) (Z.of_nat i mod KLOG_SIZE) = entry_of i ev
}.

(** klog_add on the ring alone. *)
Definition ring_add (ev : event) (l : klog) : klog :=
  let '(t, p, x) := ev in
  l <| kl_entries := zset (kl_entries l) (kl_head l) (mkEntry (kl_ticks l) t p x) |>
    <| kl_ticks := u32 (kl_ticks l + 1) |>
    <| kl_head := Z.rem (kl_head l + 1) KLOG_SIZE |>
    <| kl_count := if kl_count l <? KLOG_SIZE then kl_count l + 1 else kl_count l |>.

Section klog_facts.
Implicit Types (k : kernel) (e : env) (l : klog) (h : list event).

Lemma repr_nil l :
  length (kl_entries l) = Z.to_nat KLOG_SIZE -> kl_head l = 0 -> kl_count l = 0 -> kl_ticks l = 0 ->
  repr l [].
Proof. by split. Qed.

(** Adding to the ring appends to the history. *)
Lemma ring_add_repr l h ev : repr l h -> repr (ring_add ev l) (h ++ [ev]).
Proof.
  intros [Hl Hh Hc Ht He]. destruct ev as [[t p] x]. unfold ring_add.
  assert (Hmod : 0 <= kl_head l < 128) by (rewrite Hh; apply Z.mod_pos_bound; done).
  split; fields; rewrite ?length_app, ?length_zset; cbn [length].
  - done.
  - unfold KLOG_SIZE. rewrite Z.rem_mod_nonneg by lia. rewrite Hh. unfold KLOG_SIZE.
    rewrite Zplus_mod_idemp_l. f_equal. lia.
  - rewrite Hc. unfold KLOG_SIZE. destruct (Z.ltb_spec (Z.min (Z.of_nat (length h)) 128) 128); lia.
  - rewrite Ht. rewrite u32_add_l. f_equal. lia.
  - intros i ev Hi Hr. unfold zlen in *.
    destruct (decide (i = length h)) as [->|Hne].
    + rewrite lookup_app_r, Nat.sub_diag in Hi by lia. simplify_eq/=.
      rewrite <- Hh, zget_zset_eq by (unfold zlen; rewrite Hl; done). by rewrite Ht.
    + assert (Hlt : (i < length h)%nat).
      { apply lookup_lt_Some in Hi. rewrite length_app in Hi. simpl in Hi. lia. }
      rewrite lookup_app_l in Hi by done. unfold KLOG_SIZE in *.
      rewrite zget_zset_ne; [apply He; [done|lia]|lia|apply Z.mod_pos_bound; lia|].
      rewrite Hh. intros Heq. apply Hne. apply (f_equal (fun z => z - Z.of_nat i mod 128)) in Heq.
      pose proof (Z.div_mod (Z.of_nat i) 128 ltac:(lia)).
      pose proof (Z.div_mod (Z.of_nat (length h)) 128 ltac:(lia)). lia.
Qed.

(** The four field stores make one entry. *)
Lemma alter_entry (en : list logentry) n t ty p x :
  alter (fun y => y <| extra := x |>) n
    (alter (fun y => y <| e_pid := p |>) n
      (alter (fun y => y <| event_type := ty |>) n
        (alter (fun y => y <| timestamp := t |>) n en))) = <[n := mkEntry t ty p x]> en.
Proof.
  apply list_eq. intros j. destruct (decide (j = n)) as [->|Hne].
  - rewrite !list_lookup_alter_eq. destruct (en !! n) eqn:E; simpl.
    + rewrite list_lookup_insert_eq; [done|by eapply lookup_lt_Some].
    + symmetry. apply lookup_ge_None. rewrite length_insert. by apply lookup_ge_None.
  - rewrite !list_lookup_alter_ne, list_lookup_insert_ne by done. done.
Qed.

Definition klog_added (ev : event) (k : kernel) : kernel :=
  k <| k_klog := ring_add ev (k_klog k) |>.

(** The critical section of klog_add. *)
Lemma klog_write_ok (type pid ex : Z) (rest : K unit) k e :
  (t <- get_klog kl_ticks ;;
   upd_klog (fun l => l <| kl_ticks ::= fun n => u32 (n + 1) |>) ;;
   upd_head (fun x => x <| timestamp := t |>) ;;
   upd_head (fun x => x <| event_type := type |>) ;;
   upd_head (fun x => x <| e_pid := pid |>) ;;
   upd_head (fun x => x <| extra := ex |>) ;;
   upd_klog (fun l => l <| kl_head ::= fun h : Z => Z.rem (h + 1) KLOG_SIZE |>) ;;
   c <- get_klog kl_count ;;
   when (c <? KLOG_SIZE) (upd_klog (fun l => l <| kl_count ::= fun n => n + 1 |>)) ;;
   rest) k e = rest (klog_added (type, pid, ex) k) e.
Proof.
  unfold upd_head, upd_klog, get_klog. step. fields.
  unfold klog_added, ring_add, zset. fields. rewrite <- alter_entry.
  by destruct (kl_count (k_klog k) <? KLOG_SIZE).
Qed.

(** klog_add runs to completion on a free lock: the lock is free again and the
    ring has one more event. *)
Lemma klog_add_ok i t p x k e :
  cpu_at i k -> lock_free L_klog k ->
  klog_add t p x k e = Ok tt (klog_added (t, p, x) (touch i L_klog k)) e.
Proof.
  intros Hc Hf. unfold klog_add. run (acquire_ok i).
  destruct (locked_by_ready i L_klog k Hc) as (Hc' & Hh & Hn).
  rewrite klog_write_ok. by apply (release_ok i).
Qed.
End klog_facts.
