(* ===== verification/KlogFacts.v ===== *)
(** The flight recorder's readers: klog_getlogs hands the program the most
    recent events, and klog_dump prints the ring. *)
From S2P Require Import Prelude Kernel Mem Spinlock Str Kalloc Console Vm VmFacts UvmFacts CopyFacts Sched Klog.

(** The entries of the last [n] events of [h], oldest first. *)
Definition recent (n : nat) (h : list event) : list logentry :=
  zip_with entry_of (seq (length h - n) n) (drop (length h - n) h).

Section klogfacts.

Lemma length_recent n h : (n <= length h)%nat -> length (recent n h) = n.
Proof. intros Hn. unfold recent. rewrite length_zip_with, length_seq, length_drop. lia. Qed.

Lemma recent_lookup n h j ev :
  (n <= length h)%nat -> (j < n)%nat -> h !! (length h - n + j)%nat = Some ev ->
  recent n h !! j = Some (entry_of (length h - n + j) ev).
Proof.
  intros Hn Hj Hev. unfold recent. rewrite lookup_zip_with, lookup_seq_lt by done. simpl.
  rewrite lookup_drop, Hev. done.
Qed.

Lemma length_copy_entries n : forall i start en temp,
  length (copy_entries n i start en temp) = length temp.
Proof. induction n as [|n IH]; intros; simpl; [done|]. by rewrite IH, length_zset. Qed.

(** The copy loop, slot by slot. *)
Lemma copy_entries_get n : forall i start en temp j,
  0 <= i -> i + Z.of_nat n <= zlen temp -> 0 <= j ->
  zget (copy_entries n i start en temp) j =
  if decide (i <= j < i + Z.of_nat n) then zget en (Z.rem (start + j) KLOG_SIZE) else zget temp j.
Proof.
  induction n as [|n IH]; intros i start en temp j Hi Hn Hj; cbn [copy_entries].
  { by rewrite decide_False by lia. }
  rewrite IH by (rewrite ?zlen_zset; lia).
  destruct (decide (j = i)) as [->|].
  - rewrite decide_False, decide_True, zget_zset_eq by lia. done.
  - rewrite zget_zset_ne by lia. destruct (decide (i <= j < i + Z.of_nat (S n))).
    + by rewrite decide_True by lia.
    + by rewrite decide_False by lia.
Qed.

(** The slot [j] places after the start of the last [n] events. *)
Lemma ring_recent l h n j x :
  repr l h -> (n <= length h)%nat -> Z.of_nat n <= KLOG_SIZE -> (j < n)%nat ->
  recent n h !! j = Some x ->
  zget (kl_entries l)
    (Z.rem (Z.rem (kl_head l - Z.of_nat n + KLOG_SIZE) KLOG_SIZE + Z.of_nat j) KLOG_SIZE) = x.
Proof.
  intros Hr Hn Hk Hj Hx.
  destruct (lookup_lt_is_Some_2 h (length h - n + j)) as [ev Hev]; [lia|].
  rewrite (recent_lookup n h j ev) in Hx by done. injection Hx as <-.
  assert (Hm : 0 <= kl_head l < 128) by (rewrite (r_head _ _ Hr); apply Z.mod_pos_bound; done).
  unfold KLOG_SIZE in *. rewrite (Z.rem_mod_nonneg (kl_head l - _ + _)) by lia.
  pose proof (Z.mod_pos_bound (kl_head l - Z.of_nat n + 128) 128 ltac:(lia)).
  rewrite Z.rem_mod_nonneg by lia. rewrite Zplus_mod_idemp_l, (r_head _ _ Hr). unfold KLOG_SIZE.
  replace (Z.of_nat (length h) mod 128 - Z.of_nat n + 128 + Z.of_nat j)
    with (Z.of_nat (length h) mod 128 + (Z.of_nat j - Z.of_nat n) + 1 * 128) by lia.
  rewrite Z_mod_plus_full, Zplus_mod_idemp_l.
  replace (Z.of_nat (length h) + (Z.of_nat j - Z.of_nat n)) with (Z.of_nat (length h - n + j)) by lia.
  apply (r_entries _ _ Hr); [done|]. unfold KLOG_SIZE. lia.
Qed.

Lemma head_range l h : repr l h -> 0 <= kl_head l < KLOG_SIZE.
Proof. intros Hr. rewrite (r_head _ _ Hr). by apply Z.mod_pos_bound. Qed.

(** The entries of the ring that stand for the last [n] events. *)
Lemma copy_entries_recent l h temp n :
  repr l h -> (n <= length h)%nat -> Z.of_nat n <= KLOG_SIZE -> (n <= length temp)%nat ->
  take n (copy_entries n 0 (Z.rem (i32 (kl_head l - Z.of_nat n + KLOG_SIZE)) KLOG_SIZE)
            (kl_entries l) temp) = recent n h.
Proof.
  intros Hr Hn Hk Ht. pose proof (head_range l h Hr) as Hm.
  rewrite i32_small by (unfold KLOG_SIZE in *; lia).
  apply list_eq_same_length with n.
  { by rewrite length_recent. }
  { rewrite length_take, length_copy_entries. lia. }
  intros j x y Hj Hx Hy. rewrite lookup_take_lt in Hx by done.
  apply (list_lookup_total_correct _ _ _) in Hx. rewrite <- Hx, <- (Nat2Z.id j).
  set (c := copy_entries _ _ _ _ _). fold (zget c (Z.of_nat j)). unfold c.
  rewrite copy_entries_get by (unfold zlen; lia). rewrite decide_True by lia.
  by apply (ring_recent l h).
Qed.

Lemma length_entry_bytes x : length (entry_bytes x) = 16%nat.
Proof. reflexivity. Qed.

Lemma length_entries_bytes (xs : list logentry) :
  zlen (mjoin (entry_bytes <$> xs)) = 16 * Z.of_nat (length xs).
Proof.
  unfold zlen. induction xs as [|x xs IH]; [done|].
  change (mjoin (entry_bytes <$> x :: xs)) with (entry_bytes x ++ mjoin (entry_bytes <$> xs)).
  rewrite length_app, length_entry_bytes. cbn [length]. lia.
Qed.

Context `{Image} `{!ImageOk}.

(** The state klog_getlogs leaves, apart from user memory. *)
Definition getlogs_touch (i : nat) (k : kernel) : kernel :=
  touch i L_klog (popped i (pushed i k)).

Lemma uvm_inv_getlogs i k pgdir T l P :
  uvm_inv k pgdir T l P -> uvm_inv (getlogs_touch i k) pgdir T l P.
Proof. intros [[H1 H2 H3] H4 H5 H6 H7 H8]. by split; [split|..]. Qed.

Lemma klog_getlogs_prefix i p k e h temp buf max :
  cpu_at i k -> lock_free L_klog k -> c_proc (k_cpus k !!! i) = Some p ->
  repr (k_klog k) h -> length temp = 256%nat ->
  let n := Z.min (Z.min (Z.of_nat (length h)) KLOG_SIZE) max in
  exists rest, zlen rest = 16 * (256 - Z.max 0 n) /\
  klog_getlogs temp buf max k e =
  (r <- copyout (p_pgdir (k_ptable k !!! p)) (u32 buf)
     (mjoin (entry_bytes <$> recent (Z.to_nat n) h) ++ rest) (u32 (n * sizeof_logentry)) ;;
   if r <? 0 then ret (-1) else ret n) (getlogs_touch i k) e.
Proof.
  intros Hc Hf Hp Hr Ht n.
  set (cp := copy_entries (Z.to_nat n) 0 (Z.rem (i32 (kl_head (k_klog k) - n + KLOG_SIZE)) KLOG_SIZE)
               (kl_entries (k_klog k)) temp).
  assert (Hcp : take (Z.to_nat n) cp = recent (Z.to_nat n) h).
  { unfold cp. destruct (decide (0 <= n)).
    - pose proof (copy_entries_recent (k_klog k) h temp (Z.to_nat n) Hr) as Hcr.
      rewrite Z2Nat.id in Hcr by done. apply Hcr; unfold KLOG_SIZE in *; lia.
    - replace (Z.to_nat n) with 0%nat by lia. unfold recent. by rewrite Nat.sub_0_r. }
  exists (mjoin (entry_bytes <$> drop (Z.to_nat n) cp)). split.
  { rewrite length_entries_bytes, length_drop. unfold cp. rewrite length_copy_entries, Ht.
    unfold KLOG_SIZE in *. lia. }
  rewrite <- Hcp, <- join_app, <- fmap_app, take_drop.
  unfold klog_getlogs. run (myproc_ok i). rewrite Hp.
  pose proof (myproc_ready i k Hc) as Hc1. set (k1 := popped i (pushed i k)) in *.
  run (acquire_ok i). destruct (locked_by_ready i L_klog k1 Hc1) as (Hc2 & Hh & Hn).
  assert (Hg : get_klog id (locked_by i L_klog k1) e = Ok (k_klog k) (locked_by i L_klog k1) e) by done.
  rewrite (bind_ok _ _ _ _ _ _ _ Hg). pose proof (r_count _ _ Hr) as Hcount.
  replace (if 256 <? (if kl_count (k_klog k) <? max then kl_count (k_klog k) else max) then 256
           else if kl_count (k_klog k) <? max then kl_count (k_klog k) else max) with n.
  2: { unfold n. clearbody cp. unfold KLOG_SIZE in *.
       destruct (Z.ltb_spec (kl_count (k_klog k)) max), (Z.ltb_spec 256 (kl_count (k_klog k))),
         (Z.ltb_spec 256 max); lia. }
  fold cp. rewrite (bind_ok _ _ _ _ _ _ _ (release_ok i L_klog _ e Hc2 Hh Hn)). cbv iota. step.
  unfold get_proc. by step.
Qed.

(** klog_getlogs copies out the min(count, max) most recent entries, in order,
    and touches no other user byte. *)
Lemma klog_getlogs_ok i p k e h temp buf max T l P :
  cpu_at i k -> lock_free L_klog k -> c_proc (k_cpus k !!! i) = Some p ->
  repr (k_klog k) h -> length temp = 256%nat ->
  let pgdir := p_pgdir (k_ptable k !!! p) in
  let n := Z.min (Z.min (Z.of_nat (length h)) KLOG_SIZE) max in
  uvm_inv k pgdir T l P -> 0 <= max -> 0 <= buf -> buf + 16 * n <= KERNBASE ->
  user_range (k_mem k) pgdir P buf (16 * n) ->
  exists m', klog_getlogs temp buf max k e = Ok n (getlogs_touch i k <| k_mem := m' |>) e /\
    forall x, 0 <= x < KERNBASE -> user_read m' pgdir x =
      user_written (k_mem k) pgdir buf (16 * n) (mjoin (entry_bytes <$> recent (Z.to_nat n) h)) x.
Proof.
  intros Hc Hf Hp Hr Ht pgdir n Hi Hm Hb Hbe Hrange.
  destruct (klog_getlogs_prefix i p k e h temp buf max Hc Hf Hp Hr Ht) as (rest & Hrest & ->).
  fold n in Hrest |- *. fold pgdir.
  assert (Hn : 0 <= n <= 128) by (unfold n, KLOG_SIZE; lia). unfold sizeof_logentry, KERNBASE in *.
  rewrite !u32_small by lia. replace (n * 16) with (16 * n) by lia.
  assert (Hlen : zlen (mjoin (entry_bytes <$> recent (Z.to_nat n) h)) = 16 * n).
  { rewrite length_entries_bytes, length_recent; unfold n, KLOG_SIZE in *; lia. }
  destruct (copyout_ok pgdir T l P buf (mjoin (entry_bytes <$> recent (Z.to_nat n) h) ++ rest) (16 * n)
              (getlogs_touch i k) e) as (m' & Hrun & _ & Hrd).
  { by apply uvm_inv_getlogs. } { done. } { done. } { done. }
  { unfold zlen in *. rewrite length_app. lia. }
  exists m'. rewrite (bind_ok _ _ _ _ _ _ _ Hrun). split; [done|].
  intros x Hx. rewrite Hrd by done. unfold user_written. case_decide as Hd; [|done].
  do 2 f_equal. apply lookup_total_app_l. unfold zlen in Hlen. lia.
Qed.

(** A negative [max] passes both limits, and the unsigned byte count is near
    2^32: the copy runs past the end of [temp] into the kernel stack. *)
Lemma klog_getlogs_overread i p k e h temp buf max T l P :
  cpu_at i k -> lock_free L_klog k -> c_proc (k_cpus k !!! i) = Some p ->
  repr (k_klog k) h -> length temp = 256%nat ->
  let pgdir := p_pgdir (k_ptable k !!! p) in
  uvm_inv k pgdir T l P -> - 2 ^ 27 <= max < 0 -> 0 <= buf -> buf + 4097 <= KERNBASE ->
  user_range (k_mem k) pgdir P buf 4097 ->
  exists off k', klog_getlogs temp buf max k e = Fault off k'.
Proof.
  intros Hc Hf Hp Hr Ht pgdir Hi Hm Hb Hbe Hrange.
  destruct (klog_getlogs_prefix i p k e h temp buf max Hc Hf Hp Hr Ht) as (rest & Hrest & ->).
  set (n := Z.min (Z.min _ _) max) in *.
  assert (Hn : n = max) by (unfold n, KLOG_SIZE; lia). clearbody n. subst n. fold pgdir.
  replace (Z.to_nat max) with 0%nat by lia. unfold KERNBASE in *.
  assert (Hu : u32 (max * sizeof_logentry) = max * 16 + 2 ^ 32).
  { unfold sizeof_logentry, u32. rewrite <- (Z_mod_plus_full _ 1). apply Z.mod_small. lia. }
  rewrite Hu, u32_small by lia.
  destruct (copyout_loop_overread pgdir T l P (S (Z.to_nat (max * 16 + 2 ^ 32))) buf rest
              (max * 16 + 2 ^ 32) (getlogs_touch i k) e) as (off & k' & Hfault).
  { by apply uvm_inv_getlogs. }
  { replace (zlen rest + 1) with 4097 by lia. done. }
  { done. } { unfold KERNBASE. lia. } { lia. } { unfold zlen in Hrest. lia. }
  exists off, k'. unfold bind, copyout. 
  change (mjoin (entry_bytes <$> recent 0 h) ++ rest) with rest. by rewrite Hfault.
Qed.

(** ** klog_dump *)

Record printed (i : nat) (s : list Z) (k k' : kernel) : Prop := {
  pr_screen : screen k' = foldl (emit (k_uart k)) (screen k) s;
  pr_uart : k_uart k' = k_uart k;
  pr_klog : k_klog k' = k_klog k;
  pr_ready : cons_ready i k'
}.

Lemma printed_trans i s1 s2 k1 k2 k3 :
  printed i s1 k1 k2 -> printed i s2 k2 k3 -> printed i (s1 ++ s2) k1 k3.
Proof.
  intros [S1 U1 L1 _] [S2 U2 L2 R2]. split; [|congruence..|done].
  rewrite foldl_app, <- S1, <- U1. done.
Qed.

Lemma screen_puts s k : screen (puts s k) = foldl (emit (k_uart k)) (screen k) s.
Proof. unfold puts. by destruct (foldl _ _ s) as [? []]. Qed.

Lemma cprintf_printed i fmt args k e : cons_ready i k ->
  exists k', cprintf fmt args k e = Ok tt k' e /\ printed i (render (bytes fmt) args) k k'.
Proof.
  intros Hr. eexists. split; [by apply (cprintf_ok i)|].
  assert (Hk : screen (ctouch i k) = screen k /\ k_uart (ctouch i k) = k_uart k /\
               k_klog (ctouch i k) = k_klog k /\ cons_ready i (ctouch i k)).
  { unfold ctouch. destruct (cons_locking (k_console k)) eqn:E; [|done].
    destruct Hr as [Hok Hl]. destruct (Hl E). split_and!; try done.
    split; [done|]. intros _. split; [by apply touch_ready|by apply touch_free]. }
  destruct Hk as (Hs & Hu & Hl & Hcr). split.
  - rewrite screen_puts. by rewrite Hs, Hu.
  - rewrite <- Hu. unfold puts, put_screen. done.
  - rewrite <- Hl. done.
  - destruct Hcr as [Hok Hlk]. split; [by apply puts_ok|exact Hlk].
Qed.

Definition entry_line (x : logentry) : list Z :=
  render (bytes "[%d] type=%d pid=%d extra=%d\n")
    [AInt (timestamp x); AInt (event_type x); AInt (e_pid x); AInt (extra x)].

Lemma klog_dump_loop_ok i h n : forall j k e,
  cons_ready i k -> repr (k_klog k) h ->
  let c := Z.to_nat (kl_count (k_klog k)) in
  let start := Z.rem (kl_head (k_klog k) - kl_count (k_klog k) + KLOG_SIZE) KLOG_SIZE in
  (j <= c)%nat -> (c - j < n)%nat ->
  exists k', klog_dump_loop n start (Z.of_nat j) k e = Ok tt k' e /\
    printed i (mjoin (entry_line <$> drop j (recent c h))) k k'.
Proof.
  induction n as [|n IH]; intros j k e Hcr Hr c start Hj Hn; [lia|].
  pose proof (r_count _ _ Hr) as Hc. unfold KLOG_SIZE in Hc.
  assert (Hlen : length (recent c h) = c) by (apply length_recent; unfold c; lia).
  cbn [klog_dump_loop]. unfold get_klog at 1. step. unfold id.
  destruct (Z.ltb_spec (Z.of_nat j) (kl_count (k_klog k))) as [Hlt|Hge]; cbn [negb].
  2: { exists k. split; [done|]. rewrite drop_ge by lia. done. }
  destruct (lookup_lt_is_Some_2 (recent c h) j) as [x Hx]; [lia|].
  assert (Hg : zget (kl_entries (k_klog k)) (Z.rem (start + Z.of_nat j) KLOG_SIZE) = x).
  { pose proof (ring_recent (k_klog k) h c j x Hr) as Hrr. unfold start.
    replace (Z.of_nat c) with (kl_count (k_klog k)) in Hrr by (unfold c; lia).
    apply Hrr; unfold KLOG_SIZE; (done || lia). }
  rewrite Hg. unfold dump_entry.
  destruct (cprintf_printed i "[%d] type=%d pid=%d extra=%d\n"
    [AInt (timestamp x); AInt (event_type x); AInt (e_pid x); AInt (extra x)] k e Hcr) as (k1 & Hrun & Hp1).
  rewrite (bind_ok _ _ _ _ _ _ _ Hrun).
  destruct (IH (S j) k1 e) as (k' & Hrun' & Hp').
  { apply Hp1. } { by rewrite (pr_klog _ _ _ _ Hp1). }
  { rewrite (pr_klog _ _ _ _ Hp1). fold c. lia. } { rewrite (pr_klog _ _ _ _ Hp1). fold c. lia. }
  rewrite (pr_klog _ _ _ _ Hp1) in Hrun', Hp'. fold start c in Hrun', Hp'.
  exists k'. split; [by replace (Z.of_nat j + 1) with (Z.of_nat (S j)) by lia|].
  rewrite (drop_S _ x) by done. by eapply printed_trans.
Qed.

(** klog_dump prints the whole ring, oldest event first, and returns. *)
Lemma klog_dump_ok i h k e :
  cons_ready i k -> repr (k_klog k) h ->
  let c := Z.to_nat (kl_count (k_klog k)) in
  exists k', klog_dump k e = Ok tt k' e /\
    printed i (render (bytes "\n=== KERNEL LOG DUMP ===\n") [] ++
               mjoin (entry_line <$> recent c h)) k k'.
Proof.
  intros Hcr Hr c. unfold klog_dump.
  destruct (cprintf_printed i "\n=== KERNEL LOG DUMP ===\n" [] k e Hcr) as (k1 & Hrun & Hp1).
  rewrite (bind_ok _ _ _ _ _ _ _ Hrun). unfold get_klog at 1. step. unfold id.
  pose proof (pr_klog _ _ _ _ Hp1) as Hl.
  destruct (klog_dump_loop_ok i h (S (Z.to_nat KLOG_SIZE)) 0 k1 e) as (k' & Hrun' & Hp').
  { apply Hp1. } { by rewrite Hl. } { lia. }
  { rewrite Hl. rewrite (r_count _ _ Hr). unfold KLOG_SIZE. lia. }
  exists k'. split; [done|]. rewrite Hl in Hp'. by eapply printed_trans.
Qed.

End klogfacts.
