(* ===== verification/KlogSpec.v ===== *)
(** What the flight recorder promises. *)
From S2P Require Import Prelude Kernel Mem Spinlock Locks Str Kalloc Console Vm VmFacts UvmFacts CopyFacts.
From S2P Require Import Sample Sched Klog KlogFacts.

(** The events of a run, recorded one after the other. *)
Fixpoint klog_record (evs : list event) : K unit :=
  match evs with
  | [] => ret tt
  | (t, p, x) :: evs' => klog_add t p x ;; klog_record evs'
  end.

Section klogspec.
Implicit Types (k : kernel) (e : env) (h : list event).

Lemma klog_record_ok i evs : forall h k e,
  cpu_at i k -> lock_free L_klog k -> repr (k_klog k) h ->
  exists k', klog_record evs k e = Ok tt k' e /\ repr (k_klog k') (h ++ evs) /\ lframe i k k'.
Proof.
  induction evs as [|[[t p] x] evs IH]; intros h k e Hc Hf Hr; cbn [klog_record].
  { exists k. by rewrite app_nil_r. }
  run (klog_add_ok i). set (k1 := klog_added (t, p, x) (touch i L_klog k)).
  assert (Hfr : lframe i k k1).
  { etrans; [apply (touch_frame i L_klog)|]. by apply lk_same_frame. }
  destruct (IH (h ++ [(t, p, x)]) k1 e) as (k' & Hrun & Hr' & Hfr').
  - by apply Hfr.
  - by apply Hfr.
  - change (repr (ring_add (t, p, x) (k_klog k)) (h ++ [(t, p, x)])). by apply ring_add_repr.
  - exists k'. rewrite <- app_assoc in Hr'. split_and!; [done..|]. by etrans.
Qed.

(** C8: from the state klog_init leaves, any sequence of klog_add calls leaves
    a ring that represents exactly that sequence: the last KLOG_SIZE events in
    their slots, the count saturated, the timestamps counting from 0. *)
Theorem klog_records_history i evs k e :
  cpu_at i k -> lock_free L_klog k -> length (kl_entries (k_klog k)) = Z.to_nat KLOG_SIZE ->
  exists k', (klog_init ;; klog_record evs) k e = Ok tt k' e /\ repr (k_klog k') evs /\
    lock_free L_klog k'.
Proof.
  intros Hc Hf Hl. unfold klog_init, upd_klog. rewrite bind_assoc. unfold initlock. step.
  match goal with |- context [klog_record evs ?s e] => set (k1 := s) end.
  assert (Hk1 : lock_free L_klog k1).
  { exact (f_equal locked (lock_of_set_eq L_klog (mkSpinlock 0 "klog" None) k)). }
  destruct (klog_record_ok i evs [] k1 e) as (k' & Hrun & Hr & Hfr); [done|done|by apply repr_nil|].
  exists k'. split_and!; [done..|]. by apply Hfr.
Qed.

(** C33: klog_dump returns, having printed its title and then one line per
    event in the ring, oldest first, and the ring is unchanged. *)
Theorem klog_dump_prints_ring i h k e :
  cons_ready i k -> repr (k_klog k) h ->
  let c := Z.to_nat (kl_count (k_klog k)) in
  exists k', klog_dump k e = Ok tt k' e /\
    printed i (render (bytes "\n=== KERNEL LOG DUMP ===\n") [] ++
               mjoin (entry_line <$> recent c h)) k k'.
Proof. apply klog_dump_ok. Qed.

Context `{Image} `{!ImageOk}.

(** C9: klog_getlogs with a non-negative maximum returns the number of events
    it gave: the program then reads, at its buffer, the most recent events in
    order, and every other byte of its memory is what it was. *)
Theorem klog_getlogs_recent i p k e h temp buf max T l P :
  cpu_at i k -> lock_free L_klog k -> c_proc (k_cpus k !!! i) = Some p ->
  repr (k_klog k) h -> length temp = 256%nat ->
  let pgdir := p_pgdir (k_ptable k !!! p) in
  let n := Z.min (Z.min (Z.of_nat (length h)) KLOG_SIZE) max in
  uvm_inv k pgdir T l P -> 0 <= max -> 0 <= buf -> buf + 16 * n <= KERNBASE ->
  user_range (k_mem k) pgdir P buf (16 * n) ->
  exists m', klog_getlogs temp buf max k e = Ok n (getlogs_touch i k <| k_mem := m' |>) e /\
    forall x, 0 <= x < KERNBASE -> user_read m' pgdir x =
      user_written (k_mem k) pgdir buf (16 * n) (mjoin (entry_bytes <$> recent (Z.to_nat n) h)) x.
Proof. apply klog_getlogs_ok. Qed.

(** C23: klog_getlogs with a negative maximum copies past the end of its local
    array (the model faults there): the limits compare signed, the byte count
    is unsigned. *)
Theorem klog_getlogs_negative_max i p k e h temp buf max T l P :
  cpu_at i k -> lock_free L_klog k -> c_proc (k_cpus k !!! i) = Some p ->
  repr (k_klog k) h -> length temp = 256%nat ->
  let pgdir := p_pgdir (k_ptable k !!! p) in
  uvm_inv k pgdir T l P -> - 2 ^ 27 <= max < 0 -> 0 <= buf -> buf + 4097 <= KERNBASE ->
  user_range (k_mem k) pgdir P buf 4097 ->
  exists off k', klog_getlogs temp buf max k e = Fault off k'.
Proof. apply klog_getlogs_overread. Qed.
End klogspec.

Lemma klog_records_history_witness :
  exists k', (klog_init ;; klog_record [(1, 2, 3); (4, 5, 6)]) Sample.k [] = Ok tt k' [] /\
    kl_count (k_klog k') = 2.
Proof.
  destruct (klog_records_history 0 [(1, 2, 3); (4, 5, 6)] Sample.k [] Sample.cpu (Sample.locks _) eq_refl)
    as (k' & Hrun & Hr & _).
  exists k'. split; [done|]. by rewrite (r_count _ _ Hr).
Defined.

(** The ring of the sample state is empty; with one event added it is not. *)
Lemma sample_repr : repr (k_klog Sample.k) [].
Proof. by apply repr_nil. Qed.

Lemma sample_range buf len :
  0 <= buf -> buf + len <= 8192 -> user_range (k_mem Sample.k) Sample.D Sample.upages buf len.
Proof.
  intros Hb Hl x Hx. change (k_mem Sample.k) with Sample.mem.
  assert (Hv : x / PGSIZE = 0 \/ x / PGSIZE = 1) by (unfold PGSIZE; dlia).
  destruct Hv as [-> | ->]; (split; [by eexists|]); rewrite Sample.pte by (by vm_compute); by vm_compute.
Qed.

Lemma klog_dump_prints_ring_witness :
  exists k', klog_dump Sample.k [] = Ok tt k' [] /\ k_klog k' = k_klog Sample.k.
Proof.
  destruct (klog_dump_prints_ring 0 [] Sample.k [] Sample.console sample_repr) as (k' & Hrun & Hp).
  exists k'. split; [done|]. apply (pr_klog _ _ _ _ Hp).
Defined.

Definition logged : kernel := Sample.k <| k_klog ::= ring_add (7, 8, 9) |>.

Lemma klog_getlogs_recent_witness :
  exists m', klog_getlogs (replicate 256 (mkEntry 0 0 0 0)) 100 5 logged [] =
      Ok 1 (getlogs_touch 0 logged <| k_mem := m' |>) [] /\ user_read m' Sample.D 104 = Some 7.
Proof.
  destruct (klog_getlogs_recent 0 0 logged [] [(7, 8, 9)] (replicate 256 (mkEntry 0 0 0 0)) 100 5
              Sample.tables Sample.free Sample.upages) as (m' & Hrun & Hrd).
  - by vm_compute.
  - by vm_compute.
  - reflexivity.
  - exact (ring_add_repr _ _ _ sample_repr).
  - reflexivity.
  - eapply uvm_inv_said; [|apply Sample.uvm|apply Sample.ready]. by split.
  - lia.
  - lia.
  - by vm_compute.
  - by apply sample_range; vm_compute.
  - exists m'. split; [exact Hrun|]. change (p_pgdir (k_ptable logged !!! 0%nat)) with Sample.D in Hrd.
    rewrite Hrd by (split; by vm_compute). reflexivity.
Defined.

Lemma klog_getlogs_negative_max_witness :
  exists off k', klog_getlogs (replicate 256 (mkEntry 0 0 0 0)) 0 (-1) Sample.k [] = Fault off k'.
Proof.
  apply (klog_getlogs_negative_max 0 0 Sample.k [] [] (replicate 256 (mkEntry 0 0 0 0)) 0 (-1)
           Sample.tables Sample.free Sample.upages).
  - apply Sample.cpu.
  - apply Sample.locks.
  - reflexivity.
  - apply sample_repr.
  - reflexivity.
  - apply Sample.uvm.
  - lia.
  - lia.
  - by vm_compute.
  - by apply sample_range.
Defined.
