(* ===== verification/ProcFacts.v ===== *)
(** Process memory: switching address spaces, and growproc on top of allocuvm
    and deallocuvm. *)
From S2P Require Import Prelude Kernel Mem Spinlock Locks Str Kalloc Console Vm VmFacts UvmFacts Sched SchedFacts.

Section procfacts.
Context `{Image} `{!ImageOk}.
Implicit Types (i p : nat) (k : kernel) (e : env).

(** ** switchuvm *)

Definition switched (i p : nat) (k : kernel) : kernel :=
  popped i (upd_cpu i (fun x => x <| c_esp0 := u32 (p_kstack (k_ptable k !!! p) + KSTACKSIZE) |>)
    (pushed i k) <| k_cr3 := V2P (p_pgdir (k_ptable k !!! p)) |>).

Lemma switchuvm_ok i p k e :
  cpu_at i k -> p_kstack (k_ptable k !!! p) <> 0 -> p_pgdir (k_ptable k !!! p) <> 0 ->
  switchuvm (Some p) k e = Ok tt (switched i p k) e.
Proof.
  intros Hc Hs Hd. pose proof Hc as (Hi & Hn & Hif). unfold switchuvm. step.
  rewrite (proj2 (Z.eqb_neq _ 0) Hs), (proj2 (Z.eqb_neq _ 0) Hd).
  run (pushcli_ok i). run (mycpu_ok i) by (first [done | by rewrite this_cpu_pushed]). step.
  unfold switched. apply (popcli_ok i).
  - change (this_cpu (upd_cpu i (fun x => x <| c_esp0 := u32 (p_kstack (k_ptable k !!! p) + KSTACKSIZE) |>)
              (pushed i k)) = Some i).
    by rewrite this_cpu_upd, this_cpu_pushed.
  - done.
  - pose proof (pushed_ready i k Hc) as (Hi' & _ & _). unfold upd_cpu at 1. fields.
    rewrite (alter_total _ _ _ _ (this_cpu_lookup i _ Hi')). fields. rewrite ncli_pushed by done. lia.
Qed.

(** The address space of process [p]: pages exactly below its size. *)
Record proc_space (p : nat) (k : kernel) (T : gmap Z Z) (l : list Z) (P : gmap Z Z) : Prop := {
  ps_uvm : uvm_inv k (p_pgdir (k_ptable k !!! p)) T l P;
  ps_size : 0 <= p_sz (k_ptable k !!! p) <= KERNBASE;
  ps_dom : forall v, is_Some (P !! v) <-> 0 <= v < npages (p_sz (k_ptable k !!! p))
}.

(** What the tail of growproc does: record the size, reload the page table. *)
Definition resized (i p : nat) (sz : Z) (k : kernel) : kernel :=
  switched i p (k <| k_ptable ::= alter (fun x => x <| p_sz := sz |>) p |>).

Lemma resized_ok i p sz k e x :
  cpu_at i k -> k_ptable k !! p = Some x -> p_kstack x <> 0 -> p_pgdir x <> 0 ->
  (upd_proc p (fun x => x <| p_sz := sz |>) ;; switchuvm (Some p) ;; ret 0) k e =
  Ok 0 (resized i p sz k) e.
Proof.
  intros Hc Hx Hs Hd. unfold upd_proc. step.
  erewrite bind_ok; [|apply (switchuvm_ok i); [done|..]]; [done|..]; fields;
    by rewrite (ptable_alter_state p _ k x Hx).
Qed.

Lemma curproc_ok i p k e :
  cpu_at i k -> c_proc (k_cpus k !!! i) = Some p -> curproc k e = Ok p (popped i (pushed i k)) e.
Proof.
  intros Hc Hp. unfold curproc. run (myproc_ok i). by rewrite Hp.
Qed.
(** The state after myproc, for the parts growproc uses. *)
Lemma myproc_state i k :
  cpu_at i k ->
  let k1 := popped i (pushed i k) in
  cpu_at i k1 /\ (kmem_ready i k -> kmem_ready i k1) /\ (cons_ready i k -> cons_ready i k1) /\
  (forall pgdir T l P, uvm_inv k pgdir T l P -> uvm_inv k1 pgdir T l P).
Proof.
  intros Hc k1. pose proof (myproc_ready i k Hc) as Hc1. fold k1 in Hc1. split_and!; [done|..].
  - intros Hr Hu. destruct (Hr Hu). by split.
  - intros [Hok Hl]. split; [done|]. intros Hb. destruct (Hl Hb). by split.
  - intros pgdir T l P [[H1 H2 H3] H4 H5 H6 H7 H8]. by split; [split|..].
Qed.

Lemma npages_mono a b : a <= b -> npages a <= npages b.
Proof. unfold npages, PGSIZE. dlia. Qed.

Lemma uvm_inv_switched i p k pgdir T l P :
  uvm_inv k pgdir T l P -> uvm_inv (switched i p k) pgdir T l P.
Proof. intros [[H1 H2 H3] H4 H5 H6 H7 H8]. by split; [split|..]. Qed.

Lemma uvm_inv_ptable k f pgdir T l P :
  uvm_inv k pgdir T l P -> uvm_inv (k <| k_ptable ::= f |>) pgdir T l P.
Proof. intros [[H1 H2 H3] H4 H5 H6 H7 H8]. by split; [split|..]. Qed.

Lemma proc_space_resized i p sz k T l P x :
  k_ptable k !! p = Some x -> 0 <= sz <= KERNBASE -> uvm_inv k (p_pgdir x) T l P ->
  (forall v, is_Some (P !! v) <-> 0 <= v < npages sz) ->
  proc_space p (resized i p sz k) T l P /\ p_sz (k_ptable (resized i p sz k) !!! p) = sz /\
  k_cr3 (resized i p sz k) = V2P (p_pgdir x).
Proof.
  intros Hx Hsz Hi Hd. unfold resized.
  assert (Ht : k_ptable (switched i p (k <| k_ptable ::= alter (fun x => x <| p_sz := sz |>) p |>)) !!! p
               = x <| p_sz := sz |>).
  { change (alter (fun x => x <| p_sz := sz |>) p (k_ptable k) !!! p = x <| p_sz := sz |>).
    by apply ptable_alter_state. }
  split_and!.
  - split; rewrite ?Ht; [|done|done]. by apply uvm_inv_switched, uvm_inv_ptable.
  - by rewrite Ht.
  - change (V2P (p_pgdir (alter (fun x => x <| p_sz := sz |>) p (k_ptable k) !!! p)) = V2P (p_pgdir x)).
    by rewrite (ptable_alter_state p _ k x Hx).
Qed.

(** growproc with a positive argument: the process has the new size and its
    pages, zeroed; or the call fails and the process is as it was. *)
Lemma growproc_grows i p k e T l P x n :
  cpu_at i k -> c_proc (k_cpus k !!! i) = Some p -> k_ptable k !! p = Some x ->
  p_kstack x <> 0 -> p_pgdir x <> 0 -> kmem_ready i k -> cons_ready i k ->
  proc_space p k T l P -> 0 < n -> p_sz x + n < KERNBASE ->
  exists r k', growproc n k e = Ok r k' e /\
    ((r = 0 /\ p_sz (k_ptable k' !!! p) = p_sz x + n /\ k_cr3 k' = V2P (p_pgdir x) /\
      exists T' l' P', proc_space p k' T' l' P' /\ P ⊆ P' /\
        forall v, npages (p_sz x) <= v < npages (p_sz x + n) ->
          exists u, P' !! v = Some u /\ zero_page k' u) \/
     (r = -1 /\ exists T' l', proc_space p k' T' l' P)).
Proof.
  intros Hc Hp Hx Hs Hd Hr Hcr [Hi Hsz Hdom] Hn Hlt.
  rewrite (list_lookup_total_correct _ _ _ Hx) in Hi, Hsz, Hdom.
  destruct (myproc_state i k Hc) as (Hc1 & Hr1 & Hcr1 & Hi1). set (k1 := popped i (pushed i k)) in *.
  assert (Hx1 : k_ptable k1 !! p = Some x) by done.
  unfold growproc. run (curproc_ok i p). unfold get_proc. step. fold k1.
  rewrite (list_lookup_total_correct _ _ _ Hx1), (proj2 (Z.ltb_lt 0 n) Hn).
  unfold KERNBASE in *. rewrite u32_small by lia.
  destruct (allocuvm_ok i (p_pgdir x) k1 e T l P (p_sz x) (p_sz x + n)) as (r & k2 & T' & l' & Hrun & Hres);
    auto; [lia|..].
  { intros v Hv. apply eq_None_not_Some. rewrite Hdom. lia. }
  rewrite (bind_ok _ _ _ _ _ _ _ Hrun). rewrite (proj2 (Z.eqb_neq n 0)) by lia. cbn [negb andb].
  destruct Hres as [[-> [P' Hg]]|[-> Hk]].
  - rewrite (proj2 (Z.eqb_neq (p_sz x + n) 0)) by lia.
    pose proof (ug_frame _ _ _ _ _ _ _ _ _ _ _ _ _ Hg) as Hfr.
    assert (Hx2 : k_ptable k2 !! p = Some x).
    { etrans; [exact (f_equal (fun k => k_ptable k !! p) (kf_rest _ _ _ Hfr))|done]. }
    rewrite (resized_ok i p _ _ _ x) by (try done; by apply Hfr).
    destruct (proc_space_resized i p (p_sz x + n) k2 T' l' P' x) as (Hps & Hps' & Hcr3); try done.
    { unfold KERNBASE. lia. } { apply Hg. }
    { intros v. pose proof (npages_mono (p_sz x) (p_sz x + n) ltac:(lia)).
      pose proof (ug_new _ _ _ _ _ _ _ _ _ _ _ _ _ Hg v) as Hnew.
      pose proof (ug_same _ _ _ _ _ _ _ _ _ _ _ _ _ Hg v) as Hsame.
      destruct (decide (npages (p_sz x) <= v < npages (p_sz x + n))) as [Hv|Hv].
      - destruct (Hnew Hv) as (u & Hu & _). split; [|eauto]. intros _.
        unfold npages, PGSIZE in *. dlia.
      - rewrite Hsame, Hdom by done. lia. }
    eexists _, _. split; [done|]. left. split_and!; [done|done|done|].
    exists T', l', P'. split_and!; [done| |].
    + apply (grown_sub _ _ _ _ _ _ _ _ _ _ _ _ _ Hg). intros v Hv. apply eq_None_not_Some. rewrite Hdom. lia.
    + intros v Hv. destruct (ug_new _ _ _ _ _ _ _ _ _ _ _ _ _ Hg v Hv) as (u & Hu & Hz & _).
      exists u. split; [done|exact Hz].
  - change (0 =? 0) with true. cbv iota. eexists _, _. split; [done|]. right. split; [done|].
    exists T', l'. assert (Hpt : k_ptable k2 !!! p = x).
    { rewrite (uk_ptable _ _ _ _ _ _ _ _ _ Hk). by apply list_lookup_total_correct. }
    split; rewrite ?Hpt; try done. apply Hk.
Qed.

(** growproc(-sz): deallocuvm's result 0 is taken for a failure.  The call
    returns -1 and leaves the size, but every page of the process is gone. *)
Lemma growproc_to_zero i p k e T l P x :
  cpu_at i k -> c_proc (k_cpus k !!! i) = Some p -> k_ptable k !! p = Some x ->
  kmem_ready i k -> proc_space p k T l P -> 0 < p_sz x < KERNBASE ->
  exists k' l', growproc (- p_sz x) k e = Ok (-1) k' e /\
    uvm_inv k' (p_pgdir x) T l' ∅ /\ p_sz (k_ptable k' !!! p) = p_sz x.
Proof.
  intros Hc Hp Hx Hr [Hi Hsz Hdom] Hn.
  rewrite (list_lookup_total_correct _ _ _ Hx) in Hi, Hsz, Hdom.
  destruct (myproc_state i k Hc) as (Hc1 & Hr1 & _ & Hi1). set (k1 := popped i (pushed i k)) in *.
  assert (Hx1 : k_ptable k1 !! p = Some x) by done.
  unfold growproc. run (curproc_ok i p). unfold get_proc. step. fold k1.
  rewrite (list_lookup_total_correct _ _ _ Hx1).
  rewrite (proj2 (Z.ltb_ge 0 (- p_sz x))), (proj2 (Z.ltb_lt (- p_sz x) 0)) by lia.
  replace (p_sz x + - p_sz x) with 0 by lia. change (u32 0) with 0.
  destruct (deallocuvm_ok i (p_pgdir x) (p_sz x) 0 k1 e T l P) as (k2 & fr & Hrun & Hf); auto; [lia..|].
  rewrite (bind_ok _ _ _ _ _ _ _ Hrun). rewrite (proj2 (Z.eqb_neq (- p_sz x) 0)) by lia.
  change (0 =? 0) with true. cbn [negb andb]. exists k2, (fr ++ l). split_and!; [done| |].
  - replace ∅ with (drop_range (npages 0) (npages (p_sz x)) P); [apply Hf|].
    apply map_eq. intros v. rewrite lookup_empty. apply map_lookup_filter_None. right. intros u Hu.
    simpl. intros Hno. apply Hno. change (npages 0) with 0. apply Hdom. eauto.
  - assert (Hpt : k_ptable k2 = k_ptable k1)
      by exact (f_equal k_ptable (kf_rest _ _ _ (uf_frame _ _ _ _ _ _ _ _ _ _ Hf))).
    rewrite Hpt. by rewrite (list_lookup_total_correct _ _ _ Hx1).
Qed.

(** ** wait *)

Lemma entered_kframe i l k0 k k' :
  cpu_at i k0 -> l <> L_kmem -> entered i l k0 k -> kframe i k k' -> entered i l k0 k'.
Proof.
  intros Hc Hl He [Hr _ _ Hif Hf Hn Hlk]. destruct (entered_ready i l k0 k Hc He) as (Hck & _ & Hp).
  destruct He as [E1 E2 E3 E4 E5 E6]. split.
  - by rewrite Hn.
  - by rewrite Hif.
  - rewrite <- E3. exact (f_equal k_ncpu Hr).
  - rewrite <- E4. exact (f_equal k_lapicid Hr).
  - unfold lock_held. by rewrite Hlk.
  - intros l' Hne Hl'. by apply Hf, E6.
Qed.

(** The slot after reap. *)
Definition reaped (x : proc) : proc :=
  x <| p_kstack := 0 |> <| p_pid := 0 |> <| p_parent := None |>
    <| p_name ::= fun s => zset s 0 0 |> <| p_killed := 0 |> <| p_state := UNUSED |>.

(** reap frees the zombie's stack and address space, and its slot. *)
Lemma reap_ok i z k e x T l P :
  cpu_at i k -> kmem_ready i k -> k_ptable k !! z = Some x ->
  uvm_inv k (p_pgdir x) T l P -> spare (p_pgdir x) T l P (p_kstack x) ->
  exists k' l', reap z k e = Ok (p_pid x) k' e /\ kmem_inv k' l' /\
    k_ptable k' = alter reaped z (k_ptable k) /\
    (forall a, a ∈ l' <-> a ∈ l \/ a = p_kstack x \/ pt_page (p_pgdir x) T a \/ exists v, P !! v = Some a) /\
    (forall l0 k0, cpu_at i k0 -> l0 <> L_kmem -> entered i l0 k0 k -> entered i l0 k0 k').
Proof.
  intros Hc Hr Hx Hi Hsp. unfold reap, get_proc. step. rewrite (list_lookup_total_correct _ _ _ Hx).
  destruct (uvm_inv_kfree i k e (p_pgdir x) T l P (p_kstack x) Hi Hr Hsp)
    as (k1 & Hrun1 & Hi1 & Hr1 & Hf1 & _ & _).
  rewrite (bind_ok _ _ _ _ _ _ _ Hrun1). unfold upd_proc. step.
  set (k2 := k1 <| k_ptable ::= alter (fun x => x <| p_kstack := 0 |>) z |>).
  destruct (freevm_ok i (p_pgdir x) k2 e T (p_kstack x :: l) P) as (k3 & l3 & Hrun3 & Hk3 & Hr3 & Hf3 & Hl3 & _).
  { by apply uvm_inv_ptable. } { done. }
  rewrite (bind_ok _ _ _ _ _ _ _ Hrun3). step.
  assert (Hp1 : k_ptable k1 = k_ptable k) by exact (f_equal k_ptable (kf_rest _ _ _ Hf1)).
  assert (Hp3 : k_ptable k3 = k_ptable k2) by exact (f_equal k_ptable (kf_rest _ _ _ Hf3)).
  eexists _, l3. split_and!; [reflexivity|exact Hk3| | |].
  - fields. rewrite Hp3. unfold k2. fields. rewrite Hp1. by rewrite list_alter_alter_eq.
  - intros a. rewrite Hl3, elem_of_cons. tauto.
  - intros l0 k0 Hc0 Hne He0. eapply entered_same; [|eapply entered_kframe; [exact Hc0|exact Hne| |exact Hf3]]; [done|].
    eapply entered_same; [|by eapply entered_kframe]. done.
Qed.

(** wait with a zombie child returns its pid at once and frees what it had. *)
Lemma wait_ok i p z k e x T l P :
  cpu_at i k -> c_proc (k_cpus k !!! i) = Some p -> lock_free L_ptable k -> kmem_ready i k ->
  findi (zombie_child p) (k_ptable k) = Some z -> k_ptable k !! z = Some x ->
  uvm_inv k (p_pgdir x) T l P -> spare (p_pgdir x) T l P (p_kstack x) ->
  exists k' l', wait k e = Ok (p_pid x) k' e /\ kmem_inv k' l' /\ lframe i k k' /\
    k_ptable k' = alter reaped z (k_ptable k) /\
    (forall a, a ∈ l' <-> a ∈ l \/ a = p_kstack x \/ pt_page (p_pgdir x) T a \/ exists v, P !! v = Some a).
Proof.
  intros Hc Hp Hf Hr Hz Hx Hi Hsp. unfold wait. run (curproc_ok i p).
  destruct (myproc_state i k Hc) as (Hc1 & Hr1 & _ & Hi1). set (k1 := popped i (pushed i k)) in *.
  pose proof (myproc_frame i k) as Hfr1. fold k1 in Hfr1.
  destruct (acquire_enter i L_ptable k1 e Hc1) as [Hacq He]; [by apply Hfr1|].
  rewrite (bind_ok _ _ _ _ _ _ _ Hacq). set (k2 := locked_by i L_ptable k1) in *.
  destruct (entered_ready i L_ptable k1 k2 Hc1 He) as (Hc2 & _ & _).
  destruct (reap_ok i z k2 e x T l P) as (k3 & l3 & Hrun & Hk3 & Hpt & Hl & Hen); try done.
  { intros Hu. destruct (Hr Hu) as [_ Hkf]. split; [done|]. by apply (en_free _ _ _ _ He). }
  { destruct Hi as [[H1 H2 H3] H4 H5 H6 H7 H8]. by split; [split|..]. }
  destruct (entered_leave i L_ptable k1 k3 e Hc1) as (Hrel & Hfr & _); [by apply Hen|].
  exists (unlocked_by i L_ptable k3), l3. split_and!; [|exact Hk3|by etrans|exact Hpt|exact Hl].
  apply wait_loop_now. step. change (k_ptable k2) with (k_ptable k). rewrite Hz.
  rewrite (bind_ok _ _ _ _ _ _ _ Hrun). by rewrite (bind_ok _ _ _ _ _ _ _ Hrel).
Qed.

End procfacts.
