(* ===== verification/ProcSpec.v ===== *)
(** What proc.c promises about sleeping, killing, creating, growing and reaping
    processes. *)
From S2P Require Import Prelude Kernel Mem Spinlock Locks Str Kalloc Console Vm VmFacts UvmFacts.
From S2P Require Import Sample Sched SchedFacts ProcFacts.

Section procspec.
Implicit Types (i j : nat) (k : kernel) (e : env).


(** C20: a process that is switched back to returns from sleep, on whichever
    CPU resumes it, off its channel, holding [lk] again and not ptable.lock. *)
Theorem sleep_returns i j p ch lk k e x f :
  holds_one i lk k -> lk <> L_ptable -> lock_free L_ptable k ->
  c_proc (k_cpus k !!! i) = Some p -> k_ptable k !! p = Some x ->
  let k2 := f (asleep i ch lk p k) in
  holds_one j L_ptable k2 -> lock_free lk k2 ->
  exists k', sleep ch lk k (f :: e) = Ok tt k' e /\ holds_one j lk k' /\ lock_free L_ptable k' /\
    k_ptable k' = alter (fun x => x <| p_chan := None |>) p (k_ptable k2).
Proof. apply sleep_ok. Qed.

(** Sched refuses to switch without ptable.lock, or with a second lock
    held. *)
Theorem sched_checks_locks i k e :
  cpu_at i k ->
  (~ lock_held i L_ptable k -> exists k', sched k e = Panic "sched ptable.lock" k') /\
  (lock_held i L_ptable k -> 1 < c_ncli (k_cpus k !!! i) -> sched k e = Panic "sched locks" k).
Proof.
  intros Hc. split.
  - by apply sched_panics_unlocked.
  - intros. by apply (sched_panics_locks i).
Qed.

(** C25: kill(0) does not fail: it finds the first unused slot, whose pid is 0,
    and marks it; the process later created in that slot is born killed. *)
Theorem kill_zero_marks_unused `{Image} `{!ImageOk} i j k e s l x :
  cpu_at i k -> lock_free L_ptable k -> kmem_ready i k -> kmem_inv k (s :: l) ->
  findi (fun p => p_pid p =? 0) (k_ptable k) = Some j ->
  findi (fun p => bool_decide (p_state p = UNUSED)) (k_ptable k) = Some j ->
  k_ptable k !! j = Some x -> p_state x = UNUSED ->
  exists k1 k2, kill 0 k e = Ok 0 k1 e /\ allocproc k1 e = Ok (Some j) k2 e /\
    p_killed (k_ptable k2 !!! j) = 1 /\ p_state (k_ptable k2 !!! j) = EMBRYO.
Proof.
  intros Hc Hf Hr Hk Hz Hu Hx Hs. pose proof (kill_ok i 0 k e Hc Hf) as Hkill. rewrite Hz in Hkill.
  set (k1 := touch i L_ptable k <| k_ptable ::= alter kill_slot j |>) in *.
  assert (Hks : kill_slot x = x <| p_killed := 1 |>).
  { unfold kill_slot. fields. by rewrite Hs, bool_decide_eq_false_2. }
  assert (Hx1 : k_ptable k1 !! j = Some (x <| p_killed := 1 |>)).
  { unfold k1. fields. change (k_ptable (touch i L_ptable k)) with (k_ptable k).
    by rewrite list_lookup_alter_eq, Hx, <- Hks. }
  destruct (allocproc_ok i j k1 e s l) as (k2 & Hal & Hpt & _ & _).
  - by apply (touch_ready i L_ptable) in Hc.
  - apply (touch_lock_free i L_ptable k).
  - intros Hul. destruct (Hr Hul) as [_ Hkm]. split; [by apply (touch_ready i L_ptable) in Hc|].
    by apply (touch_free i L_ptable) in Hkm.
  - done.
  - unfold k1. fields. change (k_ptable (touch i L_ptable k)) with (k_ptable k).
    apply findi_alter; [done|]. intros y Hy. unfold kill_slot. fields.
    destruct (bool_decide_reflect (p_state y = SLEEPING)) as [Hsl|]; [|done].
    rewrite Hx in Hy. injection Hy as <-. congruence.
  - exists k1, k2. rewrite Hpt. split_and!; [done|done|..];
      by rewrite (ptable_alter_state j _ k1 _ Hx1).
Qed.

(** Allocproc takes the first unused slot, gives it the next pid and a
    kernel stack on which the new process starts in forkret and returns to
    trapret. *)
Theorem allocproc_starts_in_forkret `{Image} `{!ImageOk} i j k e s l :
  cpu_at i k -> lock_free L_ptable k -> kmem_ready i k -> kmem_inv k (s :: l) ->
  findi (fun p => bool_decide (p_state p = UNUSED)) (k_ptable k) = Some j ->
  is_Some (k_ptable k !! j) -> 0 <= sym_forkret < 2 ^ 32 -> 0 <= sym_trapret < 2 ^ 32 ->
  exists k', allocproc k e = Ok (Some j) k' e /\
    let x := k_ptable k' !!! j in
    p_state x = EMBRYO /\ p_pid x = k_nextpid k /\ p_kstack x = s /\
    s <= p_context x /\ p_tf x + TF.size = s + KSTACKSIZE /\
    rd32 (k_mem k') (p_context x + Ctx.eip) = sym_forkret /\
    rd32 (k_mem k') (p_context x + Ctx.size) = sym_trapret /\
    (forall j', j' <> j -> k_ptable k' !! j' = k_ptable k !! j').
Proof.
  intros Hc Hf Hr Hk Hj [x Hx] Hfr Htr. destruct (allocproc_ok i j k e s l) as (k' & Hrun & Hpt & _ & Hm); try done.
  exists k'. split; [done|]. rewrite Hpt, (ptable_alter_state j _ k x Hx). rewrite Hm.
  unfold embryo, boot_stack, TF.size, Ctx.size, Ctx.eip, KSTACKSIZE. fields.
  split_and!; try done; [lia|lia|..].
  - rewrite rd32_wr32_eq. by apply u32_small.
  - rewrite rd32_wr32_ne by lia. rewrite rd32_memset_out by lia.
    replace (s + 4096 - 76 - 4 - 20 + 20) with (s + 4096 - 76 - 4) by lia.
    rewrite rd32_wr32_eq. by apply u32_small.
  - intros j' Hne. by rewrite list_lookup_alter_ne.
Qed.


(** C24: growproc(-sz) returns -1, the failure value, after freeing every page
    of the process: the recorded size is then wrong. *)
Theorem growproc_all_fails_after_freeing `{Image} `{!ImageOk} i p k e T l P x :
  cpu_at i k -> c_proc (k_cpus k !!! i) = Some p -> k_ptable k !! p = Some x ->
  kmem_ready i k -> proc_space p k T l P -> 0 < p_sz x < KERNBASE ->
  exists k' l', growproc (- p_sz x) k e = Ok (-1) k' e /\
    uvm_inv k' (p_pgdir x) T l' ∅ /\ p_sz (k_ptable k' !!! p) = p_sz x.
Proof. apply growproc_to_zero. Qed.

(** C17: wait with a zombie child returns the child's pid without sleeping; the
    child's slot is unused, and its kernel stack, page tables, directory and
    user pages are on the free list. *)
Theorem wait_reaps `{Image} `{!ImageOk} i p z k e x T l P :
  cpu_at i k -> c_proc (k_cpus k !!! i) = Some p -> lock_free L_ptable k -> kmem_ready i k ->
  findi (zombie_child p) (k_ptable k) = Some z -> k_ptable k !! z = Some x ->
  uvm_inv k (p_pgdir x) T l P -> spare (p_pgdir x) T l P (p_kstack x) ->
  exists k' l', wait k e = Ok (p_pid x) k' e /\ kmem_inv k' l' /\ lframe i k k' /\
    k_ptable k' = alter reaped z (k_ptable k) /\
    (forall a, a ∈ l' <-> a ∈ l \/ a = p_kstack x \/ pt_page (p_pgdir x) T a \/ exists v, P !! v = Some a).
Proof. apply wait_ok. Qed.
End procspec.

(** ** At the sample state *)

Module SampleProc.
Definition lk : lockid := L_pipe Sample.F3.
(** The process holds the pipe's lock. *)
Definition held : kernel := locked_by 0 lk Sample.k.

Lemma held_one : holds_one 0 lk held.
Proof.
  destruct (locked_by_ready 0 lk Sample.k Sample.cpu) as (Hc & Hh & _). by split.
Qed.
Lemma held_ptable : lock_free L_ptable held.
Proof. by vm_compute. Qed.

Lemma space : proc_space 0 Sample.k Sample.tables Sample.free Sample.upages.
Proof.
  split; [exact Sample.uvm|split; by vm_compute|]. intros v.
  change (npages (p_sz (k_ptable Sample.k !!! 0%nat))) with 2. split.
  - intros [u Hu]. unfold Sample.upages in Hu. apply lookup_insert_Some in Hu as [[<- _]|[_ Hu]]; [lia|].
    apply lookup_singleton_Some in Hu as [<- _]. lia.
  - intros Hv. assert (v = 0 \/ v = 1) as [-> | ->] by lia; by eexists.
Qed.

Definition unused : proc :=
  mkProc 0 0 0 UNUSED 0 None 0 0 None 0 (replicate 16 None) None (replicate 16 0).

(** A parent in slot 0 and, in slot 1, its dead child. *)
Definition zombie : proc :=
  mkProc 8192 Sample.D 0x80210000 ZOMBIE 5 (Some 0%nat) 0 0 None 0 (replicate 16 None) None (replicate 16 0).
Definition zk : kernel := Sample.k <| k_ptable ::= fun t => <[1%nat := zombie]> t |>.

Lemma zombie_spare : spare Sample.D Sample.tables Sample.free Sample.upages 0x80210000.
Proof.
  split_and!.
  - by vm_compute.
  - apply (bool_decide_unpack _). by vm_compute.
  - unfold Sample.tables. intros [?|[j [_ Hj]%lookup_singleton_Some]]; [done|]. by vm_compute in Hj.
  - intros v Hu. unfold Sample.upages in Hu. apply lookup_insert_Some in Hu as [[_ Hu]|[_ Hu]]; [done|].
    by apply lookup_singleton_Some in Hu as [_ Hu].
Qed.
End SampleProc.


Lemma sleep_returns_witness :
  exists k', sleep (Ch_nread Sample.F3) SampleProc.lk SampleProc.held [fun k => k] = Ok tt k' [] /\
    holds_one 0 SampleProc.lk k'.
Proof.
  destruct (asleep_holds 0 (Ch_nread Sample.F3) SampleProc.lk 0 SampleProc.held
              SampleProc.held_one ltac:(done) SampleProc.held_ptable) as (Ho & Hf & _).
  destruct (sleep_returns 0 0 0 (Ch_nread Sample.F3) SampleProc.lk SampleProc.held [] Sample.process
              (fun k => k) SampleProc.held_one ltac:(done) SampleProc.held_ptable eq_refl eq_refl Ho Hf)
    as (k' & Hrun & Ho' & _).
  exists k'. exact (conj Hrun Ho').
Defined.

Lemma sched_checks_locks_witness : exists k', sched Sample.k [] = Panic "sched ptable.lock" k'.
Proof.
  apply (proj1 (sched_checks_locks 0 Sample.k [] Sample.cpu)). intros [Hl _]. by apply Hl.
Defined.

Lemma kill_zero_marks_unused_witness :
  exists k1 k2, kill 0 Sample.k [] = Ok 0 k1 [] /\ allocproc k1 [] = Ok (Some 1%nat) k2 [] /\
    p_killed (k_ptable k2 !!! 1%nat) = 1.
Proof.
  destruct (kill_zero_marks_unused 0 1 Sample.k [] Sample.F1 [Sample.F2; Sample.F3]
              SampleProc.unused Sample.cpu (Sample.locks _) Sample.ready Sample.free_list
              eq_refl eq_refl eq_refl eq_refl) as (k1 & k2 & H1 & H2 & H3 & _).
  exists k1, k2. exact (conj H1 (conj H2 H3)).
Defined.

Lemma allocproc_starts_in_forkret_witness :
  exists k', allocproc Sample.k [] = Ok (Some 1%nat) k' [] /\ p_state (k_ptable k' !!! 1%nat) = EMBRYO.
Proof.
  destruct (allocproc_starts_in_forkret 0 1 Sample.k [] Sample.F1 [Sample.F2; Sample.F3]
              Sample.cpu (Sample.locks _) Sample.ready Sample.free_list eq_refl)
    as (k' & Hrun & Hs & _); [by eexists|split; by vm_compute|split; by vm_compute|].
  exists k'. exact (conj Hrun Hs).
Defined.


Lemma growproc_all_fails_after_freeing_witness :
  exists k' l', growproc (-8192) Sample.k [] = Ok (-1) k' [] /\ uvm_inv k' Sample.D Sample.tables l' ∅.
Proof.
  destruct (growproc_all_fails_after_freeing 0 0 Sample.k [] Sample.tables Sample.free Sample.upages
              Sample.process Sample.cpu eq_refl eq_refl Sample.ready SampleProc.space
              ltac:(split; by vm_compute)) as (k' & l' & Hrun & Hi & _).
  exists k', l'. exact (conj Hrun Hi).
Defined.

Lemma wait_reaps_witness :
  exists k' l', wait SampleProc.zk [] = Ok 5 k' [] /\ kmem_inv k' l'.
Proof.
  destruct (wait_reaps 0 0 1 SampleProc.zk [] SampleProc.zombie Sample.tables Sample.free Sample.upages)
    as (k' & l' & Hrun & Hk & _).
  - by vm_compute.
  - reflexivity.
  - by vm_compute.
  - intros _. split; by vm_compute.
  - reflexivity.
  - reflexivity.
  - apply uvm_inv_ptable, Sample.uvm.
  - exact SampleProc.zombie_spare.
  - exists k', l'. exact (conj Hrun Hk).
Defined.
