(* ===== verification/Ide.v ===== *)
(** The two disk drivers, ide.c (a request queue served by interrupts) and
    memide.c (a memory disk), behind one interface: the Makefile links one of
    them.  [k_dwrites] records the order in which blocks reach the disk. *)
From S2P Require Import Prelude Kernel Mem Spinlock Console Vm Sched Sleeplock.

Definition get_buf (i : nat) : K buf := gets (fun k => k_bcache k !!! i).
Definition upd_buf (i : nat) (f : buf -> buf) : K unit :=
  modify (fun k => k <| k_bcache ::= alter f i |>).
Definition upd_ide (f : ide -> ide) : K unit := modify (fun k => k <| k_ide ::= f |>).

(** The disks: a sector that was never written reads as zeros. *)
Definition disk_sector (k : kernel) (d n : Z) : list Z :=
  default (replicate 512 0) (k_disk k !! (d, n)).
Definition disk_write (d n : Z) (data : list Z) (k : kernel) : kernel :=
  k <| k_disk ::= insert (d, n) data |> <| k_dwrites ::= fun w => w ++ [(d, n, data)] |>.

(** What the buffer cache asks of a driver. *)
Class DiskDriver := {
  ideinit : K unit;
  ideintr : K unit;
  iderw : nat -> K unit
}.

Module IdeDrv.

Definition IDE_BSY : Z := 0x80.
Definition IDE_DRDY : Z := 0x40.
Definition IDE_DF : Z := 0x20.
Definition IDE_ERR : Z := 0x01.
Definition SECTOR_SIZE : Z := 512.

(** The status register changes while the CPU polls it. *)
Definition idewait (checkerr : bool) : K Z :=
  r <- wait_loop (
    r <- gets (fun k => ide_status (k_ide k)) ;;
    if Z.land r (Z.lor IDE_BSY IDE_DRDY) =? IDE_DRDY then ret (Some r)
    else wait_env ;; ret None) ;;
  if checkerr && nz (Z.land r (Z.lor IDE_DF IDE_ERR)) then ret (-1) else ret 0.

(** [present]: what the probe of disk 1 answers. *)
Definition init (present : bool) : K unit :=
  initlock L_ide "ide" ;;
  idewait false ;;
  when present (upd_ide (fun d => d <| havedisk1 := true |>)).

(** Programming the controller: for a write the sector's data goes out with
    the command; for a read the data comes with the interrupt. *)
Definition idestart (b : option nat) : K unit :=
  match b with
  | None => panic "idestart"
  | Some i =>
      b <- get_buf i ;;
      if FSSIZE <=? b_blockno b then panic "incorrect blockno"
      else
        let sector_per_block := BSIZE / SECTOR_SIZE in
        let sector := b_blockno b * sector_per_block in
        if 7 <? sector_per_block then panic "idestart"
        else
          idewait false ;;
          when (bit_set (b_flags b) B_DIRTY)
            (modify (disk_write (Z.land (b_dev b) 1) sector (b_data b)))
  end.

Definition intr : K unit :=
  acquire L_ide ;;
  q <- gets (fun k => idequeue (k_ide k)) ;;
  match q with
  | None => release L_ide
  | Some i =>
      b <- get_buf i ;;
      upd_ide (fun d => d <| idequeue := b_qnext b |>) ;;
      (* Read data if needed. *)
      when (negb (bit_set (b_flags b) B_DIRTY))
        (r <- idewait true ;;
         when (0 <=? r)
           (s <- gets (fun k => disk_sector k (Z.land (b_dev b) 1) (b_blockno b)) ;;
            upd_buf i (fun x => x <| b_data := s |>))) ;;
      (* Wake process waiting for this buf. *)
      upd_buf i (fun x => x <| b_flags ::= fun f => Z.lor f B_VALID |>) ;;
      upd_buf i (fun x => x <| b_flags ::= fun f => Z.land f (Z.lnot B_DIRTY) |>) ;;
      wakeup (Ch_buf i) ;;
      (* Start disk on next buf in queue. *)
      q <- gets (fun k => idequeue (k_ide k)) ;;
      match q with
      | Some _ => idestart q
      | None => ret tt
      end ;;
      release L_ide
  end.

(** The last element of the queue that starts at buffer [i]. *)
Fixpoint queue_last (n : nat) (bs : list buf) (i : nat) : nat :=
  match n with
  | O => i
  | S n' => match b_qnext (bs !!! i) with Some j => queue_last n' bs j | None => i end
  end.

Definition rw (i : nat) : K unit :=
  h <- holdingsleep (S_buf i) ;;
  if negb h then panic "iderw: buf not locked"
  else
    b <- get_buf i ;;
    if Z.land (b_flags b) (Z.lor B_VALID B_DIRTY) =? B_VALID then panic "iderw: nothing to do"
    else
      d1 <- gets (fun k => havedisk1 (k_ide k)) ;;
      if negb (b_dev b =? 0) && negb d1 then panic "iderw: ide disk 1 not present"
      else
        acquire L_ide ;;
        (* Append b to idequeue. *)
        upd_buf i (fun x => x <| b_qnext := None |>) ;;
        q <- gets (fun k => idequeue (k_ide k)) ;;
        match q with
        | None => upd_ide (fun d => d <| idequeue := Some i |>)
        | Some h =>
            bs <- gets k_bcache ;;
            upd_buf (queue_last (Z.to_nat NBUF) bs h) (fun x => x <| b_qnext := Some i |>)
        end ;;
        (* Start disk if necessary. *)
        q <- gets (fun k => idequeue (k_ide k)) ;;
        when (bool_decide (q = Some i)) (idestart (Some i)) ;;
        (* Wait for request to finish. *)
        wait_loop (
          b <- get_buf i ;;
          if Z.land (b_flags b) (Z.lor B_VALID B_DIRTY) =? B_VALID then ret (Some tt)
          else sleep (Ch_buf i) L_ide ;; ret None) ;;
        release L_ide.

End IdeDrv.

Module MemideDrv.

(** [size]: the size in bytes of the image linked into the kernel. *)
Definition init (size : Z) : K unit := upd_ide (fun d => d <| disksize := size / BSIZE |>).

Definition intr : K unit := ret tt.

Definition rw (i : nat) : K unit :=
  h <- holdingsleep (S_buf i) ;;
  if negb h then panic "iderw: buf not locked"
  else
    b <- get_buf i ;;
    if Z.land (b_flags b) (Z.lor B_VALID B_DIRTY) =? B_VALID then panic "iderw: nothing to do"
    else if negb (b_dev b =? 1) then panic "iderw: request not for disk 1"
    else
      size <- gets (fun k => disksize (k_ide k)) ;;
      if size <=? b_blockno b then panic "iderw: block out of range"
      else
        (if bit_set (b_flags b) B_DIRTY then
           upd_buf i (fun x => x <| b_flags ::= fun f => Z.land f (Z.lnot B_DIRTY) |>) ;;
           modify (disk_write 1 (b_blockno b) (b_data b))
         else
           s <- gets (fun k => disk_sector k 1 (b_blockno b)) ;;
           upd_buf i (fun x => x <| b_data := s |>)) ;;
        upd_buf i (fun x => x <| b_flags ::= fun f => Z.lor f B_VALID |>).

End MemideDrv.

Definition ide_driver (present : bool) : DiskDriver := {|
  ideinit := IdeDrv.init present; ideintr := IdeDrv.intr; iderw := IdeDrv.rw |}.
Definition memide_driver (size : Z) : DiskDriver := {|
  ideinit := MemideDrv.init size; ideintr := MemideDrv.intr; iderw := MemideDrv.rw |}.
