(* ===== verification/Bio.v ===== *)
(** bio.c: the buffer cache, a doubly linked LRU list of buffers. *)
From S2P Require Import Prelude Kernel Mem Spinlock Console Vm Sched Sleeplock Ide.

(** &bcache.head, the element after the buffers. *)
Definition HEAD : nat := Z.to_nat NBUF.

(** for(b = start; b != &bcache.head; b = link(b)) if(p(b)) return b; *)
Fixpoint lru_find (n : nat) (link : buf -> nat) (p : buf -> bool) (bs : list buf) (b : nat)
    : option nat :=
  match n with
  | O => None
  | S n' =>
      if bool_decide (b = HEAD) then None
      else if p (bs !!! b) then Some b
      else lru_find n' link p bs (link (bs !!! b))
  end.

(** Insert [b] after the head of the list. *)
Definition lru_push (b : nat) (bs : list buf) : list buf :=
  let bs := alter (fun x => x <| b_next := b_next (bs !!! HEAD) |>) b bs in
  let bs := alter (fun x => x <| b_prev := HEAD |>) b bs in
  let bs := alter (fun x => x <| b_prev := b |>) (b_next (bs !!! HEAD)) bs in
  alter (fun x => x <| b_next := b |>) HEAD bs.
Definition lru_unlink (b : nat) (bs : list buf) : list buf :=
  let bs := alter (fun x => x <| b_prev := b_prev (bs !!! b) |>) (b_next (bs !!! b)) bs in
  alter (fun x => x <| b_next := b_next (bs !!! b) |>) (b_prev (bs !!! b)) bs.

Definition binit : K unit :=
  initlock L_bcache "bcache" ;;
  (* Create linked list of buffers *)
  upd_buf HEAD (fun x => x <| b_prev := HEAD |>) ;;
  upd_buf HEAD (fun x => x <| b_next := HEAD |>) ;;
  for_ (Z.to_nat NBUF) 0 (fun b =>
    initsleeplock (S_buf (Z.to_nat b)) "buffer" ;;
    modify (fun k => k <| k_bcache ::= lru_push (Z.to_nat b) |>)).

Section bio.
Context `{DiskDriver}.

Definition bget (dev blockno : Z) : K nat :=
  acquire L_bcache ;;
  bs <- gets k_bcache ;;
  (* Is the block already cached? *)
  match lru_find (S HEAD) b_next (fun b => (b_dev b =? dev) && (b_blockno b =? blockno))
          bs (b_next (bs !!! HEAD)) with
  | Some b =>
      upd_buf b (fun x => x <| b_refcnt ::= fun n => u32 (n + 1) |>) ;;
      release L_bcache ;;
      acquiresleep (S_buf b) ;;
      ret b
  | None =>
      (* Not cached; recycle an unused buffer. *)
      match lru_find (S HEAD) b_prev
              (fun b => (b_refcnt b =? 0) && negb (bit_set (b_flags b) B_DIRTY))
              bs (b_prev (bs !!! HEAD)) with
      | Some b =>
          upd_buf b (fun x => x <| b_dev := dev |> <| b_blockno := blockno |>
                                <| b_flags := 0 |> <| b_refcnt := 1 |>) ;;
          release L_bcache ;;
          acquiresleep (S_buf b) ;;
          ret b
      | None => panic "bget: no buffers"
      end
  end.

Definition bread (dev blockno : Z) : K nat :=
  i <- bget dev blockno ;;
  b <- get_buf i ;;
  when (negb (bit_set (b_flags b) B_VALID)) (iderw i) ;;
  ret i.

Definition bwrite (i : nat) : K unit :=
  h <- holdingsleep (S_buf i) ;;
  if negb h then panic "bwrite"
  else
    upd_buf i (fun x => x <| b_flags ::= fun f => Z.lor f B_DIRTY |>) ;;
    iderw i.

Definition brelse (i : nat) : K unit :=
  h <- holdingsleep (S_buf i) ;;
  if negb h then panic "brelse"
  else
    releasesleep (S_buf i) ;;
    acquire L_bcache ;;
    upd_buf i (fun x => x <| b_refcnt ::= fun n => u32 (n - 1) |>) ;;
    b <- get_buf i ;;
    when (b_refcnt b =? 0)
      (* no one is waiting for it. *)
      (modify (fun k => k <| k_bcache ::= fun bs => lru_push i (lru_unlink i bs) |>)) ;;
    release L_bcache.

End bio.
