(* ===== verification/Log.v ===== *)
(** log.c: the write-ahead log. *)
From S2P Require Import Prelude Kernel Mem Spinlock Console Vm Sched Sleeplock Ide Bio.

Definition get_log {A} (f : log -> A) : K A := gets (fun k => f (k_log k)).
Definition upd_log (f : log -> log) : K unit := modify (fun k => k <| k_log ::= f |>).

(** log.lh.block[i] = v; outside the array is outside the object. *)
Definition set_lh_block (i v : Z) : K unit :=
  if (i <? 0) || (LOGSIZE <=? i) then fault i
  else upd_log (fun l => l <| lh_block ::= fun b => zset b i v |>).

(** Offsets of struct logheader's fields in the header block. *)
Definition lh_off (i : Z) : nat := Z.to_nat (4 + 4 * i).

Section log.
Context `{DiskDriver}.

(** readsb of fs.c. *)
Definition readsb (dev : Z) : K superblock :=
  bp <- bread dev 1 ;;
  b <- get_buf bp ;;
  let d := b_data b in
  brelse bp ;;
  ret (mkSb (get32 d 0) (get32 d 4) (get32 d 8) (get32 d 12) (get32 d 16) (get32 d 20) (get32 d 24)).

(** Copy committed blocks from log to their home location *)
Definition install_block (tail : Z) : K unit :=
  lg <- get_log id ;;
  lbuf <- bread (l_dev lg) (u32 (l_start lg + tail + 1)) ;;
  dbuf <- bread (l_dev lg) (zget (lh_block lg) tail) ;;
  lb <- get_buf lbuf ;;
  upd_buf dbuf (fun x => x <| b_data := b_data lb |>) ;;
  bwrite dbuf ;;
  brelse lbuf ;;
  brelse dbuf.
Definition install_trans : K unit :=
  n <- get_log lh_n ;;
  for_ (Z.to_nat n) 0 install_block.

(** Read the log header from disk into the in-memory log header *)
Definition read_head : K unit :=
  lg <- get_log id ;;
  i <- bread (l_dev lg) (l_start lg) ;;
  b <- get_buf i ;;
  let n := i32 (get32 (b_data b) 0) in
  upd_log (fun l => l <| lh_n := n |>) ;;
  for_ (Z.to_nat n) 0 (fun j => set_lh_block j (get32 (b_data b) (lh_off j))) ;;
  brelse i.

(** Write in-memory log header to disk. *)
Definition write_head : K unit :=
  lg <- get_log id ;;
  i <- bread (l_dev lg) (l_start lg) ;;
  upd_buf i (fun x => x <| b_data ::= fun d => put32 d 0 (lh_n lg) |>) ;;
  for_ (Z.to_nat (lh_n lg)) 0 (fun j =>
    upd_buf i (fun x => x <| b_data ::= fun d => put32 d (lh_off j) (zget (lh_block lg) j) |>)) ;;
  bwrite i ;;
  brelse i.

Definition recover_from_log : K unit :=
  read_head ;;
  install_trans ;; (* if committed, copy from log to disk *)
  upd_log (fun l => l <| lh_n := 0 |>) ;;
  write_head. (* clear the log *)

(** sizeof(struct logheader) *)
Definition sizeof_logheader : Z := 4 + 4 * LOGSIZE.

Definition initlog (dev : Z) : K unit :=
  if BSIZE <=? sizeof_logheader then panic "initlog: too big logheader"
  else
    initlock L_log "log" ;;
    sb <- readsb dev ;;
    upd_log (fun l => l <| l_start := sb_logstart sb |> <| l_size := sb_nlog sb |>
                        <| l_dev := dev |>) ;;
    recover_from_log.

(** called at the start of each FS system call. *)
Definition begin_op : K unit :=
  acquire L_log ;;
  wait_loop (
    lg <- get_log id ;;
    if nz (l_committing lg) then sleep Ch_log L_log ;; ret None
    else if LOGSIZE <? lh_n lg + (l_outstanding lg + 1) * MAXOPBLOCKS then
      (* this op might exhaust log space; wait for commit. *)
      sleep Ch_log L_log ;; ret None
    else
      upd_log (fun l => l <| l_outstanding ::= fun n => n + 1 |>) ;;
      release L_log ;;
      ret (Some tt)).

(** Copy modified blocks from cache to log. *)
Definition log_block (tail : Z) : K unit :=
  lg <- get_log id ;;
  to <- bread (l_dev lg) (u32 (l_start lg + tail + 1)) ;;
  from <- bread (l_dev lg) (zget (lh_block lg) tail) ;;
  fb <- get_buf from ;;
  upd_buf to (fun x => x <| b_data := b_data fb |>) ;;
  bwrite to ;;
  brelse from ;;
  brelse to.
Definition write_log : K unit :=
  n <- get_log lh_n ;;
  for_ (Z.to_nat n) 0 log_block.

Definition commit : K unit :=
  n <- get_log lh_n ;;
  when (0 <? n)
    (write_log ;;     (* Write modified blocks from cache to log *)
     write_head ;;    (* Write header to disk -- the real commit *)
     install_trans ;; (* Now install writes to home locations *)
     upd_log (fun l => l <| lh_n := 0 |>) ;;
     write_head).     (* Erase the transaction from the log *)

(** called at the end of each FS system call. *)
Definition end_op : K unit :=
  acquire L_log ;;
  upd_log (fun l => l <| l_outstanding ::= fun n => n - 1 |>) ;;
  lg <- get_log id ;;
  if nz (l_committing lg) then panic "log.committing"
  else
    do_commit <- (if l_outstanding lg =? 0 then
                    upd_log (fun l => l <| l_committing := 1 |>) ;;
                    ret true
                  else
                    wakeup Ch_log ;;
                    ret false) ;;
    release L_log ;;
    when do_commit
      (commit ;;
       acquire L_log ;;
       upd_log (fun l => l <| l_committing := 0 |>) ;;
       wakeup Ch_log ;;
       release L_log).

(** Where log_write records the block: its slot if it is in the log already
    (absorption), else the next free one. *)
Definition log_slot (lg : log) (blockno : Z) : Z :=
  match findi (Z.eqb blockno) (take (Z.to_nat (lh_n lg)) (lh_block lg)) with
  | Some i => Z.of_nat i
  | None => lh_n lg
  end.

Definition log_write (i : nat) : K unit :=
  lg <- get_log id ;;
  if (LOGSIZE <=? lh_n lg) || (l_size lg - 1 <=? lh_n lg) then panic "too big a transaction"
  else if l_outstanding lg <? 1 then panic "log_write outside of trans"
  else
    acquire L_log ;;
    b <- get_buf i ;;
    lg <- get_log id ;;
    let j := log_slot lg (b_blockno b) in
    set_lh_block j (b_blockno b) ;;
    when (j =? lh_n lg) (upd_log (fun l => l <| lh_n ::= fun n => n + 1 |>)) ;;
    upd_buf i (fun x => x <| b_flags ::= fun f => Z.lor f B_DIRTY |>) ;;
    release L_log.

End log.
