(* ===== verification/Fs.v ===== *)
(** fs.c: blocks, inodes, directories and path names.  Files of type T_DEV are
    served by the functions in devsw[], an interface ([Devices]) here. *)
From S2P Require Import Prelude Kernel Mem Fsformat Spinlock Str Console Vm Sched Sleeplock Ide Bio Log.

Definition get_inode (i : nat) : K inode := gets (fun k => k_icache k !!! i).
Definition upd_inode (i : nat) (f : inode -> inode) : K unit :=
  modify (fun k => k <| k_icache ::= alter f i |>).

Section fs.
Context `{DiskDriver}.

(** * Blocks *)

Definition bzero (dev bno : Z) : K unit :=
  bp <- bread dev bno ;;
  upd_buf bp (fun b => b <| b_data := replicate (Z.to_nat BSIZE) 0 |>) ;;
  log_write bp ;;
  brelse bp.

(** The inner loop of balloc: the first clear bit of the bitmap block from
    [bi] on, below BPB and the size of the file system. *)
Fixpoint free_bit (n : nat) (bi b size : Z) (data : list Z) : option Z :=
  match n with
  | O => None
  | S n' =>
      if (bi <? BPB) && (u32 (b + bi) <? size) then
        if Z.land (zget data (bi / 8)) (Z.shiftl 1 (bi mod 8)) =? 0 then Some bi
        else free_bit n' (bi + 1) b size data
      else None
  end.

Fixpoint balloc_loop (n : nat) (dev b : Z) (sb : superblock) : K Z :=
  match n with
  | O => diverge
  | S n' =>
      if negb (b <? sb_size sb) then panic "balloc: out of blocks"
      else
        bp <- bread dev (BBLOCK b sb) ;;
        d <- get_buf bp ;;
        match free_bit (Z.to_nat BPB) 0 b (sb_size sb) (b_data d) with
        | Some bi =>
            upd_buf bp (fun x => x <| b_data ::= fun d =>
              zset d (bi / 8) (Z.lor (zget d (bi / 8)) (Z.shiftl 1 (bi mod 8))) |>) ;;
            log_write bp ;;
            brelse bp ;;
            bzero dev (b + bi) ;;
            ret (b + bi)
        | None =>
            brelse bp ;;
            balloc_loop n' dev (b + BPB) sb
        end
  end.
Definition balloc (dev : Z) : K Z :=
  sb <- gets k_sb ;;
  balloc_loop (S (Z.to_nat (sb_size sb / BPB + 1))) dev 0 sb.

Definition bfree (dev b : Z) : K unit :=
  sb <- gets k_sb ;;
  bp <- bread dev (BBLOCK b sb) ;;
  d <- get_buf bp ;;
  let bi := b mod BPB in
  let m := Z.shiftl 1 (bi mod 8) in
  if Z.land (zget (b_data d) (bi / 8)) m =? 0 then panic "freeing free block"
  else
    upd_buf bp (fun x => x <| b_data ::= fun d =>
      zset d (bi / 8) (Z.land (zget d (bi / 8)) (Z.lnot m)) |>) ;;
    log_write bp ;;
    brelse bp.

(** * Inodes *)

Definition iinit (dev : Z) : K unit :=
  initlock L_icache "icache" ;;
  for_ (Z.to_nat NINODE) 0 (fun i => initsleeplock (S_inode (Z.to_nat i)) "inode") ;;
  sb <- readsb dev ;;
  modify (fun k => k <| k_sb := sb |>) ;;
  cprintf "sb: size %d nblocks %d ninodes %d nlog %d logstart %d inodestart %d bmap start %d\n"
    [AInt (sb_size sb); AInt (sb_nblocks sb); AInt (sb_ninodes sb); AInt (sb_nlog sb);
     AInt (sb_logstart sb); AInt (sb_inodestart sb); AInt (sb_bmapstart sb)].

(** The entry of (dev, inum) in use, else the first free entry. *)
Definition cached (dev inum : Z) (ip : inode) : bool :=
  (0 <? i_ref ip) && (i_dev ip =? dev) && (i_inum ip =? inum).

Definition iget (dev inum : Z) : K nat :=
  acquire L_icache ;;
  t <- gets k_icache ;;
  match findi (cached dev inum) t with
  | Some i =>
      upd_inode i (fun ip => ip <| i_ref ::= fun n => i32 (n + 1) |>) ;;
      release L_icache ;;
      ret i
  | None =>
      (* Recycle an inode cache entry. *)
      match findi (fun ip => i_ref ip =? 0) t with
      | None => panic "iget: no inodes"
      | Some i =>
          upd_inode i (fun ip => ip <| i_dev := dev |> <| i_inum := inum |> <| i_ref := 1 |>
                                    <| i_valid := 0 |>) ;;
          release L_icache ;;
          ret i
      end
  end.

Fixpoint ialloc_loop (n : nat) (dev type inum : Z) (sb : superblock) : K nat :=
  match n with
  | O => panic "ialloc: no inodes"
  | S n' =>
      bp <- bread dev (IBLOCK inum sb) ;;
      d <- get_buf bp ;;
      if di_type (get_dinode (b_data d) (dinode_off inum)) =? 0 then (* a free inode *)
        upd_buf bp (fun x => x <| b_data ::= fun d =>
          put_bytes d (dinode_off inum)
            (dinode_bytes (mkDinode type 0 0 0 0 (replicate 13 0))) |>) ;;
        log_write bp ;; (* mark it allocated on the disk *)
        brelse bp ;;
        iget dev inum
      else
        brelse bp ;;
        ialloc_loop n' dev type (inum + 1) sb
  end.
Definition ialloc (dev type : Z) : K nat :=
  sb <- gets k_sb ;;
  ialloc_loop (Z.to_nat (sb_ninodes sb - 1)) dev type 1 sb.

Definition iupdate (i : nat) : K unit :=
  sb <- gets k_sb ;;
  ip <- get_inode i ;;
  bp <- bread (i_dev ip) (IBLOCK (i_inum ip) sb) ;;
  ip <- get_inode i ;;
  upd_buf bp (fun x => x <| b_data ::= fun d =>
    put_bytes d (dinode_off (i_inum ip))
      (dinode_bytes (mkDinode (i_type ip) (i_major ip) (i_minor ip) (i_nlink ip) (i_size ip)
                       (i_addrs ip))) |>) ;;
  log_write bp ;;
  brelse bp.

Definition idup (i : nat) : K nat :=
  acquire L_icache ;;
  upd_inode i (fun ip => ip <| i_ref ::= fun n => i32 (n + 1) |>) ;;
  release L_icache ;;
  ret i.

Definition ilock (ip : option nat) : K unit :=
  match ip with
  | None => panic "ilock"
  | Some i =>
      ip <- get_inode i ;;
      if i_ref ip <? 1 then panic "ilock"
      else
        acquiresleep (S_inode i) ;;
        ip <- get_inode i ;;
        if i_valid ip =? 0 then
          sb <- gets k_sb ;;
          bp <- bread (i_dev ip) (IBLOCK (i_inum ip) sb) ;;
          d <- get_buf bp ;;
          let di := get_dinode (b_data d) (dinode_off (i_inum ip)) in
          upd_inode i (fun ip => ip <| i_type := di_type di |> <| i_major := di_major di |>
                                    <| i_minor := di_minor di |> <| i_nlink := di_nlink di |>
                                    <| i_size := di_size di |> <| i_addrs := di_addrs di |>) ;;
          brelse bp ;;
          upd_inode i (fun ip => ip <| i_valid := 1 |>) ;;
          if di_type di =? 0 then panic "ilock: no type" else ret tt
        else ret tt
  end.

Definition iunlock (ip : option nat) : K unit :=
  match ip with
  | None => panic "iunlock"
  | Some i =>
      h <- holdingsleep (S_inode i) ;;
      ip <- get_inode i ;;
      if negb h || (i_ref ip <? 1) then panic "iunlock"
      else releasesleep (S_inode i)
  end.

(** * Inode content *)

(** Truncate inode (discard contents). *)
Definition itrunc (i : nat) : K unit :=
  for_ (Z.to_nat NDIRECT) 0 (fun j =>
    ip <- get_inode i ;;
    when (nz (zget (i_addrs ip) j))
      (bfree (i_dev ip) (zget (i_addrs ip) j) ;;
       upd_inode i (fun ip => ip <| i_addrs ::= fun a => zset a j 0 |>))) ;;
  ip <- get_inode i ;;
  when (nz (zget (i_addrs ip) NDIRECT))
    (bp <- bread (i_dev ip) (zget (i_addrs ip) NDIRECT) ;;
     for_ (Z.to_nat NINDIRECT) 0 (fun j =>
       d <- get_buf bp ;;
       let a := get32 (b_data d) (Z.to_nat (4 * j)) in
       when (nz a) (bfree (i_dev ip) a)) ;;
     brelse bp ;;
     bfree (i_dev ip) (zget (i_addrs ip) NDIRECT) ;;
     upd_inode i (fun ip => ip <| i_addrs ::= fun a => zset a NDIRECT 0 |>)) ;;
  upd_inode i (fun ip => ip <| i_size := 0 |>) ;;
  iupdate i.

(** Drop a reference to an in-memory inode. *)
Definition iput (i : nat) : K unit :=
  acquiresleep (S_inode i) ;;
  ip <- get_inode i ;;
  when (nz (i_valid ip) && (i_nlink ip =? 0))
    (acquire L_icache ;;
     ip <- get_inode i ;;
     let r := i_ref ip in
     release L_icache ;;
     when (r =? 1)
       (* inode has no links and no other references: truncate and free. *)
       (itrunc i ;;
        upd_inode i (fun ip => ip <| i_type := 0 |>) ;;
        iupdate i ;;
        upd_inode i (fun ip => ip <| i_valid := 0 |>))) ;;
  releasesleep (S_inode i) ;;
  acquire L_icache ;;
  upd_inode i (fun ip => ip <| i_ref ::= fun n => i32 (n - 1) |>) ;;
  release L_icache.

Definition iunlockput (i : nat) : K unit := iunlock (Some i) ;; iput i.

(** Return the disk block address of the nth block in inode ip; if there is no
    such block, allocate one. *)
Definition bmap (i : nat) (bn : Z) : K Z :=
  ip <- get_inode i ;;
  if bn <? NDIRECT then
    let addr := zget (i_addrs ip) bn in
    if addr =? 0 then
      addr <- balloc (i_dev ip) ;;
      upd_inode i (fun ip => ip <| i_addrs ::= fun a => zset a bn addr |>) ;;
      ret addr
    else ret addr
  else
    let bn := bn - NDIRECT in
    if bn <? NINDIRECT then
      (* Load indirect block, allocating if necessary. *)
      addr <- (let addr := zget (i_addrs ip) NDIRECT in
               if addr =? 0 then
                 addr <- balloc (i_dev ip) ;;
                 upd_inode i (fun ip => ip <| i_addrs ::= fun a => zset a NDIRECT addr |>) ;;
                 ret addr
               else ret addr) ;;
      bp <- bread (i_dev ip) addr ;;
      d <- get_buf bp ;;
      let addr := get32 (b_data d) (Z.to_nat (4 * bn)) in
      addr <- (if addr =? 0 then
                 addr <- balloc (i_dev ip) ;;
                 upd_buf bp (fun x => x <| b_data ::= fun d => put32 d (Z.to_nat (4 * bn)) addr |>) ;;
                 log_write bp ;;
                 ret addr
               else ret addr) ;;
      brelse bp ;;
      ret addr
    else panic "bmap: out of range".

Definition stati (i : nat) : K stat :=
  ip <- get_inode i ;;
  ret (mkStat (i_type ip) (i_dev ip) (i_inum ip) (i_nlink ip) (i_size ip)).
End fs.

(** The device functions behind devsw[].  Reading gives the return value and
    the bytes stored at the destination. *)
Class Devices := {
  dev_read : devfn -> nat -> Z -> K (Z * list Z);
  dev_write : devfn -> nat -> list Z -> Z -> K Z
}.

Section files.
Context `{DiskDriver} `{Devices}.

(** for(tot=0; tot<n; tot+=m, off+=m, dst+=m): every round moves at least one
    byte.  [out] are the bytes copied so far. *)
Fixpoint readi_loop (fuel i : nat) (tot off n : Z) (out : list Z) : K (list Z) :=
  match fuel with
  | O => diverge
  | S fuel' =>
      if negb (tot <? n) then ret out
      else
        ip <- get_inode i ;;
        bn <- bmap i (off / BSIZE) ;;
        bp <- bread (i_dev ip) bn ;;
        let m := Z.min (n - tot) (BSIZE - off mod BSIZE) in
        d <- get_buf bp ;;
        brelse bp ;;
        readi_loop fuel' i (tot + m) (u32 (off + m)) n
          (out ++ take (Z.to_nat m) (drop (Z.to_nat (off mod BSIZE)) (b_data d)))
  end.

Definition readi (i : nat) (off n : Z) : K (Z * list Z) :=
  ip <- get_inode i ;;
  if i_type ip =? T_DEV then
    if (i_major ip <? 0) || (NDEV <=? i_major ip) then ret (-1, [])
    else
      dv <- gets (fun k => zget (k_devsw k) (i_major ip)) ;;
      match dv_read dv with
      | None => ret (-1, [])
      | Some f => dev_read f i n
      end
  else if (i_size ip <? off) || (u32 (off + n) <? off) then ret (-1, [])
  else
    let n := if i_size ip <? u32 (off + n) then i_size ip - off else n in
    out <- readi_loop (S (Z.to_nat n)) i 0 off n [] ;;
    ret (n, out).

(** [src]: the bytes still to be written; the final offset is returned. *)
Fixpoint writei_loop (fuel i : nat) (tot off n : Z) (src : list Z) : K Z :=
  match fuel with
  | O => diverge
  | S fuel' =>
      if negb (tot <? n) then ret off
      else
        ip <- get_inode i ;;
        bn <- bmap i (off / BSIZE) ;;
        bp <- bread (i_dev ip) bn ;;
        let m := Z.min (n - tot) (BSIZE - off mod BSIZE) in
        upd_buf bp (fun x => x <| b_data ::= fun d =>
          put_bytes d (Z.to_nat (off mod BSIZE)) (take (Z.to_nat m) src) |>) ;;
        log_write bp ;;
        brelse bp ;;
        writei_loop fuel' i (tot + m) (u32 (off + m)) n (drop (Z.to_nat m) src)
  end.

Definition writei (i : nat) (src : list Z) (off n : Z) : K Z :=
  ip <- get_inode i ;;
  if i_type ip =? T_DEV then
    if (i_major ip <? 0) || (NDEV <=? i_major ip) then ret (-1)
    else
      dv <- gets (fun k => zget (k_devsw k) (i_major ip)) ;;
      match dv_write dv with
      | None => ret (-1)
      | Some f => dev_write f i src n
      end
  else if (i_size ip <? off) || (u32 (off + n) <? off) then ret (-1)
  else if MAXFILE * BSIZE <? u32 (off + n) then ret (-1)
  else
    off <- writei_loop (S (Z.to_nat n)) i 0 off n src ;;
    ip <- get_inode i ;;
    when ((0 <? n) && (i_size ip <? off))
      (upd_inode i (fun ip => ip <| i_size := off |>) ;;
       iupdate i) ;;
    ret n.

(** * Directories *)

Definition namecmp (s t : list Z) : Z := strncmp s t (Z.to_nat DIRSIZ).

Fixpoint dirlookup_loop (fuel dp : nat) (name : list Z) (off : Z) : K (option (nat * Z)) :=
  match fuel with
  | O => diverge
  | S fuel' =>
      ip <- get_inode dp ;;
      if negb (off <? i_size ip) then ret None
      else
        '(r, de) <- readi dp off sizeof_dirent ;;
        if negb (r =? sizeof_dirent) then panic "dirlookup read"
        else if de_inum de =? 0 then dirlookup_loop fuel' dp name (off + sizeof_dirent)
        else if namecmp name (de_name de) =? 0 then
          (* entry matches path element *)
          i <- iget (i_dev ip) (de_inum de) ;;
          ret (Some (i, off))
        else dirlookup_loop fuel' dp name (off + sizeof_dirent)
  end.

(** The inode of the entry, and its offset in the directory. *)
Definition dirlookup (dp : nat) (name : list Z) : K (option (nat * Z)) :=
  ip <- get_inode dp ;;
  if negb (i_type ip =? T_DIR) then panic "dirlookup not DIR"
  else dirlookup_loop (S (Z.to_nat (i_size ip / sizeof_dirent + 1))) dp name 0.

(** The offset of the first empty entry, or the end of the directory. *)
Fixpoint empty_dirent (fuel dp : nat) (off : Z) : K Z :=
  match fuel with
  | O => diverge
  | S fuel' =>
      ip <- get_inode dp ;;
      if negb (off <? i_size ip) then ret off
      else
        '(r, de) <- readi dp off sizeof_dirent ;;
        if negb (r =? sizeof_dirent) then panic "dirlink read"
        else if de_inum de =? 0 then ret off
        else empty_dirent fuel' dp (off + sizeof_dirent)
  end.

Definition dirlink (dp : nat) (name : list Z) (inum : Z) : K Z :=
  (* Check that name is not present. *)
  o <- dirlookup dp name ;;
  match o with
  | Some (ip, _) => iput ip ;; ret (-1)
  | None =>
      (* Look for an empty dirent. *)
      ip <- get_inode dp ;;
      off <- empty_dirent (S (Z.to_nat (i_size ip / sizeof_dirent + 1))) dp 0 ;;
      let de := dirent_bytes inum (strncpy (replicate (Z.to_nat DIRSIZ) 0) name DIRSIZ) in
      r <- writei dp de off sizeof_dirent ;;
      if negb (r =? sizeof_dirent) then panic "dirlink" else ret 0
  end.

(** * Paths *)

Definition SLASH : Z := 47.

(** Skip leading slashes. *)
Fixpoint skip_slashes (path : list Z) : list Z :=
  match path with
  | c :: path' => if c =? SLASH then skip_slashes path' else path
  | [] => []
  end.
(** The characters up to the next slash or the end, and what follows. *)
Fixpoint take_elem (path : list Z) : list Z * list Z :=
  match path with
  | c :: path' =>
      if c =? SLASH then ([], path)
      else let '(e, rest) := take_elem path' in (c :: e, rest)
  | [] => ([], [])
  end.

(** Copy the next path element from path into name[DIRSIZ]; None is the null
    pointer.  A path is the list of its characters, without the NUL. *)
Definition skipelem (path name : list Z) : option (list Z * list Z) :=
  match skip_slashes path with
  | [] => None
  | s =>
      let '(elem, path) := take_elem s in
      let len := zlen elem in
      let name :=
        if DIRSIZ <=? len then put_bytes name 0 (take (Z.to_nat DIRSIZ) elem)
        else zset (put_bytes name 0 elem) len 0 in
      Some (skip_slashes path, name)
  end.

(** The loop consumes an element of the path in every round. *)
Fixpoint namex_loop (fuel : nat) (path : list Z) (parent : bool) (name : list Z) (i : nat)
    : K (option nat * list Z) :=
  match fuel with
  | O => diverge
  | S fuel' =>
      match skipelem path name with
      | None =>
          if parent then iput i ;; ret (None, name) else ret (Some i, name)
      | Some (path, name) =>
          ilock (Some i) ;;
          ip <- get_inode i ;;
          if negb (i_type ip =? T_DIR) then iunlockput i ;; ret (None, name)
          else if parent && bool_decide (path = []) then
            (* Stop one level early. *)
            iunlock (Some i) ;;
            ret (Some i, name)
          else
            o <- dirlookup i name ;;
            match o with
            | None => iunlockput i ;; ret (None, name)
            | Some (next, _) =>
                iunlockput i ;;
                namex_loop fuel' path parent name next
            end
      end
  end.

Definition namex (path : list Z) (parent : bool) (name : list Z) : K (option nat * list Z) :=
  i <- (if bool_decide (head path = Some SLASH) then iget ROOTDEV ROOTINO
        else
          p <- curproc ;;
          pr <- get_proc p ;;
          match p_cwd pr with Some c => idup c | None => fault 0 end) ;;
  namex_loop (S (length path)) path parent name i.

Definition namei (path : list Z) : K (option nat) :=
  '(ip, _) <- namex path false (replicate (Z.to_nat DIRSIZ) 0) ;;
  ret ip.

Definition nameiparent (path : list Z) : K (option nat * list Z) :=
  namex path true (replicate (Z.to_nat DIRSIZ) 0).

End files.
