(* ===== verification/File.v ===== *)
(** file.c and pipe.c: the table of open files, and pipes.  A pipe lives in a
    page of its own; [k_pipes] maps the page's address to the struct.  The
    functions that move data take the caller's bytes as a list, or return the
    bytes stored at the destination. *)
From S2P Require Import Prelude Kernel Mem Spinlock Str Kalloc Console Vm Sched Sleeplock.
From S2P Require Import Ide Bio Log Fsformat Fs.

Definition get_file (i : nat) : K file := gets (fun k => k_ftable k !!! i).
Definition upd_file (i : nat) (f : file -> file) : K unit :=
  modify (fun k => k <| k_ftable ::= alter f i |>).

Definition pipe_of (k : kernel) (p : Z) : pipe := default inhabitant (k_pipes k !! p).
Definition get_pipe (p : Z) : K pipe := gets (fun k => pipe_of k p).
Definition upd_pipe (p : Z) (f : pipe -> pipe) : K unit :=
  modify (fun k => k <| k_pipes ::= fun t => <[p := f (default inhabitant (t !! p))]> t |>).

(** myproc()->killed *)
Definition killed : K bool :=
  p <- curproc ;;
  pr <- get_proc p ;;
  ret (nz (p_killed pr)).

(** * Reference counts *)

Definition fileinit : K unit := initlock L_ftable "ftable".

Definition filealloc : K (option nat) :=
  acquire L_ftable ;;
  o <- gets (fun k => findi (fun f => f_ref f =? 0) (k_ftable k)) ;;
  match o with
  | Some i =>
      upd_file i (fun f => f <| f_ref := 1 |>) ;;
      release L_ftable ;;
      ret (Some i)
  | None => release L_ftable ;; ret None
  end.

Definition filedup (i : nat) : K nat :=
  acquire L_ftable ;;
  f <- get_file i ;;
  if f_ref f <? 1 then panic "filedup"
  else
    upd_file i (fun f => f <| f_ref ::= fun n => i32 (n + 1) |>) ;;
    release L_ftable ;;
    ret i.

(** * Pipes *)

(** The two ring operations: p->data[p->nwrite++ % PIPESIZE] = c, and
    c = p->data[p->nread++ % PIPESIZE]. *)
Definition pipe_put (c : Z) (pi : pipe) : pipe :=
  pi <| pi_data ::= fun d => zset d (pi_nwrite pi mod PIPESIZE) c |>
     <| pi_nwrite ::= fun n => u32 (n + 1) |>.
Definition pipe_take (pi : pipe) : Z * pipe :=
  (zget (pi_data pi) (pi_nread pi mod PIPESIZE), pi <| pi_nread ::= fun n => u32 (n + 1) |>).

(** for(i = 0; i < n; i++){ if(p->nread == p->nwrite) break; ... } *)
Fixpoint pipe_drain (n : nat) (pi : pipe) (out : list Z) : list Z * pipe :=
  match n with
  | O => (out, pi)
  | S n' =>
      if pi_nread pi =? pi_nwrite pi then (out, pi)
      else let '(c, pi) := pipe_take pi in pipe_drain n' pi (out ++ [c])
  end.

(** The while loop of pipewrite: None when there is room, Some (-1) when the
    writer gives up (the lock is then released). *)
Definition pipe_room (p : Z) : K (option Z) :=
  wait_loop (
    pi <- get_pipe p ;;
    if pi_nwrite pi =? u32 (pi_nread pi + PIPESIZE) then
      stop <- (if pi_readopen pi =? 0 then ret true else killed) ;;
      if (stop : bool) then release (L_pipe p) ;; ret (Some (Some (-1)))
      else
        wakeup (Ch_nread p) ;;
        sleep (Ch_nwrite p) (L_pipe p) ;;
        ret None
    else ret (Some None)).

Definition pipewrite (p : Z) (addr : list Z) (n : Z) : K Z :=
  acquire (L_pipe p) ;;
  o <- for_until (Z.to_nat n) 0 (fun i =>
    r <- pipe_room p ;;
    match r with
    | Some v => ret (Some v)
    | None => upd_pipe p (pipe_put (zget addr i)) ;; ret None
    end) ;;
  match o with
  | Some v => ret v
  | None =>
      wakeup (Ch_nread p) ;;
      release (L_pipe p) ;;
      ret n
  end.

Definition piperead (p n : Z) : K (Z * list Z) :=
  acquire (L_pipe p) ;;
  ok <- wait_loop (
    pi <- get_pipe p ;;
    if (pi_nread pi =? pi_nwrite pi) && nz (pi_writeopen pi) then
      stop <- killed ;;
      if (stop : bool) then release (L_pipe p) ;; ret (Some false)
      else sleep (Ch_nread p) (L_pipe p) ;; ret None
    else ret (Some true)) ;;
  if negb ok then ret (-1, [])
  else
    pi <- get_pipe p ;;
    let '(out, pi) := pipe_drain (Z.to_nat n) pi [] in
    upd_pipe p (fun _ => pi) ;;
    wakeup (Ch_nwrite p) ;;
    release (L_pipe p) ;;
    ret (zlen out, out).

Section file.
Context `{Image} `{DiskDriver} `{Devices}.

Definition pipeclose (p : Z) (writable : bool) : K unit :=
  acquire (L_pipe p) ;;
  (if writable then
     upd_pipe p (fun pi => pi <| pi_writeopen := 0 |>) ;;
     wakeup (Ch_nread p)
   else
     upd_pipe p (fun pi => pi <| pi_readopen := 0 |>) ;;
     wakeup (Ch_nwrite p)) ;;
  pi <- get_pipe p ;;
  if (pi_readopen pi =? 0) && (pi_writeopen pi =? 0) then
    release (L_pipe p) ;;
    kfree p
  else release (L_pipe p).

(** * file.c *)

Definition fileclose (i : nat) : K unit :=
  acquire L_ftable ;;
  f <- get_file i ;;
  if f_ref f <? 1 then panic "fileclose"
  else
    upd_file i (fun f => f <| f_ref ::= fun n => i32 (n - 1) |>) ;;
    ff <- get_file i ;;
    if 0 <? f_ref ff then release L_ftable
    else
      upd_file i (fun f => f <| f_ref := 0 |> <| f_type := FD_NONE |>) ;;
      release L_ftable ;;
      match f_type ff with
      | FD_PIPE => pipeclose (f_pipe ff) (nz (f_writable ff))
      | FD_INODE => begin_op ;; iput (f_ip ff) ;; end_op
      | FD_NONE => ret tt
      end.

(** sizeof(struct spinlock): where data[] starts in struct pipe. *)
Definition pipe_data_off : Z := 52.

Definition pipealloc : K (option (nat * nat)) :=
  f0 <- filealloc ;;
  f1 <- (match f0 with None => ret None | Some _ => filealloc end) ;;
  p <- (match f0, f1 with Some _, Some _ => kalloc | _, _ => ret 0 end) ;;
  match f0, f1 with
  | Some i0, Some i1 =>
      if p =? 0 then fileclose i0 ;; fileclose i1 ;; ret None
      else
        modify (fun k => k <| k_pipes ::= insert p
          (mkPipe (load (k_mem k) (p + pipe_data_off) (Z.to_nat PIPESIZE)) 0 0 1 1) |>) ;;
        initlock (L_pipe p) "pipe" ;;
        upd_file i0 (fun f => f <| f_type := FD_PIPE |> <| f_readable := 1 |>
                                <| f_writable := 0 |> <| f_pipe := p |>) ;;
        upd_file i1 (fun f => f <| f_type := FD_PIPE |> <| f_readable := 0 |>
                                <| f_writable := 1 |> <| f_pipe := p |>) ;;
        ret (Some (i0, i1))
  | Some i0, None => fileclose i0 ;; ret None
  | None, _ => ret None
  end.

Definition filestat (i : nat) : K (option stat) :=
  f <- get_file i ;;
  match f_type f with
  | FD_INODE =>
      ilock (Some (f_ip f)) ;;
      st <- stati (f_ip f) ;;
      iunlock (Some (f_ip f)) ;;
      ret (Some st)
  | _ => ret None
  end.

Definition fileread (i : nat) (n : Z) : K (Z * list Z) :=
  f <- get_file i ;;
  if f_readable f =? 0 then ret (-1, [])
  else
    match f_type f with
    | FD_PIPE => piperead (f_pipe f) n
    | FD_INODE =>
        ilock (Some (f_ip f)) ;;
        f <- get_file i ;;
        '(r, out) <- readi (f_ip f) (f_off f) (u32 n) ;;
        when (0 <? i32 r) (upd_file i (fun f => f <| f_off ::= fun o => u32 (o + r) |>)) ;;
        iunlock (Some (f_ip f)) ;;
        ret (i32 r, out)
    | FD_NONE => panic "fileread"
    end.

(** A few blocks at a time, to keep each transaction within the log. *)
Definition write_max : Z := (MAXOPBLOCKS - 1 - 1 - 2) / 2 * 512.

Fixpoint filewrite_loop (fuel i : nat) (addr : list Z) (j n : Z) : K Z :=
  match fuel with
  | O => diverge
  | S fuel' =>
      if negb (j <? n) then ret j
      else
        let n1 := Z.min (n - j) write_max in
        f <- get_file i ;;
        begin_op ;;
        ilock (Some (f_ip f)) ;;
        f <- get_file i ;;
        r <- writei (f_ip f) (drop (Z.to_nat j) addr) (f_off f) n1 ;;
        let r := i32 r in
        when (0 <? r) (upd_file i (fun f => f <| f_off ::= fun o => u32 (o + r) |>)) ;;
        iunlock (Some (f_ip f)) ;;
        end_op ;;
        if r <? 0 then ret j
        else if negb (r =? n1) then panic "short filewrite"
        else filewrite_loop fuel' i addr (j + r) n
  end.

Definition filewrite (i : nat) (addr : list Z) (n : Z) : K Z :=
  f <- get_file i ;;
  if f_writable f =? 0 then ret (-1)
  else
    match f_type f with
    | FD_PIPE => pipewrite (f_pipe f) addr n
    | FD_INODE =>
        j <- filewrite_loop (S (Z.to_nat n)) i addr 0 n ;;
        ret (if j =? n then n else -1)
    | FD_NONE => panic "filewrite"
    end.

End file.
