(* ===== verification/PipeFacts.v ===== *)
(** Pipes are bounded FIFO queues: the ring of pipe.c represents a queue of at
    most PIPESIZE bytes, its counters wrapping at 2^32. *)
From S2P Require Import Prelude Kernel Mem Spinlock Locks Str Kalloc Console Vm Sched SchedFacts Sleeplock.
From S2P Require Import Ide Bio Log Fs File.

Record pipe_repr (pi : pipe) (q : list Z) : Prop := {
  pq_data : zlen (pi_data pi) = PIPESIZE;
  pq_nread : 0 <= pi_nread pi < 2 ^ 32;
  pq_nwrite : pi_nwrite pi = u32 (pi_nread pi + zlen q);
  pq_room : zlen q <= PIPESIZE;
  pq_get : forall j c, q !! j = Some c ->
    zget (pi_data pi) ((pi_nread pi + Z.of_nat j) mod PIPESIZE) = c
}.

Section pipefacts.
Implicit Types (pi : pipe) (q : list Z).

(** The counter wraps at a multiple of the ring's size. *)
Lemma u32_ring z : u32 z mod PIPESIZE = z mod PIPESIZE.
Proof.
  unfold u32, PIPESIZE. replace (2 ^ 32) with (512 * 2 ^ 23) by done.
  rewrite Z.rem_mul_r by lia. rewrite Z.mul_comm, Z_mod_plus_full. by rewrite Z.mod_mod.
Qed.

Lemma pipe_full pi q : pipe_repr pi q ->
  (pi_nwrite pi =? u32 (pi_nread pi + PIPESIZE)) = (zlen q =? PIPESIZE).
Proof.
  intros [_ Hr -> Hm _]. unfold u32, PIPESIZE in *. assert (0 <= zlen q) by (unfold zlen; lia).
  destruct (Z.eqb_spec (zlen q) 512) as [->|Hne]; [apply Z.eqb_refl|].
  apply Z.eqb_neq. intros Heq. apply Hne. dlia.
Qed.

Lemma pipe_empty pi q : pipe_repr pi q -> (pi_nread pi =? pi_nwrite pi) = (zlen q =? 0).
Proof.
  intros [_ Hr -> Hm _]. unfold u32, PIPESIZE in *. assert (0 <= zlen q) by (unfold zlen; lia).
  destruct (Z.eqb_spec (zlen q) 0) as [->|Hne].
  - apply Z.eqb_eq. rewrite Z.add_0_r. symmetry. by apply Z.mod_small.
  - apply Z.eqb_neq. intros Heq. apply Hne. dlia.
Qed.

Lemma pipe_put_repr pi q c : pipe_repr pi q -> zlen q < PIPESIZE -> pipe_repr (pipe_put c pi) (q ++ [c]).
Proof.
  intros [Hd Hr Hw Hm Hg] Hroom. unfold pipe_put.
  split; fields; unfold zlen in *; rewrite ?length_app; cbn [length].
  - by rewrite length_zset.
  - done.
  - rewrite Hw, u32_add_l. f_equal. lia.
  - lia.
  - intros j d Hj. rewrite Hw, u32_ring. unfold PIPESIZE in *.
    destruct (decide (j = length q)) as [->|Hne].
    + rewrite lookup_app_r, Nat.sub_diag in Hj by lia. simplify_eq/=.
      apply zget_zset_eq. unfold zlen. dlia.
    + assert (Hlt : (j < length q)%nat).
      { apply lookup_lt_Some in Hj. rewrite length_app in Hj. simpl in Hj. lia. }
      rewrite lookup_app_l in Hj by done. rewrite zget_zset_ne; [by apply Hg|dlia..].
Qed.

Lemma pipe_take_repr pi q c : pipe_repr pi (c :: q) ->
  exists pi', pipe_take pi = (c, pi') /\ pipe_repr pi' q /\
    pi_readopen pi' = pi_readopen pi /\ pi_writeopen pi' = pi_writeopen pi.
Proof.
  intros [Hd Hr Hw Hm Hg]. unfold pipe_take.
  rewrite <- (Hg 0%nat c) by done. rewrite Z.add_0_r. eexists. split; [done|]. split; [|done].
  unfold zlen in *. cbn [length] in *. split; fields.
  - done.
  - apply u32_range.
  - rewrite Hw, u32_add_l. f_equal. unfold zlen. lia.
  - unfold zlen. lia.
  - intros j d Hj. rewrite <- (Hg (S j) d) by done. f_equal.
    rewrite <- (Z.add_mod_idemp_l (u32 _)) by done. rewrite u32_ring, Z.add_mod_idemp_l by done.
    f_equal. lia.
Qed.

(** The read loop takes from the front, up to [n] bytes. *)
Lemma pipe_drain_repr n : forall pi q out, pipe_repr pi q ->
  exists pi', pipe_drain n pi out = (out ++ take n q, pi') /\ pipe_repr pi' (drop n q) /\
    pi_readopen pi' = pi_readopen pi /\ pi_writeopen pi' = pi_writeopen pi.
Proof.
  induction n as [|n IH]; intros pi q out Hq; cbn [pipe_drain].
  { exists pi. by rewrite take_0, drop_0, app_nil_r. }
  rewrite (pipe_empty pi q Hq). destruct q as [|c q].
  { exists pi. by rewrite app_nil_r. }
  rewrite (proj2 (Z.eqb_neq _ 0)) by (unfold zlen; simpl; lia).
  destruct (pipe_take_repr pi q c Hq) as (pi1 & -> & Hq1 & Hro & Hwo).
  destruct (IH pi1 q (out ++ [c]) Hq1) as (pi' & -> & Hq' & Hro' & Hwo').
  exists pi'. rewrite <- app_assoc. simpl. split_and!; [done..|congruence|congruence].
Qed.

(** ** Any interleaving of one-byte writes and reads *)

Inductive pipe_op := PWrite (c : Z) | PRead.

(** The ring under the lock: a writer waits when full, a reader when empty. *)
Definition pipe_exec (o : pipe_op) (st : pipe * list Z) : option (pipe * list Z) :=
  let '(pi, out) := st in
  match o with
  | PWrite c => if pi_nwrite pi =? u32 (pi_nread pi + PIPESIZE) then None else Some (pipe_put c pi, out)
  | PRead => if pi_nread pi =? pi_nwrite pi then None
             else let '(c, pi') := pipe_take pi in Some (pi', out ++ [c])
  end.
Fixpoint pipe_run (os : list pipe_op) (st : pipe * list Z) : option (pipe * list Z) :=
  match os with
  | [] => Some st
  | o :: os' => match pipe_exec o st with Some st' => pipe_run os' st' | None => None end
  end.
Definition written (os : list pipe_op) : list Z :=
  omap (fun o => match o with PWrite c => Some c | PRead => None end) os.

Lemma pipe_run_fifo os : forall pi q out pi' out',
  pipe_repr pi q -> pipe_run os (pi, out) = Some (pi', out') ->
  exists q', pipe_repr pi' q' /\ out' ++ q' = out ++ q ++ written os.
Proof.
  induction os as [|o os IH]; intros pi q out pi' out' Hq Hrun; cbn [pipe_run] in Hrun.
  { simplify_eq. exists q. by rewrite app_nil_r. }
  destruct o as [c|]; cbn [pipe_exec] in Hrun.
  - rewrite (pipe_full pi q Hq) in Hrun. destruct (Z.eqb_spec (zlen q) PIPESIZE); [done|].
    pose proof (pq_room _ _ Hq). apply (IH _ (q ++ [c])) in Hrun as (q' & Hq' & He).
    + exists q'. split; [done|]. rewrite He. by rewrite <- !app_assoc.
    + apply pipe_put_repr; [done|lia].
  - rewrite (pipe_empty pi q Hq) in Hrun. destruct q as [|c q]; [done|].
    rewrite (proj2 (Z.eqb_neq _ 0)) in Hrun by (unfold zlen; simpl; lia).
    destruct (pipe_take_repr pi q c Hq) as (pi1 & Heq & Hq1 & _). rewrite Heq in Hrun.
    apply (IH _ q) in Hrun as (q' & Hq' & He); [|done]. exists q'. split; [done|].
    rewrite He. by rewrite <- !app_assoc.
Qed.
(** ** The operations *)

Lemma pipe_of_upd p f k : pipe_of (k <| k_pipes ::= fun t => <[p := f (default inhabitant (t !! p))]> t |>) p
  = f (pipe_of k p).
Proof. unfold pipe_of. fields. by rewrite lookup_insert_eq. Qed.

(** A read that finds data, or a closed write end, returns what there is. *)
Lemma piperead_ok i p n k e q :
  cpu_at i k -> lock_free (L_pipe p) k -> lock_free L_ptable k ->
  pipe_repr (pipe_of k p) q -> q <> [] \/ pi_writeopen (pipe_of k p) = 0 -> 0 <= n ->
  exists k', piperead p n k e = Ok (Z.min n (zlen q), take (Z.to_nat n) q) k' e /\
    pipe_repr (pipe_of k' p) (drop (Z.to_nat n) q) /\
    k_ptable k' = wake (Some (Ch_nwrite p)) <$> k_ptable k /\ lframe i k k'.
Proof.
  intros Hc Hf Hpt Hq Hne Hn. unfold piperead.
  destruct (acquire_enter i (L_pipe p) k e Hc Hf) as [Hacq He].
  rewrite (bind_ok _ _ _ _ _ _ _ Hacq). set (k1 := locked_by i (L_pipe p) k) in *.
  assert (Hk1 : pipe_of k1 p = pipe_of k p) by done.
  erewrite bind_ok.
  2: { apply wait_loop_now. unfold get_pipe. step. rewrite Hk1, (pipe_empty _ q Hq).
       assert (Hgo : (zlen q =? 0) && nz (pi_writeopen (pipe_of k p)) = false).
       { destruct Hne as [Hne| ->]; [|apply andb_false_r]. destruct q; [done|].
         by rewrite (proj2 (Z.eqb_neq _ 0)) by (unfold zlen; simpl; lia). }
       rewrite Hgo. reflexivity. }
  cbn [negb]. unfold get_pipe, upd_pipe. step. rewrite Hk1.
  destruct (pipe_drain_repr (Z.to_nat n) (pipe_of k p) q [] Hq) as (pi' & -> & Hq' & _).
  step. set (k2 := k1 <| k_pipes ::= _ |>).
  assert (He2 : entered i (L_pipe p) k k2) by (eapply entered_same; [|done]; done).
  destruct (entered_wakeup i (L_pipe p) k k2 e (Ch_nwrite p) Hc ltac:(done) Hpt He2) as [Hw He3].
  rewrite (bind_ok _ _ _ _ _ _ _ Hw).
  destruct (entered_leave i (L_pipe p) k _ e Hc He3) as (Hrel & Hfr & _).
  rewrite (bind_ok _ _ _ _ _ _ _ Hrel). eexists. split_and!; [|..|exact Hfr].
  - unfold ret. f_equal. f_equal. unfold zlen. rewrite app_nil_l, length_take. lia.
  - change (pipe_repr (pipe_of k2 p) (drop (Z.to_nat n) q)).
    unfold k2, pipe_of. fields. by rewrite lookup_insert_eq.
  - done.
Qed.

(** The write loop while there is room. *)
Lemma pipe_fill i p k0 m : forall j (addr : list Z) k e q,
  entered i (L_pipe p) k0 k -> pipe_repr (pipe_of k p) q -> zlen q + Z.of_nat m <= PIPESIZE ->
  0 <= j -> j + Z.of_nat m <= zlen addr ->
  exists k', for_until m j (fun i =>
      r <- pipe_room p ;;
      match r with
      | Some v => ret (Some v)
      | None => upd_pipe p (pipe_put (zget addr i)) ;; ret None
      end) k e = Ok None k' e /\
    entered i (L_pipe p) k0 k' /\
    pipe_repr (pipe_of k' p) (q ++ take m (drop (Z.to_nat j) addr)) /\
    k_ptable k' = k_ptable k /\
    pi_readopen (pipe_of k' p) = pi_readopen (pipe_of k p).
Proof.
  induction m as [|m IH]; intros j addr k e q He Hq Hm Hj Ha.
  { exists k. cbn [for_until]. rewrite take_0, app_nil_r. done. }
  cbn [for_until]. assert (Hroom : pipe_room p k e = Ok None k e).
  { unfold pipe_room. apply wait_loop_now. unfold get_pipe. step. rewrite (pipe_full _ q Hq).
    rewrite (proj2 (Z.eqb_neq _ _)) by (unfold zlen in *; lia). done. }
  rewrite bind_assoc, (bind_ok _ _ _ _ _ _ _ Hroom). unfold upd_pipe. step.
  set (c := zget addr j).
  set (k1 := k <| k_pipes ::= fun t => <[p := pipe_put c (default inhabitant (t !! p))]> t |>).
  assert (Hk1 : pipe_of k1 p = pipe_put c (pipe_of k p)) by apply pipe_of_upd.
  destruct (IH (j + 1) addr k1 e (q ++ [c])) as (k' & Hrun & He' & Hq' & Hpt & Hro).
  - eapply entered_same, He. done.
  - rewrite Hk1. apply pipe_put_repr; [done|]. unfold zlen in *. lia.
  - unfold zlen in *. rewrite length_app. simpl. lia.
  - lia.
  - lia.
  - exists k'. split_and!; [exact Hrun|done| |by rewrite Hpt|by rewrite Hro, Hk1].
    assert (Hc : addr !! Z.to_nat j = Some c).
    { apply list_lookup_lookup_total_lt. unfold zlen in *. lia. }
    rewrite <- app_assoc in Hq'. simpl in Hq'.
    rewrite (drop_S addr c (Z.to_nat j) Hc). cbn [take].
    by replace (S (Z.to_nat j)) with (Z.to_nat (j + 1)) by lia.
Qed.

(** A write that fits is appended whole, and readers are woken. *)
Lemma pipewrite_ok i p n addr k e q :
  cpu_at i k -> lock_free (L_pipe p) k -> lock_free L_ptable k ->
  pipe_repr (pipe_of k p) q -> 0 <= n <= zlen addr -> zlen q + n <= PIPESIZE ->
  exists k', pipewrite p addr n k e = Ok n k' e /\
    pipe_repr (pipe_of k' p) (q ++ take (Z.to_nat n) addr) /\
    k_ptable k' = wake (Some (Ch_nread p)) <$> k_ptable k /\ lframe i k k'.
Proof.
  intros Hc Hf Hpt Hq Hn Hroom. unfold pipewrite.
  destruct (acquire_enter i (L_pipe p) k e Hc Hf) as [Hacq He].
  rewrite (bind_ok _ _ _ _ _ _ _ Hacq).
  destruct (pipe_fill i p k (Z.to_nat n) 0 addr _ e q He Hq) as (k2 & Hrun & He2 & Hq2 & Hpt2 & _); [lia..|].
  rewrite (bind_ok _ _ _ _ _ _ _ Hrun).
  destruct (entered_wakeup i (L_pipe p) k k2 e (Ch_nread p) Hc ltac:(done) Hpt He2) as [Hw He3].
  rewrite (bind_ok _ _ _ _ _ _ _ Hw).
  destruct (entered_leave i (L_pipe p) k _ e Hc He3) as (Hrel & Hfr & _).
  rewrite (bind_ok _ _ _ _ _ _ _ Hrel). eexists. split_and!; [done|exact Hq2| |exact Hfr].
  change (wake (Some (Ch_nread p)) <$> k_ptable k2 = wake (Some (Ch_nread p)) <$> k_ptable k).
  by rewrite Hpt2.
Qed.

(** With the read end closed, a write that does not fit fails with the pipe full. *)
Lemma pipewrite_broken i p n addr k e q :
  cpu_at i k -> lock_free (L_pipe p) k ->
  pipe_repr (pipe_of k p) q -> pi_readopen (pipe_of k p) = 0 ->
  n <= zlen addr -> PIPESIZE < zlen q + n ->
  exists k', pipewrite p addr n k e = Ok (-1) k' e /\
    pipe_repr (pipe_of k' p) (q ++ take (Z.to_nat (PIPESIZE - zlen q)) addr) /\ lframe i k k'.
Proof.
  intros Hc Hf Hq Hro Hn Hroom. unfold pipewrite. pose proof (pq_room _ _ Hq) as Hmax.
  destruct (acquire_enter i (L_pipe p) k e Hc Hf) as [Hacq He].
  rewrite (bind_ok _ _ _ _ _ _ _ Hacq). set (m := Z.to_nat (PIPESIZE - zlen q)).
  destruct (pipe_fill i p k m 0 addr _ e q He Hq) as (k2 & Hrun & He2 & Hq2 & _ & Hro2); [lia..|].
  destruct (entered_leave i (L_pipe p) k k2 e Hc He2) as (Hrel & Hfr & _).
  replace (Z.to_nat n) with (m + S (Z.to_nat n - m - 1))%nat by lia.
  erewrite bind_ext; [|apply for_until_add]. rewrite bind_assoc, (bind_ok _ _ _ _ _ _ _ Hrun).
  cbn [for_until].
  assert (Hstop : pipe_room p k2 e = Ok (Some (-1)) (unlocked_by i (L_pipe p) k2) e).
  { unfold pipe_room. apply wait_loop_now. unfold get_pipe. step. rewrite (pipe_full _ _ Hq2).
    assert (Hlen : zlen (q ++ take m (drop (Z.to_nat 0) addr)) = PIPESIZE).
    { unfold zlen in *. rewrite length_app, length_take, length_drop. lia. }
    rewrite Hlen, Z.eqb_refl, Hro2. change (pipe_of (locked_by i (L_pipe p) k) p) with (pipe_of k p).
    rewrite Hro. change (0 =? 0) with true. cbv iota. step. unfold bind. by rewrite Hrel. }
  rewrite !bind_assoc, (bind_ok _ _ _ _ _ _ _ Hstop). step.
  eexists. split_and!; [reflexivity|exact Hq2|exact Hfr].
Qed.

End pipefacts.
