(* ===== verification/PipeSpec.v ===== *)
(** What pipe.c promises: a bounded queue of bytes. *)
From S2P Require Import Prelude Kernel Mem Spinlock Locks Str Kalloc Console Vm VmFacts UvmFacts Sample.
From S2P Require Import Sched SchedFacts Sleeplock Ide Bio Log Fs File PipeFacts.

(** C16: whatever the interleaving of writes and reads under the pipe's lock,
    the bytes read followed by the bytes still queued are the bytes there were
    followed by the bytes written: none is lost, repeated or reordered, also
    when the 32-bit counters wrap. *)
Theorem pipe_is_fifo os pi q out pi' out' :
  pipe_repr pi q -> pipe_run os (pi, out) = Some (pi', out') ->
  exists q', pipe_repr pi' q' /\ out' ++ q' = out ++ q ++ written os.
Proof. apply pipe_run_fifo. Qed.

(** C21: piperead on a pipe that has data, or whose write end is closed,
    returns the oldest min(n, queued) bytes, leaves the rest queued, and wakes
    the writers. *)
Theorem piperead_takes_oldest i p n k e q :
  cpu_at i k -> lock_free (L_pipe p) k -> lock_free L_ptable k ->
  pipe_repr (pipe_of k p) q -> q <> [] \/ pi_writeopen (pipe_of k p) = 0 -> 0 <= n ->
  exists k', piperead p n k e = Ok (Z.min n (zlen q), take (Z.to_nat n) q) k' e /\
    pipe_repr (pipe_of k' p) (drop (Z.to_nat n) q) /\
    k_ptable k' = wake (Some (Ch_nwrite p)) <$> k_ptable k /\ lframe i k k'.
Proof. apply piperead_ok. Qed.

(** C22: pipewrite of at most the free space appends all of its bytes and wakes
    the readers; with the read end closed, a longer write fills the pipe and
    returns -1, its lock released. *)
Theorem pipewrite_appends i p n addr k e q :
  cpu_at i k -> lock_free (L_pipe p) k -> lock_free L_ptable k ->
  pipe_repr (pipe_of k p) q -> 0 <= n <= zlen addr ->
  (zlen q + n <= PIPESIZE ->
     exists k', pipewrite p addr n k e = Ok n k' e /\
       pipe_repr (pipe_of k' p) (q ++ take (Z.to_nat n) addr) /\
       k_ptable k' = wake (Some (Ch_nread p)) <$> k_ptable k /\ lframe i k k') /\
  (PIPESIZE < zlen q + n -> pi_readopen (pipe_of k p) = 0 ->
     exists k', pipewrite p addr n k e = Ok (-1) k' e /\
       pipe_repr (pipe_of k' p) (q ++ take (Z.to_nat (PIPESIZE - zlen q)) addr) /\ lframe i k k').
Proof.
  intros Hc Hf Hpt Hq Hn. split.
  - intros Hroom. by apply pipewrite_ok.
  - intros Hfull Hro. apply pipewrite_broken; (done || lia).
Qed.

(** ** At a pipe whose counters are about to wrap *)

Definition wrapping : pipe := mkPipe (replicate 512 0) (2 ^ 32 - 1) (2 ^ 32 - 1) 1 1.

Lemma wrapping_repr : pipe_repr wrapping [].
Proof. by split. Qed.

Lemma pipe_is_fifo_witness :
  exists pi', pipe_run [PWrite 7; PWrite 8; PRead; PWrite 9; PRead] (wrapping, []) = Some (pi', [7; 8]) /\
    exists q', pipe_repr pi' q' /\ [7; 8] ++ q' = [7; 8; 9].
Proof.
  eexists. split; [reflexivity|].
  exact (pipe_is_fifo [PWrite 7; PWrite 8; PRead; PWrite 9; PRead] wrapping [] [] _ [7; 8]
           wrapping_repr eq_refl).
Defined.

Definition piped : kernel := Sample.k <| k_pipes := {[Sample.F3 := pipe_put 5 wrapping]} |>.

Lemma piped_repr : pipe_repr (pipe_of piped Sample.F3) [5].
Proof. exact (pipe_put_repr wrapping [] 5 wrapping_repr eq_refl). Qed.

Lemma piperead_takes_oldest_witness :
  exists k', piperead Sample.F3 10 piped [] = Ok (1, [5]) k' [].
Proof.
  destruct (piperead_takes_oldest 0 Sample.F3 10 piped [] [5]) as (k' & Hrun & _).
  - by vm_compute.
  - by vm_compute.
  - by vm_compute.
  - exact piped_repr.
  - by left.
  - lia.
  - exists k'. exact Hrun.
Defined.

Lemma pipewrite_appends_witness :
  exists k', pipewrite Sample.F3 [1; 2; 3] 3 piped [] = Ok 3 k' [] /\
    pipe_repr (pipe_of k' Sample.F3) [5; 1; 2; 3].
Proof.
  destruct (pipewrite_appends 0 Sample.F3 3 [1; 2; 3] piped [] [5]) as [Hfit _].
  - by vm_compute.
  - by vm_compute.
  - by vm_compute.
  - exact piped_repr.
  - by vm_compute.
  - destruct (Hfit ltac:(by vm_compute)) as (k' & Hrun & Hq & _). exists k'. exact (conj Hrun Hq).
Defined.
