(* ===== verification/ConsoleIo.v ===== *)
(** Console input: consoleintr, consoleread, consolewrite, consoleinit of
    console.c, and the interrupt handlers of kbd.c and uart.c.  The console is
    the one device behind devsw[]. *)
From S2P Require Import Prelude Kernel Mem Spinlock Console Kbd Vm Sched Sleeplock.
From S2P Require Import Ide Bio Log Fs File.
From Stdlib Require Import Ascii.

Definition CONSOLE : Z := 1.

Definition get_cons {A} (f : console -> A) : K A := gets (fun k => f (k_console k)).
Definition upd_cons (f : console -> console) : K unit := modify (fun k => k <| k_console ::= f |>).

(** * Line editing *)

(** Kill line: while(input.e != input.w && input.buf[(input.e-1) % INPUT_BUF] != '\n'). *)
Fixpoint kill_line (n : nat) : K unit :=
  match n with
  | O => ret tt
  | S n' =>
      c <- get_cons id ;;
      if negb (in_e c =? in_w c) && negb (zget (in_buf c) (u32 (in_e c - 1) mod INPUT_BUF) =? 10)
      then
        upd_cons (fun c => c <| in_e ::= fun e => u32 (e - 1) |>) ;;
        consputc BACKSPACE ;;
        kill_line n'
      else ret tt
  end.

(** One character from the keyboard or the serial line; true asks for a
    process listing. *)
Definition console_char (ch : Z) : K bool :=
  c <- get_cons id ;;
  if ch =? C "P" then ret true
  else if ch =? C "U" then
    kill_line (Z.to_nat (u32 (in_e c - in_w c))) ;;
    ret false
  else if (ch =? C "H") || (ch =? 0x7f) then
    when (negb (in_e c =? in_w c))
      (upd_cons (fun c => c <| in_e ::= fun e => u32 (e - 1) |>) ;;
       consputc BACKSPACE) ;;
    ret false
  else
    when (nz ch && (u32 (in_e c - in_r c) <? INPUT_BUF))
      (let ch := if ch =? 13 then 10 else ch in
       upd_cons (fun c => c <| in_buf ::= fun b => zset b (in_e c mod INPUT_BUF) (u8 ch) |>
                            <| in_e ::= fun e => u32 (e + 1) |>) ;;
       consputc ch ;;
       c <- get_cons id ;;
       when ((ch =? 10) || (ch =? C "D") || (in_e c =? u32 (in_r c + INPUT_BUF)))
         (upd_cons (fun c => c <| in_w := in_e c |>) ;;
          wakeup Ch_input)) ;;
    ret false.

(** while((c = getc()) >= 0): [n] bounds the characters that are waiting. *)
Fixpoint consoleintr_loop (n : nat) (getc : K Z) (doprocdump : bool) : K bool :=
  match n with
  | O => diverge
  | S n' =>
      c <- getc ;;
      if negb (0 <=? c) then ret doprocdump
      else
        d <- console_char c ;;
        consoleintr_loop n' getc (doprocdump || d)
  end.

Definition consoleintr (n : nat) (getc : K Z) : K unit :=
  acquire L_cons ;;
  doprocdump <- consoleintr_loop n getc false ;;
  release L_cons ;;
  when doprocdump procdump.

Definition kbdintr : K unit :=
  n <- gets (fun k => length (kbd_data (k_kbd k))) ;;
  consoleintr (S n) kbdgetc.

(** uart.c *)
Definition uartgetc : K Z :=
  u <- gets k_uart ;;
  if negb (u : bool) then ret (-1)
  else
    q <- gets k_uartq ;;
    match q with
    | [] => ret (-1)
    | c :: q' => modify (fun k => k <| k_uartq := q' |>) ;; ret (u8 c)
    end.
Definition uartintr : K unit :=
  n <- gets (fun k => length (k_uartq k)) ;;
  consoleintr (S n) uartgetc.

Fixpoint uartputs (s : list Z) : K unit :=
  match s with [] => ret tt | c :: s' => uartputc c ;; uartputs s' end.
(** [present]: the line status register does not read as 0xFF. *)
Definition uartinit (present : bool) : K unit :=
  when present
    (modify (fun k => k <| k_uart := true |>) ;;
     uartputs (bytes "xv6...\n")).

(** * The console device *)

Section console.
Context `{DiskDriver}.

(** The next character of input, None if the process is killed while it
    waits. *)
Definition console_next : K (option Z) :=
  ok <- wait_loop (
    c <- get_cons id ;;
    if in_r c =? in_w c then
      stop <- killed ;;
      if (stop : bool) then ret (Some false)
      else sleep Ch_input L_cons ;; ret None
    else ret (Some true)) ;;
  if negb ok then ret None
  else
    c <- get_cons id ;;
    upd_cons (fun c => c <| in_r ::= fun r => u32 (r + 1) |>) ;;
    ret (Some (zget (in_buf c) (in_r c mod INPUT_BUF))).

(** while(n > 0): the count still wanted (None: killed) and the bytes read. *)
Fixpoint consoleread_loop (fuel : nat) (n target : Z) (out : list Z) : K (option Z * list Z) :=
  match fuel with
  | O => ret (Some n, out)
  | S fuel' =>
      o <- console_next ;;
      match o with
      | None => ret (None, out)
      | Some c =>
          if c =? C "D" then (* EOF *)
            (* Save ^D for next time, to make sure caller gets a 0-byte result. *)
            when (n <? target) (upd_cons (fun c => c <| in_r ::= fun r => u32 (r - 1) |>)) ;;
            ret (Some n, out)
          else if c =? 10 then ret (Some (n - 1), out ++ [c])
          else consoleread_loop fuel' (n - 1) target (out ++ [c])
      end
  end.

Definition consoleread (i : nat) (n : Z) : K (Z * list Z) :=
  iunlock (Some i) ;;
  acquire L_cons ;;
  '(r, out) <- consoleread_loop (Z.to_nat (i32 n)) n n [] ;;
  release L_cons ;;
  ilock (Some i) ;;
  match r with
  | None => ret (-1, out)
  | Some n' => ret (n - n', out)
  end.

Definition consolewrite (i : nat) (buf : list Z) (n : Z) : K Z :=
  iunlock (Some i) ;;
  acquire L_cons ;;
  for_ (Z.to_nat (i32 n)) 0 (fun j => consputc (u8 (zget buf j))) ;;
  release L_cons ;;
  ilock (Some i) ;;
  ret n.

#[export] Instance console_devices : Devices := {|
  dev_read := fun f => match f with DevConsole => consoleread end;
  dev_write := fun f => match f with DevConsole => consolewrite end
|}.

End console.

Definition consoleinit : K unit :=
  initlock L_cons "console" ;;
  modify (fun k => k <| k_devsw ::= fun t =>
    zset t CONSOLE (mkDevsw (Some DevConsole) (Some DevConsole)) |>) ;;
  upd_cons (fun c => c <| cons_locking := true |>).
