(* ===== verification/Proc.v ===== *)
(** proc.c, the operations on processes that use the file system: userinit,
    fork, exit, forkret. *)
From S2P Require Import Prelude Kernel Mem Spinlock Str Kalloc Console Vm Sched Sleeplock.
From S2P Require Import Ide Bio Log Fs File.

Section proc_fs.
Context `{Image} `{DiskDriver} `{Devices}.

(** Stores into the trap frame at [tf]. *)
Definition set_tf32 (tf off v : Z) : K unit := set_mem (fun m => wr32 m (tf + off) v).
Definition set_tf16 (tf off v : Z) : K unit :=
  set_mem (fun m => wr8 (wr8 m (tf + off) v) (tf + off + 1) (v / 2 ^ 8)).

Definition userinit : K unit :=
  o <- allocproc ;;
  modify (fun k => k <| k_initproc := o |>) ;;
  p <- (match o with Some p => ret p | None => fault 0 end) ;;
  pgdir <- setupkvm ;;
  upd_proc p (fun x => x <| p_pgdir := pgdir |>) ;;
  if pgdir =? 0 then panic "userinit: out of memory?"
  else
    inituvm pgdir initcode (zlen initcode) ;;
    upd_proc p (fun x => x <| p_sz := PGSIZE |>) ;;
    pr <- get_proc p ;;
    let tf := p_tf pr in
    let ds := Z.lor (Z.shiftl SEG_UDATA 3) DPL_USER in
    set_mem (fun m => memset m tf 0 TF.size) ;;
    set_tf16 tf TF.cs (Z.lor (Z.shiftl SEG_UCODE 3) DPL_USER) ;;
    set_tf16 tf TF.ds ds ;;
    set_tf16 tf TF.es ds ;;
    set_tf16 tf TF.ss ds ;;
    set_tf32 tf TF.eflags FL_IF ;;
    set_tf32 tf TF.esp PGSIZE ;;
    set_tf32 tf TF.eip 0 ;;  (* beginning of initcode.S *)
    upd_proc p (fun x => x <| p_name ::= fun s => safestrcpy s (bytes "initcode") 16 |>) ;;
    cwd <- namei (bytes "/") ;;
    upd_proc p (fun x => x <| p_cwd := cwd |>) ;;
    (* this assignment to p->state lets other cores run this process. *)
    acquire L_ptable ;;
    upd_proc p (fun x => x <| p_state := RUNNABLE |>) ;;
    release L_ptable.

(** for(i = 0; i < NOFILE; i++) if(curproc->ofile[i]) np->ofile[i] = filedup(...); *)
Definition dup_ofile (p np : nat) (i : Z) : K unit :=
  pr <- get_proc p ;;
  match zget (p_ofile pr) i with
  | None => ret tt
  | Some f =>
      f' <- filedup f ;;
      upd_proc np (fun x => x <| p_ofile ::= fun t => zset t i (Some f') |>)
  end.

Definition fork : K Z :=
  p <- curproc ;;
  (* Allocate process. *)
  o <- allocproc ;;
  match o with
  | None => ret (-1)
  | Some np =>
      (* Copy process state from proc. *)
      pr <- get_proc p ;;
      pgdir <- copyuvm (p_pgdir pr) (p_sz pr) ;;
      upd_proc np (fun x => x <| p_pgdir := pgdir |>) ;;
      npr <- get_proc np ;;
      if pgdir =? 0 then
        kfree (p_kstack npr) ;;
        upd_proc np (fun x => x <| p_kstack := 0 |>) ;;
        upd_proc np (fun x => x <| p_state := UNUSED |>) ;;
        ret (-1)
      else
        pr <- get_proc p ;;
        upd_proc np (fun x => x <| p_sz := p_sz pr |>) ;;
        upd_proc np (fun x => x <| p_parent := Some p |>) ;;
        set_mem (fun m => store m (p_tf npr) (load m (p_tf pr) (Z.to_nat TF.size))) ;;
        (* Clear %eax so that fork returns 0 in the child. *)
        set_tf32 (p_tf npr) TF.eax 0 ;;
        for_ (Z.to_nat NOFILE) 0 (dup_ofile p np) ;;
        pr <- get_proc p ;;
        cwd <- (match p_cwd pr with Some c => idup c | None => fault 0 end) ;;
        upd_proc np (fun x => x <| p_cwd := Some cwd |>) ;;
        upd_proc np (fun x => x <| p_name ::= fun s => safestrcpy s (p_name pr) 16 |>) ;;
        npr <- get_proc np ;;
        let pid := p_pid npr in
        acquire L_ptable ;;
        upd_proc np (fun x => x <| p_state := RUNNABLE |>) ;;
        release L_ptable ;;
        ret pid
  end.

Definition close_ofile (p : nat) (fd : Z) : K unit :=
  pr <- get_proc p ;;
  match zget (p_ofile pr) fd with
  | None => ret tt
  | Some f =>
      fileclose f ;;
      upd_proc p (fun x => x <| p_ofile ::= fun t => zset t fd None |>)
  end.

(** Pass the abandoned child in slot [i] to init. *)
Definition pass_to_init (p : nat) (i : Z) : K unit :=
  let c := Z.to_nat i in
  pr <- get_proc c ;;
  when (bool_decide (p_parent pr = Some p))
    (ini <- gets k_initproc ;;
     upd_proc c (fun x => x <| p_parent := ini |>) ;;
     when (bool_decide (p_state pr = ZOMBIE)) (wakeup1 (Ch_proc <$> ini))).

(** exit does not return: sched never switches back to a zombie. *)
Definition exit : K Z :=
  o <- myproc ;;
  ini <- gets k_initproc ;;
  if bool_decide (o = ini) then panic "init exiting"
  else
    p <- (match o with Some p => ret p | None => fault 0 end) ;;
    (* Close all open files. *)
    for_ (Z.to_nat NOFILE) 0 (close_ofile p) ;;
    begin_op ;;
    pr <- get_proc p ;;
    match p_cwd pr with Some c => iput c | None => fault 0 end ;;
    end_op ;;
    upd_proc p (fun x => x <| p_cwd := None |>) ;;
    acquire L_ptable ;;
    (* Parent might be sleeping in wait(). *)
    pr <- get_proc p ;;
    wakeup1 (Ch_proc <$> p_parent pr) ;;
    (* Pass abandoned children to init. *)
    for_ (Z.to_nat NPROC) 0 (pass_to_init p) ;;
    (* Jump into the scheduler, never to return. *)
    upd_proc p (fun x => x <| p_state := ZOMBIE |>) ;;
    sched ;;
    panic "zombie exit".

Definition forkret : K unit :=
  (* Still holding ptable.lock from scheduler. *)
  release L_ptable ;;
  first <- gets k_first ;;
  when first
    (modify (fun k => k <| k_first := false |>) ;;
     iinit ROOTDEV ;;
     initlog ROOTDEV).

End proc_fs.
