(* ===== verification/Syscall.v ===== *)
(** syscall.c: fetching system call arguments from user memory. *)
From S2P Require Import Prelude Kernel Mem Spinlock Console Vm Sched.

(** * User memory, through the current page table *)

Definition user_byte (va : Z) : K Z :=
  m <- gets k_mem ;;
  cr3 <- gets k_cr3 ;;
  match translate m (P2V cr3) va with
  | Some pa => ret (rd8 m (P2V pa))
  | None => fault va
  end.
Fixpoint user_load (va : Z) (n : nat) : K (list Z) :=
  match n with
  | O => ret []
  | S n' =>
      c <- user_byte va ;;
      l <- user_load (u32 (va + 1)) n' ;;
      ret (c :: l)
  end.
Fixpoint user_store (va : Z) (l : list Z) : K unit :=
  match l with
  | [] => ret tt
  | c :: l' =>
      m <- gets k_mem ;;
      cr3 <- gets k_cr3 ;;
      match translate m (P2V cr3) va with
      | Some pa => set_mem (fun m => wr8 m (P2V pa) c) ;; user_store (u32 (va + 1)) l'
      | None => fault va
      end
  end.

(** * Arguments; None is the return value -1 *)

(** Fetch the int at addr from the current process. *)
Definition fetchint (addr : Z) : K (option Z) :=
  p <- curproc ;;
  pr <- get_proc p ;;
  if (p_sz pr <=? addr) || (p_sz pr <? u32 (addr + 4)) then ret None
  else
    w <- user_load addr 4 ;;
    ret (Some (i32 (get32 w 0))).

(** for(s = *pp; s < ep; s++): the string before its NUL. *)
Fixpoint fetchstr_loop (n : nat) (s ep : Z) : K (option (list Z)) :=
  match n with
  | O => ret None
  | S n' =>
      if negb (s <? ep) then ret None
      else
        c <- user_byte s ;;
        if c =? 0 then ret (Some [])
        else
          r <- fetchstr_loop n' (s + 1) ep ;;
          ret (cons c <$> r)
  end.
Definition fetchstr (addr : Z) : K (option (list Z)) :=
  p <- curproc ;;
  pr <- get_proc p ;;
  if p_sz pr <=? addr then ret None
  else fetchstr_loop (S (Z.to_nat (p_sz pr - addr))) addr (p_sz pr).

(** myproc()->tf->field *)
Definition tf_word (off : Z) : K Z :=
  p <- curproc ;;
  pr <- get_proc p ;;
  gets (fun k => rd32 (k_mem k) (p_tf pr + off)).

(** Fetch the nth 32-bit system call argument. *)
Definition argint (n : Z) : K (option Z) :=
  esp <- tf_word TF.esp ;;
  fetchint (u32 (esp + 4 + 4 * n)).

(** Fetch the nth word-sized system call argument as a pointer to a block of
    memory of size bytes. *)
Definition argptr (n size : Z) : K (option Z) :=
  p <- curproc ;;
  o <- argint n ;;
  match o with
  | None => ret None
  | Some i =>
      pr <- get_proc p ;;
      if (size <? 0) || (p_sz pr <=? u32 i) || (p_sz pr <? u32 (u32 i + size)) then ret None
      else ret (Some (u32 i))
  end.

Definition argstr (n : Z) : K (option (list Z)) :=
  o <- argint n ;;
  match o with
  | None => ret None
  | Some addr => fetchstr (u32 addr)
  end.
