(* ===== verification/Exec.v ===== *)
(** exec.c, and loaduvm of vm.c: replacing the program of a process. *)
From S2P Require Import Prelude Kernel Mem Spinlock Str Kalloc Console Vm Sched Sleeplock.
From S2P Require Import Ide Bio Log Fs.

(** * elf.h *)

Definition ELF_MAGIC : Z := 0x464C457F.
Definition ELF_PROG_LOAD : Z := 1.

(** The fields of struct elfhdr and struct proghdr that exec reads. *)
Definition sizeof_elfhdr : Z := 52.
Record elfhdr := mkElfhdr { elf_magic : Z; elf_entry : Z; elf_phoff : Z; elf_phnum : Z }.
Definition get_elfhdr (d : list Z) : elfhdr :=
  mkElfhdr (get32 d 0) (get32 d 24) (get32 d 28) (get16 d 44).

Definition sizeof_proghdr : Z := 32.
Record proghdr := mkProghdr { ph_type : Z; ph_off : Z; ph_vaddr : Z; ph_filesz : Z; ph_memsz : Z }.
Definition get_proghdr (d : list Z) : proghdr :=
  mkProghdr (get32 d 0) (get32 d 4) (get32 d 8) (get32 d 16) (get32 d 20).

Section exec.
Context `{Image} `{DiskDriver} `{Devices}.

(** Load a program segment into pgdir. *)
Fixpoint loaduvm_loop (n : nat) (pgdir addr : Z) (ip : nat) (offset i sz : Z) : K Z :=
  match n with
  | O => diverge
  | S n' =>
      if negb (i <? sz) then ret 0
      else
        pte <- walkpgdir pgdir (u32 (addr + i)) false ;;
        if pte =? 0 then panic "loaduvm: address should exist"
        else
          w <- gets (fun k => rd32 (k_mem k) pte) ;;
          let pa := PTE_ADDR w in
          let n := if sz - i <? PGSIZE then sz - i else PGSIZE in
          '(r, out) <- readi ip (u32 (offset + i)) n ;;
          set_mem (fun m => store m (P2V pa) out) ;;
          if negb (r =? n) then ret (-1)
          else loaduvm_loop n' pgdir addr ip offset (u32 (i + PGSIZE)) sz
  end.
Definition loaduvm (pgdir addr : Z) (ip : nat) (offset sz : Z) : K Z :=
  if nz (addr mod PGSIZE) then panic "loaduvm: addr must be page aligned"
  else loaduvm_loop (S (Z.to_nat (sz / PGSIZE + 1))) pgdir addr ip offset 0 sz.

(** The label bad of exec: free the new address space, drop the inode and end
    the transaction if they are still held. *)
Definition exec_bad (pgdir : Z) (ip : option nat) : K Z :=
  when (negb (pgdir =? 0)) (freevm pgdir) ;;
  match ip with
  | Some i => iunlockput i ;; end_op
  | None => ret tt
  end ;;
  ret (-1).

(** The loop over program headers; None is a jump to bad. *)
Fixpoint exec_load (n : nat) (ip : nat) (pgdir off sz : Z) : K (option Z) :=
  match n with
  | O => ret (Some sz)
  | S n' =>
      '(r, d) <- readi ip (u32 off) sizeof_proghdr ;;
      let ph := get_proghdr d in
      if negb (r =? sizeof_proghdr) then ret None
      else if negb (ph_type ph =? ELF_PROG_LOAD) then
        exec_load n' ip pgdir (off + sizeof_proghdr) sz
      else if ph_memsz ph <? ph_filesz ph then ret None
      else if u32 (ph_vaddr ph + ph_memsz ph) <? ph_vaddr ph then ret None
      else
        sz <- allocuvm pgdir sz (u32 (ph_vaddr ph + ph_memsz ph)) ;;
        if sz =? 0 then ret None
        else if nz (ph_vaddr ph mod PGSIZE) then ret None
        else
          r <- loaduvm pgdir (ph_vaddr ph) ip (ph_off ph) (ph_filesz ph) ;;
          if r <? 0 then ret None
          else exec_load n' ip pgdir (off + sizeof_proghdr) sz
  end.

(** Push argument strings: the stack pointer and the pointers to the strings. *)
Fixpoint push_args (argv : list (list Z)) (argc pgdir sp : Z) (ustack : list Z)
    : K (option (Z * list Z)) :=
  match argv with
  | [] => ret (Some (sp, ustack))
  | s :: argv' =>
      if MAXARG <=? argc then ret None
      else
        let sp := Z.land (u32 (sp - (strlen s + 1))) (u32 (Z.lnot 3)) in
        r <- copyout pgdir sp (s ++ [0]) (strlen s + 1) ;;
        if r <? 0 then ret None
        else push_args argv' (argc + 1) pgdir sp (ustack ++ [sp])
  end.

(** The part of path after its last slash. *)
Fixpoint basename (last path : list Z) : list Z :=
  match path with
  | [] => last
  | c :: path' => if c =? SLASH then basename path' path' else basename last path'
  end.

(** From the stack pages on: the inode is released, the transaction over. *)
Definition exec_image (p : nat) (path : list Z) (argv : list (list Z)) (pgdir sz entry : Z) : K Z :=
  let sz := PGROUNDUP sz in
  sz <- allocuvm pgdir sz (u32 (sz + 2 * PGSIZE)) ;;
  if sz =? 0 then exec_bad pgdir None
  else
    clearpteu pgdir (u32 (sz - 2 * PGSIZE)) ;;
    o <- push_args argv 0 pgdir sz [] ;;
    match o with
    | None => exec_bad pgdir None
    | Some (sp, ptrs) =>
        let argc := zlen ptrs in
        let ustack := [0xffffffff; argc; u32 (sp - (argc + 1) * 4)] ++ ptrs ++ [0] in
        let sp := u32 (sp - (3 + argc + 1) * 4) in
        r <- copyout pgdir sp (mjoin (le32 <$> ustack)) ((3 + argc + 1) * 4) ;;
        if r <? 0 then exec_bad pgdir None
        else
          (* Save program name for debugging. *)
          upd_proc p (fun x => x <| p_name ::= fun s => safestrcpy s (basename path path) 16 |>) ;;
          (* Commit to the user image. *)
          pr <- get_proc p ;;
          let oldpgdir := p_pgdir pr in
          upd_proc p (fun x => x <| p_pgdir := pgdir |>) ;;
          upd_proc p (fun x => x <| p_sz := sz |>) ;;
          set_mem (fun m => wr32 m (p_tf pr + TF.eip) entry) ;;
          set_mem (fun m => wr32 m (p_tf pr + TF.esp) sp) ;;
          switchuvm (Some p) ;;
          freevm oldpgdir ;;
          ret 0
    end.

(** [argv]: the strings of the argument vector. *)
Definition exec (path : list Z) (argv : list (list Z)) : K Z :=
  p <- curproc ;;
  begin_op ;;
  o <- namei path ;;
  match o with
  | None =>
      end_op ;;
      cprintf "exec: fail\n" [] ;;
      ret (-1)
  | Some ip =>
      ilock (Some ip) ;;
      (* Check ELF header *)
      '(r, d) <- readi ip 0 sizeof_elfhdr ;;
      let elf := get_elfhdr d in
      if negb (r =? sizeof_elfhdr) then exec_bad 0 (Some ip)
      else if negb (elf_magic elf =? ELF_MAGIC) then exec_bad 0 (Some ip)
      else
        pgdir <- setupkvm ;;
        if pgdir =? 0 then exec_bad 0 (Some ip)
        else
          (* Load program into memory. *)
          sz <- exec_load (Z.to_nat (elf_phnum elf)) ip pgdir (elf_phoff elf) 0 ;;
          match sz with
          | None => exec_bad pgdir (Some ip)
          | Some sz =>
              iunlockput ip ;;
              end_op ;;
              exec_image p path argv pgdir sz (elf_entry elf)
          end
  end.

End exec.
