(* ===== verification/Sysproc.v ===== *)
(** sysproc.c: system calls on processes and time. *)
From S2P Require Import Prelude Kernel Mem Spinlock Str Kalloc Console Vm Sched Sleeplock.
From S2P Require Import Ide Bio Log Fs File Proc Syscall.

Section sysproc.
Context `{Image} `{DiskDriver} `{Devices}.

Definition sys_fork : K Z := fork.

Definition sys_exit : K Z := exit.

Definition sys_wait : K Z := wait.

Definition sys_kill : K Z :=
  o <- argint 0 ;;
  match o with None => ret (-1) | Some pid => kill pid end.

Definition sys_getpid : K Z :=
  p <- curproc ;;
  pr <- get_proc p ;;
  ret (p_pid pr).

Definition sys_sbrk : K Z :=
  o <- argint 0 ;;
  match o with
  | None => ret (-1)
  | Some n =>
      p <- curproc ;;
      pr <- get_proc p ;;
      let addr := i32 (p_sz pr) in
      r <- growproc n ;;
      if r <? 0 then ret (-1) else ret addr
  end.

Definition sys_sleep : K Z :=
  o <- argint 0 ;;
  match o with
  | None => ret (-1)
  | Some n =>
      acquire L_ticks ;;
      ticks0 <- gets k_ticks ;;
      wait_loop (
        t <- gets k_ticks ;;
        (* an unsigned comparison *)
        if u32 (t - ticks0) <? u32 n then
          stop <- killed ;;
          if (stop : bool) then release L_ticks ;; ret (Some (-1))
          else sleep Ch_ticks L_ticks ;; ret None
        else release L_ticks ;; ret (Some 0))
  end.

Definition sys_uptime : K Z :=
  acquire L_ticks ;;
  xticks <- gets k_ticks ;;
  release L_ticks ;;
  ret (i32 xticks).

End sysproc.
