(* ===== verification/Sysfile.v ===== *)
(** sysfile.c: system calls on files.  Mostly argument checking; the calls
    that change directories run inside begin_op/end_op. *)
From S2P Require Import Prelude Kernel Mem Spinlock Str Kalloc Console Vm Sched Sleeplock.
From S2P Require Import Fsformat Ide Bio Log Fs File Proc Syscall Exec.

(** * File descriptors *)

(** Fetch the nth system call argument as a file descriptor, with its file. *)
Definition argfd (n : Z) : K (option (Z * nat)) :=
  o <- argint n ;;
  match o with
  | None => ret None
  | Some fd =>
      if (fd <? 0) || (NOFILE <=? fd) then ret None
      else
        p <- curproc ;;
        pr <- get_proc p ;;
        ret (match zget (p_ofile pr) fd with Some f => Some (fd, f) | None => None end)
  end.

(** Allocate a file descriptor for the given file; -1 if there is none. *)
Definition fdalloc (f : nat) : K Z :=
  p <- curproc ;;
  pr <- get_proc p ;;
  match findi (fun o => bool_decide (o = None)) (take (Z.to_nat NOFILE) (p_ofile pr)) with
  | Some fd =>
      upd_proc p (fun x => x <| p_ofile ::= insert fd (Some f) |>) ;;
      ret (Z.of_nat fd)
  | None => ret (-1)
  end.

Section sysfile.
Context `{Image} `{DiskDriver} `{Devices}.

Definition sys_dup : K Z :=
  o <- argfd 0 ;;
  match o with
  | None => ret (-1)
  | Some (_, f) =>
      fd <- fdalloc f ;;
      if fd <? 0 then ret (-1)
      else filedup f ;; ret fd
  end.

(** The buffer arguments of read and write: file, address, count. *)
Definition arg_rw : K (option (nat * Z * Z)) :=
  o <- argfd 0 ;;
  match o with
  | None => ret None
  | Some (_, f) =>
      n <- argint 2 ;;
      match n with
      | None => ret None
      | Some n =>
          p <- argptr 1 n ;;
          ret (match p with Some p => Some (f, p, n) | None => None end)
      end
  end.

Definition sys_read : K Z :=
  o <- arg_rw ;;
  match o with
  | None => ret (-1)
  | Some (f, p, n) =>
      '(r, out) <- fileread f n ;;
      user_store p out ;;
      ret r
  end.

Definition sys_write : K Z :=
  o <- arg_rw ;;
  match o with
  | None => ret (-1)
  | Some (f, p, n) =>
      buf <- user_load p (Z.to_nat n) ;;
      filewrite f buf n
  end.

Definition sys_close : K Z :=
  o <- argfd 0 ;;
  match o with
  | None => ret (-1)
  | Some (fd, f) =>
      p <- curproc ;;
      upd_proc p (fun x => x <| p_ofile ::= fun t => zset t fd None |>) ;;
      fileclose f ;;
      ret 0
  end.

(** struct stat of stat.h in memory (short, int, uint, short, uint); the padding
    is not written. *)
Definition sizeof_stat : Z := 20.
Definition store_stat (p : Z) (st : stat) : K unit :=
  user_store (u32 (p + 4)) (le32 (st_dev st)) ;;
  user_store (u32 (p + 8)) (le32 (st_ino st)) ;;
  user_store p (le16 (st_type st)) ;;
  user_store (u32 (p + 12)) (le16 (st_nlink st)) ;;
  user_store (u32 (p + 16)) (le32 (st_size st)).

Definition sys_fstat : K Z :=
  o <- argfd 0 ;;
  match o with
  | None => ret (-1)
  | Some (_, f) =>
      p <- argptr 1 sizeof_stat ;;
      match p with
      | None => ret (-1)
      | Some p =>
          st <- filestat f ;;
          match st with
          | None => ret (-1)
          | Some st => store_stat p st ;; ret 0
          end
      end
  end.

(** * Names *)

Definition upd_nlink (i : nat) (d : Z) : K unit :=
  upd_inode i (fun ip => ip <| i_nlink ::= fun n => i16 (n + d) |>).

(** Undo the link count of sys_link; the label bad. *)
Definition link_bad (ip : nat) : K Z :=
  ilock (Some ip) ;;
  upd_nlink ip (-1) ;;
  iupdate ip ;;
  iunlockput ip ;;
  end_op ;;
  ret (-1).

(** Create the path new as a link to the same inode as old. *)
Definition sys_link : K Z :=
  old <- argstr 0 ;;
  match old with
  | None => ret (-1)
  | Some old =>
  new <- argstr 1 ;;
  match new with
  | None => ret (-1)
  | Some new =>
      begin_op ;;
      o <- namei old ;;
      match o with
      | None => end_op ;; ret (-1)
      | Some ip =>
          ilock (Some ip) ;;
          x <- get_inode ip ;;
          if i_type x =? T_DIR then iunlockput ip ;; end_op ;; ret (-1)
          else
            upd_nlink ip 1 ;;
            iupdate ip ;;
            iunlock (Some ip) ;;
            '(dp, name) <- nameiparent new ;;
            match dp with
            | None => link_bad ip
            | Some dp =>
                ilock (Some dp) ;;
                d <- get_inode dp ;;
                x <- get_inode ip ;;
                r <- (if negb (i_dev d =? i_dev x) then ret (-1)
                      else dirlink dp name (i_inum x)) ;;
                if r <? 0 then iunlockput dp ;; link_bad ip
                else
                  iunlockput dp ;;
                  iput ip ;;
                  end_op ;;
                  ret 0
            end
      end
  end
  end.

(** Is the directory dp empty except for "." and ".." ? *)
Fixpoint isdirempty_loop (n dp : nat) (off : Z) : K bool :=
  match n with
  | O => diverge
  | S n' =>
      ip <- get_inode dp ;;
      if negb (off <? i_size ip) then ret true
      else
        '(r, de) <- readi dp off sizeof_dirent ;;
        if negb (r =? sizeof_dirent) then panic "isdirempty: readi"
        else if negb (de_inum de =? 0) then ret false
        else isdirempty_loop n' dp (off + sizeof_dirent)
  end.
Definition isdirempty (dp : nat) : K bool :=
  ip <- get_inode dp ;;
  isdirempty_loop (S (Z.to_nat (i_size ip / sizeof_dirent + 1))) dp (2 * sizeof_dirent).

Definition unlink_bad (dp : nat) : K Z := iunlockput dp ;; end_op ;; ret (-1).

Definition sys_unlink : K Z :=
  path <- argstr 0 ;;
  match path with
  | None => ret (-1)
  | Some path =>
      begin_op ;;
      '(dp, name) <- nameiparent path ;;
      match dp with
      | None => end_op ;; ret (-1)
      | Some dp =>
          ilock (Some dp) ;;
          (* Cannot unlink "." or "..". *)
          if (namecmp name (bytes ".") =? 0) || (namecmp name (bytes "..") =? 0) then unlink_bad dp
          else
            o <- dirlookup dp name ;;
            match o with
            | None => unlink_bad dp
            | Some (ip, off) =>
                ilock (Some ip) ;;
                x <- get_inode ip ;;
                if i_nlink x <? 1 then panic "unlink: nlink < 1"
                else
                  full <- (if i_type x =? T_DIR then b <- isdirempty ip ;; ret (negb b)
                           else ret false) ;;
                  if (full : bool) then iunlockput ip ;; unlink_bad dp
                  else
                    r <- writei dp (replicate (Z.to_nat sizeof_dirent) 0) off sizeof_dirent ;;
                    if negb (r =? sizeof_dirent) then panic "unlink: writei"
                    else
                      x <- get_inode ip ;;
                      when (i_type x =? T_DIR) (upd_nlink dp (-1) ;; iupdate dp) ;;
                      iunlockput dp ;;
                      upd_nlink ip (-1) ;;
                      iupdate ip ;;
                      iunlockput ip ;;
                      end_op ;;
                      ret 0
            end
      end
  end.

(** The new inode, locked; None if the path is bad or taken. *)
Definition create (path : list Z) (type major minor : Z) : K (option nat) :=
  '(dp, name) <- nameiparent path ;;
  match dp with
  | None => ret None
  | Some dp =>
      ilock (Some dp) ;;
      o <- dirlookup dp name ;;
      match o with
      | Some (ip, _) =>
          iunlockput dp ;;
          ilock (Some ip) ;;
          x <- get_inode ip ;;
          if (type =? T_FILE) && (i_type x =? T_FILE) then ret (Some ip)
          else iunlockput ip ;; ret None
      | None =>
          d <- get_inode dp ;;
          ip <- ialloc (i_dev d) type ;;
          ilock (Some ip) ;;
          upd_inode ip (fun x => x <| i_major := major |> <| i_minor := minor |>
                                   <| i_nlink := 1 |>) ;;
          iupdate ip ;;
          x <- get_inode ip ;;
          when (type =? T_DIR) (* Create . and .. entries. *)
            (upd_nlink dp 1 ;; (* for ".." *)
             iupdate dp ;;
             r <- dirlink ip (bytes ".") (i_inum x) ;;
             r <- (if r <? 0 then ret r
                   else d <- get_inode dp ;; dirlink ip (bytes "..") (i_inum d)) ;;
             if r <? 0 then panic "create dots" else ret tt) ;;
          r <- dirlink dp name (i_inum x) ;;
          if r <? 0 then panic "create: dirlink"
          else
            iunlockput dp ;;
            ret (Some ip)
      end
  end.

(** The second half of sys_open: a descriptor for the locked inode. *)
Definition open_file (ip : nat) (omode : Z) : K Z :=
  f <- filealloc ;;
  fd <- (match f with None => ret (-1) | Some f => fdalloc f end) ;;
  match f with
  | Some f =>
      if fd <? 0 then
        fileclose f ;;
        iunlockput ip ;;
        end_op ;;
        ret (-1)
      else
        iunlock (Some ip) ;;
        end_op ;;
        upd_file f (fun x => x <| f_type := FD_INODE |> <| f_ip := ip |> <| f_off := 0 |>
          <| f_readable := b2z (negb (bit_set omode O_WRONLY)) |>
          <| f_writable := b2z (bit_set omode O_WRONLY || bit_set omode O_RDWR) |>) ;;
        ret fd
  | None => iunlockput ip ;; end_op ;; ret (-1)
  end.

Definition sys_open : K Z :=
  path <- argstr 0 ;;
  match path with
  | None => ret (-1)
  | Some path =>
  omode <- argint 1 ;;
  match omode with
  | None => ret (-1)
  | Some omode =>
      begin_op ;;
      if bit_set omode O_CREATE then
        o <- create path T_FILE 0 0 ;;
        match o with
        | None => end_op ;; ret (-1)
        | Some ip => open_file ip omode
        end
      else
        o <- namei path ;;
        match o with
        | None => end_op ;; ret (-1)
        | Some ip =>
            ilock (Some ip) ;;
            x <- get_inode ip ;;
            if (i_type x =? T_DIR) && negb (omode =? O_RDONLY) then
              iunlockput ip ;; end_op ;; ret (-1)
            else open_file ip omode
        end
  end
  end.

Definition sys_mkdir : K Z :=
  begin_op ;;
  path <- argstr 0 ;;
  o <- (match path with None => ret None | Some path => create path T_DIR 0 0 end) ;;
  match o with
  | None => end_op ;; ret (-1)
  | Some ip => iunlockput ip ;; end_op ;; ret 0
  end.

Definition sys_mknod : K Z :=
  begin_op ;;
  path <- argstr 0 ;;
  major <- (match path with None => ret None | Some _ => argint 1 end) ;;
  minor <- (match major with None => ret None | Some _ => argint 2 end) ;;
  o <- (match path, major, minor with
        | Some path, Some major, Some minor => create path T_DEV (i16 major) (i16 minor)
        | _, _, _ => ret None
        end) ;;
  match o with
  | None => end_op ;; ret (-1)
  | Some ip => iunlockput ip ;; end_op ;; ret 0
  end.

Definition sys_chdir : K Z :=
  p <- curproc ;;
  begin_op ;;
  path <- argstr 0 ;;
  o <- (match path with None => ret None | Some path => namei path end) ;;
  match o with
  | None => end_op ;; ret (-1)
  | Some ip =>
      ilock (Some ip) ;;
      x <- get_inode ip ;;
      if negb (i_type x =? T_DIR) then iunlockput ip ;; end_op ;; ret (-1)
      else
        iunlock (Some ip) ;;
        pr <- get_proc p ;;
        match p_cwd pr with Some c => iput c | None => fault 0 end ;;
        end_op ;;
        upd_proc p (fun x => x <| p_cwd := Some ip |>) ;;
        ret 0
  end.

(** The argument vector: at most MAXARG - 1 strings before the null pointer. *)
Fixpoint fetch_argv (n : nat) (uargv i : Z) : K (option (list (list Z))) :=
  match n with
  | O => ret None
  | S n' =>
      o <- fetchint (u32 (uargv + 4 * i)) ;;
      match o with
      | None => ret None
      | Some uarg =>
          if uarg =? 0 then ret (Some [])
          else
            s <- fetchstr (u32 uarg) ;;
            match s with
            | None => ret None
            | Some s =>
                r <- fetch_argv n' uargv (i + 1) ;;
                ret (cons s <$> r)
            end
      end
  end.

Definition sys_exec : K Z :=
  path <- argstr 0 ;;
  match path with
  | None => ret (-1)
  | Some path =>
  uargv <- argint 1 ;;
  match uargv with
  | None => ret (-1)
  | Some uargv =>
      argv <- fetch_argv (Z.to_nat MAXARG) (u32 uargv) 0 ;;
      match argv with
      | None => ret (-1)
      | Some argv => exec path argv
      end
  end
  end.

Definition sys_pipe : K Z :=
  fd <- argptr 0 8 ;;
  match fd with
  | None => ret (-1)
  | Some fd =>
      o <- pipealloc ;;
      match o with
      | None => ret (-1)
      | Some (rf, wf) =>
          fd0 <- fdalloc rf ;;
          fd1 <- (if fd0 <? 0 then ret (-1) else fdalloc wf) ;;
          if (fd0 <? 0) || (fd1 <? 0) then
            when (0 <=? fd0)
              (p <- curproc ;;
               upd_proc p (fun x => x <| p_ofile ::= fun t => zset t fd0 None |>)) ;;
            fileclose rf ;;
            fileclose wf ;;
            ret (-1)
          else
            user_store fd (le32 fd0) ;;
            user_store (u32 (fd + 4)) (le32 fd1) ;;
            ret 0
      end
  end.

End sysfile.
