(* ===== verification/Trap.v ===== *)
(** trap.c and the dispatch of syscall.c: what happens on a system call, an
    interrupt or an exception; and main.c's boot sequence. *)
From S2P Require Import Prelude Kernel Mem Spinlock Str Kalloc Console Kbd Vm Sched Sleeplock.
From S2P Require Import Ide Bio Log Fs File ConsoleIo Proc Syscall Exec Sysproc Sysfile.

(** traps.h *)
Definition T_SYSCALL : Z := 64.
Definition T_IRQ0 : Z := 32.
Definition IRQ_TIMER : Z := 0.
Definition IRQ_KBD : Z := 1.
Definition IRQ_COM1 : Z := 4.
Definition IRQ_IDE : Z := 14.
Definition IRQ_SPURIOUS : Z := 31.

(** * System call dispatch (syscall.h, syscall.c) *)

Definition SYS_fork : Z := 1.
Definition SYS_exit : Z := 2.
Definition SYS_wait : Z := 3.
Definition SYS_pipe : Z := 4.
Definition SYS_read : Z := 5.
Definition SYS_kill : Z := 6.
Definition SYS_exec : Z := 7.
Definition SYS_fstat : Z := 8.
Definition SYS_chdir : Z := 9.
Definition SYS_dup : Z := 10.
Definition SYS_getpid : Z := 11.
Definition SYS_sbrk : Z := 12.
Definition SYS_sleep : Z := 13.
Definition SYS_uptime : Z := 14.
Definition SYS_open : Z := 15.
Definition SYS_write : Z := 16.
Definition SYS_mknod : Z := 17.
Definition SYS_unlink : Z := 18.
Definition SYS_link : Z := 19.
Definition SYS_mkdir : Z := 20.
Definition SYS_close : Z := 21.

Section trap.
Context `{Image} `{DiskDriver}.

Definition syscalls (num : Z) : option (K Z) :=
  if num =? SYS_fork then Some sys_fork
  else if num =? SYS_exit then Some sys_exit
  else if num =? SYS_wait then Some sys_wait
  else if num =? SYS_pipe then Some sys_pipe
  else if num =? SYS_read then Some sys_read
  else if num =? SYS_kill then Some sys_kill
  else if num =? SYS_exec then Some sys_exec
  else if num =? SYS_fstat then Some sys_fstat
  else if num =? SYS_chdir then Some sys_chdir
  else if num =? SYS_dup then Some sys_dup
  else if num =? SYS_getpid then Some sys_getpid
  else if num =? SYS_sbrk then Some sys_sbrk
  else if num =? SYS_sleep then Some sys_sleep
  else if num =? SYS_uptime then Some sys_uptime
  else if num =? SYS_open then Some sys_open
  else if num =? SYS_write then Some sys_write
  else if num =? SYS_mknod then Some sys_mknod
  else if num =? SYS_unlink then Some sys_unlink
  else if num =? SYS_link then Some sys_link
  else if num =? SYS_mkdir then Some sys_mkdir
  else if num =? SYS_close then Some sys_close
  else None.

(** curproc->tf->eax = v *)
Definition set_eax (p : nat) (v : Z) : K unit :=
  pr <- get_proc p ;;
  set_mem (fun m => wr32 m (p_tf pr + TF.eax) v).

Definition syscall : K unit :=
  p <- curproc ;;
  w <- tf_word TF.eax ;;
  let num := i32 w in
  match syscalls num with
  | Some f => r <- f ;; set_eax p r
  | None =>
      pr <- get_proc p ;;
      cprintf "%d %s: unknown sys call %d\n"
        [AInt (p_pid pr); AStr (Some (cstr (p_name pr))); AInt num] ;;
      set_eax p (-1)
  end.

(** * Traps *)

Definition tvinit : K unit := initlock L_ticks "time".

(** myproc() && myproc()->killed && (tf->cs&3) == DPL_USER *)
Definition exit_if_killed (cs : Z) : K unit :=
  o <- myproc ;;
  match o with
  | None => ret tt
  | Some _ =>
      kl <- killed ;;
      when (kl && (Z.land cs 3 =? DPL_USER)) (exit ;; ret tt)
  end.

(** The clock interrupt: CPU 0 counts the ticks. *)
Definition timer_tick : K unit :=
  c <- cpuid ;;
  when (c =? 0)
    (acquire L_ticks ;;
     modify (fun k => k <| k_ticks ::= fun t => u32 (t + 1) |>) ;;
     wakeup Ch_ticks ;;
     release L_ticks).

(** The switch on tf->trapno. *)
Definition trap_dispatch (tf : Z) : K unit :=
  m <- gets k_mem ;;
  let trapno := rd32 m (tf + TF.trapno) in
  let cs := rd8 m (tf + TF.cs) + 2 ^ 8 * rd8 m (tf + TF.cs + 1) in
  let eip := rd32 m (tf + TF.eip) in
  let err := rd32 m (tf + TF.err) in
  if trapno =? T_IRQ0 + IRQ_TIMER then timer_tick
  else if trapno =? T_IRQ0 + IRQ_IDE then ideintr
  else if trapno =? T_IRQ0 + IRQ_IDE + 1 then ret tt (* Bochs generates spurious IDE1 interrupts. *)
  else if trapno =? T_IRQ0 + IRQ_KBD then kbdintr
  else if trapno =? T_IRQ0 + IRQ_COM1 then uartintr
  else if (trapno =? T_IRQ0 + 7) || (trapno =? T_IRQ0 + IRQ_SPURIOUS) then
    c <- cpuid ;;
    cprintf "cpu%d: spurious interrupt at %x:%x\n" [AInt c; AInt cs; AInt eip]
  else
    o <- myproc ;;
    if bool_decide (o = None) || (Z.land cs 3 =? 0) then
      (* In kernel, it must be our mistake. *)
      c <- cpuid ;;
      cr2 <- gets k_cr2 ;;
      cprintf "unexpected trap %d from cpu %d eip %x (cr2=0x%x)\n"
        [AInt trapno; AInt c; AInt eip; AInt cr2] ;;
      panic "trap"
    else
      (* In user space, assume process misbehaved. *)
      p <- curproc ;;
      pr <- get_proc p ;;
      c <- cpuid ;;
      cr2 <- gets k_cr2 ;;
      cprintf "pid %d %s: trap %d err %d on cpu %d eip 0x%x addr 0x%x--kill proc\n"
        [AInt (p_pid pr); AStr (Some (cstr (p_name pr))); AInt trapno; AInt err; AInt c;
         AInt eip; AInt cr2] ;;
      upd_proc p (fun x => x <| p_killed := 1 |>).

(** [tf]: the address of the trap frame on the kernel stack. *)
Definition trap (tf : Z) : K unit :=
  m <- gets k_mem ;;
  let trapno := rd32 m (tf + TF.trapno) in
  let cs := rd8 m (tf + TF.cs) + 2 ^ 8 * rd8 m (tf + TF.cs + 1) in
  if trapno =? T_SYSCALL then
    kl <- killed ;;
    when kl (exit ;; ret tt) ;;
    p <- curproc ;;
    upd_proc p (fun x => x <| p_tf := tf |>) ;;
    syscall ;;
    kl <- killed ;;
    when kl (exit ;; ret tt)
  else
    trap_dispatch tf ;;
    (* Force process exit if it has been killed and is in user space. *)
    exit_if_killed cs ;;
    (* Force process to give up CPU on clock tick. *)
    o <- myproc ;;
    match o with
    | None => ret tt
    | Some p =>
        pr <- get_proc p ;;
        when (bool_decide (p_state pr = RUNNING) && (trapno =? T_IRQ0 + IRQ_TIMER)) yield
    end ;;
    (* Check if the process has been killed since we yielded *)
    exit_if_killed cs.

End trap.

(** * Boot (main.c) *)

Section main.
Context `{Image} `{DiskDriver}.

(** main of the boot processor, up to the scheduler.  mpinit, lapicinit,
    seginit, picinit, ioapicinit and startothers program the hardware; [hw] is
    what they do to the modelled state.  [uart]: is there a serial port? *)
Definition main (hw : kernel -> kernel) (uart : bool) : K unit :=
  kinit1 sym_end (P2V (4 * 1024 * 1024)) ;; (* phys page allocator *)
  kvmalloc ;;                               (* kernel page table *)
  modify hw ;;
  consoleinit ;;                            (* console hardware *)
  uartinit uart ;;                          (* serial port *)
  pinit ;;                                  (* process table *)
  tvinit ;;                                 (* trap vectors *)
  binit ;;                                  (* buffer cache *)
  fileinit ;;                               (* file table *)
  ideinit ;;                                (* disk *)
  kinit2 (P2V (4 * 1024 * 1024)) (P2V PHYSTOP) ;; (* must come after startothers() *)
  userinit ;;                               (* first user process *)
  c <- cpuid ;;
  cprintf "cpu%d: starting %d\n" [AInt c; AInt c] ;;
  i <- mycpu ;;
  modify (upd_cpu i (fun x => x <| c_started := 1 |>)).

End main.
