(* ===== verification/User.v ===== *)
(** User programs: a program is a tree of the system calls it makes (user.h).
    Nothing is assumed of the kernel here: a program is run against a handler
    that answers its calls, and a theorem on a program says which handlers it
    is about. *)
From S2P Require Import Prelude Kernel Mem Fsformat Console.
From Stdlib Require Import Ascii.

(** * System calls *)

(** The calls of user.h, with the memory the kernel reads passed by value. *)
Inductive syscall :=
| Fork
| Wait
| Pipe
| Write (fd : Z) (buf : list Z)
| Read (fd n : Z)
| Close (fd : Z)
| Kill (pid : Z)
| Exec (path : list Z) (argv : list (list Z))
| Open (path : list Z) (omode : Z)
| Mknod (path : list Z) (major minor : Z)
| Unlink (path : list Z)
| Fstat (fd : Z)
| Link (old new : list Z)
| Mkdir (path : list Z)
| Chdir (path : list Z)
| Dup (fd : Z)
| Getpid
| Sbrk (n : Z)
| Sleep (n : Z)
| Uptime.

(** What a call gives back: its result, with the memory the kernel fills.
    The bytes of a read count only when the result is positive. *)
Definition reply (c : syscall) : Type :=
  match c with
  | Read _ _ => Z * list Z
  | Pipe => Z * (Z * Z)
  | Fstat _ => Z * stat
  | _ => Z
  end.

(** exit() does not return; [Crash] is an access outside the program's
    objects, [Loop] a loop that runs longer than its fuel. *)
Inductive prog (A : Type) : Type :=
| Ret (a : A)
| Call (c : syscall) (k : reply c -> prog A)
| Exit
| Crash
| Loop.
Arguments Ret {A} a.
Arguments Call {A} c k.
Arguments Exit {A}.
Arguments Crash {A}.
Arguments Loop {A}.

Fixpoint pbind {A B} (p : prog A) (f : A -> prog B) : prog B :=
  match p with
  | Ret a => f a
  | Call c k => Call c (fun r => pbind (k r) f)
  | Exit => Exit
  | Crash => Crash
  | Loop => Loop
  end.
Definition sys (c : syscall) : prog (reply c) := Call c Ret.

Declare Scope user_scope.
Delimit Scope user_scope with user.
Notation "'let*' x := p 'in' q" := (pbind p (fun x => q))
  (at level 200, x name, p at level 100, q at level 200) : user_scope.
Notation "'let*' ' x := p 'in' q" := (pbind p (fun y => match y with x => q end))
  (at level 200, x strict pattern, p at level 100, q at level 200) : user_scope.
Notation "'do*' p 'in' q" := (pbind p (fun _ => q))
  (at level 200, p at level 100, q at level 200) : user_scope.
Open Scope user_scope.

(** * Running a program *)

Inductive outcome (A : Type) := Done (a : A) | Exited | Crashed | Looped.
Arguments Done {A} a.
Arguments Exited {A}.
Arguments Crashed {A}.
Arguments Looped {A}.

Section run.
Context {W : Type} (handler : forall c, W -> reply c * W).

Fixpoint run_prog {A} (p : prog A) (w : W) : outcome A * W :=
  match p with
  | Ret a => (Done a, w)
  | Call c k => let '(r, w') := handler c w in run_prog (k r) w'
  | Exit => (Exited, w)
  | Crash => (Crashed, w)
  | Loop => (Looped, w)
  end.

Definition then_ {A B} (x : outcome A * W) (f : A -> W -> outcome B * W) : outcome B * W :=
  match x.1 with
  | Done a => f a x.2
  | Exited => (Exited, x.2)
  | Crashed => (Crashed, x.2)
  | Looped => (Looped, x.2)
  end.

Lemma run_bind {A B} (p : prog A) (f : A -> prog B) w :
  run_prog (pbind p f) w = then_ (run_prog p w) (fun a => run_prog (f a)).
Proof.
  revert w. induction p as [a|c k IH| | |]; intros w; try done.
  simpl. destruct (handler c w) as [r w']. apply IH.
Qed.

(** A program that finishes hands its result to the rest. *)
Lemma run_done {A B} (p : prog A) (f : A -> prog B) w a w' :
  run_prog p w = (Done a, w') -> run_prog (pbind p f) w = run_prog (f a) w'.
Proof. intros E. rewrite run_bind, E. done. Qed.

Lemma run_exited {A B} (p : prog A) (f : A -> prog B) w w' :
  run_prog p w = (Exited, w') -> run_prog (pbind p f) w = (Exited, w').
Proof. intros E. rewrite run_bind, E. done. Qed.
End run.

(** * printf.c *)

Definition udigits : list Z := bytes "0123456789ABCDEF".

Definition putc (fd c : Z) : prog unit := do* sys (Write fd [u8 c]) in Ret tt.
Fixpoint putcs (fd : Z) (s : list Z) : prog unit :=
  match s with [] => Ret tt | c :: s' => do* putc fd c in putcs fd s' end.

(** do buf[i++] = digits[x % base]; while((x /= base) != 0) *)
Fixpoint uprintint_digits (n : nat) (x base : Z) : list Z :=
  match n with
  | O => []
  | S n' =>
      zget udigits (x mod base) ::
      (if nz (x / base) then uprintint_digits n' (x / base) base else [])
  end.
Definition uprintint_buf (xx base : Z) (sgn : bool) : list Z :=
  let neg := sgn && (i32 xx <? 0) in
  let x := if neg then u32 (- i32 xx) else u32 xx in
  uprintint_digits 32 x base ++ (if neg then [ord "-"] else []).
Definition uprintint (fd xx base : Z) (sgn : bool) : prog unit :=
  putcs fd (rev (uprintint_buf xx base sgn)).

(** The loop over the format; [state] is set after a percent sign. *)
Fixpoint printf_loop (fd : Z) (fmt : list Z) (state : bool) (ap : list parg) : prog unit :=
  match fmt with
  | [] => Ret tt
  | c :: fmt' =>
      if negb state then
        if c =? ord "%" then printf_loop fd fmt' true ap
        else do* putc fd c in printf_loop fd fmt' false ap
      else if c =? ord "d" then
        do* uprintint fd (arg_int ap) 10 true in printf_loop fd fmt' false (tail ap)
      else if (c =? ord "x") || (c =? ord "p") then
        do* uprintint fd (arg_int ap) 16 false in printf_loop fd fmt' false (tail ap)
      else if c =? ord "s" then
        do* putcs fd (arg_str ap) in printf_loop fd fmt' false (tail ap)
      else if c =? ord "c" then
        do* putc fd (arg_int ap) in printf_loop fd fmt' false (tail ap)
      else if c =? ord "%" then do* putc fd c in printf_loop fd fmt' false ap
      else do* putc fd (ord "%") in do* putc fd c in printf_loop fd fmt' false ap
  end.
Definition printf (fd : Z) (fmt : string) (args : list parg) : prog unit :=
  printf_loop fd (bytes fmt) false args.

(** * Programs for all answers of the kernel *)

(** However its calls are answered, the program exits or returns a value with
    [P]; it never crashes and never runs out of fuel. *)
Fixpoint returns {A} (P : A -> Prop) (p : prog A) : Prop :=
  match p with
  | Ret a => P a
  | Call c k => forall r, returns P (k r)
  | Exit => True
  | Crash | Loop => False
  end.

Lemma returns_bind {A B} (P : A -> Prop) (Q : B -> Prop) (p : prog A) (f : A -> prog B) :
  returns P p -> (forall a, P a -> returns Q (f a)) -> returns Q (pbind p f).
Proof. intros Hp Hf. induction p as [a|c k IH| | |]; simpl in *; auto. Qed.

Lemma returns_mono {A} (P Q : A -> Prop) (p : prog A) :
  (forall a, P a -> Q a) -> returns P p -> returns Q p.
Proof. intros Hi. induction p as [a|c k IH| | |]; simpl; auto. Qed.

Lemma returns_sys c : returns (fun _ => True) (sys c).
Proof. done. Qed.

Lemma returns_putc fd c : returns (fun _ => True) (putc fd c).
Proof. done. Qed.

Lemma returns_putcs fd s : returns (fun _ => True) (putcs fd s).
Proof. induction s as [|c s IH]; simpl; auto. Qed.

Create HintDb userdb discriminated.
#[export] Hint Resolve returns_sys returns_putc returns_putcs : userdb.

Lemma returns_then {A B} (Q : B -> Prop) (p : prog A) (q : prog B) :
  returns (fun _ => True) p -> returns Q q -> returns Q (pbind p (fun _ => q)).
Proof. intros Hp Hq. by eapply returns_bind. Qed.

Lemma returns_printf_loop fd fmt : forall state args,
  returns (fun _ => True) (printf_loop fd fmt state args).
Proof.
  induction fmt as [|c fmt IH]; intros state args; [done|]. cbn [printf_loop]. unfold uprintint.
  repeat case_match; repeat (apply returns_then; [auto with userdb|]); apply IH.
Qed.

Lemma returns_printf fd fmt args : returns (fun _ => True) (printf fd fmt args).
Proof. apply returns_printf_loop. Qed.
#[export] Hint Resolve returns_printf : userdb.
