(* ===== verification/Ulib.v ===== *)
(** ulib.c: the string routines, [gets], [stat] and [atoi] of the programs'
    library.  A string is the list of bytes from its pointer on; it ends at the
    first NUL, or with the list. *)
From S2P Require Import Prelude Kernel Mem Fsformat Console User.
From Stdlib Require Import Ascii.

(** The characters of the C string at the head of a buffer. *)
Fixpoint cstr (s : list Z) : list Z :=
  match s with
  | [] => []
  | c :: s' => if c =? 0 then [] else c :: cstr s'
  end.

(** Copy up to and including the NUL; [s] is the buffer from its pointer on. *)
Fixpoint strcpy (s t : list Z) : list Z :=
  match s with
  | [] => []
  | _ :: s' =>
      match t with
      | [] => 0 :: s'
      | c :: t' => if c =? 0 then 0 :: s' else c :: strcpy s' t'
      end
  end.

Fixpoint strcmp (p q : list Z) : Z :=
  let q0 := match q with [] => 0 | c :: _ => c end in
  match p with
  | [] => u8 0 - u8 q0
  | c :: p' => if nz c && (c =? q0) then strcmp p' (tail q) else u8 c - u8 q0
  end.

Fixpoint strlen (s : list Z) : nat :=
  match s with
  | [] => O
  | c :: s' => if c =? 0 then O else S (strlen s')
  end.

(** stosb(dst, c, n) at offset [dst] of an object. *)
Definition memset (s : list Z) (dst : nat) (c : Z) (n : nat) : list Z :=
  put_bytes s dst (replicate n (u8 c)).

Fixpoint strchr (s : list Z) (c : Z) : option nat :=
  match s with
  | [] => None
  | d :: s' => if d =? 0 then None else if d =? c then Some O else S <$> strchr s' c
  end.

(** for(i=0; i+1 < max; ) *)
Fixpoint gets_loop (n : nat) (buf : list Z) (i max : Z) : prog (list Z) :=
  match n with
  | O => Loop
  | S n' =>
      if negb (i + 1 <? max) then Ret (zset buf i 0)
      else
        let* '(cc, b) := sys (Read 0 1) in
        if cc <? 1 then Ret (zset buf i 0)
        else
          let c := zget b 0 in
          let buf := zset buf i c in
          if (c =? 10) || (c =? 13) then Ret (zset buf (i + 1) 0)
          else gets_loop n' buf (i + 1) max
  end.
Definition gets (buf : list Z) (max : Z) : prog (list Z) :=
  gets_loop (S (Z.to_nat max)) buf 0 max.

(** The result of fstat with the structure it fills. *)
Definition stat (n : list Z) : prog (Z * Fsformat.stat) :=
  let* fd := sys (Open n O_RDONLY) in
  if fd <? 0 then Ret (-1, mkStat 0 0 0 0 0)
  else
    let* '(r, st) := sys (Fstat fd) in
    do* sys (Close fd) in
    Ret (r, st).

Fixpoint atoi_loop (n : Z) (s : list Z) : Z :=
  match s with
  | [] => n
  | c :: s' =>
      if (ord "0" <=? c) && (c <=? ord "9") then atoi_loop (i32 (n * 10 + c - ord "0")) s'
      else n
  end.
Definition atoi (s : list Z) : Z := atoi_loop 0 s.

(** while(n-- > 0) *dst++ = *src++, between two offsets of one object: the
    copy always goes upwards. *)
Fixpoint memmove (s : list Z) (dst src : nat) (n : nat) : list Z :=
  match n with
  | O => s
  | S n' => memmove (<[dst := s !!! src]> s) (S dst) (S src) n'
  end.

(** * Facts *)

Lemma strlen_cstr s : strlen s = length (cstr s).
Proof. induction s as [|c s IH]; simpl; [done|]. destruct (c =? 0); simpl; auto. Qed.

Lemma cstr_app_nul s t : Forall (fun c => c <> 0) s -> cstr (s ++ 0 :: t) = s.
Proof.
  induction 1 as [|c s Hc _ IH]; simpl; [done|].
  destruct (Z.eqb_spec c 0); [done|]. by rewrite IH.
Qed.

Lemma cstr_nulfree s : Forall (fun c => c <> 0) (cstr s).
Proof.
  induction s as [|c s IH]; simpl; [constructor|].
  destruct (Z.eqb_spec c 0); constructor; auto.
Qed.

(** strchr finds the first occurrence before the NUL. *)
Lemma strchr_some s c i :
  strchr s c = Some i <->
  s !! i = Some c /\ c <> 0 /\ forall j d, (j < i)%nat -> s !! j = Some d -> d <> c /\ d <> 0.
Proof.
  revert i. induction s as [|d s IH]; intros i; simpl; [split; [done|by intros [? _]]|].
  destruct (Z.eqb_spec d 0) as [->|Hd].
  - split; [done|]. intros (Hi & Hc & Hj). destruct i as [|i]; [naive_solver|].
    destruct (Hj O 0 ltac:(lia) eq_refl) as [_ []]. done.
  - destruct (Z.eqb_spec d c) as [->|Hc].
    + split; [intros [= <-]|intros (Hi & ? & Hj)].
      * split_and!; [done|done|]. intros; lia.
      * destruct i as [|i]; [done|]. by destruct (Hj O c ltac:(lia) eq_refl).
    + rewrite fmap_Some. split.
      * intros (k & Hk & ->). apply IH in Hk as (Hi & ? & Hj). split_and!; [done|done|].
        intros [|j] e ? He; simpl in He; [by simplify_eq|]. eapply Hj; [|done]. lia.
      * intros (Hi & ? & Hj). destruct i as [|i]; [by simplify_eq/=|].
        exists i. split; [|done]. apply IH. split_and!; [done|done|].
        intros j e ? He. apply (Hj (S j) e); [lia|done].
Qed.

Lemma strchr_none s c : strchr s c = None <-> c ∉ cstr s.
Proof.
  induction s as [|d s IH]; simpl; [set_solver|].
  destruct (Z.eqb_spec d 0); [set_solver|].
  destruct (Z.eqb_spec d c); [set_solver|].
  rewrite fmap_None, IH. set_solver.
Qed.

(** strchr as a membership test on a constant string. *)
Lemma strchr_existsb s c : Forall (fun d => d <> 0) s ->
  (if strchr s c then true else false) = existsb (Z.eqb c) s.
Proof.
  induction 1 as [|d s Hd _ IH]; simpl; [done|]. rewrite (Z.eqb_sym c d).
  destruct (Z.eqb_spec d 0); [done|]. destruct (d =? c); [done|].
  rewrite <- IH. by destruct (strchr s c).
Qed.

(** Moving down within a buffer copies as if through another one. *)
Lemma memmove_down n : forall s dst src,
  (dst <= src)%nat -> (src + n <= length s)%nat ->
  memmove s dst src n = put_bytes s dst (take n (drop src s)).
Proof.
  induction n as [|n IH]; intros s dst src Hds Hl; simpl.
  - unfold put_bytes. simpl. rewrite Nat.add_0_r. by rewrite take_drop.
  - destruct (lookup_lt_is_Some_2 s src ltac:(lia)) as [c Hc].
    rewrite (list_lookup_total_correct _ _ _ Hc).
    rewrite IH by (rewrite ?length_insert; lia).
    rewrite (drop_S s c src) by done. simpl. unfold put_bytes.
    rewrite drop_insert_lt by lia. rewrite !length_cons.
    replace (take (S dst) (<[dst:=c]> s)) with (take dst s ++ [c]).
    2:{ symmetry. rewrite (take_S_r _ _ c).
        - by rewrite take_insert_ge by lia.
        - by rewrite list_lookup_insert_eq by lia. }
    rewrite <- app_assoc. simpl. do 3 f_equal.
    rewrite drop_insert_lt by lia. f_equal. lia.
Qed.
