(* ===== verification/Stream.v ===== *)
(** A program between an input and its outputs: the handler that serves reads
    from a stream that arrives in pieces of any size and collects what is
    written.  The theorems on filters are about this handler. *)
From S2P Require Import Prelude Kernel Mem Fsformat Console User Ulib.
From Stdlib Require Import Ascii.

(** What is still to be read, and what was written to descriptor 1 and to the
    others. *)
Record io := mkIo { io_in : list (list Z); io_out : list Z; io_err : list Z }.

(** A read takes at most one piece; a piece longer than the request is cut. *)
Definition io_read (n : Z) (w : io) : (Z * list Z) * io :=
  match io_in w with
  | [] => ((0, []), w)
  | c :: cs =>
      if zlen c <=? n then ((zlen c, c), mkIo cs (io_out w) (io_err w))
      else let b := take (Z.to_nat n) c in
           ((zlen b, b), mkIo (drop (Z.to_nat n) c :: cs) (io_out w) (io_err w))
  end.

Definition io_write (fd : Z) (buf : list Z) (w : io) : io :=
  if fd =? 1 then mkIo (io_in w) (io_out w ++ buf) (io_err w)
  else mkIo (io_in w) (io_out w) (io_err w ++ buf).

Definition io_step (c : syscall) (w : io) : reply c * io :=
  match c with
  | Read _ n => io_read n w
  | Write fd buf => (zlen buf, io_write fd buf w)
  | Pipe => ((-1, (0, 0)), w)
  | Fstat _ => ((-1, mkStat 0 0 0 0 0), w)
  | _ => (-1, w)
  end.

Notation runs p w := (run_prog io_step p w).

(** * Facts *)

Lemma io_write_app fd a b w : io_write fd b (io_write fd a w) = io_write fd (a ++ b) w.
Proof. unfold io_write. destruct (fd =? 1); simpl; by rewrite <- app_assoc. Qed.

Lemma io_write_1 i out err b : io_write 1 b (mkIo i out err) = mkIo i (out ++ b) err.
Proof. done. Qed.

Lemma io_write_nil fd w : io_write fd [] w = w.
Proof. destruct w. unfold io_write. destruct (fd =? 1); simpl; by rewrite app_nil_r. Qed.

Lemma write_runs fd buf w : runs (sys (Write fd buf)) w = (Done (zlen buf), io_write fd buf w).
Proof. done. Qed.

Lemma putc_runs fd c w : runs (putc fd c) w = (Done tt, io_write fd [u8 c] w).
Proof. done. Qed.

Lemma putcs_runs fd s w : runs (putcs fd s) w = (Done tt, io_write fd (u8 <$> s) w).
Proof.
  revert w. induction s as [|c s IH]; intros w; simpl; [by rewrite io_write_nil|].
  rewrite IH, io_write_app. done.
Qed.

(** What printf writes, as a function of the format and the arguments. *)
Fixpoint urender (fmt : list Z) (state : bool) (ap : list parg) : list Z :=
  match fmt with
  | [] => []
  | c :: fmt' =>
      if negb state then
        if c =? ord "%" then urender fmt' true ap else [c] ++ urender fmt' false ap
      else if c =? ord "d" then
        rev (uprintint_buf (arg_int ap) 10 true) ++ urender fmt' false (tail ap)
      else if (c =? ord "x") || (c =? ord "p") then
        rev (uprintint_buf (arg_int ap) 16 false) ++ urender fmt' false (tail ap)
      else if c =? ord "s" then arg_str ap ++ urender fmt' false (tail ap)
      else if c =? ord "c" then [arg_int ap] ++ urender fmt' false (tail ap)
      else if c =? ord "%" then [c] ++ urender fmt' false ap
      else [ord "%"] ++ [c] ++ urender fmt' false ap
  end.

Lemma printf_loop_runs fd fmt : forall state ap w,
  runs (printf_loop fd fmt state ap) w = (Done tt, io_write fd (u8 <$> urender fmt state ap) w).
Proof.
  induction fmt as [|c fmt IH]; intros state ap w; cbn [printf_loop urender].
  { by rewrite io_write_nil. }
  unfold uprintint.
  repeat case_match;
    repeat (rewrite run_bind, ?putcs_runs, ?putc_runs; cbn [then_ fst snd]);
    by rewrite IH, ?fmap_app, <- ?io_write_app.
Qed.

Lemma printf_runs fd fmt args w :
  runs (printf fd fmt args) w = (Done tt, io_write fd (u8 <$> urender (bytes fmt) false args) w).
Proof. apply printf_loop_runs. Qed.

(** A read from a stream that is there as a whole takes all that fits. *)
Lemma read_whole fd n s out err :
  0 < n -> s <> [] ->
  runs (sys (Read fd n)) (mkIo [s] out err) =
  let b := take (Z.to_nat n) s in
  (Done (zlen b, b),
   mkIo (if zlen s <=? n then [] else [drop (Z.to_nat n) s]) out err).
Proof.
  intros Hn Hs. simpl. unfold io_read. simpl. unfold zlen.
  destruct (Z.leb_spec (Z.of_nat (length s)) n); [|done].
  by rewrite (take_ge s) by lia.
Qed.

(** A stream in non-empty pieces: every read gives the next bytes of it. *)
Definition pieces_ok (cs : list (list Z)) : Prop := Forall (fun c => c <> []) cs.

Lemma read_pieces fd n cs out err :
  0 < n -> pieces_ok cs -> cs <> [] ->
  exists b cs', runs (sys (Read fd n)) (mkIo cs out err) = (Done (zlen b, b), mkIo cs' out err) /\
    b <> [] /\ zlen b <= n /\ pieces_ok cs' /\ mjoin cs = b ++ mjoin cs'.
Proof.
  intros Hn Hok Hcs. destruct cs as [|c cs]; [done|]. apply Forall_cons_1 in Hok as [Hc Hok].
  simpl. unfold io_read. simpl. unfold zlen in *.
  destruct (Z.leb_spec (Z.of_nat (length c)) n).
  - by exists c, cs.
  - exists (take (Z.to_nat n) c), (drop (Z.to_nat n) c :: cs). split_and!.
    + done.
    + intros E. apply (f_equal length) in E. rewrite length_take in E. simpl in E. lia.
    + rewrite length_take. lia.
    + constructor; [|done]. intros E. apply (f_equal length) in E.
      rewrite length_drop in E. simpl in E. lia.
    + simpl. by rewrite app_assoc, take_drop.
Qed.

Lemma zlen_pos {A} (l : list A) : l <> [] -> 0 < zlen l.
Proof. destruct l; [done|]. unfold zlen. simpl. lia. Qed.
