(* ===== verification/Progs.v ===== *)
(** The small programs: cat, wc, echo, kill, ln, mkdir, rm, zombie, init, ls,
    forktest, stressfs, and the displays klogs and sysdash.  A loop that ends
    only when the kernel says so takes its number of rounds as an argument. *)
From S2P Require Import Prelude Kernel Mem Fsformat Console User Ulib.
From Stdlib Require Import Ascii.

(** * cat.c *)

Fixpoint cat (fuel : nat) (fd : Z) : prog unit :=
  match fuel with
  | O => Loop
  | S fuel' =>
      let* '(n, b) := sys (Read fd 512) in
      if 0 <? n then
        let* r := sys (Write 1 (take (Z.to_nat n) b)) in
        if negb (r =? n) then do* printf 1 "cat: write error\n" [] in Exit
        else cat fuel' fd
      else if n <? 0 then do* printf 1 "cat: read error\n" [] in Exit
      else Ret tt
  end.

(** for(i = 1; i < argc; i++), with the name of the program in the message. *)
Fixpoint cat_files (fuel : nat) (files : list (list Z)) : prog unit :=
  match files with
  | [] => Ret tt
  | f :: files' =>
      let* fd := sys (Open f 0) in
      if fd <? 0 then do* printf 1 "cat: cannot open %s\n" [AStr (Some f)] in Exit
      else do* cat fuel fd in do* sys (Close fd) in cat_files fuel files'
  end.
Definition cat_main (fuel : nat) (argv : list (list Z)) : prog unit :=
  match argv with
  | [] | [_] => do* cat fuel 0 in Exit
  | _ :: files => do* cat_files fuel files in Exit
  end.

(** * wc.c *)

Record counts := mkCounts { wl : Z; ww : Z; wcs : Z; inword : bool }.

(** The body of the loop over buf[]; the string of blanks is space, return,
    tab, newline and vertical tab. *)
Definition blanks : list Z := [32; 13; 9; 10; 11].
Definition wc_char (x : counts) (c : Z) : counts :=
  let cs := i32 (wcs x + 1) in
  let l := if c =? 10 then i32 (wl x + 1) else wl x in
  match strchr blanks c with
  | Some _ => mkCounts l (ww x) cs false
  | None => if inword x then mkCounts l (ww x) cs true
            else mkCounts l (i32 (ww x + 1)) cs true
  end.

Fixpoint wc_loop (fuel : nat) (fd : Z) (name : list Z) (x : counts) : prog unit :=
  match fuel with
  | O => Loop
  | S fuel' =>
      let* '(n, b) := sys (Read fd 512) in
      if 0 <? n then wc_loop fuel' fd name (foldl wc_char x (take (Z.to_nat n) b))
      else if n <? 0 then do* printf 1 "wc: read error\n" [] in Exit
      else printf 1 "%d %d %d %s\n" [AInt (wl x); AInt (ww x); AInt (wcs x); AStr (Some name)]
  end.
Definition wc (fuel : nat) (fd : Z) (name : list Z) : prog unit :=
  wc_loop fuel fd name (mkCounts 0 0 0 false).

Fixpoint wc_files (fuel : nat) (files : list (list Z)) : prog unit :=
  match files with
  | [] => Ret tt
  | f :: files' =>
      let* fd := sys (Open f 0) in
      if fd <? 0 then do* printf 1 "wc: cannot open %s\n" [AStr (Some f)] in Exit
      else do* wc fuel fd f in do* sys (Close fd) in wc_files fuel files'
  end.
Definition wc_main (fuel : nat) (argv : list (list Z)) : prog unit :=
  match argv with
  | [] | [_] => do* wc fuel 0 [] in Exit
  | _ :: files => do* wc_files fuel files in Exit
  end.

(** * echo.c, kill.c, ln.c, mkdir.c, rm.c, zombie.c *)

Fixpoint echo_args (args : list (list Z)) : prog unit :=
  match args with
  | [] => Ret tt
  | a :: args' =>
      let sep := match args' with [] => bytes "\n" | _ => bytes " " end in
      do* printf 1 "%s%s" [AStr (Some a); AStr (Some sep)] in echo_args args'
  end.
Definition echo_main (argv : list (list Z)) : prog unit :=
  do* echo_args (tail argv) in Exit.

Fixpoint kill_args (args : list (list Z)) : prog unit :=
  match args with
  | [] => Ret tt
  | a :: args' => do* sys (Kill (atoi a)) in kill_args args'
  end.
Definition kill_main (argv : list (list Z)) : prog unit :=
  match argv with
  | [] | [_] => do* printf 2 "usage: kill pid...\n" [] in Exit
  | _ :: args => do* kill_args args in Exit
  end.

Definition ln_main (argv : list (list Z)) : prog unit :=
  match argv with
  | [_; old; new] =>
      let* r := sys (Link old new) in
      if r <? 0 then
        do* printf 2 "link %s %s: failed\n" [AStr (Some old); AStr (Some new)] in Exit
      else Exit
  | _ => do* printf 2 "Usage: ln old new\n" [] in Exit
  end.

Fixpoint mkdir_args (args : list (list Z)) : prog unit :=
  match args with
  | [] => Ret tt
  | a :: args' =>
      let* r := sys (Mkdir a) in
      if r <? 0 then printf 2 "mkdir: %s failed to create\n" [AStr (Some a)]
      else mkdir_args args'
  end.
Definition mkdir_main (argv : list (list Z)) : prog unit :=
  match argv with
  | [] | [_] => do* printf 2 "Usage: mkdir files...\n" [] in Exit
  | _ :: args => do* mkdir_args args in Exit
  end.

Fixpoint rm_args (args : list (list Z)) : prog unit :=
  match args with
  | [] => Ret tt
  | a :: args' =>
      let* r := sys (Unlink a) in
      if r <? 0 then printf 2 "rm: %s failed to delete\n" [AStr (Some a)]
      else rm_args args'
  end.
Definition rm_main (argv : list (list Z)) : prog unit :=
  match argv with
  | [] | [_] => do* printf 2 "Usage: rm files...\n" [] in Exit
  | _ :: args => do* rm_args args in Exit
  end.

Definition zombie_main : prog unit :=
  let* pid := sys Fork in
  if 0 <? pid then do* sys (Sleep 5) in Exit else Exit.

(** * init.c *)

(** while((wpid=wait()) >= 0 && wpid != pid) *)
Fixpoint init_wait (fuel : nat) (pid : Z) : prog unit :=
  match fuel with
  | O => Loop
  | S fuel' =>
      let* wpid := sys Wait in
      if (0 <=? wpid) && negb (wpid =? pid) then
        do* printf 1 "zombie!\n" [] in init_wait fuel' pid
      else Ret tt
  end.
Fixpoint init_loop (fuel : nat) : prog unit :=
  match fuel with
  | O => Loop
  | S fuel' =>
      do* printf 1 "init: starting sh\n" [] in
      let* pid := sys Fork in
      if pid <? 0 then do* printf 1 "init: fork failed\n" [] in Exit
      else if pid =? 0 then
        do* sys (Exec (bytes "sh") [bytes "sh"]) in
        do* printf 1 "init: exec sh failed\n" [] in Exit
      else do* init_wait fuel pid in init_loop fuel'
  end.
Definition init_main (fuel : nat) : prog unit :=
  let* fd := sys (Open (bytes "console") O_RDWR) in
  do* (if fd <? 0 then
         do* sys (Mknod (bytes "console") 1 1) in
         do* sys (Open (bytes "console") O_RDWR) in Ret tt
       else Ret tt) in
  do* sys (Dup 0) in
  do* sys (Dup 0) in
  init_loop fuel.

(** * ls.c *)

(** The offset behind the last slash: p runs down from the end of the path. *)
Fixpoint after_slash (path : list Z) : list Z :=
  match path with
  | [] => []
  | c :: path' => if existsb (Z.eqb (ord "/")) path' then after_slash path'
                  else if c =? ord "/" then path' else path
  end.
(** The name padded with blanks to DIRSIZ; the byte behind buf[]'s DIRSIZ is
    the zero of a static array. *)
Definition fmtname (path : list Z) : list Z :=
  let p := after_slash path in
  if DIRSIZ <=? zlen p then p
  else p ++ replicate (Z.to_nat (DIRSIZ - zlen p)) (ord " ").

Definition ls_line (name : list Z) (st : Fsformat.stat) : prog unit :=
  printf 1 "%s %d %d %d\n"
    [AStr (Some (fmtname name)); AInt (st_type st); AInt (st_ino st); AInt (st_size st)].

(** while(read(fd, &de, sizeof(de)) == sizeof(de)); [buf] is the path with the slash. *)
Fixpoint ls_dir (fuel : nat) (fd : Z) (buf : list Z) : prog unit :=
  match fuel with
  | O => Loop
  | S fuel' =>
      let* '(n, de) := sys (Read fd sizeof_dirent) in
      if negb (n =? sizeof_dirent) then Ret tt
      else if de_inum de =? 0 then ls_dir fuel' fd buf
      else
        let name := buf ++ cstr (take (Z.to_nat DIRSIZ) (de_name de)) in
        let* '(r, st) := stat name in
        if r <? 0 then
          do* printf 1 "ls: cannot stat %s\n" [AStr (Some name)] in ls_dir fuel' fd buf
        else do* ls_line name st in ls_dir fuel' fd buf
  end.
Definition ls (fuel : nat) (path : list Z) : prog unit :=
  let* fd := sys (Open path 0) in
  if fd <? 0 then printf 2 "ls: cannot open %s\n" [AStr (Some path)]
  else
    let* '(r, st) := sys (Fstat fd) in
    if r <? 0 then
      do* printf 2 "ls: cannot stat %s\n" [AStr (Some path)] in
      do* sys (Close fd) in Ret tt
    else
      do* (if st_type st =? T_FILE then ls_line path st
           else if st_type st =? T_DIR then
             if 512 <? zlen path + 1 + DIRSIZ + 1 then printf 1 "ls: path too long\n" []
             else ls_dir fuel fd (path ++ [ord "/"])
           else Ret tt) in
      do* sys (Close fd) in Ret tt.
Fixpoint ls_args (fuel : nat) (args : list (list Z)) : prog unit :=
  match args with
  | [] => Ret tt
  | a :: args' => do* ls fuel a in ls_args fuel args'
  end.
Definition ls_main (fuel : nat) (argv : list (list Z)) : prog unit :=
  match argv with
  | [] | [_] => do* ls fuel (bytes ".") in Exit
  | _ :: args => do* ls_args fuel args in Exit
  end.

(** * forktest.c *)

(** Its own printf writes the format alone. *)
Definition ft_printf (fd : Z) (s : list Z) : prog unit := do* sys (Write fd s) in Ret tt.

(** for(n=0; n<N; n++): the number of children. *)
Fixpoint ft_forks (left : nat) (n : Z) : prog Z :=
  match left with
  | O => Ret n
  | S left' =>
      let* pid := sys Fork in
      if pid <? 0 then Ret n else if pid =? 0 then Exit else ft_forks left' (n + 1)
  end.
Fixpoint ft_waits (n : nat) : prog unit :=
  match n with
  | O => Ret tt
  | S n' =>
      let* r := sys Wait in
      if r <? 0 then do* ft_printf 1 (bytes "wait stopped early\n") in Exit else ft_waits n'
  end.
Definition forktest : prog unit :=
  do* ft_printf 1 (bytes "fork test\n") in
  let* n := ft_forks 1000 0 in
  if n =? 1000 then do* ft_printf 1 (bytes "fork claimed to work N times!\n") in Exit
  else
    do* ft_waits (Z.to_nat n) in
    let* r := sys Wait in
    if negb (r =? -1) then do* ft_printf 1 (bytes "wait got too many\n") in Exit
    else ft_printf 1 (bytes "fork test OK\n").
Definition forktest_main : prog unit := do* forktest in Exit.

(** * stressfs.c *)

(** for(i = 0; i < 4; i++) if(fork() > 0) break; *)
Fixpoint sf_forks (left : nat) (i : Z) : prog Z :=
  match left with
  | O => Ret i
  | S left' => let* r := sys Fork in if 0 <? r then Ret i else sf_forks left' (i + 1)
  end.
Fixpoint repeat_sys (n : nat) (c : syscall) : prog unit :=
  match n with O => Ret tt | S n' => do* sys c in repeat_sys n' c end.
Definition stressfs_main : prog unit :=
  do* printf 1 "stressfs starting\n" [] in
  let data := replicate 512 (ord "a") in
  let* i := sf_forks 4 0 in
  do* printf 1 "write %d\n" [AInt i] in
  let path := bytes "stressfs" ++ [u8 (ord "0" + i)] in
  let* fd := sys (Open path (Z.lor O_CREATE O_RDWR)) in
  do* repeat_sys 20 (Write fd data) in
  do* sys (Close fd) in
  do* printf 1 "read\n" [] in
  let* fd := sys (Open path O_RDONLY) in
  do* repeat_sys 20 (Read fd 512) in
  do* sys (Close fd) in
  do* sys Wait in
  Exit.

(** * klogs.c, sysdash.c *)

(** The displays call system calls that no source file defines; what they get
    from them is an argument here. *)

Definition event_names : list (list Z) :=
  [bytes "SYSCALL"; bytes "TRAP"; bytes "FORK"; bytes "EXIT"; bytes "SCHED"].
Definition event_name (ty : Z) : list Z :=
  if (0 <=? ty) && (ty <? 5) then zget event_names ty else bytes "UNKNOWN".
Fixpoint klogs_entries (es : list logentry) : prog unit :=
  match es with
  | [] => Ret tt
  | x :: es' =>
      do* printf 1 "%d | %s | %d | %d\n"
        [AInt (timestamp x); AStr (Some (event_name (event_type x))); AInt (e_pid x); AInt (extra x)] in
      klogs_entries es'
  end.
(** [got]: the result of getklogs and the entries it filled. *)
Definition klogs_show (got : Z * list logentry) : prog unit :=
  let '(n, entries) := got in
  if n <? 0 then do* printf 1 "klogs: failed to get kernel logs\n" [] in Exit
  else
    do* printf 1 "\n========== Kernel Flight Recorder ==========\n" [] in
    do* printf 1 "Total entries: %d\n\n" [AInt n] in
    do* printf 1 "Time  | Event      | PID  | Info\n" [] in
    do* printf 1 "------|------------|------|-----\n" [] in
    do* klogs_entries (take (Z.to_nat n) entries) in
    Exit.

(** The members sysdash.c uses of struct kstat and struct pstat. *)
Record kstat := mkKstat { ks_uptime : Z; ks_cputemp : Z; ks_cpuload : Z; ks_numproc : Z }.
Record pstat := mkPstat { ps_pid : Z; ps_name : list Z; ps_state : list Z; ps_sz : Z }.

Fixpoint sysdash_procs (ps : list pstat) : prog unit :=
  match ps with
  | [] => Ret tt
  | p :: ps' =>
      do* printf 1 "%d | %s | %s | %d\n"
        [AInt (ps_pid p); AStr (Some (ps_name p)); AStr (Some (ps_state p)); AInt (ps_sz p)] in
      sysdash_procs ps'
  end.
Definition sysdash_show (gotks : Z * kstat) (gotps : Z * list pstat) : prog unit :=
  let '(r, ks) := gotks in
  if r <? 0 then do* printf 2 "Error getting kernel stats\n" [] in Exit
  else
    let '(n, procs) := gotps in
    if n <? 0 then do* printf 2 "Error getting process stats\n" [] in Exit
    else
      do* printf 1 "\n========== xv6 System Dashboard ==========\n" [] in
      do* printf 1 "Uptime: %d ticks | CPU Temp: %d C | CPU Load: %d%%\n"
        [AInt (ks_uptime ks); AInt (ks_cputemp ks); AInt (ks_cpuload ks)] in
      do* printf 1 "Active Processes: %d\n" [AInt (ks_numproc ks)] in
      do* printf 1 "==========================================\n\n" [] in
      do* printf 1 "PID | Name       | State     | Memory\n" [] in
      do* printf 1 "----+------------+-----------+--------\n" [] in
      do* sysdash_procs (take (Z.to_nat n) procs) in
      do* printf 1 "\n" [] in
      do* (if 80 <? ks_cputemp ks then printf 1 "WARNING: CPU temperature high!\n" [] else Ret tt) in
      Exit.
