(* ===== verification/ProgsFacts.v ===== *)
(** cat copies its input and wc counts it, in whatever pieces it arrives. *)
From S2P Require Import Prelude Kernel Mem Fsformat Console User Ulib Stream Progs.
From Stdlib Require Import Ascii.

Lemma cat_runs fuel fd : forall cs out err,
  pieces_ok cs -> (length (mjoin cs) < fuel)%nat ->
  runs (cat fuel fd) (mkIo cs out err) = (Done tt, mkIo [] (out ++ mjoin cs) err).
Proof.
  induction fuel as [|fuel IH]; intros cs out err Hok Hf; [lia|]. cbn [cat].
  destruct (decide (cs = [])) as [->|Hne]; [simpl; by rewrite app_nil_r|].
  destruct (read_pieces fd 512 cs out err) as (b & cs' & Hr & Hb & _ & Hok' & Hj); [lia|done|done|].
  rewrite run_bind, Hr. cbn [then_ fst snd]. pose proof (zlen_pos b Hb).
  rewrite (proj2 (Z.ltb_lt _ _)) by done.
  unfold zlen. rewrite Nat2Z.id, take_ge, run_bind, write_runs by lia. cbn [then_ fst snd].
  unfold zlen. rewrite Z.eqb_refl. cbn [negb]. unfold io_write. simpl.
  rewrite Hj, length_app in Hf. unfold zlen in *.
  rewrite IH by (done || lia). by rewrite Hj, app_assoc.
Qed.

(** * wc *)

(** Reference: the fields between blanks; a word is a field that is not empty. *)
Definition blank (c : Z) : bool := existsb (Z.eqb c) blanks.
Fixpoint fields_of (s : list Z) : list Z * list (list Z) :=
  match s with
  | [] => ([], [])
  | c :: s' =>
      let '(f, fs) := fields_of s' in if blank c then ([], f :: fs) else (c :: f, fs)
  end.
Definition nonempty {A} (l : list A) : bool := match l with [] => false | _ => true end.
Definition words (s : list Z) : list (list Z) :=
  List.filter nonempty ((fields_of s).1 :: (fields_of s).2).
Definition newlines (s : list Z) : Z := zlen (List.filter (fun c => c =? 10) s).

Lemma strchr_blanks c : (if strchr blanks c then true else false) = blank c.
Proof. apply strchr_existsb. by repeat constructor. Qed.

Lemma i32_add a b : i32 (i32 a + b) = i32 (a + b).
Proof.
  unfold i32. f_equal.
  replace ((a + 2 ^ 31) mod 2 ^ 32 - 2 ^ 31 + b + 2 ^ 31) with ((a + 2 ^ 31) mod 2 ^ 32 + b) by lia.
  rewrite Zplus_mod_idemp_l. f_equal. lia.
Qed.

Definition tally (l w c : Z) (inw : bool) : counts := mkCounts (i32 l) (i32 w) (i32 c) inw.

Lemma wc_char_tally l w c inw d :
  wc_char (tally l w c inw) d =
  tally (l + if d =? 10 then 1 else 0)
        (w + if blank d then 0 else if inw then 0 else 1) (c + 1) (negb (blank d)).
Proof.
  unfold wc_char, tally. cbn [wl ww wcs inword]. rewrite <- strchr_blanks, !i32_add.
  destruct (d =? 10), (strchr blanks d), inw; cbn [negb]; by rewrite ?Z.add_0_r.
Qed.

(** The words of [s] when the text before it ends inside a word or not. *)
Definition word_count (inw : bool) (s : list Z) : Z :=
  zlen (if inw then List.filter nonempty (fields_of s).2 else words s).

Lemma newlines_cons d s : newlines (d :: s) = (if d =? 10 then 1 else 0) + newlines s.
Proof.
  unfold newlines, zlen. cbn [List.filter]. destruct (d =? 10); cbn [length]; lia.
Qed.

Lemma word_count_cons (inw : bool) d s :
  (if blank d then 0 else if inw then 0 else 1) + word_count (negb (blank d)) s =
  word_count inw (d :: s).
Proof.
  unfold word_count, words. simpl. destruct (fields_of s) as [f fs]. simpl.
  destruct (blank d), inw; simpl; unfold zlen; simpl; try lia; destruct f; simpl; lia.
Qed.

Lemma wc_fold s : forall l w c inw, exists inw',
  foldl wc_char (tally l w c inw) s =
  tally (l + newlines s) (w + word_count inw s) (c + zlen s) inw'.
Proof.
  induction s as [|d s IH]; intros l w c inw; simpl.
  - exists inw. unfold newlines, word_count, words, zlen. simpl. by destruct inw; simpl; rewrite !Z.add_0_r.
  - rewrite wc_char_tally. destruct (IH (l + if d =? 10 then 1 else 0)
      (w + if blank d then 0 else if inw then 0 else 1) (c + 1) (negb (blank d))) as [inw' ->].
    exists inw'. rewrite <- !Z.add_assoc. unfold tally.
    rewrite newlines_cons, <- word_count_cons. do 2 f_equal. unfold zlen. simpl. f_equal. lia.
Qed.

(** The line wc prints for a text. *)
Definition wc_line (s name : list Z) : list Z :=
  u8 <$> urender (bytes "%d %d %d %s\n") false
    [AInt (i32 (newlines s)); AInt (i32 (zlen (words s))); AInt (i32 (zlen s)); AStr (Some name)].

Lemma wc_loop_runs fuel fd name : forall cs t inw out err,
  pieces_ok cs -> (length (mjoin cs) < fuel)%nat ->
  foldl wc_char (tally 0 0 0 false) t = tally (newlines t) (zlen (words t)) (zlen t) inw ->
  runs (wc_loop fuel fd name (tally (newlines t) (zlen (words t)) (zlen t) inw)) (mkIo cs out err) =
  (Done tt, mkIo [] (out ++ wc_line (t ++ mjoin cs) name) err).
Proof.
  induction fuel as [|fuel IH]; intros cs t inw out err Hok Hf Ht; [lia|]. cbn [wc_loop].
  destruct (decide (cs = [])) as [->|Hne].
  { rewrite run_bind. change (runs (sys (Read fd 512)) (mkIo [] out err))
      with (@Done (Z * list Z) (0, []), mkIo [] out err). cbn [then_ fst snd Z.ltb Z.compare].
    rewrite printf_runs, io_write_1. change (t ++ mjoin []) with (t ++ []).
    rewrite (app_nil_r t). unfold wc_line, tally. cbn [wl ww wcs]. reflexivity. }
  destruct (read_pieces fd 512 cs out err) as (b & cs' & Hr & Hb & _ & Hok' & Hj); [lia|done|done|].
  rewrite run_bind, Hr. cbn [then_ fst snd]. pose proof (zlen_pos b Hb).
  rewrite (proj2 (Z.ltb_lt _ _)) by done. rewrite take_ge by (unfold zlen; lia).
  rewrite Hj, length_app in Hf. unfold zlen in H.
  rewrite <- Ht, <- foldl_app.
  destruct (wc_fold (t ++ b) 0 0 0 false) as [inw' Hfold]. rewrite !Z.add_0_l in Hfold.
  change (word_count false (t ++ b)) with (zlen (words (t ++ b))) in Hfold.
  rewrite Hfold, IH by (done || lia). by rewrite Hj, app_assoc.
Qed.

(** wc prints the number of lines, words and characters of its input. *)
Lemma wc_runs fuel fd name cs out err :
  pieces_ok cs -> (length (mjoin cs) < fuel)%nat ->
  runs (wc fuel fd name) (mkIo cs out err) =
  (Done tt, mkIo [] (out ++ wc_line (mjoin cs) name) err).
Proof. intros Hok Hf. by apply (wc_loop_runs fuel fd name cs [] false). Qed.
