(* ===== verification/Grep.v ===== *)
(** grep.c: the regular expression matcher and the loop over the lines of its
    input, with the matcher proved equivalent to the language of the pattern. *)
From S2P Require Import Prelude Kernel Mem Fsformat Console User Ulib.
From Stdlib Require Import Ascii.

(** * The matcher *)

(** matchstar(c, re, text): [here] is matchhere(re, _). *)
Fixpoint matchstar (here : list Z -> bool) (c : Z) (text : list Z) : bool :=
  if here text then true
  else
    match text with
    | [] => false
    | t :: text' => if (t =? c) || (c =? ord ".") then matchstar here c text' else false
    end.

Fixpoint matchhere (re text : list Z) {struct re} : bool :=
  match re with
  | [] => true
  | r0 :: re1 =>
      let literal :=
        if (r0 =? ord "$") && bool_decide (re1 = []) then bool_decide (text = [])
        else
          match text with
          | [] => false
          | t :: text' => if (r0 =? ord ".") || (r0 =? t) then matchhere re1 text' else false
          end in
      match re1 with
      | [] => literal
      | r1 :: re2 => if r1 =? ord "*" then matchstar (matchhere re2) r0 text else literal
      end
  end.

(** do if(matchhere(re, text)) return 1; while the character at text++ is not NUL *)
Fixpoint match_loop (re text : list Z) {struct text} : bool :=
  if matchhere re text then true
  else match text with [] => false | _ :: text' => match_loop re text' end.

Definition match_ (re text : list Z) : bool :=
  match re with
  | [] => match_loop re text
  | r0 :: re' => if r0 =? ord "^" then matchhere re' text else match_loop re text
  end.

(** * The loop over the input *)

(** while((q = strchr(p, newline)) != 0): the buffer and the offset p after the last line. *)
Fixpoint grep_lines (n : nat) (pattern buf : list Z) (p : nat) : prog (list Z * nat) :=
  match n with
  | O => Loop
  | S n' =>
      match strchr (drop p buf) 10 with
      | None => Ret (buf, p)
      | Some k =>
          let q := (p + k)%nat in
          let buf := <[q := 0]> buf in
          if match_ pattern (cstr (drop p buf)) then
            let buf := <[q := 10]> buf in
            do* sys (Write 1 (take (S q - p) (drop p buf))) in
            grep_lines n' pattern buf (S q)
          else grep_lines n' pattern buf (S q)
      end
  end.

Definition sizeof_buf : nat := 1024.

(** while((n = read(fd, buf+m, sizeof(buf)-m-1)) > 0), [fuel] times at most. *)
Fixpoint grep_loop (fuel : nat) (pattern buf : list Z) (m : nat) (fd : Z) : prog unit :=
  match fuel with
  | O => Loop
  | S fuel' =>
      let* '(n, b) := sys (Read fd (Z.of_nat (sizeof_buf - m - 1))) in
      if negb (0 <? n) then Ret tt
      else
        let buf := put_bytes buf m (take (Z.to_nat n) b) in
        let m := (m + Z.to_nat n)%nat in
        let buf := <[m := 0]> buf in
        let* '(buf, p) := grep_lines (S sizeof_buf) pattern buf 0 in
        let m := if bool_decide (p = O) then O else m in
        if bool_decide (0 < m)%nat then
          let m := (m - p)%nat in
          grep_loop fuel' pattern (memmove buf 0 p m) m fd
        else grep_loop fuel' pattern buf m fd
  end.
Definition grep (fuel : nat) (pattern : list Z) (fd : Z) : prog unit :=
  grep_loop fuel pattern (replicate sizeof_buf 0) 0 fd.

(** for(i = 2; i < argc; i++) *)
Fixpoint grep_files (fuel : nat) (pattern : list Z) (files : list (list Z)) : prog unit :=
  match files with
  | [] => Ret tt
  | f :: files' =>
      let* fd := sys (Open f 0) in
      if fd <? 0 then do* printf 1 "grep: cannot open %s\n" [AStr (Some f)] in Exit
      else
        do* grep fuel pattern fd in
        do* sys (Close fd) in
        grep_files fuel pattern files'
  end.
Definition grep_main (fuel : nat) (argv : list (list Z)) : prog unit :=
  match argv with
  | [] | [_] => do* printf 2 "usage: grep pattern [file ...]\n" [] in Exit
  | [_; pattern] => do* grep fuel pattern 0 in Exit
  | _ :: pattern :: files => do* grep_files fuel pattern files in Exit
  end.

(** * The language of a pattern *)

Section language.
Implicit Types (re s t : list Z) (c d : Z).

(** A pattern is a sequence of pieces, and perhaps an end mark. *)
Inductive piece := One (c : Z) | Many (c : Z).

Fixpoint pieces re : list piece * bool :=
  match re with
  | [] => ([], false)
  | r0 :: re1 =>
      match re1 with
      | [] => if r0 =? ord "$" then ([], true) else ([One r0], false)
      | r1 :: re2 =>
          if r1 =? ord "*" then let '(ps, e) := pieces re2 in (Many r0 :: ps, e)
          else let '(ps, e) := pieces re1 in (One r0 :: ps, e)
      end
  end.

(** The character [d] is one that [c] stands for. *)
Definition stands c d : Prop := c = ord "." \/ c = d.

(** The strings a sequence of pieces describes. *)
Inductive denotes : list piece -> list Z -> Prop :=
| denotes_nil : denotes [] []
| denotes_one c d ps s : stands c d -> denotes ps s -> denotes (One c :: ps) (d :: s)
| denotes_many c t ps s : Forall (stands c) t -> denotes ps s -> denotes (Many c :: ps) (t ++ s).

(** [text] begins with a string of the pattern; all of it with an end mark. *)
Definition begins (x : list piece * bool) (text : list Z) : Prop :=
  exists s rest, text = s ++ rest /\ denotes x.1 s /\ (x.2 = true -> rest = []).

Lemma stands_spec c d : stands c d <-> (c =? ord ".") || (c =? d) = true.
Proof. unfold stands. rewrite orb_true_iff, !Z.eqb_eq. done. Qed.

Lemma begins_nil text : begins ([], false) text.
Proof. exists [], text. split_and!; [done|constructor|done]. Qed.

Lemma begins_end text : begins ([], true) text <-> text = [].
Proof.
  split.
  - intros (s & rest & -> & Hd & Hr). inversion Hd. by rewrite Hr.
  - intros ->. exists [], []. split_and!; [done|constructor|done].
Qed.

Lemma begins_one c ps e text :
  begins (One c :: ps, e) text <->
  exists d text', text = d :: text' /\ stands c d /\ begins (ps, e) text'.
Proof.
  split.
  - intros (s & rest & -> & Hd & Hr). inversion Hd; subst.
    eexists _, _. split_and!; [done|done|]. by eexists _, _.
  - intros (t & text' & -> & Ht & s & rest & -> & Hd & Hr).
    exists (t :: s), rest. split_and!; [done|by constructor|done].
Qed.

Lemma begins_many c ps e text :
  begins (Many c :: ps, e) text <->
  exists t rest, text = t ++ rest /\ Forall (stands c) t /\ begins (ps, e) rest.
Proof.
  split.
  - intros (s & rest & -> & Hd & Hr). inversion Hd; subst.
    eexists _, _. split_and!; [by rewrite <- app_assoc|done|]. by eexists _, _.
  - intros (t & ? & -> & Ht & s & rest & -> & Hd & Hr).
    exists (t ++ s), rest. split_and!; [by rewrite <- app_assoc|by constructor|done].
Qed.

(** A starred character followed by whatever [here] accepts. *)
Lemma matchstar_spec (here : list Z -> bool) c text :
  matchstar here c text = true <->
  exists t rest, text = t ++ rest /\ Forall (stands c) t /\ here rest = true.
Proof.
  induction text as [|d text IH]; simpl.
  - destruct (here []) eqn:E; split; try done.
    + intros _. by exists [], [].
    + intros (t & rest & Ht & _ & Hh). symmetry in Ht. apply app_nil in Ht as [-> ->]. congruence.
  - destruct (here (d :: text)) eqn:E; [split; [|done]; intros _; by exists [], (d :: text)|].
    assert (Hs : stands c d <-> (d =? c) || (c =? ord ".") = true).
    { unfold stands. rewrite orb_true_iff, !Z.eqb_eq. naive_solver. }
    destruct (_ || _) eqn:Ed.
    + rewrite IH. split; intros (t & rest & Ht & Hf & Hh).
      * exists (d :: t), rest. split_and!; [by rewrite Ht|constructor; [naive_solver|done]|done].
      * destruct t as [|d' t]; simplify_eq/=; [congruence|]. inversion Hf; subst. eauto.
    + split; [done|]. intros (t & rest & Ht & Hf & Hh).
      destruct t as [|d' t]; simplify_eq/=; [congruence|]. inversion Hf; naive_solver.
Qed.

Lemma matchhere_cons r0 r1 re text :
  matchhere (r0 :: r1 :: re) text =
  if r1 =? ord "*" then matchstar (matchhere re) r0 text
  else
    match text with
    | [] => false
    | t :: text' => if (r0 =? ord ".") || (r0 =? t) then matchhere (r1 :: re) text' else false
    end.
Proof. simpl. destruct (r1 =? _); [done|]. by rewrite andb_false_r. Qed.

Lemma pieces_cons r0 r1 re :
  pieces (r0 :: r1 :: re) =
  if r1 =? ord "*" then (Many r0 :: (pieces re).1, (pieces re).2)
  else (One r0 :: (pieces (r1 :: re)).1, (pieces (r1 :: re)).2).
Proof.
  change (pieces (r0 :: r1 :: re)) with
    (if r1 =? ord "*" then let '(ps, e) := pieces re in (Many r0 :: ps, e)
     else let '(ps, e) := pieces (r1 :: re) in (One r0 :: ps, e)).
  by destruct (r1 =? _), (pieces re), (pieces (r1 :: re)).
Qed.

Lemma matchhere_spec re : forall text, matchhere re text = true <-> begins (pieces re) text.
Proof.
  induction re as [re IH] using (induction_ltof1 _ length). unfold ltof in IH.
  destruct re as [|r0 [|r1 re2]]; intros text.
  - split; [intros _; apply begins_nil|done].
  - simpl. rewrite andb_true_r. destruct (Z.eqb_spec r0 (ord "$")) as [->|Hr].
    + by rewrite begins_end, bool_decide_eq_true.
    + rewrite begins_one. destruct text as [|t text]; [naive_solver|].
      pose proof (stands_spec r0 t). pose proof (begins_nil text).
      destruct (_ || _); naive_solver.
  - rewrite matchhere_cons, pieces_cons. destruct (r1 =? ord "*").
    + rewrite matchstar_spec, begins_many, <- surjective_pairing.
      setoid_rewrite (IH re2); [done|simpl; lia].
    + rewrite begins_one, <- surjective_pairing.
      destruct text as [|t text]; [naive_solver|].
      specialize (IH (r1 :: re2) ltac:(simpl; lia) text).
      pose proof (stands_spec r0 t). destruct (_ || _); naive_solver.
Qed.

Lemma match_loop_spec re text :
  match_loop re text = true <-> exists pre rest, text = pre ++ rest /\ begins (pieces re) rest.
Proof.
  induction text as [|t text IH]; cbn [match_loop].
  - destruct (matchhere re []) eqn:E; split; try done.
    + intros _. exists [], []. split; [done|]. by apply matchhere_spec.
    + intros (pre & rest & Ht & Hb). symmetry in Ht. apply app_nil in Ht as [-> ->].
      apply matchhere_spec in Hb. congruence.
  - destruct (matchhere re (t :: text)) eqn:E.
    + split; [|done]. intros _. exists [], (t :: text). split; [done|]. by apply matchhere_spec.
    + rewrite IH. split; intros (pre & rest & Ht & Hb).
      * exists (t :: pre), rest. split; [by rewrite Ht|done].
      * destruct pre as [|t' pre]; simplify_eq/=; [|by exists pre, rest].
        apply matchhere_spec in Hb. congruence.
Qed.

(** [text] contains a string of the pattern, at its start after a caret. *)
Definition selects re text : Prop :=
  exists pre rest, text = pre ++ rest /\
    match re with
    | r0 :: re' => if r0 =? ord "^" then pre = [] /\ begins (pieces re') rest
                   else begins (pieces re) rest
    | [] => True
    end.
End language.
