(* ===== verification/GrepFacts.v ===== *)
(** grep prints the matching lines: the loop of grep.c against the lines of
    its input, and what grep.c promises: its matcher decides the language of the
    pattern, and the program prints the lines of its input that the pattern selects. *)
From S2P Require Import Prelude Kernel Mem Fsformat Console User Ulib Stream Grep.
From Stdlib Require Import Ascii.

(** The complete lines of a text, without their newlines, and what follows
    the last newline. *)
Fixpoint split_lines (s : list Z) : list (list Z) * list Z :=
  match s with
  | [] => ([], [])
  | c :: s' =>
      let '(ls, t) := split_lines s' in
      if c =? 10 then ([] :: ls, t)
      else match ls with [] => ([], c :: t) | l :: ls' => ((c :: l) :: ls', t) end
  end.
Definition complete_lines (s : list Z) : list (list Z) := (split_lines s).1.
Definition unfinished (s : list Z) : list Z := (split_lines s).2.

(** The lines a pattern selects, as grep writes them. *)
Definition selected (pattern : list Z) (ls : list (list Z)) : list Z :=
  mjoin ((fun l => l ++ [10]) <$> List.filter (match_ pattern) ls).

Section facts.
Implicit Types (s t r l pre post : list Z).

Definition plain s : Prop := Forall (fun c => c <> 0) s.

Lemma split_newline l s : 10 ∉ l ->
  split_lines (l ++ 10 :: s) = (l :: complete_lines s, unfinished s).
Proof.
  unfold complete_lines, unfinished. induction l as [|c l IH]; intros Hl; simpl.
  - by destruct (split_lines s).
  - rewrite IH by set_solver. destruct (Z.eqb_spec c 10); [set_solver|done].
Qed.

Lemma split_none s : 10 ∉ s -> split_lines s = ([], s).
Proof.
  induction s as [|c s IH]; intros Hs; simpl; [done|].
  rewrite IH by set_solver. destruct (Z.eqb_spec c 10); [set_solver|done].
Qed.

Lemma unfinished_newline s : 10 ∉ unfinished s.
Proof.
  unfold unfinished. induction s as [|c s IH]; simpl; [set_solver|].
  destruct (split_lines s) as [ls t]. simpl in IH.
  destruct (Z.eqb_spec c 10); [done|]. destruct ls; simpl; [|done]. set_solver.
Qed.

(** Splitting goes on from the unfinished line. *)
Lemma split_app s r :
  split_lines (s ++ r) =
  (complete_lines s ++ complete_lines (unfinished s ++ r), unfinished (unfinished s ++ r)).
Proof.
  unfold complete_lines, unfinished. induction s as [|c s IH]; simpl.
  - by destruct (split_lines r).
  - rewrite IH. destruct (split_lines s) as [ls t] eqn:E. simpl.
    destruct (Z.eqb_spec c 10) as [->|Hc]; simpl; [done|].
    destruct ls as [|l ls]; simpl; [|done].
    destruct (split_lines (t ++ r)) as [ls' t'] eqn:E'. simpl.
    destruct (Z.eqb_spec c 10); [done|]. destruct ls'; done.
Qed.

(** Case analysis on the first newline, with induction on the rest. *)
Lemma lines_ind (P : list Z -> Prop) :
  (forall s, 10 ∉ s -> P s) -> (forall l s, 10 ∉ l -> P s -> P (l ++ 10 :: s)) ->
  forall s, P s.
Proof.
  intros Hn Hc s. induction s as [s IH] using (induction_ltof1 _ length). unfold ltof in IH.
  destruct (decide (10 ∈ s)) as [Hin|]; [|by apply Hn].
  apply list_elem_of_split_l in Hin as (l & s' & -> & Hl).
  apply Hc; [done|]. apply IH. rewrite length_app. simpl. lia.
Qed.

(** The unfinished line is the end of the text. *)
Lemma unfinished_suffix s :
  exists pre, s = pre ++ unfinished s /\ (10 ∈ s <-> pre <> []).
Proof.
  induction s as [s Hs|l s Hl (pre & Hpre & _)] using lines_ind; unfold unfinished.
  - rewrite split_none by done. by exists [].
  - rewrite split_newline by done. exists (l ++ 10 :: pre). simpl. split.
    + rewrite <- app_assoc. simpl. by rewrite <- Hpre.
    + split; [|set_solver]. by destruct l.
Qed.

Lemma selected_app pat ls ls' : selected pat (ls ++ ls') = selected pat ls ++ selected pat ls'.
Proof. unfold selected. by rewrite filter_app, fmap_app, join_app. Qed.

(** strchr finds the first newline of the text before the NUL. *)
Lemma strchr_newline l s : plain l -> 10 ∉ l -> strchr (l ++ 10 :: s) 10 = Some (length l).
Proof.
  induction 1 as [|c l Hc _ IH]; intros Hl; simpl; [done|].
  destruct (Z.eqb_spec c 0); [done|]. destruct (Z.eqb_spec c 10); [set_solver|].
  by rewrite IH by set_solver.
Qed.

Lemma strchr_plain s post : plain s -> 10 ∉ s -> strchr (s ++ 0 :: post) 10 = None.
Proof. intros Hp Hs. apply strchr_none. by rewrite cstr_app_nul. Qed.

(** The scan of a buffer that holds [s] from offset [length pre] on. *)
Lemma grep_lines_runs n pat : forall s pre post w,
  plain s -> (length s < n)%nat ->
  exists pre', length pre' = (length pre + length s - length (unfinished s))%nat /\
    runs (grep_lines n pat (pre ++ s ++ 0 :: post) (length pre)) w =
    (Done (pre' ++ unfinished s ++ 0 :: post, length pre'),
     io_write 1 (selected pat (complete_lines s)) w).
Proof.
  induction n as [|n IH]; intros s pre post w Hp Hn; [lia|]. cbn [grep_lines].
  rewrite drop_app_length.
  destruct (decide (10 ∈ s)) as [Hin|Hout].
  2:{ rewrite strchr_plain by done. exists pre.
      unfold complete_lines, unfinished. rewrite split_none by done. simpl.
      split; [lia|]. by rewrite io_write_nil. }
  apply list_elem_of_split_l in Hin as (l & s' & -> & Hl).
  apply Forall_app in Hp as [Hpl Hps]. apply Forall_cons_1 in Hps as [_ Hps].
  rewrite <- app_assoc. cbn [app]. rewrite strchr_newline by done.
  rewrite length_app in Hn. simpl in Hn.
  assert (Hins : forall c d, <[(length pre + length l)%nat := c]> (pre ++ l ++ d :: s' ++ 0 :: post)
                 = pre ++ l ++ c :: s' ++ 0 :: post).
  { intros c d. rewrite insert_app_r, insert_app_r_alt by lia. by rewrite Nat.sub_diag. }
  rewrite !Hins, !drop_app_length, cstr_app_nul by done.
  assert (Hsp : complete_lines (l ++ 10 :: s') = l :: complete_lines s' /\
                unfinished (l ++ 10 :: s') = unfinished s').
  { unfold complete_lines, unfinished. by rewrite split_newline. }
  destruct Hsp as [-> ->].
  assert (Hfold : forall c, pre ++ l ++ c :: s' ++ 0 :: post =
            (pre ++ l ++ [c]) ++ s' ++ 0 :: post /\
            S (length pre + length l) = length (pre ++ l ++ [c])).
  { intros c. rewrite <- !app_assoc, !length_app. simpl. split; [done|lia]. }
  destruct (match_ pat l) eqn:Em.
  - rewrite run_bind, write_runs. cbn [then_ fst snd].
    destruct (Hfold 10) as [Hf1 Hf2]. rewrite Hf2.
    replace (take _ (l ++ _)) with (l ++ [10]).
    2:{ rewrite <- Hf2. replace (S _ - _)%nat with (length (l ++ [10]))
          by (rewrite length_app; simpl; lia).
        change (10 :: s' ++ 0 :: post) with ([10] ++ s' ++ 0 :: post).
        by rewrite app_assoc, take_app_length. }
    rewrite Hf1. destruct (IH s' (pre ++ l ++ [10]) post
      (io_write 1 (l ++ [10]) w) Hps ltac:(lia)) as (pre' & Hlen & ->).
    exists pre'. split; [rewrite Hlen, !length_app; simpl; lia|].
    rewrite io_write_app. do 2 f_equal. unfold selected.
    simpl. by rewrite Em.
  - destruct (Hfold 0) as [Hf1 Hf2]. rewrite Hf2, Hf1.
    destruct (IH s' (pre ++ l ++ [0]) post w Hps ltac:(lia)) as (pre' & Hlen & ->).
    exists pre'. split; [rewrite Hlen, !length_app; simpl; lia|].
    do 2 f_equal. unfold selected. simpl. by rewrite Em.
Qed.

(** A stream that is there as a whole, as a file is. *)
Definition whole (r : list Z) : list (list Z) := match r with [] => [] | _ => [r] end.

(** No line is longer than the buffer has room for beside its newline and NUL. *)
Definition short_lines s : Prop := Forall (fun l => (length l <= 1022)%nat) (complete_lines s).

Lemma complete_lines_app s r :
  complete_lines (s ++ r) = complete_lines s ++ complete_lines (unfinished s ++ r).
Proof. unfold complete_lines at 1. by rewrite split_app. Qed.

Lemma complete_lines_none s : 10 ∉ s -> complete_lines s = [].
Proof. intros Hs. unfold complete_lines. by rewrite split_none. Qed.

Lemma unfinished_none s : 10 ∉ s -> unfinished s = s.
Proof. intros Hs. unfold unfinished. by rewrite split_none. Qed.

(** A text that fills the buffer without a newline is not followed by one. *)
Lemma short_no_newline s r : short_lines (s ++ r) -> 10 ∉ s -> (1023 <= length s)%nat -> 10 ∉ r.
Proof.
  intros Hsh Hs Hl Hr. apply list_elem_of_split_l in Hr as (a & b & -> & Ha).
  unfold short_lines, complete_lines in Hsh.
  rewrite app_assoc, split_newline in Hsh by set_solver.
  apply Forall_cons_1 in Hsh as [Hsh _]. rewrite length_app in Hsh. lia.
Qed.

(** One read into the buffer behind the [t] left of the last round. *)
Lemma fill_buffer t rest b :
  length (t ++ rest) = sizeof_buf -> (length t + length b <= 1023)%nat ->
  exists post, <[(length t + length b)%nat := 0]> (put_bytes (t ++ rest) (length t) b)
    = (t ++ b) ++ 0 :: post /\ length ((t ++ b) ++ 0 :: post) = sizeof_buf.
Proof.
  unfold sizeof_buf. intros Hl Hb. rewrite length_app in Hl.
  exists (drop (S (length b)) rest).
  unfold put_bytes. rewrite take_app_length, drop_app_ge by lia.
  replace (length t + length b - length t)%nat with (length b) by lia.
  destruct (lookup_lt_is_Some_2 rest (length b) ltac:(lia)) as [c Hc].
  rewrite (drop_S rest c) by done. rewrite insert_app_r, insert_app_r_alt by lia.
  rewrite Nat.sub_diag. simpl. split; [by rewrite <- app_assoc|].
  rewrite !length_app. simpl. rewrite length_drop. lia.
Qed.

Lemma read_rest fd n r out err : 0 < n -> r <> [] ->
  runs (sys (Read fd n)) (mkIo (whole r) out err) =
  (Done (zlen (take (Z.to_nat n) r), take (Z.to_nat n) r),
   mkIo (whole (drop (Z.to_nat n) r)) out err).
Proof.
  intros Hn Hr. destruct r as [|c r]; [done|]. unfold whole at 1. rewrite read_whole by done.
  cbv zeta. do 2 f_equal. unfold zlen. destruct (Z.leb_spec (Z.of_nat (length (c :: r))) n).
  - rewrite drop_ge by lia. done.
  - destruct (drop _ _) eqn:E; [|done]. apply (f_equal length) in E.
    rewrite length_drop in E. simpl in *. lia.
Qed.

Lemma grep_loop_runs fuel pat fd : forall r t rest out err,
  (length r < fuel)%nat -> length (t ++ rest) = sizeof_buf -> (length t <= 1022)%nat ->
  10 ∉ t -> plain (t ++ r) -> short_lines (t ++ r) ->
  runs (grep_loop fuel pat (t ++ rest) (length t) fd) (mkIo (whole r) out err) =
  (Done tt, mkIo [] (out ++ selected pat (complete_lines (t ++ r))) err).
Proof.
  induction fuel as [|fuel IH]; intros r t rest out err Hf Hl Ht Hnl Hp Hsh; [lia|].
  cbn [grep_loop]. destruct (decide (r = [])) as [->|Hr].
  { rewrite app_nil_r. simpl. by rewrite (complete_lines_none t), app_nil_r by done. }
  rewrite run_bind, read_rest by (done || (unfold sizeof_buf; lia)). cbn [then_ fst snd].
  rewrite Nat2Z.id. set (n := (sizeof_buf - length t - 1)%nat).
  assert (Hn : (0 < n /\ n + length t = 1023)%nat) by (unfold n, sizeof_buf; lia).
  pose proof (take_drop n r) as Hsplit.
  assert (Hlr : length r <> O) by (by destruct r).
  assert (Hdl : length (drop n r) = (length r - n)%nat) by apply length_drop.
  assert (Hbl : length (take n r) = (n `min` length r)%nat) by apply length_take.
  set (b := take n r) in *. set (r' := drop n r) in *. clearbody b r' n.
  unfold zlen. replace (0 <? Z.of_nat (length b)) with true
    by (symmetry; apply Z.ltb_lt; lia). cbn [negb].
  rewrite Nat2Z.id, (take_ge b) by lia.
  destruct (fill_buffer t rest b Hl ltac:(lia)) as (post & -> & Hlen).
  rewrite <- Hsplit, app_assoc in Hp, Hsh |- *.
  assert (Hsl : length (t ++ b) = (length t + length b)%nat) by apply length_app.
  rewrite <- Hsl. set (s := t ++ b) in *. clearbody s.
  apply Forall_app in Hp as [Hps Hpr].
  destruct (grep_lines_runs (S sizeof_buf) pat s [] post (mkIo (whole r') out err) Hps
    ltac:(unfold sizeof_buf; lia)) as (pre' & Hpl & Hrun).
  rewrite run_bind. change (s ++ 0 :: post) with ([] ++ s ++ 0 :: post).
  change O with (length (@nil Z)) at 1. rewrite Hrun. clear Hrun. cbn [then_ fst snd length].
  pose proof (unfinished_newline s) as Hun.
  destruct (unfinished_suffix s) as (pre & Hpre & Hnil).
  pose proof (f_equal length Hpre) as Hle. rewrite length_app in Hle.
  pose proof Hsh as Hsh'. unfold short_lines in Hsh'. rewrite complete_lines_app in Hsh' |- *.
  apply Forall_app in Hsh' as [_ Hsh'].
  rewrite selected_app, (app_assoc out). simpl in Hpl.
  destruct (decide (10 ∈ s)) as [Hin|Hout].
  - assert (length pre <> O) by (intros E; apply Hnil in Hin; by destruct pre).
    rewrite (bool_decide_eq_false_2 (length pre' = O)), bool_decide_eq_true_2 by lia.
    replace (length s - length pre')%nat with (length (unfinished s)) by lia.
    rewrite memmove_down by (rewrite ?length_app; lia).
    rewrite drop_app_length, take_app_length. unfold put_bytes. simpl.
    apply IH; [lia| |lia|done| |done].
    + rewrite length_app, length_drop, !length_app. rewrite length_app in Hlen. cbn [length] in *. lia.
    + apply Forall_app. split; [|done]. rewrite Hpre in Hps. by apply Forall_app in Hps as [_ ?].
  - assert (pre = []) as -> by (destruct pre; [done|]; exfalso; by apply Hout, Hnil).
    simpl in Hle. rewrite (bool_decide_eq_true_2 (length pre' = O)), bool_decide_eq_false_2 by lia.
    rewrite (complete_lines_none s), (unfinished_none s) by done.
    assert (Hr' : 10 ∉ r').
    { destruct (decide (r' = [])) as [->|]; [set_solver|].
      assert (length r' <> O) by (by destruct r').
      apply (short_no_newline s); [done|done|]. lia. }
    rewrite (complete_lines_none (s ++ r')) by (by apply not_elem_of_app).
    assert (Hcr : complete_lines r' = []) by (by apply complete_lines_none).
    apply (f_equal length) in Hpre as Hpl'. rewrite unfinished_none in Hpl by done.
    assert (pre' = []) as -> by (apply nil_length_inv; lia).
    change (selected pat []) with (@nil Z). rewrite io_write_nil, !app_nil_r.
    pose proof (IH r' [] (s ++ 0 :: post) out err) as IH'. cbn [app length] in IH'.
    rewrite Hcr in IH'. change (selected pat []) with (@nil Z) in IH'. rewrite app_nil_r in IH'.
    apply IH'; [lia|done|lia|set_solver|done|].
    unfold short_lines. rewrite Hcr. constructor.
Qed.

(** grep on a whole input prints the lines the pattern selects. *)
Lemma grep_runs fuel pat fd s out err :
  (length s < fuel)%nat -> plain s -> short_lines s ->
  runs (grep fuel pat fd) (mkIo (whole s) out err) =
  (Done tt, mkIo [] (out ++ selected pat (complete_lines s)) err).
Proof.
  intros Hf Hp Hs. unfold grep.
  change (replicate sizeof_buf 0) with ([] ++ replicate sizeof_buf 0).
  apply (grep_loop_runs fuel pat fd s []); [done|apply length_replicate|simpl; lia| |done|done].
  set_solver.
Qed.

(** A line that arrives in two pieces is not seen. *)
Lemma grep_loses_pieces :
  runs (grep 4 (bytes "abc") 0) (mkIo [bytes "ab"; bytes "c\n"] [] []) = (Done tt, mkIo [] [] []).
Proof. by vm_compute. Qed.
End facts.

(** * What grep promises *)

(** C39. match decides whether the text has a stretch the pattern describes: a
    caret ties it to the beginning and a final dollar to the end, a dot stands
    for any character, a character followed by a star for any number of it,
    the choices being searched to the end. *)
Theorem match_selects re text : match_ re text = true <-> selects re text.
Proof.
  unfold selects. destruct re as [|r0 re']; cbn [match_].
  - split; [intros _; by exists [], text|]. intros _. by destruct text.
  - destruct (r0 =? ord "^").
    + rewrite matchhere_spec. split; [intros Hb; by exists [], text|].
      by intros (? & rest & -> & -> & Hb).
    + rewrite match_loop_spec. done.
Qed.

(** C40. On an input that is there as a whole and has no NUL and no line that
    the buffer cannot hold, grep prints the complete lines its pattern
    selects, in order and each with its newline, and nothing else. *)
Theorem grep_prints_selected fuel pat fd s out err :
  (length s < fuel)%nat -> plain s -> short_lines s ->
  runs (grep fuel pat fd) (mkIo (whole s) out err) =
  (Done tt, mkIo [] (out ++ mjoin ((fun l => l ++ [10]) <$> List.filter (match_ pat) (complete_lines s))) err).
Proof. intros. by apply grep_runs. Qed.

Lemma grep_prints_selected_witness :
  runs (grep 40 (bytes "^a.*c$") 3) (mkIo [bytes "abc\nbac\nac\nacb\nabcc"] (bytes "> ") []) =
  (Done tt, mkIo [] (bytes "> abc\nac\n") []).
Proof.
  apply (grep_prints_selected 40 (bytes "^a.*c$") 3 (bytes "abc\nbac\nac\nacb\nabcc") (bytes "> ") []);
    [vm_compute; lia|by repeat constructor|by repeat constructor; vm_compute].
Defined.
