(* ===== verification/Umalloc.v ===== *)
(** umalloc.c: malloc and free over the memory of a program.  A header is two
    words, the next block of the circular free list and the block's size in
    units of the header's eight bytes; the list lives inside the free blocks. *)
From S2P Require Import Prelude Kernel Mem Fsformat User.

Definition sizeof_Header : Z := 8.

(** The memory and the static variable freep; [base] is the address of the
    static header the list starts with. *)
Record uheap := mkUheap { um : gmap Z Z; freep : Z }.

Section umalloc.
Context (base : Z).
Implicit Types (m : gmap Z Z) (h : uheap).

Definition s_ptr m (p : Z) : Z := rd32 m p.
Definition s_size m (p : Z) : Z := rd32 m (p + 4).
Definition set_ptr m (p v : Z) : gmap Z Z := wr32 m p v.
Definition set_size m (p v : Z) : gmap Z Z := wr32 m (p + 4) v.

(** p + n for a Header pointer. *)
Definition hadd (p n : Z) : Z := u32 (p + sizeof_Header * n).

(** for(p = freep; !(bp > p && bp < p->s.ptr); p = p->s.ptr) *)
Fixpoint free_find (fuel : nat) m (bp p : Z) : option Z :=
  match fuel with
  | O => None
  | S fuel' =>
      let q := s_ptr m p in
      if (p <? bp) && (bp <? q) then Some p
      else if (q <=? p) && ((p <? bp) || (bp <? q)) then Some p
      else free_find fuel' m bp q
  end.

(** None when the list has no place for the block within [fuel] steps. *)
Definition free (fuel : nat) h (ap : Z) : option uheap :=
  let bp := hadd ap (-1) in
  match free_find fuel (um h) bp (freep h) with
  | None => None
  | Some p =>
      let m := um h in
      let m :=
        if hadd bp (s_size m bp) =? s_ptr m p then
          let m := set_size m bp (s_size m bp + s_size m (s_ptr m p)) in
          set_ptr m bp (s_ptr m (s_ptr m p))
        else set_ptr m bp (s_ptr m p) in
      let m :=
        if hadd p (s_size m p) =? bp then
          let m := set_size m p (s_size m p + s_size m bp) in
          set_ptr m p (s_ptr m bp)
        else set_ptr m p bp in
      Some (mkUheap m p)
  end.

Definition morecore (fuel : nat) h (nu : Z) : prog (Z * uheap) :=
  let nu := if nu <? 4096 then 4096 else nu in
  let* p := sys (Sbrk (i32 (nu * sizeof_Header))) in
  if u32 p =? u32 (-1) then Ret (0, h)
  else
    let hp := u32 p in
    let h := mkUheap (set_size (um h) hp nu) (freep h) in
    match free fuel h (hadd hp 1) with
    | None => Loop
    | Some h => Ret (freep h, h)
    end.

(** for(p = prevp->s.ptr; ; prevp = p, p = p->s.ptr) *)
Fixpoint malloc_loop (fuel : nat) h (nunits prevp p : Z) : prog (Z * uheap) :=
  match fuel with
  | O => Loop
  | S fuel' =>
      let m := um h in
      if nunits <=? s_size m p then
        if s_size m p =? nunits then
          let m := set_ptr m prevp (s_ptr m p) in
          Ret (hadd p 1, mkUheap m prevp)
        else
          let m := set_size m p (s_size m p - nunits) in
          let p := hadd p (s_size m p) in
          let m := set_size m p nunits in
          Ret (hadd p 1, mkUheap m prevp)
      else if p =? freep h then
        let* '(p, h) := morecore fuel h nunits in
        if p =? 0 then Ret (0, h)
        else malloc_loop fuel' h nunits p (s_ptr (um h) p)
      else malloc_loop fuel' h nunits p (s_ptr m p)
  end.

Definition malloc (fuel : nat) h (nbytes : Z) : prog (Z * uheap) :=
  let nunits := u32 (u32 (nbytes + sizeof_Header - 1) / sizeof_Header + 1) in
  let h :=
    if freep h =? 0 then
      mkUheap (set_size (set_ptr (um h) base base) base 0) base
    else h in
  malloc_loop fuel h nunits (freep h) (s_ptr (um h) (freep h)).

End umalloc.
