(* ===== verification/UmallocFacts.v ===== *)
(** The free list of umalloc.c as a sorted list of blocks: free inserts and
    merges, malloc takes the first block that fits, and no block is ever part
    of another. *)
From S2P Require Import Prelude Kernel Mem Fsformat User Umalloc.

(** A block: its address and its size in headers. *)
Notation blk := (Z * Z)%type.

(** * Lists of blocks *)

Section blocks.
Implicit Types (l r : list blk) (x y : blk) (lo e : Z).

Definition blk_end x : Z := x.1 + 8 * x.2.
Definition disj x y : Prop := blk_end x <= y.1 \/ blk_end y <= x.1.
Definition units l : Z := foldr (fun x n => x.2 + n) 0 l.

Definition head_addr l e : Z := match l with [] => e | x :: _ => x.1 end.
Fixpoint end_addr lo l : Z :=
  match l with [] => lo | x :: l' => end_addr (blk_end x) l' end.

(** Ascending blocks that do not touch. *)
Fixpoint gaps lo l : Prop :=
  match l with [] => True | x :: l' => lo < x.1 /\ gaps (blk_end x) l' end.

Lemma head_addr_app l r e : head_addr (l ++ r) e = head_addr l (head_addr r e).
Proof. by destruct l. Qed.

Lemma end_addr_app lo l r : end_addr lo (l ++ r) = end_addr (end_addr lo l) r.
Proof. revert lo. induction l as [|x l IH]; intros lo; [done|]. apply IH. Qed.

Lemma gaps_app lo l r : gaps lo (l ++ r) <-> gaps lo l /\ gaps (end_addr lo l) r.
Proof.
  revert lo. induction l as [|x l IH]; intros lo; [simpl; tauto|].
  cbn [app gaps end_addr]. rewrite IH. tauto.
Qed.

Lemma gaps_weaken lo lo' l : lo' <= lo -> gaps lo l -> gaps lo' l.
Proof. destruct l as [|x l]; [done|]. intros ? [??]. split; [lia|done]. Qed.

Lemma gaps_above lo l x : gaps lo l -> Forall (fun y => 0 <= y.2) l -> x ∈ l -> lo < x.1.
Proof.
  revert lo. induction l as [|y l IH]; intros lo Hg Hp Hx; [by apply not_elem_of_nil in Hx|].
  destruct Hg as [Hy Hl].
  apply Forall_cons_1 in Hp as [Hp Hps].
  apply elem_of_cons in Hx as [->|Hx]; [done|]. specialize (IH _ Hl Hps Hx).
  unfold blk_end in IH. lia.
Qed.

Lemma units_app l r : units (l ++ r) = units l + units r.
Proof. induction l as [|x l IH]; simpl; [done|]. rewrite IH. lia. Qed.

(** A block apart from all of a sorted list has a place in it. *)
Lemma split_block lo l x :
  gaps lo l -> Forall (fun y => 1 <= y.2) l -> 1 <= x.2 -> Forall (fun y => disj y x) l ->
  exists l1 l2, l = l1 ++ l2 /\ Forall (fun y => blk_end y <= x.1) l1 /\
    Forall (fun y => blk_end x <= y.1) l2.
Proof.
  revert lo. induction l as [|y l IH]; intros lo Hg Hp Hx Hd; [by exists [], []|].
  destruct Hg as [Hy Hg]. apply Forall_cons_1 in Hp as [Hp Hps].
  apply Forall_cons_1 in Hd as [Hd Hds]. destruct Hd as [Hd|Hd].
  - destruct (IH _ Hg Hps Hx Hds) as (l1 & l2 & -> & H1 & H2).
    exists (y :: l1), l2. by split_and!; [|constructor|].
  - exists [], (y :: l). split_and!; [done|constructor|]. constructor; [done|].
    apply list.Forall_forall. intros z Hz.
    assert (Hps' : Forall (fun y => 0 <= y.2) l) by (eapply list.Forall_impl; [exact Hps|]; simpl; lia).
    pose proof (gaps_above _ _ z Hg Hps' Hz).
    unfold blk_end in *. lia.
Qed.
End blocks.

(** * The list in memory *)

Section ring.
Implicit Types (m : gmap Z Z) (l r : list blk) (x y : blk) (e : Z).

Fixpoint seg m l e : Prop :=
  match l with
  | [] => True
  | x :: l' => s_ptr m x.1 = head_addr l' e /\ s_size m x.1 = x.2 /\ seg m l' e
  end.

Lemma seg_app m l r e : seg m (l ++ r) e <-> seg m l (head_addr r e) /\ seg m r e.
Proof.
  induction l as [|x l IH]; simpl; [tauto|]. rewrite IH, head_addr_app. tauto.
Qed.

(** Two memories agree on the header at [a]. *)
Definition same_header m m' (a : Z) : Prop :=
  s_ptr m' a = s_ptr m a /\ s_size m' a = s_size m a.

Lemma seg_frame m m' l e : Forall (fun x => same_header m m' x.1) l -> seg m l e -> seg m' l e.
Proof.
  induction 1 as [|x l [Hp Hs] _ IH]; simpl; [done|]. intros (? & ? & ?).
  rewrite Hp, Hs. auto.
Qed.

Lemma s_ptr_set m p v : s_ptr (set_ptr m p v) p = u32 v.
Proof. apply rd32_wr32_eq. Qed.
Lemma s_size_set m p v : s_size (set_size m p v) p = u32 v.
Proof. apply rd32_wr32_eq. Qed.
Lemma s_size_set_ptr m p v : s_size (set_ptr m p v) p = s_size m p.
Proof. apply rd32_wr32_ne. lia. Qed.
Lemma s_ptr_set_size m p v : s_ptr (set_size m p v) p = s_ptr m p.
Proof. apply rd32_wr32_ne. lia. Qed.

Definition far (a b : Z) : Prop := a + 8 <= b \/ b + 8 <= a.
Lemma same_header_set_ptr m p v a : far a p -> same_header m (set_ptr m p v) a.
Proof. unfold far. intros. split; apply rd32_wr32_ne; lia. Qed.
Lemma same_header_set_size m p v a : far a p -> same_header m (set_size m p v) a.
Proof. unfold far. intros. split; apply rd32_wr32_ne; lia. Qed.
Lemma same_header_trans m m' m'' a :
  same_header m m' a -> same_header m' m'' a -> same_header m m'' a.
Proof. intros [??] [??]. split; congruence. Qed.

(** Every byte outside the headers at [ps] is kept. *)
Definition only_headers m m' (ps : list Z) : Prop :=
  forall b, Forall (fun p => b < p \/ p + 8 <= b) ps -> rd8 m' b = rd8 m b.

Lemma only_headers_refl m ps : only_headers m m ps.
Proof. done. Qed.
Lemma only_headers_ptr m m' ps p v :
  p ∈ ps -> only_headers m m' ps -> only_headers m (set_ptr m' p v) ps.
Proof.
  intros Hp Ho b Hb. rewrite <- (Ho b Hb). apply rd8_wr32_ne.
  eapply list.Forall_forall in Hb; [|exact Hp]. lia.
Qed.
Lemma only_headers_size m m' ps p v :
  p ∈ ps -> only_headers m m' ps -> only_headers m (set_size m' p v) ps.
Proof.
  intros Hp Ho b Hb. rewrite <- (Ho b Hb). apply rd8_wr32_ne.
  eapply list.Forall_forall in Hb; [|exact Hp]. lia.
Qed.
End ring.

(** * free *)

(** The free list: the static header and then the free blocks. *)
Record finv (base : Z) (m : gmap Z Z) (bs : list blk) (fp : Z) : Prop := {
  fi_base : 0 < base /\ base + 8 < 2 ^ 32;
  fi_seg : seg m ((base, 0) :: bs) base;
  fi_gaps : gaps (base - 1) ((base, 0) :: bs);
  fi_blk : Forall (fun x => base + 8 <= x.1 /\ 1 <= x.2 /\ blk_end x < 2 ^ 32) bs;
  fi_freep : fp ∈ ((base, 0) :: bs).*1
}.

Section free.
Context (base : Z).
Implicit Types (m : gmap Z Z) (l r bs : list blk) (x y f : blk).

(** From a block below [a] the search climbs to the last one below it. *)
Lemma find_low m a q p ps R : forall fuel f R0 lo,
  f :: R = R0 ++ [(p, ps)] -> seg m (f :: R) q -> gaps lo (f :: R) ->
  Forall (fun x => 0 <= x.2 /\ x.1 < a) (f :: R) ->
  a < q \/ q <= p -> (length R < fuel)%nat -> free_find fuel m a f.1 = Some p.
Proof.
  induction R as [|g R IH]; intros fuel f R0 lo HR Hseg Hg Hlow Hq Hf;
    (destruct fuel as [|fuel]; [simpl in Hf; lia|]); cbn [free_find].
  - destruct R0 as [|? [|]]; simplify_eq/=. destruct Hseg as (-> & _).
    apply Forall_cons_1 in Hlow as [[_ Hlow] _]. cbn [fst snd head_addr] in *.
    rewrite (proj2 (Z.ltb_lt p a)) by done. destruct (a <? q) eqn:E; [done|].
    apply Z.ltb_ge in E. rewrite (proj2 (Z.leb_le q p)) by lia. done.
  - destruct Hseg as (-> & _ & Hseg). destruct Hg as [_ Hg].
    apply Forall_cons_1 in Hlow as [[Hf0 _] Hlow].
    pose proof (Forall_inv Hlow) as [_ Hga]. destruct Hg as [Hfg Hg]. unfold blk_end in Hfg.
    cbn [head_addr]. rewrite (proj2 (Z.ltb_ge a g.1)), andb_false_r by lia.
    rewrite (proj2 (Z.leb_gt g.1 f.1)) by lia. cbn [andb].
    destruct R0 as [|? R0]; [by destruct R|]. simplify_eq/=.
    eapply (IH fuel g R0); [done|done| |done|done|lia]. split; [exact Hfg|done].
Qed.

(** From a block above [a] it runs through the end of the list. *)
Lemma find_high m a R : forall fuel f lo,
  seg m (f :: R) base -> gaps lo (f :: R) -> Forall (fun x => 0 <= x.2 /\ a < x.1) (f :: R) ->
  base < a -> free_find (S (length R) + fuel) m a f.1 = free_find fuel m a base.
Proof.
  induction R as [|g R IH]; intros fuel f lo Hseg Hg Hhi Hb; cbn [free_find Nat.add length].
  - destruct Hseg as (-> & _). apply Forall_cons_1 in Hhi as [[_ Hhi] _]. cbn [head_addr].
    rewrite (proj2 (Z.ltb_ge f.1 a)), (proj2 (Z.ltb_ge a base)) by lia.
    cbn [andb orb]. by rewrite andb_false_r.
  - destruct Hseg as (-> & _ & Hseg). destruct Hg as [_ Hg].
    apply Forall_cons_1 in Hhi as [[Hf0 Hfa] Hhi]. destruct Hg as [Hfg Hg]. unfold blk_end in Hfg.
    cbn [head_addr]. rewrite (proj2 (Z.ltb_ge f.1 a)), (proj2 (Z.leb_gt g.1 f.1)) by lia.
    cbn [andb]. eapply (IH fuel g); [done| |done|done]. split; [exact Hfg|done].
Qed.

Lemma find_ok m bs fp a p ps l0 r fuel :
  finv base m bs fp -> (base, 0) :: bs = l0 ++ (p, ps) :: r ->
  Forall (fun x => x.1 < a) (l0 ++ [(p, ps)]) -> Forall (fun x => a < x.1) r ->
  (length bs < fuel)%nat -> free_find fuel m a fp = Some p.
Proof.
  intros [Hb Hseg Hg Hbl Hfp] Heq Hlow Hhi Hf.
  assert (Hpos : Forall (fun x => 0 <= x.2) ((base, 0) :: bs)).
  { constructor; [simpl; lia|]. eapply list.Forall_impl; [exact Hbl|]. simpl. lia. }
  pose proof (f_equal length Heq) as Hlen. rewrite length_app in Hlen. simpl in Hlen.
  rewrite Heq in Hseg, Hg, Hpos, Hfp.
  assert (Hba : base < a).
  { destruct l0 as [|z l0]; simplify_eq/=; by pose proof (Forall_inv Hlow). }
  rewrite (cons_middle (p, ps)), app_assoc in Hseg, Hg, Hpos, Hfp.
  apply seg_app in Hseg as [Hs1 Hs2]. apply gaps_app in Hg as [Hg1 Hg2].
  apply Forall_app in Hpos as [Hp1 Hp2].
  assert (Hq : a < head_addr r base \/ head_addr r base <= p).
  { destruct r as [|z r]; [right|left; by apply (Forall_inv Hhi)]. simpl.
    destruct (decide (p = base)) as [->|Hne]; [lia|].
    assert (In : (p, ps) ∈ bs).
    { destruct l0 as [|? l0]; simplify_eq/=. set_solver. }
    eapply list.Forall_forall in Hbl; [|exact In]. simpl in Hbl. lia. }
  assert (Hlow' : Forall (fun x => 0 <= x.2 /\ x.1 < a) (l0 ++ [(p, ps)])) by (by apply Forall_and).
  assert (Hhi' : Forall (fun x => 0 <= x.2 /\ a < x.1) r) by (by apply Forall_and).
  assert (Hcl : forall L f R fuel', l0 ++ [(p, ps)] = L ++ f :: R ->
            (length R < fuel')%nat -> free_find fuel' m a f.1 = Some p).
  { intros L f R fuel' HL Hf'. rewrite HL in Hs1, Hg1, Hlow'.
    apply seg_app in Hs1 as [_ Hs1]. apply gaps_app in Hg1 as [_ Hg1].
    apply Forall_app in Hlow' as [_ Hlow'].
    assert (exists R0, f :: R = R0 ++ [(p, ps)]) as [R0 HR0].
    { destruct (exists_last (l := f :: R)) as (R0 & z & E); [done|]. exists R0. rewrite E.
      rewrite E, app_assoc in HL. apply app_inj_tail in HL as [_ ->]. done. }
    by eapply find_low. }
  rewrite fmap_app in Hfp. apply elem_of_app in Hfp as [Hfp|Hfp].
  - apply list_elem_of_fmap in Hfp as (f & -> & Hin).
    apply list_elem_of_split in Hin as (L & R & HL). apply (Hcl L f R fuel HL).
    apply (f_equal length) in HL. rewrite !length_app in HL. simpl in HL. lia.
  - apply list_elem_of_fmap in Hfp as (f & -> & Hin).
    apply list_elem_of_split in Hin as (L & R & HL). rewrite HL in Hs2, Hg2, Hhi'.
    apply seg_app in Hs2 as [_ Hs2]. apply gaps_app in Hg2 as [_ Hg2].
    apply Forall_app in Hhi' as [_ Hhi'].
    apply (f_equal length) in HL. rewrite length_app in HL. simpl in HL.
    replace fuel with (S (length R) + (fuel - S (length R)))%nat by lia.
    erewrite find_high; [|done|done|done|done].
    destruct l0 as [|z l0].
    + injection Heq as Hp _ _. rewrite Hp. apply (Hcl [] (p, ps) []); [done|]. simpl in *. lia.
    + injection Heq as Hz _. change base with (base, 0).1. rewrite Hz.
      apply (Hcl [] z (l0 ++ [(p, ps)])); [done|]. rewrite length_app. simpl in *. lia.
Qed.

(** The block at [a] joined with the one behind it, if they touch. *)
Definition join_up m (bp p : Z) : gmap Z Z :=
  if hadd bp (s_size m bp) =? s_ptr m p then
    let m := set_size m bp (s_size m bp + s_size m (s_ptr m p)) in
    set_ptr m bp (s_ptr m (s_ptr m p))
  else set_ptr m bp (s_ptr m p).

Definition join_down m (bp p : Z) : gmap Z Z :=
  if hadd p (s_size m p) =? bp then
    let m := set_size m p (s_size m p + s_size m bp) in
    set_ptr m p (s_ptr m bp)
  else set_ptr m p bp.

Lemma free_joins fuel m fp ap :
  free fuel (mkUheap m fp) ap =
  (fun p => mkUheap (join_down (join_up m (hadd ap (-1)) p) (hadd ap (-1)) p) p)
    <$> free_find fuel m (hadd ap (-1)) fp.
Proof. unfold free. simpl. by destruct (free_find fuel m (hadd ap (-1)) fp). Qed.

Lemma hadd_small p n : 0 <= p + 8 * n < 2 ^ 32 -> hadd p n = p + 8 * n.
Proof. intros. unfold hadd, sizeof_Header. by apply u32_small. Qed.

(** The blocks behind one of [s] units at [a]. *)
Definition behind (a s : Z) (x : blk) : Prop :=
  a + 8 * s <= x.1 /\ 1 <= x.2 /\ blk_end x < 2 ^ 32.

Lemma u32_head a s r : 0 < base < a -> 1 <= s -> a + 8 * s < 2 ^ 32 -> Forall (behind a s) r ->
  u32 (head_addr r base) = head_addr r base.
Proof.
  intros Hb Hs Ht Hr. apply u32_small. destruct Hr as [|x r (? & ? & He) _]; simpl; [lia|].
  unfold blk_end in He. lia.
Qed.

Lemma seg_above m m' a s r e : 1 <= s -> (forall b, far b a -> same_header m m' b) ->
  Forall (behind a s) r -> seg m r e -> seg m' r e.
Proof.
  intros Hs Hk Hr. apply seg_frame. eapply list.Forall_impl; [exact Hr|].
  intros x (? & _). apply Hk. unfold far. lia.
Qed.

(** What joining keeps: every other header, and who is apart from the blocks. *)
Lemma join_up_ok m p r a s :
  s_ptr m p = head_addr r base -> seg m r base -> s_size m a = s -> far p a ->
  0 < base < a -> 1 <= s -> a + 8 * s < 2 ^ 32 ->
  gaps (a - 1) r -> Forall (behind a s) r ->
  exists t r', seg (join_up m a p) ((a, t) :: r') base /\ gaps (a - 1) ((a, t) :: r') /\
    t + units r' = s + units r /\ s <= t /\ a + 8 * t < 2 ^ 32 /\ (exists d, r = d ++ r') /\
    (forall b, far b a -> same_header m (join_up m a p) b) /\
    only_headers m (join_up m a p) [a] /\
    (forall y, 1 <= y.2 -> disj y (a, s) -> Forall (disj y) r -> disj y (a, t)) /\
    (forall hi, a + 8 * s <= hi -> Forall (fun x => blk_end x <= hi) r -> a + 8 * t <= hi).
Proof.
  intros Hp Hr Hs Hfar Hb Hs1 Htop Hg Hbl. unfold join_up. cbv zeta.
  rewrite Hp, Hs, hadd_small by lia.
  destruct (Z.eqb_spec (a + 8 * s) (head_addr r base)) as [He|He].
  - destruct r as [|[q t] r]; [simpl in He; lia|]. cbn [head_addr fst] in *.
    destruct Hr as (Hq & Ht & Hr). cbn [fst snd] in *. destruct Hg as [_ Hg].
    apply Forall_cons_1 in Hbl as [(_ & Ht1 & Htop') Hbl]. unfold blk_end in *. cbn [fst snd] in *.
    set (m1 := set_size m a (s + s_size m q)).
    assert (Hk1 : forall b, far b a -> same_header m m1 b) by (intros; by apply same_header_set_size).
    rewrite (proj1 (Hk1 p Hfar)), Hp.
    rewrite (proj1 (Hk1 q ltac:(unfold far; lia))), Hq.
    set (m2 := set_ptr m1 a _).
    assert (Hk : forall b, far b a -> same_header m m2 b).
    { intros b Hf. eapply same_header_trans; [by apply Hk1|]. by apply same_header_set_ptr. }
    exists (s + t), r. split_and!.
    + split_and!; cbn [fst snd].
      * unfold m2. rewrite s_ptr_set. by apply (u32_head a s); try lia.
      * unfold m2. rewrite s_size_set_ptr. unfold m1. rewrite s_size_set, Ht. apply u32_small. lia.
      * by apply (seg_above m m2 a s).
    + split; [simpl; lia|]. unfold blk_end. cbn [fst snd]. 
      by replace (a + 8 * (s + t)) with (q + 8 * t) by lia.
    + simpl. lia.
    + lia.
    + lia.
    + by exists [(q, t)].
    + exact Hk.
    + apply only_headers_ptr, only_headers_size, only_headers_refl; set_solver.
    + intros y Hy1 Hy Hys. apply Forall_inv in Hys. unfold disj, blk_end in *. cbn [fst snd] in *. lia.
    + intros hi _ Hhi. apply Forall_inv in Hhi. unfold blk_end in Hhi. cbn [fst snd] in Hhi. lia.
  - set (m2 := set_ptr m a _).
    assert (Hk : forall b, far b a -> same_header m m2 b) by (intros; by apply same_header_set_ptr).
    exists s, r. split_and!.
    + split_and!; cbn [fst snd].
      * unfold m2. rewrite s_ptr_set. by apply (u32_head a s); try lia.
      * unfold m2. by rewrite s_size_set_ptr.
      * by apply (seg_above m m2 a s).
    + split; [simpl; lia|]. unfold blk_end. cbn [fst snd].
      destruct r as [|z r]; [done|]. destruct Hg as [_ Hg]. split; [|done].
      destruct (Forall_inv Hbl) as [Hz _]. simpl in He. lia.
    + lia.
    + lia.
    + lia.
    + by exists [].
    + exact Hk.
    + apply only_headers_ptr, only_headers_refl; set_solver.
    + done.
    + done.
Qed.

Definition joined (p ps a t : Z) : list blk :=
  if p + 8 * ps =? a then [(p, ps + t)] else [(p, ps); (a, t)].

Lemma join_down_ok m p ps a t r :
  seg m ((a, t) :: r) base -> s_size m p = ps -> 0 <= ps -> 0 < p -> p + 8 <= a ->
  p + 8 * ps <= a -> 1 <= t -> a + 8 * t < 2 ^ 32 -> 0 < base < a ->
  gaps (a - 1) ((a, t) :: r) -> Forall (behind a t) r ->
  seg (join_down m a p) (joined p ps a t ++ r) base /\ gaps (p - 1) (joined p ps a t ++ r) /\
  (forall b, far b p -> same_header m (join_down m a p) b) /\
  only_headers m (join_down m a p) [p].
Proof.
  intros (Hn & Ht & Hr) Hs Hps Hp Hpa Hle Ht1 Htop Hb [_ Hg] Hbl. cbn [fst snd] in *.
  unfold join_down, joined. cbv zeta. rewrite Hs, Ht, hadd_small by lia. unfold blk_end in Hg.
  assert (Hseg : forall m', (forall b, far b p -> same_header m m' b) -> seg m' r base).
  { intros m' Hk. eapply seg_frame; [|exact Hr]. eapply list.Forall_impl; [exact Hbl|].
    intros x (Hx & _). apply Hk. unfold far. lia. }
  destruct (Z.eqb_spec (p + 8 * ps) a) as [He|He].
  - set (m1 := set_size m p (ps + t)).
    assert (Hk1 : forall b, far b p -> same_header m m1 b) by (intros; by apply same_header_set_size).
    rewrite (proj1 (Hk1 a ltac:(unfold far; lia))), Hn.
    assert (Hk : forall b, far b p -> same_header m (set_ptr m1 p (head_addr r base)) b).
    { intros b Hf. eapply same_header_trans; [by apply Hk1|]. by apply same_header_set_ptr. }
    split_and!; [split_and!|split| | ]; cbn [fst snd app].
    + rewrite s_ptr_set. by apply (u32_head a t).
    + rewrite s_size_set_ptr. unfold m1. rewrite s_size_set. apply u32_small. lia.
    + by apply Hseg.
    + lia.
    + unfold blk_end. cbn [fst snd]. by replace (p + 8 * (ps + t)) with (a + 8 * t) by lia.
    + exact Hk.
    + apply only_headers_ptr, only_headers_size, only_headers_refl; set_solver.
  - assert (Hk : forall b, far b p -> same_header m (set_ptr m p a) b)
      by (intros; by apply same_header_set_ptr).
    destruct (Hk a ltac:(unfold far; lia)) as [Ha1 Ha2].
    split_and!; [split_and!|split; [|split]| | ]; cbn [fst snd app head_addr].
    + rewrite s_ptr_set. apply u32_small. lia.
    + by rewrite s_size_set_ptr.
    + split_and!; cbn [fst snd]; [by rewrite Ha1|by rewrite Ha2|by apply Hseg].
    + lia.
    + unfold blk_end. cbn [fst snd]. lia.
    + done.
    + exact Hk.
    + apply only_headers_ptr, only_headers_refl; set_solver.
Qed.

Lemma joined_units p ps a t : units (joined p ps a t) = ps + t.
Proof. unfold joined. destruct (_ =? _); simpl; lia. Qed.

Lemma joined_disj p ps a t y : 1 <= y.2 -> disj y (p, ps) -> disj y (a, t) ->
  Forall (disj y) (joined p ps a t).
Proof.
  unfold joined. destruct (Z.eqb_spec (p + 8 * ps) a); [|by intros; rewrite !list.Forall_cons].
  intros. constructor; [|constructor]. unfold disj, blk_end in *. cbn [fst snd] in *. lia.
Qed.

(** Later blocks of an ascending list lie behind earlier ones. *)
Lemma gaps_before lo l1 x l2 y :
  gaps lo (l1 ++ x :: l2) -> Forall (fun z => 0 <= z.2) l2 -> y ∈ l2 -> blk_end x < y.1.
Proof. intros Hg Hp Hy. apply gaps_app in Hg as [_ [_ Hg]]. by eapply gaps_above. Qed.

Lemma gaps_relo lo lo' l : gaps lo' l -> lo < head_addr l (lo + 1) -> gaps lo l.
Proof. destruct l as [|x l]; [done|]. by intros [_ Hg] Hlo. Qed.

Lemma joined_head p ps a t r e : head_addr (joined p ps a t ++ r) e = p.
Proof. unfold joined. by destruct (_ =? _). Qed.

(** The place of a block: the last header below it, and what lies behind. *)
Lemma place_ok m bs fp a s :
  finv base m bs fp -> base + 8 <= a -> 1 <= s -> Forall (fun y => disj y (a, s)) bs ->
  exists l0 p ps r, (base, 0) :: bs = l0 ++ (p, ps) :: r /\ 0 <= ps /\ base <= p /\
    p + 8 <= a /\ p + 8 * ps <= a /\ Forall (fun x => x.1 + 8 <= p /\ x.1 + 8 <= a) l0 /\
    Forall (behind a s) r.
Proof.
  intros [Hb Hseg Hg Hbl Hfp] Ha Hs Hd.
  assert (Hp1 : Forall (fun y => 1 <= y.2) bs) by (eapply list.Forall_impl; [exact Hbl|]; simpl; lia).
  assert (Hp0 : Forall (fun y => 0 <= y.2) bs) by (eapply list.Forall_impl; [exact Hp1|]; simpl; lia).
  destruct Hg as [Hg0 Hg]. pose proof Hg as Hgb.
  destruct (split_block (blk_end (base, 0)) bs (a, s)) as (l & r & -> & Hl & Hr); [done..|].
  destruct (exists_last (l := (base, 0) :: l)) as (l0 & [p ps] & Hl0); [done|].
  exists l0, p, ps, r. apply Forall_app in Hbl as [Hbl Hbr].
  assert (Hall : Forall (fun x => 0 <= x.2 /\ base <= x.1 /\ x.1 + 8 <= a /\ blk_end x <= a) ((base, 0) :: l)).
  { constructor; [unfold blk_end; simpl; lia|]. apply list.Forall_forall. intros x Hx.
    eapply list.Forall_forall in Hl, Hbl; [|exact Hx..]. unfold blk_end in *. simpl in *. lia. }
  rewrite Hl0 in Hall. apply Forall_app in Hall as [Hall Hpa]. apply Forall_inv in Hpa.
  unfold blk_end in Hpa. cbn [fst snd] in Hpa. split_and!; try lia.
  - by rewrite app_comm_cons, Hl0, <- app_assoc.
  - apply list.Forall_forall. intros x Hx. pose proof Hall as Hxa.
    eapply list.Forall_forall in Hxa; [|exact Hx]. split; [|lia].
    apply list_elem_of_split in Hx as (A & B & ->).
    assert (Hgl : gaps (base - 1) ((base, 0) :: l)) by (split; [done|]; by apply gaps_app in Hgb as [? _]).
    rewrite Hl0, <- app_assoc in Hgl. simpl in Hgl.
    assert (Hlast : blk_end x < (p, ps).1).
    { eapply gaps_before; [exact Hgl| |set_solver]. apply Forall_app in Hall as [_ Hall].
      apply Forall_cons_1 in Hall as [_ Hall]. apply Forall_app. split.
      - eapply list.Forall_impl; [exact Hall|]. simpl. lia.
      - constructor; [simpl; lia|constructor]. }
    destruct A as [|z A]; injection Hl0 as Hz Hl1.
    + assert (Hin : (p, ps) ∈ l) by (rewrite Hl1; set_solver).
      eapply list.Forall_forall in Hbl; [|exact Hin]. subst x. simpl in *. lia.
    + assert (Hin : x ∈ l) by (rewrite Hl1; set_solver).
      eapply list.Forall_forall in Hbl; [|exact Hin]. unfold blk_end in Hlast. simpl in *. lia.
  - apply list.Forall_forall. intros x Hx. eapply list.Forall_forall in Hr, Hbr; [|exact Hx..].
    unfold behind, blk_end in *. simpl in *. lia.
Qed.

Lemma only_headers_trans m m' m'' ps ps' :
  only_headers m m' ps -> only_headers m' m'' ps' -> only_headers m m'' (ps ++ ps').
Proof.
  intros H1 H2 b Hb. apply Forall_app in Hb as [Hb1 Hb2]. by rewrite H2, H1.
Qed.

Lemma only_headers_mono m m' ps ps' : ps ⊆ ps' -> only_headers m m' ps -> only_headers m m' ps'.
Proof.
  intros Hs Ho b Hb. apply Ho. apply list.Forall_forall. intros p Hp.
  eapply list.Forall_forall in Hb; [exact Hb|]. by apply Hs.
Qed.

(** The list with the joined blocks in place, and where its blocks come from. *)
Lemma joined_list bs l0 p ps r a t r' :
  (base, 0) :: bs = l0 ++ (p, ps) :: r -> base < a ->
  exists bs', l0 ++ joined p ps a t ++ r' = (base, 0) :: bs' /\
    Forall (fun x => x ∈ bs \/ x ∈ r' \/ x = (a, t) \/
                     (x = (p, ps + t) /\ p + 8 * ps = a /\ (p, ps) ∈ bs)) bs'.
Proof.
  intros Heq Ha. destruct l0 as [|z l1]; injection Heq as Hz Hbs.
  - exists ((a, t) :: r'). unfold joined. subst.
    destruct (Z.eqb_spec (p + 8 * 0) a); [lia|]. split; [done|].
    constructor; [auto|]. apply list.Forall_forall. auto.
  - exists (l1 ++ joined p ps a t ++ r'). subst z. split; [done|].
    apply list.Forall_forall. intros x. rewrite !elem_of_app, Hbs.
    intros [?|[Hj|?]]; [set_solver| |auto]. unfold joined in Hj.
    destruct (Z.eqb_spec (p + 8 * ps) a) as [E|]; [|set_solver].
    apply list_elem_of_singleton in Hj as ->. right. right. right. split_and!; [done|done|set_solver].
Qed.

(** What free makes of the list. *)
Record freed (m m' : gmap Z Z) (bs bs' : list blk) (x : blk) (fp : Z) : Prop := {
  fr_inv : finv base m' bs' fp;
  fr_units : units bs' = units bs + x.2;
  fr_len : (length bs' <= S (length bs))%nat;
  fr_big : exists y, y ∈ bs' /\ x.2 <= y.2;
  fr_top : forall hi, blk_end x <= hi -> Forall (fun y => blk_end y <= hi) bs ->
    Forall (fun y => blk_end y <= hi) bs';
  fr_only : only_headers m m' (x.1 :: base :: bs.*1);
  fr_apart : forall y, 1 <= y.2 -> disj y x -> Forall (disj y) bs -> Forall (disj y) bs'
}.

Lemma free_ok fuel m bs fp a s :
  finv base m bs fp -> base + 8 <= a -> 1 <= s -> a + 8 * s < 2 ^ 32 -> s_size m a = s ->
  Forall (fun y => disj y (a, s)) bs -> (length bs < fuel)%nat ->
  exists m' bs' p, free fuel (mkUheap m fp) (a + 8) = Some (mkUheap m' p) /\
    freed m m' bs bs' (a, s) p.
Proof.
  intros Hinv Ha Hs1 Htop Hs Hd Hfuel.
  destruct (place_ok m bs fp a s Hinv Ha Hs1 Hd) as
    (l0 & p & ps & r & Heq & Hps & Hbp & Hp8 & Hpe & Hl0 & Hr).
  pose proof Hinv as [Hb Hseg Hg Hbl Hfp].
  assert (Hsa : seg m l0 p /\ s_ptr m p = head_addr r base /\ s_size m p = ps /\ seg m r base).
  { rewrite Heq in Hseg. apply seg_app in Hseg as [? (? & ? & ?)]. done. }
  destruct Hsa as (Hs0 & Hpp & Hpsz & Hsr).
  assert (Hga : gaps (base - 1) l0 /\ end_addr (base - 1) l0 < p /\ gaps (p + 8 * ps) r).
  { rewrite Heq in Hg. apply gaps_app in Hg as [? [? ?]]. done. }
  destruct Hga as (Hg0 & Hge & Hgr).
  destruct (join_up_ok m p r a s) as (t & r' & Hu1 & Hu2 & Hut & Hst & Hutop & [d Hd'] & Huk & Huo & Hua & Huh);
    [done|done|done|unfold far; lia|lia|done|done| |done|].
  { apply (gaps_relo _ _ _ Hgr). destruct Hr as [|x r (? & _) _]; simpl; lia. }
  remember (join_up m a p) as m1 eqn:Em1.
  assert (Hrr : Forall (behind a s) r') by (rewrite Hd' in Hr; by apply Forall_app in Hr as [_ ?]).
  assert (Hr' : Forall (behind a t) r').
  { apply list.Forall_forall. intros x Hx. pose proof Hrr as Hxr.
    eapply list.Forall_forall in Hxr; [|exact Hx]. destruct Hxr as (_ & ? & ?).
    destruct Hu2 as [_ Hu2]. split; [|done].
    eapply gaps_above in Hx; [|exact Hu2|].
    - unfold blk_end in Hx. cbn [fst snd] in Hx. lia.
    - eapply list.Forall_impl; [exact Hrr|]. unfold behind. simpl. lia. }
  assert (Hpa : far p a) by (unfold far; lia).
  destruct (Huk p Hpa) as [_ Hpsz1]. rewrite Hpsz in Hpsz1.
  destruct (join_down_ok m1 p ps a t r') as (Hd1 & Hd2 & Hdk & Hdo);
    [done|done|done|lia|done|done|lia|done|lia|done|done|].
  exists (join_down m1 a p). set (m2 := join_down m1 a p) in *.
  assert (Hs2 : seg m2 l0 p).
  { eapply seg_frame; [|exact Hs0]. eapply list.Forall_impl; [exact Hl0|]. intros x [Hx1 Hx2].
    eapply same_header_trans; [apply Huk|apply Hdk]; unfold far; lia. }
  assert (Hrb : r ⊆ bs).
  { intros x Hx. assert (Hx' : x ∈ (base, 0) :: bs) by (rewrite Heq; set_solver).
    apply elem_of_cons in Hx' as [->|?]; [|done].
    eapply list.Forall_forall in Hr; [|exact Hx]. destruct Hr as (_ & ? & _). simpl in *. lia. }
  assert (Hrb' : r' ⊆ bs) by (intros x Hx; apply Hrb; rewrite Hd'; set_solver).
  destruct (joined_list bs l0 p ps r a t r' Heq ltac:(lia)) as (bs' & Hfl & Hmem).
  exists bs', p. split.
  { rewrite free_joins, hadd_small by lia. replace (a + 8 + 8 * -1) with a by lia.
    rewrite (find_ok m bs fp a p ps l0 r); [unfold m2; by rewrite Em1|done|done| | |done].
    - apply Forall_app. split; [|constructor; [simpl; lia|constructor]].
      eapply list.Forall_impl; [exact Hl0|]. simpl. lia.
    - eapply list.Forall_impl; [exact Hr|]. intros x [? _]. lia. }
  constructor.
  - constructor; [done| | | |].
    + rewrite <- Hfl. apply seg_app. split; [by rewrite joined_head|done].
    + rewrite <- Hfl. apply gaps_app. split; [done|].
      apply (gaps_relo _ _ _ Hd2). by rewrite joined_head.
    + apply list.Forall_forall. intros x Hx. eapply list.Forall_forall in Hmem; [|exact Hx].
      destruct Hmem as [Hm|[Hm|[->|(-> & ? & Hin)]]].
      * by eapply list.Forall_forall in Hbl.
      * eapply list.Forall_forall in Hr'; [|exact Hm]. destruct Hr' as (? & ? & ?). lia.
      * unfold blk_end. simpl. lia.
      * eapply list.Forall_forall in Hbl; [|exact Hin]. unfold blk_end in *. cbn [fst snd] in *. lia.
    + rewrite <- Hfl, !fmap_app. apply elem_of_app. right. apply elem_of_app. left.
      unfold joined. destruct (_ =? _); set_solver.
  - apply (f_equal units) in Heq, Hfl. rewrite units_app in Heq.
    rewrite !units_app, joined_units in Hfl. simpl in *. lia.
  - apply (f_equal length) in Heq, Hfl, Hd'. rewrite !length_app in *. simpl in *.
    assert (length (joined p ps a t) <= 2)%nat by (unfold joined; destruct (_ =? _); simpl; lia). lia.
  - assert (Hbig : exists y, y ∈ joined p ps a t /\ s <= y.2 /\ a <= blk_end y - 8).
    { unfold joined. destruct (Z.eqb_spec (p + 8 * ps) a); [exists (p, ps + t)|exists (a, t)];
        (split; [set_solver|]; unfold blk_end; cbn [fst snd]; lia). }
    destruct Hbig as (y & Hy & Hys & Hye). exists y. split; [|done].
    assert (Hin : y ∈ (base, 0) :: bs') by (rewrite <- Hfl; set_solver).
    apply elem_of_cons in Hin as [->|?]; [|done]. unfold blk_end in Hye. simpl in *. lia.
  - intros hi Hhi Hbhi. apply list.Forall_forall. intros x Hx.
    eapply list.Forall_forall in Hmem; [|exact Hx].
    assert (Hat : a + 8 * t <= hi).
    { apply Huh; [done|]. apply list.Forall_forall. intros y Hy.
      by eapply list.Forall_forall in Hbhi; [|by apply Hrb]. }
    destruct Hmem as [Hm|[Hm|[->|(-> & ? & _)]]].
    + by eapply list.Forall_forall in Hbhi.
    + by eapply list.Forall_forall in Hbhi; [|by apply Hrb'].
    + done.
    + unfold blk_end. cbn [fst snd]. lia.
  - eapply only_headers_mono; [|by eapply only_headers_trans].
    assert (Hpin : p ∈ ((base, 0) :: bs).*1) by (rewrite Heq, fmap_app; set_solver).
    simpl in *. set_solver.
  - intros y Hy Hya Hyb. assert (Hyt : disj y (a, t)).
    { apply Hua; [done|done|]. apply list.Forall_forall. intros x Hx.
      by eapply list.Forall_forall in Hyb; [|by apply Hrb]. }
    apply list.Forall_forall. intros x Hx. eapply list.Forall_forall in Hmem; [|exact Hx].
    destruct Hmem as [Hm|[Hm|[->|(-> & ? & Hpb)]]].
    + by eapply list.Forall_forall in Hyb.
    + by eapply list.Forall_forall in Hyb; [|by apply Hrb'].
    + done.
    + assert (Hyp : disj y (p, ps)) by (by eapply list.Forall_forall in Hyb).
      pose proof (joined_disj p ps a t y Hy Hyp Hyt) as Hj. unfold joined in Hj.
      destruct (Z.eqb_spec (p + 8 * ps) a); [by apply Forall_inv in Hj|lia].
Qed.
End free.

(** * malloc *)

Section malloc.
Context (base : Z).
Implicit Types (m : gmap Z Z) (l r bs : list blk) (x y f : blk).

Lemma gaps_sorted lo l i j x y : gaps lo l -> Forall (fun z => 0 <= z.2) l ->
  l !! i = Some x -> l !! j = Some y -> (i < j)%nat -> blk_end x < y.1.
Proof.
  intros Hg Hp Hi Hj Hij. apply list_elem_of_split_length in Hi as (l1 & l2 & -> & ->).
  eapply gaps_before; [exact Hg| |].
  - by apply Forall_app in Hp as [_ ?%Forall_cons_1%proj2].
  - rewrite lookup_app_r in Hj by lia.
    destruct (j - length l1)%nat eqn:E; [lia|]. simpl in Hj. by eapply list_elem_of_lookup_2.
Qed.

(** The addresses in the list are distinct. *)
Lemma finv_addr m bs fp i j x y : finv base m bs fp ->
  ((base, 0) :: bs) !! i = Some x -> ((base, 0) :: bs) !! j = Some y -> x.1 = y.1 -> i = j.
Proof.
  intros [Hb _ Hg Hbl _] Hi Hj Hxy.
  assert (Hpos : Forall (fun z => 0 <= z.2) ((base, 0) :: bs)).
  { constructor; [simpl; lia|]. eapply list.Forall_impl; [exact Hbl|]. simpl. lia. }
  pose proof Hpos as Hx. eapply Forall_lookup_1 in Hx; [|exact Hi].
  pose proof Hpos as Hy. eapply Forall_lookup_1 in Hy; [|exact Hj].
  destruct (Nat.lt_trichotomy i j) as [Hlt|[?|Hlt]]; [|done|].
  - pose proof (gaps_sorted _ _ _ _ _ _ Hg Hpos Hi Hj Hlt). unfold blk_end in *. lia.
  - pose proof (gaps_sorted _ _ _ _ _ _ Hg Hpos Hj Hi Hlt). unfold blk_end in *. lia.
Qed.

(** The pointer of the block at index [i] is the address at index [i + 1]. *)
Lemma seg_next m l e i x : seg m l e -> l !! i = Some x ->
  s_ptr m x.1 = match l !! S i with Some y => y.1 | None => e end.
Proof.
  revert i. induction l as [|z l IH]; intros i Hs Hi; [done|]. destruct Hs as (Hn & _ & Hs).
  destruct i as [|i]; simplify_eq/=; [by rewrite Hn; destruct l|]. by apply IH.
Qed.

(** Only one header points to a block. *)
Lemma pred_unique m bs fp prev l0 p ps x r : finv base m bs fp ->
  (base, 0) :: bs = l0 ++ (p, ps) :: x :: r -> prev ∈ ((base, 0) :: bs).*1 ->
  s_ptr m prev = x.1 -> prev = p.
Proof.
  intros Hinv Heq Hprev Hx. apply list_elem_of_fmap in Hprev as (y & -> & Hy).
  apply list_elem_of_lookup in Hy as [i Hi].
  assert (Hj : ((base, 0) :: bs) !! length l0 = Some (p, ps)) by (rewrite Heq; by apply list_lookup_middle).
  assert (Hj' : ((base, 0) :: bs) !! S (length l0) = Some x).
  { rewrite Heq, lookup_app_r by lia. by replace (S (length l0) - length l0)%nat with 1%nat by lia. }
  pose proof (seg_next _ _ _ _ _ (fi_seg _ _ _ _ Hinv) Hi) as Hn. rewrite Hx in Hn.
  destruct (((base, 0) :: bs) !! S i) as [z|] eqn:Ez.
  - pose proof (finv_addr _ _ _ _ _ _ _ Hinv Hj' Ez Hn) as E. injection E as <-.
    rewrite Hj in Hi. by injection Hi as <-.
  - assert (H0 : ((base, 0) :: bs) !! O = Some (base, 0)) by done.
    pose proof (finv_addr _ _ _ _ _ _ _ Hinv Hj' H0 Hn). lia.
Qed.

(** What taking a block of [n] units leaves. *)
Record taken (m m' : gmap Z Z) (bs bs' : list blk) (x : blk) (fp : Z) : Prop := {
  tk_inv : finv base m' bs' fp;
  tk_units : units bs = units bs' + x.2;
  tk_len : (length bs' <= length bs)%nat;
  tk_top : forall hi, Forall (fun y => blk_end y <= hi) bs -> Forall (fun y => blk_end y <= hi) bs';
  tk_only : only_headers m m' (x.1 :: base :: bs.*1);
  tk_size : s_size m' x.1 = x.2;
  tk_range : base + 8 <= x.1 /\ blk_end x < 2 ^ 32;
  tk_in : exists y, y ∈ bs /\ y.1 <= x.1 /\ blk_end x = blk_end y;
  tk_disj : Forall (fun y => disj y x) bs';
  tk_apart : forall y, 1 <= y.2 -> Forall (disj y) bs -> disj y x /\ Forall (disj y) bs'
}.

Lemma finv_pos m bs fp : finv base m bs fp -> Forall (fun z => 0 <= z.2) ((base, 0) :: bs).
Proof.
  intros [_ _ _ Hbl _]. constructor; [simpl; lia|].
  eapply list.Forall_impl; [exact Hbl|]. simpl. lia.
Qed.

(** Where the other blocks are. *)
Lemma finv_pair m bs fp i j x y : finv base m bs fp ->
  ((base, 0) :: bs) !! i = Some x -> ((base, 0) :: bs) !! j = Some y -> (i < j)%nat ->
  x.1 + 8 <= y.1 /\ blk_end x < y.1.
Proof.
  intros Hinv Hi Hj Hij. pose proof (finv_pos _ _ _ Hinv) as Hpos. destruct Hinv as [_ _ Hg Hbl _].
  pose proof (gaps_sorted _ _ _ _ _ _ Hg Hpos Hi Hj Hij) as He. split; [|done].
  destruct j as [|j]; [lia|]. simpl in Hj.
  destruct i as [|i]; simplify_eq/=.
  - eapply Forall_lookup_1 in Hbl; [|exact Hj]. simpl in Hbl. lia.
  - eapply Forall_lookup_1 in Hbl; [|exact Hi]. unfold blk_end in *. simpl in *. lia.
Qed.

Lemma finv_around m bs fp l x r : finv base m bs fp -> (base, 0) :: bs = l ++ x :: r ->
  Forall (fun y => y.1 + 8 <= x.1 /\ blk_end y < x.1) l /\
  Forall (fun y => x.1 + 8 <= y.1 /\ blk_end x < y.1) r.
Proof.
  intros Hinv Heq.
  assert (Hx : ((base, 0) :: bs) !! length l = Some x) by (rewrite Heq; by apply list_lookup_middle).
  split; apply Forall_lookup_2; intros i y Hy.
  - apply (finv_pair _ _ _ i (length l) _ _ Hinv); [|done|by apply lookup_lt_Some in Hy].
    rewrite Heq. by apply lookup_app_l_Some.
  - apply (finv_pair _ _ _ (length l) (length l + S i) _ _ Hinv); [done| |lia].
    rewrite Heq, lookup_app_r by lia. by replace (length l + S i - length l)%nat with (S i) by lia.
Qed.

Lemma disj_sub y x x' : x.1 <= x'.1 -> blk_end x' <= blk_end x -> 1 <= y.2 -> disj y x -> disj y x'.
Proof. unfold disj. lia. Qed.

Lemma disj_sym x y : disj x y -> disj y x.
Proof. unfold disj. tauto. Qed.

Lemma take_exact m bs fp prev x : finv base m bs fp -> x ∈ bs ->
  prev ∈ ((base, 0) :: bs).*1 -> s_ptr m prev = x.1 ->
  exists bs', taken m (set_ptr m prev (s_ptr m x.1)) bs bs' x prev.
Proof.
  intros Hinv Hx Hprev Hpx. apply list_elem_of_split in Hx as (l & r & Hbs).
  destruct (exists_last (l := (base, 0) :: l)) as (l0 & [p ps] & Hl0); [done|].
  assert (Heq : (base, 0) :: bs = l0 ++ (p, ps) :: x :: r)
    by (rewrite Hbs, app_comm_cons, Hl0, <- app_assoc; done).
  assert (Heq' : (base, 0) :: bs = (l0 ++ [(p, ps)]) ++ x :: r) by (by rewrite <- app_assoc).
  pose proof (pred_unique _ _ _ _ _ _ _ _ _ Hinv Heq Hprev Hpx) as ->.
  destruct (finv_around _ _ _ _ _ _ Hinv Heq) as [Hlp Hrp].
  destruct (finv_around _ _ _ _ _ _ Hinv Heq') as [Hlx Hrx].
  apply Forall_cons_1 in Hrp as [[Hpx8 _] Hrp]. cbn [fst] in *.
  pose proof Hinv as [Hb Hseg Hg Hbl _].
  rewrite Heq in Hseg, Hg. apply seg_app in Hseg as [Hs0 (_ & Hps & Hxr & Hxs & Hsr)].
  apply gaps_app in Hg as [Hg0 (Hge & Hgx & Hgr)]. cbn [fst snd] in *.
  assert (Hk : forall b, far b p -> same_header m (set_ptr m p (s_ptr m x.1)) b)
    by (intros; by apply same_header_set_ptr).
  rewrite Hbs in Hbl. apply Forall_app in Hbl as [Hbl Hbr]. apply Forall_cons_1 in Hbr as [Hxw Hbr].
  assert (Hfl : (base, 0) :: l ++ r = l0 ++ (p, ps) :: r)
    by (by rewrite app_comm_cons, Hl0, <- app_assoc).
  exists (l ++ r). constructor.
  - constructor; [done| | |by apply Forall_app|].
    + rewrite Hfl. apply seg_app. split; [|split_and!; cbn [fst snd]].
      * eapply seg_frame; [|exact Hs0]. eapply list.Forall_impl; [exact Hlp|].
        intros y [? ?]. apply Hk. unfold far. lia.
      * rewrite s_ptr_set, u32_small by apply rd32_range. done.
      * by rewrite s_size_set_ptr.
      * eapply seg_frame; [|exact Hsr]. eapply list.Forall_impl; [exact Hrp|].
        intros y [? ?]. apply Hk. unfold far. lia.
    + rewrite Hfl. apply gaps_app. split; [done|]. split; [done|].
      eapply gaps_weaken; [|exact Hgr]. unfold blk_end in *. cbn [fst snd] in *. lia.
    + rewrite Hfl, fmap_app. set_solver.
  - rewrite Hbs, !units_app. simpl. lia.
  - rewrite Hbs, !length_app. simpl. lia.
  - intros hi. rewrite Hbs, !Forall_app, list.Forall_cons. tauto.
  - apply only_headers_ptr, only_headers_refl. by right.
  - rewrite <- Hxs. apply Hk. unfold far. lia.
  - split; [apply Hxw|apply Hxw].
  - exists x. rewrite Hbs. split_and!; [set_solver|done|done].
  - apply Forall_app. split.
    + assert (Hll : Forall (fun y => y.1 + 8 <= x.1 /\ blk_end y < x.1) ((base, 0) :: l)) by (by rewrite Hl0).
      apply Forall_cons_1 in Hll as [_ Hll]. eapply list.Forall_impl; [exact Hll|].
      intros y [? ?]. left. lia.
    + eapply list.Forall_impl; [exact Hrx|]. intros y [? ?]. right. lia.
  - intros y Hy Hyb. rewrite Hbs in Hyb. apply Forall_app in Hyb as [? Hyr].
    apply Forall_cons_1 in Hyr as [? ?]. split; [done|]. by apply Forall_app.
Qed.

Lemma take_split m bs fp prev x n : finv base m bs fp -> x ∈ bs ->
  prev ∈ ((base, 0) :: bs).*1 -> 1 <= n < x.2 ->
  let a := x.1 + 8 * (x.2 - n) in
  exists bs', taken m (set_size (set_size m x.1 (x.2 - n)) a n) bs bs' (a, n) prev.
Proof.
  intros Hinv Hx Hprev Hn a. apply list_elem_of_split in Hx as (l & r & Hbs).
  assert (Heq : (base, 0) :: bs = ((base, 0) :: l) ++ x :: r) by (by rewrite Hbs).
  destruct (finv_around _ _ _ _ _ _ Hinv Heq) as [Hl Hr].
  pose proof Hinv as [Hb Hseg Hg Hbl _].
  rewrite Heq in Hseg, Hg. apply seg_app in Hseg as [Hs0 (Hxr & Hxs & Hsr)].
  apply gaps_app in Hg as [Hg0 (Hge & Hgr)].
  set (m1 := set_size m x.1 (x.2 - n)). set (m2 := set_size m1 a n).
  assert (Hk : forall b, far b x.1 -> far b a -> same_header m m2 b).
  { intros b Hf Hfa. eapply same_header_trans; by apply same_header_set_size. }
  assert (Hax : far x.1 a) by (unfold far, a; lia).
  rewrite Hbs in Hbl. apply Forall_app in Hbl as [Hbl Hbr]. apply Forall_cons_1 in Hbr as [Hxw Hbr].
  assert (Hend : blk_end (a, n) = blk_end x) by (unfold blk_end, a; cbn [fst snd]; lia).
  destruct x as [xa xs]. cbn [fst snd] in *. unfold blk_end in Hend, Hxw. cbn [fst snd] in *.
  assert (Hlow : forall y, y.1 + 8 <= xa -> same_header m m2 y.1)
    by (intros; apply Hk; unfold far, a; lia).
  exists (l ++ (xa, xs - n) :: r). constructor; cbn [fst snd].
  - constructor; [done| | | |].
    + rewrite app_comm_cons. apply seg_app. split; [|split_and!; cbn [fst snd]].
      * eapply seg_frame; [|exact Hs0]. eapply list.Forall_impl; [exact Hl|].
        intros y [Hy _]. by apply Hlow.
      * unfold m2. rewrite (proj1 (same_header_set_size m1 a n xa Hax)). unfold m1.
        by rewrite s_ptr_set_size.
      * unfold m2. rewrite (proj2 (same_header_set_size m1 a n xa Hax)). unfold m1.
        rewrite s_size_set. apply u32_small. lia.
      * eapply seg_frame; [|exact Hsr]. eapply list.Forall_impl; [exact Hr|].
        intros y [Hy1 Hy2]. unfold blk_end in Hy2. cbn [fst snd] in *.
        apply Hk; unfold far, a; lia.
    + rewrite app_comm_cons. apply gaps_app. split; [done|]. split; [done|].
      eapply gaps_weaken; [|exact Hgr]. unfold blk_end. cbn [fst snd]. lia.
    + apply Forall_app. split; [done|]. constructor; [|done]. unfold blk_end. cbn [fst snd]. lia.
    + rewrite Hbs in Hprev. rewrite fmap_cons, fmap_app in *. done.
  - rewrite Hbs, !units_app. simpl. lia.
  - rewrite Hbs, !length_app. simpl. lia.
  - intros hi. rewrite Hbs, !Forall_app, !list.Forall_cons. unfold blk_end at 2 5.
    cbn [fst snd]. intros (? & ? & ?). split_and!; [done|lia|done].
  - eapply only_headers_mono; [|eapply only_headers_trans;
      apply only_headers_size, only_headers_refl; apply list_elem_of_singleton; done].
    rewrite Hbs, fmap_app. set_solver.
  - unfold m2. rewrite s_size_set. apply u32_small. lia.
  - unfold blk_end. cbn [fst snd]. unfold a in *. lia.
  - exists (xa, xs). rewrite Hbs. unfold blk_end. cbn [fst snd]. split_and!; [set_solver|unfold a; lia|lia].
  - apply Forall_cons_1 in Hl as [_ Hl]. apply Forall_app. split; [|constructor].
    + eapply list.Forall_impl; [exact Hl|]. intros y [? ?]. left. cbn [fst snd]. unfold a. lia.
    + left. unfold blk_end. cbn [fst snd]. unfold a. lia.
    + eapply list.Forall_impl; [exact Hr|]. intros y [_ Hy]. right.
      unfold blk_end in *. cbn [fst snd] in *. lia.
  - intros y Hy Hyb. rewrite Hbs in Hyb. apply Forall_app in Hyb as [? Hyr].
    apply Forall_cons_1 in Hyr as [Hyx ?].
    assert (Hsub : forall z, xa <= z.1 -> blk_end z <= xa + 8 * xs -> disj y z)
      by (intros z ? ?; eapply disj_sub; [..|exact Hyx]; done).
    split; [apply Hsub|apply Forall_app; split; [done|constructor; [apply Hsub|done]]];
      unfold blk_end; cbn [fst snd]; unfold a; lia.
Qed.
End malloc.
