(* ===== verification/MallocFacts.v ===== *)
(** malloc of umalloc.c against sbrk: the search for a block that fits, the
    growth of the heap, and the invariant that relates the free list to the
    blocks the program holds. *)
From S2P Require Import Prelude Kernel Mem Fsformat User Umalloc UmallocFacts.

(** * The search *)

Section search.
Context (base : Z).
Implicit Types (m : gmap Z Z) (bs t : list blk) (x y : blk).

(** The ring read from the block behind [fp]: every block once, [fp] last. *)
Lemma ring_todo m bs fp : finv base m bs fp ->
  exists t fs, (forall x, x ∈ t ++ [(fp, fs)] <-> x ∈ (base, 0) :: bs) /\
    length t = length bs /\ fp ∉ t.*1 /\ seg m (t ++ [(fp, fs)]) (s_ptr m fp) /\
    s_ptr m fp = head_addr (t ++ [(fp, fs)]) fp.
Proof.
  intros Hinv. pose proof Hinv as [Hb Hseg _ _ Hfp].
  apply list_elem_of_fmap in Hfp as ([fp' fs] & Hfp' & Hin). simpl in Hfp'. subst fp'.
  apply list_elem_of_split in Hin as (A & B & Heq).
  exists (B ++ A), fs. rewrite Heq in Hseg. apply seg_app in Hseg as [HsA (Hn & Hs & HsB)].
  cbn [fst snd head_addr] in *.
  assert (Hhead : head_addr (A ++ [(fp, fs)]) fp = base) by (destruct A; by simplify_eq/=).
  split_and!.
  - intros x. rewrite Heq. set_solver.
  - apply (f_equal length) in Heq. rewrite length_app in *. simpl in *. lia.
  - intros Hin. rewrite fmap_app in Hin.
    assert (Hx : ((base, 0) :: bs) !! length A = Some (fp, fs)) by (rewrite Heq; by apply list_lookup_middle).
    apply elem_of_app in Hin as [Hin|Hin]; apply list_elem_of_fmap in Hin as (y & Hy & Hin);
      apply list_elem_of_lookup in Hin as [i Hi].
    + assert (Hj : ((base, 0) :: bs) !! (length A + S i)%nat = Some y).
      { rewrite Heq, lookup_app_r by lia. by replace (length A + S i - length A)%nat with (S i) by lia. }
      pose proof (finv_addr base _ _ _ _ _ _ _ Hinv Hx Hj Hy). lia.
    + assert (Hj : ((base, 0) :: bs) !! i = Some y) by (rewrite Heq; by apply lookup_app_l_Some).
      pose proof (finv_addr base _ _ _ _ _ _ _ Hinv Hx Hj Hy). apply lookup_lt_Some in Hi. lia.
  - rewrite <- app_assoc. apply seg_app. split; [|apply seg_app; split; [done|]].
    + rewrite head_addr_app. by destruct A; simplify_eq/=.
    + by split_and!.
  - rewrite Hn, <- app_assoc, head_addr_app, Hhead. done.
Qed.

(** Up to the first block that is large enough, or all the way round. *)
Lemma malloc_walk n m fp fs t : forall fuel prev e,
  (length t < fuel)%nat -> fp ∉ t.*1 -> seg m (t ++ [(fp, fs)]) e ->
  s_ptr m prev = head_addr (t ++ [(fp, fs)]) fp ->
  exists prev' k, (prev' = prev \/ prev' ∈ t.*1) /\ (fuel - length t <= S k <= fuel)%nat /\
    ((exists x, x ∈ t ++ [(fp, fs)] /\ n <= x.2 /\ s_size m x.1 = x.2 /\ s_ptr m prev' = x.1 /\
      malloc_loop fuel (mkUheap m fp) n prev (s_ptr m prev) =
      malloc_loop (S k) (mkUheap m fp) n prev' x.1) \/
     (Forall (fun x => x.2 < n) (t ++ [(fp, fs)]) /\ s_size m fp = fs /\
      malloc_loop fuel (mkUheap m fp) n prev (s_ptr m prev) =
      malloc_loop (S k) (mkUheap m fp) n prev' fp)).
Proof.
  induction t as [|y t IH]; intros fuel prev e Hf Hnin Hseg Hprev; rewrite Hprev.
  - cbn [app head_addr fst length] in *. exists prev, (fuel - 1)%nat. split; [by left|]. split; [lia|].
    replace (S (fuel - 1)) with fuel by lia. destruct Hseg as (_ & Hs & _). cbn [fst snd] in Hs.
    destruct (decide (n <= fs)); [left|right].
    + exists (fp, fs). split_and!; [set_solver|done|done|done|done].
    + split_and!; [|done|done]. constructor; [simpl; lia|constructor].
  - cbn [app head_addr]. destruct Hseg as (Hn & Hs & Hseg).
    destruct (decide (n <= y.2)) as [Hfit|Hfit].
    + exists prev, (fuel - 1)%nat. split; [by left|]. simpl in Hf. split; [simpl; lia|]. left.
      exists y. replace (S (fuel - 1)) with fuel by lia.
      split_and!; [set_solver|done|done|done|done].
    + destruct fuel as [|fuel]; [lia|]. simpl in Hf.
      destruct (IH fuel y.1 e ltac:(lia) ltac:(set_solver) Hseg) as (prev' & k & Hp' & Hk & Hres).
      { rewrite Hn. destruct t; done. }
      assert (Hstep : malloc_loop (S fuel) (mkUheap m fp) n prev y.1 =
                      malloc_loop fuel (mkUheap m fp) n y.1 (s_ptr m y.1)).
      { cbn [malloc_loop um freep]. rewrite Hs, (proj2 (Z.leb_gt n y.2)) by lia.
        destruct (Z.eqb_spec y.1 fp) as [E|]; [|done]. exfalso. apply Hnin. rewrite <- E. set_solver. }
      rewrite Hstep. exists prev', k. split; [set_solver|]. split; [simpl; lia|].
      destruct Hres as [(x & Hx & ? & ? & ? & ?)|(Hall & ? & ?)]; [left|right].
      * exists x. split_and!; [set_solver|done|done|done|done].
      * split_and!; [constructor; [lia|done]|done|done].
Qed.

(** The block found is taken, as a whole or from its end. *)
Lemma malloc_found k m bs fp prev x n : finv base m bs fp -> x ∈ bs -> 1 <= n <= x.2 ->
  s_size m x.1 = x.2 -> prev ∈ ((base, 0) :: bs).*1 -> s_ptr m prev = x.1 ->
  exists a m' bs', malloc_loop (S k) (mkUheap m fp) n prev x.1 = Ret (a + 8, mkUheap m' prev) /\
    taken base m m' bs bs' (a, n) prev.
Proof.
  intros Hinv Hx Hn Hs Hprev Hpx. pose proof (fi_blk _ _ _ _ Hinv) as Hbl.
  pose proof (proj1 (fi_base _ _ _ _ Hinv)) as Hb.
  eapply list.Forall_forall in Hbl; [|exact Hx]. destruct Hbl as (Hxa & _ & Hxe).
  unfold blk_end in Hxe.
  cbn [malloc_loop um freep]. rewrite Hs, (proj2 (Z.leb_le n x.2)) by lia.
  destruct (Z.eqb_spec x.2 n) as [<-|Hne].
  - destruct (take_exact base m bs fp prev x Hinv Hx Hprev Hpx) as [bs' Ht].
    exists x.1, (set_ptr m prev (s_ptr m x.1)), bs'. rewrite hadd_small by lia.
    split; [do 3 f_equal; lia|]. by rewrite <- surjective_pairing.
  - destruct (take_split base m bs fp prev x n Hinv Hx Hprev ltac:(lia)) as [bs' Ht].
    eexists _, _, bs'. split; [|exact Ht].
    rewrite s_size_set, u32_small by lia. rewrite (hadd_small x.1) by lia.
    rewrite hadd_small by lia. done.
Qed.
End search.

(** * The heap *)

Section heap.
Context (base lim : Z).
Implicit Types (m : gmap Z Z) (bs al : list blk) (x y : blk) (h : uheap).

(** sbrk as the kernel serves it: the old break, while the limit allows. *)
Definition brk_step (c : syscall) (brk : Z) : reply c * Z :=
  match c with
  | Sbrk n => if (0 <=? n) && (brk + n <=? lim) then (brk, brk + n) else (-1, brk)
  | Read _ _ => ((-1, []), brk)
  | Pipe => ((-1, (0, 0)), brk)
  | Fstat _ => ((-1, mkStat 0 0 0 0 0), brk)
  | _ => (-1, brk)
  end.

Fixpoint apart al : Prop :=
  match al with [] => True | x :: al' => Forall (disj x) al' /\ apart al' end.

(** The program holds the blocks [al]; the others below the break are free. *)
Record hinv (brk : Z) (h : uheap) (bs al : list blk) : Prop := {
  hv_free : finv base (um h) bs (freep h);
  hv_brk : base + 8 <= brk <= lim /\ lim < 2 ^ 32;
  hv_top : Forall (fun x => blk_end x <= brk) bs;
  hv_al : Forall (fun x => base + 8 <= x.1 /\ 1 <= x.2 /\ blk_end x <= brk /\
                           s_size (um h) x.1 = x.2) al;
  hv_apart : apart al;
  hv_disj : Forall (fun x => Forall (disj x) bs) al
}.

(** Not a byte of a block has changed. *)
Definition kept m m' x : Prop := forall b, x.1 <= b < blk_end x -> rd8 m' b = rd8 m b.

Lemma kept_trans m m' m'' x : kept m m' x -> kept m' m'' x -> kept m m'' x.
Proof. intros H1 H2 b Hb. by rewrite H2, H1. Qed.

Lemma kept_size m m' x : 1 <= x.2 -> kept m m' x -> s_size m' x.1 = s_size m x.1.
Proof.
  intros Hx Hk. unfold s_size. apply rd32_agree. intros b Hb. apply Hk. unfold blk_end. lia.
Qed.

(** Writing headers of free blocks and of [y] leaves a block apart from them alone. *)
Lemma only_kept m m' bs x y : only_headers m m' (y.1 :: base :: bs.*1) ->
  base + 8 <= x.1 -> 1 <= y.2 -> Forall (fun z => 1 <= z.2) bs -> disj x y ->
  Forall (disj x) bs -> kept m m' x.
Proof.
  intros Ho Hx Hy Hbs Hd Hds b Hb. apply Ho. unfold disj, blk_end in *.
  constructor; [lia|]. constructor; [lia|]. apply list.Forall_forall. intros p Hp.
  apply list_elem_of_fmap in Hp as (z & -> & Hz).
  eapply list.Forall_forall in Hbs, Hds; [|exact Hz..]. unfold blk_end in Hds. simpl in *. lia.
Qed.

Lemma finv_ones m bs fp : finv base m bs fp -> Forall (fun z => 1 <= z.2) bs.
Proof. intros [_ _ _ Hbl _]. eapply list.Forall_impl; [exact Hbl|]. simpl. lia. Qed.

Lemma finv_frame m m' bs fp :
  Forall (fun x => same_header m m' x.1) ((base, 0) :: bs) -> finv base m bs fp -> finv base m' bs fp.
Proof. intros Hs [Hb Hseg ? ? ?]. constructor; [done| |done..]. by eapply seg_frame. Qed.

(** The blocks the program holds stay what they are. *)
Lemma held_kept m m' brk brk' al : Forall (kept m m') al -> brk <= brk' ->
  Forall (fun x => base + 8 <= x.1 /\ 1 <= x.2 /\ blk_end x <= brk /\ s_size m x.1 = x.2) al ->
  Forall (fun x => base + 8 <= x.1 /\ 1 <= x.2 /\ blk_end x <= brk' /\ s_size m' x.1 = x.2) al.
Proof.
  intros Hk Hle Hal. apply list.Forall_forall. intros x Hx.
  eapply list.Forall_forall in Hk, Hal; [|exact Hx..].
  rewrite (kept_size m m') by (done || lia). split_and!; lia.
Qed.

(** A block taken from the free list is one the program holds. *)
Lemma hinv_taken brk m m' fp bs bs' al a n fp' : hinv brk (mkUheap m fp) bs al -> 1 <= n ->
  taken base m m' bs bs' (a, n) fp' ->
  hinv brk (mkUheap m' fp') bs' ((a, n) :: al) /\ Forall (kept m m') al.
Proof.
  intros [Hf Hb Ht Hal Hap Hd] Hn [Ki Ku Kl Kt Ko Ks Kr (y & Hy & Hya & Hye) Kd Kap]. cbn [um freep fst snd] in *.
  assert (Hone : forall x, x ∈ al -> disj x (a, n) /\ Forall (disj x) bs').
  { intros x Hx. eapply list.Forall_forall in Hal, Hd; [|exact Hx..]. apply Kap; [lia|done]. }
  assert (Hk : Forall (kept m m') al).
  { apply list.Forall_forall. intros x Hx. pose proof (Hone x Hx) as [Hxa _].
    eapply list.Forall_forall in Hal, Hd; [|exact Hx..].
    apply (only_kept m m' bs x (a, n)); [done|lia|done| |done|done]. by eapply finv_ones. }
  split; [|done]. constructor; [done|done| | | | ].
  - by apply Kt.
  - constructor; [|by eapply held_kept]. cbn [um fst snd]. split_and!; [lia|lia| |done].
    eapply list.Forall_forall in Ht; [|exact Hy]. rewrite Hye. exact Ht.
  - split; [|done]. apply list.Forall_forall. intros x Hx. by apply disj_sym, Hone.
  - constructor.
    + eapply list.Forall_impl; [exact Kd|]. intros z Hz. by apply disj_sym.
    + apply list.Forall_forall. intros x Hx. by apply Hone.
Qed.

(** A block joins the free list; the blocks apart from it stay. *)
Lemma hinv_freed brk m m' fp bs bs' al a s fp' : hinv brk (mkUheap m fp) bs al ->
  base + 8 <= a -> 1 <= s -> blk_end (a, s) <= brk -> Forall (fun x => disj x (a, s)) al ->
  freed base m m' bs bs' (a, s) fp' ->
  hinv brk (mkUheap m' fp') bs' al /\ Forall (kept m m') al.
Proof.
  intros [Hf Hb Ht Hal Hap Hd] Ha Hs He Hax [Ki Ku Kl Kb Kt Ko Kap]. cbn [um freep fst snd] in *.
  assert (Hk : Forall (kept m m') al).
  { apply list.Forall_forall. intros x Hx. eapply list.Forall_forall in Hal, Hd, Hax; [|exact Hx..].
    apply (only_kept m m' bs x (a, s)); [done|lia|done| |done|done]. by eapply finv_ones. }
  split; [|done]. constructor; cbn [um freep]; [done|done|by apply Kt| |done|].
  { eapply held_kept; [exact Hk| |exact Hal]. lia. }
  apply list.Forall_forall. intros x Hx. eapply list.Forall_forall in Hal, Hd, Hax; [|exact Hx..].
  apply Kap; [lia|done|done].
Qed.

(** The size of a new region is noted above everything in use. *)
Lemma hinv_grow brk m fp bs al nu : hinv brk (mkUheap m fp) bs al -> 1 <= nu ->
  brk + 8 * nu <= lim ->
  hinv (brk + 8 * nu) (mkUheap (set_size m brk nu) fp) bs al /\
  Forall (kept m (set_size m brk nu)) al.
Proof.
  intros [Hf Hb Ht Hal Hap Hd] Hnu Hl. cbn [um freep] in *.
  assert (Hk : Forall (kept m (set_size m brk nu)) al).
  { eapply list.Forall_impl; [exact Hal|]. intros x (_ & _ & Hx & _) b Hbx.
    apply rd8_wr32_ne. lia. }
  split; [|done]. constructor; cbn [um freep]; [|lia| | |done|done].
  - eapply finv_frame; [|exact Hf]. constructor; [apply same_header_set_size; unfold far; simpl; lia|].
    pose proof (fi_blk _ _ _ _ Hf) as Hbl. apply list.Forall_forall. intros x Hx.
    eapply list.Forall_forall in Ht, Hbl; [|exact Hx..].
    apply same_header_set_size. unfold far, blk_end in *. lia.
  - eapply list.Forall_impl; [exact Ht|]. simpl. lia.
  - eapply held_kept; [done| |done]. lia.
Qed.

(** What a call of malloc leaves: no block, or one more block of [n] units. *)
Record malloced (n brk brk' : Z) (m m' : gmap Z Z) (bs bs' al al' : list blk) (r fp' : Z) : Prop := {
  ma_inv : hinv brk' (mkUheap m' fp') bs' al';
  ma_kept : Forall (kept m m') al;
  ma_len : (length bs' <= S (length bs))%nat;
  ma_res : (r = 0 /\ al' = al /\ bs' = bs /\ brk' = brk /\
            lim < brk + 8 * Z.max n 4096 /\ Forall (fun x => x.2 < n) bs) \/
           (exists a, r = a + 8 /\ al' = (a, n) :: al);
  ma_units : 8 * (units bs' + units al') = 8 * (units bs + units al) + (brk' - brk)
}.

Lemma search_ok fuel m bs fp n : finv base m bs fp -> 1 <= n -> (length bs < fuel)%nat ->
  (exists a m' bs' prev,
    malloc_loop fuel (mkUheap m fp) n fp (s_ptr m fp) = Ret (a + 8, mkUheap m' prev) /\
    taken base m m' bs bs' (a, n) prev) \/
  (Forall (fun x => x.2 < n) bs /\ s_size m fp < n /\
   exists prev k, (fuel - length bs <= S k)%nat /\
    malloc_loop fuel (mkUheap m fp) n fp (s_ptr m fp) = malloc_loop (S k) (mkUheap m fp) n prev fp).
Proof.
  intros Hinv Hn Hf. destruct (ring_todo base m bs fp Hinv) as (t & fs & Hmem & Hlen & Hnin & Hseg & Hhd).
  destruct (malloc_walk n m fp fs t fuel fp _ ltac:(lia) Hnin Hseg Hhd)
    as (prev & k & Hprev & Hk & [(x & Hx & Hxn & Hxs & Hpx & Heq)|(Hall & Hfs & Heq)]).
  - left. assert (Hxb : x ∈ bs).
    { apply Hmem in Hx. apply elem_of_cons in Hx as [->|?]; [simpl in Hxn; lia|done]. }
    destruct (malloc_found base k m bs fp prev x n) as (a & m' & bs' & Hl & Ht); [done|done|lia|done| |done|].
    + destruct Hprev as [->|Hp]; [apply (fi_freep _ _ _ _ Hinv)|].
      apply list_elem_of_fmap in Hp as (y & -> & Hy). apply list_elem_of_fmap_2, Hmem. set_solver.
    + exists a, m', bs', prev. split; [by rewrite Heq|done].
  - right. split_and!.
    + apply list.Forall_forall. intros x Hx. eapply list.Forall_forall in Hall; [exact Hall|].
      apply Hmem. set_solver.
    + apply Forall_app in Hall as [_ Hall]. apply Forall_inv in Hall. simpl in Hall. lia.
    + exists prev, k. split; [lia|done].
Qed.

Lemma malloc_loop_ok fuel brk m fp bs al n : hinv brk (mkUheap m fp) bs al -> 1 <= n ->
  8 * Z.max n 4096 < 2 ^ 31 -> (2 * length bs + 4 <= fuel)%nat ->
  exists r brk' m' fp' bs' al',
    run_prog brk_step (malloc_loop fuel (mkUheap m fp) n fp (s_ptr m fp)) brk =
    (Done (r, mkUheap m' fp'), brk') /\ malloced n brk brk' m m' bs bs' al al' r fp'.
Proof.
  intros Hinv Hn Hmax Hfuel. pose proof (hv_free _ _ _ _ Hinv) as Hfi. cbn [um freep] in Hfi.
  destruct (search_ok fuel m bs fp n Hfi Hn ltac:(lia))
    as [(a & m' & bs' & prev & -> & Ht)|(Hall & Hfs & prev & k & Hk & ->)].
  { destruct (hinv_taken brk m m' fp bs bs' al a n prev Hinv Hn Ht) as [Hi Hkp].
    exists (a + 8), brk, m', prev, bs', ((a, n) :: al). split; [done|]. constructor; [done|done| | |].
    - pose proof (tk_len _ _ _ _ _ _ _ Ht). lia.
    - right. by exists a.
    - pose proof (tk_units _ _ _ _ _ _ _ Ht). simpl in *. lia. }
  cbn [malloc_loop um freep]. rewrite (proj2 (Z.leb_gt n (s_size m fp))), Z.eqb_refl by lia.
  unfold morecore. rewrite run_bind. cbv zeta.
  set (nu := if n <? 4096 then 4096 else n).
  assert (Hnu : n <= nu /\ 1 <= nu /\ 8 * nu < 2 ^ 31)
    by (unfold nu; destruct (Z.ltb_spec n 4096); lia).
  rewrite i32_small by (unfold sizeof_Header; lia). unfold sizeof_Header.
  cbn [run_prog pbind sys brk_step um freep]. rewrite (proj2 (Z.leb_le 0 (nu * 8))) by lia.
  cbn [andb]. destruct (Z.leb_spec (brk + nu * 8) lim) as [Hl|Hl].
  2:{ cbn [run_prog then_ fst snd]. exists 0, brk, m, fp, bs, al. split; [done|].
      constructor; [done|by apply list.Forall_forall|lia| |lia]. left. split_and!; try done.
      unfold nu in Hl. destruct (Z.ltb_spec n 4096); lia. }
  pose proof (hv_brk _ _ _ _ Hinv) as [Hb Hlim]. pose proof (proj1 (fi_base _ _ _ _ Hfi)) as Hb0.
  rewrite (u32_small brk) by lia. change (u32 (-1)) with (2 ^ 32 - 1).
  rewrite (proj2 (Z.eqb_neq brk (2 ^ 32 - 1))) by lia.
  rewrite hadd_small by lia. replace (brk + 8 * 1) with (brk + 8) by lia.
  destruct (hinv_grow brk m fp bs al nu Hinv ltac:(lia) ltac:(lia)) as [Hg Hkg].
  pose proof (hv_free _ _ _ _ Hg) as Hfg. cbn [um freep] in Hfg.
  destruct (free_ok base (S k) (set_size m brk nu) bs fp brk nu) as (m2 & bs2 & p2 & -> & Hfr);
    [done|lia|lia|lia| | |lia|].
  { rewrite s_size_set. apply u32_small. lia. }
  { eapply list.Forall_impl; [apply (hv_top _ _ _ _ Hinv)|]. intros x Hx. by left. }
  cbn [run_prog then_ fst snd freep um].
  assert (Hax : Forall (fun x => disj x (brk, nu)) al).
  { eapply list.Forall_impl; [apply (hv_al _ _ _ _ Hinv)|]. intros x (_ & _ & Hx & _). by left. }
  destruct (hinv_freed (brk + 8 * nu) _ m2 fp bs bs2 al brk nu p2 Hg ltac:(lia) ltac:(lia)
    ltac:(unfold blk_end; simpl; lia) Hax Hfr) as [Hg2 Hk2].
  pose proof (hv_free _ _ _ _ Hg2) as Hf2. cbn [um freep] in Hf2.
  assert (Hp2 : p2 <> 0).
  { pose proof (fi_freep _ _ _ _ Hf2) as Hp. apply list_elem_of_fmap in Hp as (y & -> & Hy).
    apply elem_of_cons in Hy as [->|Hy]; [simpl; lia|].
    pose proof (fi_blk _ _ _ _ Hf2) as Hbl. eapply list.Forall_forall in Hbl; [|exact Hy]. lia. }
  rewrite (proj2 (Z.eqb_neq p2 0)) by done. pose proof (fr_len _ _ _ _ _ _ _ Hfr) as Hlen2.
  destruct (search_ok k m2 bs2 p2 n Hf2 Hn ltac:(lia)) as [(a & m3 & bs3 & prev3 & -> & Ht)|(Hall2 & _)].
  2:{ exfalso. destruct (fr_big _ _ _ _ _ _ _ Hfr) as (y & Hy & Hys). simpl in Hys.
      eapply list.Forall_forall in Hall2; [|exact Hy]. simpl in Hall2. lia. }
  destruct (hinv_taken (brk + 8 * nu) m2 m3 p2 bs2 bs3 al a n prev3 Hg2 Hn Ht) as [Hi Hk3].
  exists (a + 8), (brk + nu * 8), m3, prev3, bs3, ((a, n) :: al). split; [done|].
  replace (brk + nu * 8) with (brk + 8 * nu) by lia. constructor; [done| | | |].
  - apply list.Forall_forall. intros x Hx. eapply list.Forall_forall in Hkg, Hk2, Hk3; [|exact Hx..].
    by eapply kept_trans; [|eapply kept_trans].
  - pose proof (tk_len _ _ _ _ _ _ _ Ht). lia.
  - right. by exists a.
  - pose proof (tk_units _ _ _ _ _ _ _ Ht). pose proof (fr_units _ _ _ _ _ _ _ Hfr). simpl in *. lia.
Qed.
End heap.
