(* ===== verification/UmallocSpec.v ===== *)
(** The allocator's promise to its client: the blocks it hands out never
    overlap, keep their bytes, and together with the free ones make up what
    sbrk gave. *)
From S2P Require Import Prelude Kernel Mem Fsformat User Umalloc UmallocFacts MallocFacts.

Section client.
Context (base lim : Z).
Implicit Types (h : uheap) (bs al : list blk).

(** Before the first call freep is 0, as static variables are. *)
Definition hready (brk : Z) h bs al : Prop :=
  hinv base lim brk h bs al \/
  (freep h = 0 /\ bs = [] /\ al = [] /\ 0 < base /\ base + 8 <= brk <= lim /\ lim < 2 ^ 32).

(** The number of headers a request takes. *)
Definition nunits (nbytes : Z) : Z := (nbytes + 7) / 8 + 1.

Lemma hinv_freep brk h bs al : hinv base lim brk h bs al -> freep h <> 0.
Proof.
  intros [Hf _ _ _ _ _]. pose proof (fi_freep _ _ _ _ Hf) as Hp.
  pose proof (proj1 (fi_base _ _ _ _ Hf)). apply list_elem_of_fmap in Hp as (y & -> & Hy).
  apply elem_of_cons in Hy as [->|Hy]; [simpl; lia|].
  pose proof (fi_blk _ _ _ _ Hf) as Hbl. eapply list.Forall_forall in Hbl; [|exact Hy]. lia.
Qed.

Lemma hinv_pos brk h bs al : hinv base lim brk h bs al -> 0 < base.
Proof. intros [Hf _ _ _ _ _]. apply (fi_base _ _ _ _ Hf). Qed.

Lemma hinv_init brk m : 0 < base -> base + 8 <= brk <= lim -> lim < 2 ^ 32 ->
  hinv base lim brk (mkUheap (set_size (set_ptr m base base) base 0) base) [] [].
Proof.
  intros Hb Hbrk Hl. constructor; [|done|constructor|constructor|done|constructor].
  constructor; cbn [um freep]; [lia| | |constructor|set_solver].
  - split_and!; cbn [fst snd head_addr]; [|by rewrite s_size_set|done].
    rewrite s_ptr_set_size, s_ptr_set. apply u32_small. lia.
  - split; [simpl; lia|done].
Qed.

Lemma malloc_ok fuel brk m fp bs al nbytes : hready brk (mkUheap m fp) bs al ->
  0 <= nbytes < 2 ^ 31 - 64 -> (2 * length bs + 4 <= fuel)%nat ->
  exists r brk' m' fp' bs' al',
    run_prog (brk_step lim) (malloc base fuel (mkUheap m fp) nbytes) brk =
    (Done (r, mkUheap m' fp'), brk') /\
    malloced base lim (nunits nbytes) brk brk' m m' bs bs' al al' r fp'.
Proof.
  intros Hr Hn Hf. unfold malloc. cbv zeta. unfold sizeof_Header.
  rewrite (u32_small (nbytes + 8 - 1)) by lia.
  replace (nbytes + 8 - 1) with (nbytes + 7) by lia.
  rewrite u32_small by dlia. fold (nunits nbytes).
  assert (Hu : 1 <= nunits nbytes /\ 8 * Z.max (nunits nbytes) 4096 < 2 ^ 31) by (unfold nunits; dlia).
  destruct Hr as [Hi|(Hfp & -> & -> & Hb & Hbrk & Hl)]; cbn [freep um] in *.
  - pose proof (hinv_freep _ _ _ _ Hi) as Hne. cbn [freep] in Hne.
    rewrite (proj2 (Z.eqb_neq fp 0)) by done. cbn [freep um]. apply malloc_loop_ok; [done|lia|lia|done].
  - rewrite Hfp, Z.eqb_refl. cbn [freep um].
    pose proof (hinv_init brk m Hb Hbrk Hl) as Hi.
    destruct (malloc_loop_ok base lim fuel brk _ _ [] [] (nunits nbytes) Hi ltac:(lia) ltac:(lia) Hf)
      as (r & brk' & m' & fp' & bs' & al' & Hrun & [Ma Mk Ml Mr Mu]).
    exists r, brk', m', fp', bs', al'. split; [done|]. by constructor.
Qed.

(** What a client does: it asks for memory, gives the [i]th block it holds
    back, or writes a byte of it. *)
Inductive uop := UMalloc (nbytes : Z) | UFree (i : nat) | UPoke (i : nat) (off v : Z).

Definition uexec (fuel : nat) (op : uop) (st : uheap * list blk) : prog (uheap * list blk) :=
  let '(h, al) := st in
  match op with
  | UMalloc nbytes =>
      let* '(r, h) := malloc base fuel h nbytes in
      if r =? 0 then Ret (h, al) else Ret (h, (r - 8, s_size (um h) (r - 8)) :: al)
  | UFree i =>
      match al !! i with
      | None => Ret (h, al)
      | Some x =>
          match free fuel h (x.1 + 8) with
          | None => Loop
          | Some h => Ret (h, delete i al)
          end
      end
  | UPoke i off v =>
      match al !! i with
      | Some x =>
          if (0 <=? off) && (off <? 8 * (x.2 - 1))
          then Ret (mkUheap (wr8 (um h) (x.1 + 8 + off) v) (freep h), al)
          else Ret (h, al)
      | None => Ret (h, al)
      end
  end.
Fixpoint uclient (fuel : nat) (ops : list uop) (st : uheap * list blk) : prog (uheap * list blk) :=
  match ops with
  | [] => Ret st
  | op :: ops' => let* st := uexec fuel op st in uclient fuel ops' st
  end.

(** No request near the size of the address space. *)
Definition op_ok (op : uop) : Prop :=
  match op with UMalloc nbytes => 0 <= nbytes < 2 ^ 31 - 64 | _ => True end.

Lemma apart_delete al i x : apart al -> al !! i = Some x ->
  apart (delete i al) /\ Forall (fun y => disj y x) (delete i al).
Proof.
  revert i. induction al as [|y al IH]; intros i Ha Hi; [done|]. destruct Ha as [Hy Ha].
  destruct i as [|i]; simplify_eq/=.
  - split; [done|]. eapply list.Forall_impl; [exact Hy|]. intros z. apply disj_sym.
  - destruct (IH i Ha Hi) as [IH1 IH2]. split.
    + split; [|done]. by apply Forall_delete.
    + constructor; [|done]. eapply Forall_lookup_1 in Hy; [|exact Hi]. done.
Qed.

Lemma units_delete al i x : al !! i = Some x -> units al = x.2 + units (delete i al).
Proof.
  revert i. induction al as [|y al IH]; intros i Hi; [done|]. destruct i as [|i]; simplify_eq/=; [done|].
  rewrite (IH i Hi). lia.
Qed.

(** A byte written inside a block the program holds is no part of a header. *)
Lemma hinv_poke brk m fp bs al i x off v : hinv base lim brk (mkUheap m fp) bs al ->
  al !! i = Some x -> 0 <= off < 8 * (x.2 - 1) ->
  hinv base lim brk (mkUheap (wr8 m (x.1 + 8 + off) v) fp) bs al.
Proof.
  intros [Hf Hb Ht Hal Hap Hd] Hi Hoff. cbn [um freep] in *.
  set (p := x.1 + 8 + off). set (m' := wr8 m p v).
  assert (Hsame : forall a, p < a \/ a + 8 <= p -> same_header m m' a).
  { intros a Ha. unfold m'. split; apply rd32_agree; intros b Hbb; apply rd8_wr8_ne; lia. }
  pose proof Hal as Hx. eapply Forall_lookup_1 in Hx; [|exact Hi].
  pose proof Hd as Hdx. eapply Forall_lookup_1 in Hdx; [|exact Hi].
  pose proof (fi_blk _ _ _ _ Hf) as Hbl.
  constructor; cbn [um freep]; [|done|done| |done|done].
  - eapply finv_frame; [|exact Hf]. constructor; [apply Hsame; unfold p; simpl; lia|].
    apply list.Forall_forall. intros y Hy. eapply list.Forall_forall in Hdx, Hbl; [|exact Hy..].
    apply Hsame. unfold disj, blk_end, p in *. lia.
  - apply Forall_lookup_2. intros j y Hj. pose proof Hal as Hyj.
    eapply Forall_lookup_1 in Hyj; [|exact Hj]. destruct Hyj as (? & ? & ? & Hys).
    split_and!; [done|done|done|]. rewrite <- Hys. apply Hsame. destruct (decide (i = j)) as [->|Hne].
    + simplify_eq. unfold p. lia.
    + assert (Hxy : disj x y).
      { clear - Hap Hi Hj Hne. revert i j Hi Hj Hne. induction al as [|z al IH]; intros i j Hi Hj Hne; [done|].
        destruct Hap as [Hz Ha]. destruct i as [|i], j as [|j]; simplify_eq/=.
        - by eapply Forall_lookup_1 in Hz.
        - apply disj_sym. by eapply Forall_lookup_1 in Hz.
        - apply (IH Ha i j); [done|done|congruence]. }
      unfold disj, blk_end, p in *. lia.
Qed.

Lemma uexec_ok fuel op brk m fp bs al : hready brk (mkUheap m fp) bs al -> op_ok op ->
  (2 * length bs + 4 <= fuel)%nat ->
  exists brk' m' fp' bs' al',
    run_prog (brk_step lim) (uexec fuel op (mkUheap m fp, al)) brk =
    (Done (mkUheap m' fp', al'), brk') /\
    hready brk' (mkUheap m' fp') bs' al' /\ (length bs' <= S (length bs))%nat /\
    8 * (units bs' + units al') = 8 * (units bs + units al) + (brk' - brk).
Proof.
  intros Hr Hop Hf. destruct op as [nbytes|i|i off v]; cbn [uexec].
  - destruct (malloc_ok fuel brk m fp bs al nbytes Hr Hop Hf)
      as (r & brk' & m' & fp' & bs' & al' & Hrun & [Ma Mk Ml Mr Mu]).
    rewrite run_bind, Hrun. cbn [then_ fst snd].
    exists brk', m', fp', bs', al'. destruct Mr as [(-> & -> & -> & _)|(a & -> & ->)].
    + split; [done|]. split_and!; [by left|lia|done].
    + pose proof (hv_al _ _ _ _ _ _ Ma) as Hal. apply Forall_cons_1 in Hal as [(? & ? & ? & Hs) _].
      cbn [fst snd um] in *. pose proof (hinv_pos _ _ _ _ Ma).
      rewrite (proj2 (Z.eqb_neq (a + 8) 0)) by lia. cbn [run_prog um].
      replace (a + 8 - 8) with a by lia. rewrite Hs. split; [done|]. split_and!; [by left|lia|done].
  - destruct (al !! i) as [x|] eqn:Hi.
    2:{ exists brk, m, fp, bs, al. split; [done|]. split_and!; [done|lia|lia]. }
    destruct Hr as [Hi'|(_ & _ & -> & _)]; [|done]. pose proof Hi' as [Hfi Hb Ht Hal Hap Hd].
    pose proof Hal as Hx. eapply Forall_lookup_1 in Hx; [|exact Hi].
    pose proof Hd as Hdx. eapply Forall_lookup_1 in Hdx; [|exact Hi]. cbn [um freep] in *.
    destruct x as [a s]. cbn [fst snd] in *. unfold blk_end in Hx. cbn [fst snd] in Hx.
    destruct (free_ok base fuel m bs fp a s) as (m' & bs' & p & -> & Hfr);
      [done|lia|lia|lia|lia| |lia|].
    { eapply list.Forall_impl; [exact Hdx|]. intros y. apply disj_sym. }
    destruct (apart_delete al i (a, s) Hap Hi) as [Hap' Hdis].
    assert (Hsub : hinv base lim brk (mkUheap m fp) bs (delete i al)).
    { constructor; [done|done|done|by apply Forall_delete|done|by apply Forall_delete]. }
    destruct (hinv_freed base lim brk m m' fp bs bs' (delete i al) a s p Hsub) as [Hn _];
      [lia|lia|unfold blk_end; simpl; lia|done|done|].
    exists brk, m', p, bs', (delete i al). split; [done|]. split_and!; [by left|by apply Hfr|].
    pose proof (fr_units _ _ _ _ _ _ _ Hfr). rewrite (units_delete al i (a, s) Hi). simpl in *. lia.
  - destruct (al !! i) as [x|] eqn:Hi.
    2:{ exists brk, m, fp, bs, al. split; [done|]. split_and!; [done|lia|lia]. }
    destruct (Z.leb_spec 0 off), (Z.ltb_spec off (8 * (x.2 - 1))); cbn [andb].
    2-4: (exists brk, m, fp, bs, al; split; [done|]; split_and!; [done|lia|lia]).
    destruct Hr as [Hi'|(_ & _ & -> & _)]; [|done].
    eexists brk, _, fp, bs, al. split; [done|]. split_and!; [|lia|lia]. left.
    by eapply hinv_poke.
Qed.

Lemma uclient_ok fuel ops : forall brk m fp bs al,
  hready brk (mkUheap m fp) bs al -> Forall op_ok ops ->
  (2 * (length bs + length ops) + 4 <= fuel)%nat ->
  exists brk' m' fp' bs' al',
    run_prog (brk_step lim) (uclient fuel ops (mkUheap m fp, al)) brk =
    (Done (mkUheap m' fp', al'), brk') /\
    hready brk' (mkUheap m' fp') bs' al' /\
    8 * (units bs' + units al') = 8 * (units bs + units al) + (brk' - brk).
Proof.
  induction ops as [|op ops IH]; intros brk m fp bs al Hr Hops Hf; cbn [uclient].
  { exists brk, m, fp, bs, al. split; [done|]. split; [done|lia]. }
  apply Forall_cons_1 in Hops as [Hop Hops]. simpl in Hf.
  destruct (uexec_ok fuel op brk m fp bs al Hr Hop ltac:(lia))
    as (brk1 & m1 & fp1 & bs1 & al1 & Hrun & Hr1 & Hl1 & Hu1).
  destruct (IH brk1 m1 fp1 bs1 al1 Hr1 Hops ltac:(lia))
    as (brk2 & m2 & fp2 & bs2 & al2 & Hrun2 & Hr2 & Hu2).
  exists brk2, m2, fp2, bs2, al2. rewrite run_bind, Hrun. cbn [then_ fst snd].
  split; [done|]. split; [done|lia].
Qed.
End client.

(** C35 (umalloc_blocks_apart): whatever sequence of malloc, free and writes to
    its own blocks a program makes, the allocator always finishes, the blocks
    the program holds lie inside the heap and apart from each other and from
    the free list, the list in memory is sorted and merged, and held and free
    blocks together are exactly what sbrk gave. *)
Theorem umalloc_blocks_apart base lim fuel ops brk m :
  0 < base -> base + 8 <= brk <= lim -> lim < 2 ^ 32 -> Forall op_ok ops ->
  (2 * length ops + 4 <= fuel)%nat ->
  exists brk' h bs al,
    run_prog (brk_step lim) (uclient base fuel ops (mkUheap m 0, [])) brk = (Done (h, al), brk') /\
    hready base lim brk' h bs al /\ 8 * (units bs + units al) = brk' - brk.
Proof.
  intros Hb Hbrk Hl Hops Hf.
  destruct (uclient_ok base lim fuel ops brk m 0 [] []) as (brk' & m' & fp' & bs & al & Hrun & Hr & Hu);
    [by right|done|simpl; lia|].
  exists brk', (mkUheap m' fp'), bs, al. split; [done|]. split; [done|]. simpl in Hu. lia.
Qed.

Lemma umalloc_blocks_apart_witness :
  exists brk' h bs al,
    run_prog (brk_step 100000)
      (uclient 64 20 [UMalloc 10; UMalloc 300; UPoke 0 3 7; UFree 1; UMalloc 5; UFree 0] (mkUheap ∅ 0, []))
      4096 = (Done (h, al), brk') /\
    hready 64 100000 brk' h bs al /\ 8 * (units bs + units al) = brk' - 4096.
Proof.
  apply (umalloc_blocks_apart 64 100000 20 _ 4096 ∅); [lia|lia|lia| |simpl; lia].
  repeat constructor; simpl; lia.
Defined.

(** C36 (malloc_gives_block): malloc either leaves everything as it was, and
    then no free block is large enough and sbrk refused to grow the heap, or
    returns a block with room for the request that overlaps no other; in both
    cases not a byte of the blocks already handed out changes. *)
Theorem malloc_gives_block base lim fuel brk m fp bs al nbytes :
  hready base lim brk (mkUheap m fp) bs al -> 0 <= nbytes < 2 ^ 31 - 64 ->
  (2 * length bs + 4 <= fuel)%nat ->
  exists r brk' m' fp' bs' al',
    run_prog (brk_step lim) (malloc base fuel (mkUheap m fp) nbytes) brk =
    (Done (r, mkUheap m' fp'), brk') /\
    nbytes <= 8 * (nunits nbytes - 1) /\
    malloced base lim (nunits nbytes) brk brk' m m' bs bs' al al' r fp'.
Proof.
  intros Hr Hn Hf. destruct (malloc_ok base lim fuel brk m fp bs al nbytes Hr Hn Hf)
    as (r & brk' & m' & fp' & bs' & al' & Hrun & Hm).
  exists r, brk', m', fp', bs', al'. split_and!; [done| |done]. unfold nunits. dlia.
Qed.

Lemma malloc_gives_block_witness :
  exists r brk' m' fp' bs' al',
    run_prog (brk_step 100000) (malloc 64 4 (mkUheap ∅ 0) 24) 4096 =
    (Done (r, mkUheap m' fp'), brk') /\
    24 <= 8 * (nunits 24 - 1) /\
    malloced 64 100000 (nunits 24) 4096 brk' ∅ m' [] bs' [] al' r fp'.
Proof.
  apply (malloc_gives_block 64 100000 4 4096 ∅ 0 [] [] 24); [|lia|simpl; lia].
  right. split_and!; done || lia.
Defined.

(** The size computation wraps: a request of 2^32 - 8 bytes asks sbrk for
    nothing and is answered with the address behind the break. *)
Lemma malloc_wraps :
  let '(o, brk) := run_prog (brk_step 100000) (malloc 64 8 (mkUheap ∅ 0) (2 ^ 32 - 8)) 4096 in
  match o with Done (r, _) => r = 4096 + 8 /\ brk = 4096 | _ => False end.
Proof. by vm_compute. Qed.
