(* ===== verification/Sh.v ===== *)
(** sh.c: the shell.  A command line is parsed into a tree whose strings are
    places in the line; [nulterminate] cuts the line at their ends, and
    [runcmd] makes the system calls of the tree.  malloc is taken to succeed,
    as the code does. *)
From S2P Require Import Prelude Kernel Mem Fsformat Console User Ulib.
From Stdlib Require Import Ascii.

(** * Commands *)

Definition MAXARGS : nat := 10.

(** A string of the tree: the offsets of its start and its end in the line. *)
Notation place := (nat * nat)%type.

(** struct execcmd, redircmd, pipecmd, listcmd, backcmd; the argv and eargv of
    an execcmd as one list. *)
Inductive cmd :=
| EXEC (argv : list place)
| REDIR (c : cmd) (file : place) (mode fd : Z)
| PIPE (left right : cmd)
| LIST (left right : cmd)
| BACK (c : cmd).

Definition sh_panic {A} (s : string) : prog A :=
  do* printf 2 "%s\n" [AStr (Some (bytes s))] in Exit.

Definition fork1 : prog Z :=
  let* pid := sys Fork in
  if pid =? -1 then sh_panic "fork" else Ret pid.

(** * Parsing *)

Definition whitespace : list Z := [32; 9; 13; 10; 11].
Definition symbols : list Z := bytes "<|>&;()".

(** strchr(whitespace, c) and strchr(symbols, c) as tests. *)
Definition found (o : option nat) : bool := match o with Some _ => true | None => false end.
Definition is_space (c : Z) : bool := found (strchr whitespace c).
Definition is_symbol (c : Z) : bool := found (strchr symbols c).
Definition is_word (c : Z) : bool := negb (is_space c) && negb (is_symbol c).

(** while(s < es && test) s++: how far the test holds from the head of a list. *)
Fixpoint span (p : Z -> bool) (l : list Z) : nat :=
  match l with [] => O | c :: l' => if p c then S (span p l') else O end.
Definition skip (p : Z -> bool) (line : list Z) (s : nat) : nat := (s + span p (drop s line))%nat.

(** The character at [s]; the NUL at the end of the line. *)
Definition at_ (line : list Z) (s : nat) : Z := default 0 (line !! s).

(** The token, its place, and the new position. *)
Definition gettoken (line : list Z) (s : nat) : Z * place * nat :=
  let s := skip is_space line s in
  let q := s in
  let c := at_ line s in
  let '(ret, s) :=
    if c =? 0 then (c, s)
    else if (c =? ord "|") || (c =? ord "(") || (c =? ord ")") || (c =? ord ";") ||
            (c =? ord "&") || (c =? ord "<") then (c, S s)
    else if c =? ord ">" then
      if at_ line (S s) =? ord ">" then (ord "+", S (S s)) else (c, S s)
    else (ord "a", skip is_word line s) in
  (ret, (q, s), skip is_space line s).

Definition peek (line : list Z) (s : nat) (toks : list Z) : bool * nat :=
  let s := skip is_space line s in
  let c := at_ line s in
  (nz c && found (strchr toks c), s).

Section parser.
Context (line : list Z).

(** while(peek(ps, es, "<>")) *)
Fixpoint parseredirs (n : nat) (c : cmd) (s : nat) : prog (cmd * nat) :=
  match n with
  | O => Loop
  | S n' =>
      let '(b, s) := peek line s (bytes "<>") in
      if negb b then Ret (c, s)
      else
        let '(tok, _, s) := gettoken line s in
        let '(t, q, s) := gettoken line s in
        if negb (t =? ord "a") then sh_panic "missing file for redirection"
        else if tok =? ord "<" then parseredirs n' (REDIR c q O_RDONLY 0) s
        else if (tok =? ord ">") || (tok =? ord "+") then
          parseredirs n' (REDIR c q (Z.lor O_WRONLY O_CREATE) 1) s
        else parseredirs n' c s
  end.

(** The tree parseredirs puts around an execcmd whose arguments are still
    being filled in: what to do with the finished one. *)
Fixpoint under (c : cmd) (argv : list place) : cmd :=
  match c with
  | EXEC _ => EXEC argv
  | REDIR c q mode fd => REDIR (under c argv) q mode fd
  | _ => c
  end.

(** while(!peek(ps, es, "|)&;")); [ret] is the redirections around the execcmd. *)
Fixpoint parseargs (n : nat) (ret : cmd) (argv : list place) (s : nat) : prog (cmd * nat) :=
  match n with
  | O => Loop
  | S n' =>
      let '(b, s) := peek line s (bytes "|)&;") in
      if (b : bool) then Ret (under ret argv, s)
      else
        let '(tok, q, s) := gettoken line s in
        if tok =? 0 then Ret (under ret argv, s)
        else if negb (tok =? ord "a") then sh_panic "syntax"
        else
          let argv := argv ++ [q] in
          if (MAXARGS <=? length argv)%nat then sh_panic "too many args"
          else
            let* '(ret, s) := parseredirs n' ret s in
            parseargs n' ret argv s
  end.

(** while(peek(ps, es, "&")) cmd = backcmd(cmd) *)
Fixpoint parsebacks (n : nat) (c : cmd) (s : nat) : prog (cmd * nat) :=
  match n with
  | O => Loop
  | S n' =>
      let '(b, s) := peek line s (bytes "&") in
      if (b : bool) then let '(_, _, s) := gettoken line s in parsebacks n' (BACK c) s
      else Ret (c, s)
  end.

(** [n] bounds the calls that are open at once, [length line] the rounds of
    the loops above. *)
Fixpoint parseline (n : nat) (s : nat) : prog (cmd * nat) :=
  match n with
  | O => Loop
  | S n' =>
      let* '(c, s) := parsepipe n' s in
      let* '(c, s) := parsebacks (S (length line)) c s in
      let '(b, s) := peek line s (bytes ";") in
      if (b : bool) then
        let '(_, _, s) := gettoken line s in
        let* '(r, s) := parseline n' s in
        Ret (LIST c r, s)
      else Ret (c, s)
  end
with parsepipe (n : nat) (s : nat) : prog (cmd * nat) :=
  match n with
  | O => Loop
  | S n' =>
      let* '(c, s) := parseexec n' s in
      let '(b, s) := peek line s (bytes "|") in
      if (b : bool) then
        let '(_, _, s) := gettoken line s in
        let* '(r, s) := parsepipe n' s in
        Ret (PIPE c r, s)
      else Ret (c, s)
  end
with parseexec (n : nat) (s : nat) : prog (cmd * nat) :=
  match n with
  | O => Loop
  | S n' =>
      let '(b, s) := peek line s (bytes "(") in
      if (b : bool) then parseblock n' s
      else
        let* '(ret, s) := parseredirs (S (length line)) (EXEC []) s in
        parseargs (S (S (length line))) ret [] s
  end
with parseblock (n : nat) (s : nat) : prog (cmd * nat) :=
  match n with
  | O => Loop
  | S n' =>
      let '(b, s) := peek line s (bytes "(") in
      if negb b then sh_panic "parseblock"
      else
        let '(_, _, s) := gettoken line s in
        let* '(c, s) := parseline n' s in
        let '(b, s) := peek line s (bytes ")") in
        if negb b then sh_panic "syntax - missing )"
        else
          let '(_, _, s) := gettoken line s in
          parseredirs (S (length line)) c s
  end.
End parser.

(** Cut the buffer at the end of every string of the tree. *)
Fixpoint nulterminate (c : cmd) (buf : list Z) : list Z :=
  match c with
  | EXEC argv => foldl (fun b (q : place) => <[q.2 := 0]> b) buf argv
  | REDIR c q _ _ => <[q.2 := 0]> (nulterminate c buf)
  | PIPE l r | LIST l r => nulterminate r (nulterminate l buf)
  | BACK c => nulterminate c buf
  end.

(** The tree and the buffer after nulterminate; [buf] holds the line. *)
Definition parsecmd (buf : list Z) : prog (cmd * list Z) :=
  let line := cstr buf in
  let* '(c, s) := parseline line (4 * length line + 8) 0 in
  let '(_, s) := peek line s [] in
  if negb (Nat.eqb s (length line)) then
    do* printf 2 "leftovers: %s\n" [AStr (Some (drop s line))] in sh_panic "syntax"
  else Ret (c, nulterminate c buf).

(** * Running *)

(** The string at a place of the terminated buffer. *)
Definition str_at (buf : list Z) (q : place) : list Z := cstr (drop q.1 buf).

Fixpoint runcmd (buf : list Z) (c : cmd) : prog unit :=
  match c with
  | EXEC argv =>
      match argv with
      | [] => Exit
      | q :: _ =>
          do* sys (Exec (str_at buf q) (str_at buf <$> argv)) in
          do* printf 2 "exec %s failed\n" [AStr (Some (str_at buf q))] in
          Exit
      end
  | REDIR c q mode fd =>
      do* sys (Close fd) in
      let* r := sys (Open (str_at buf q) mode) in
      if r <? 0 then
        do* printf 2 "open %s failed\n" [AStr (Some (str_at buf q))] in Exit
      else runcmd buf c
  | LIST l r =>
      let* pid := fork1 in
      do* (if pid =? 0 then runcmd buf l else Ret tt) in
      do* sys Wait in
      runcmd buf r
  | PIPE l r =>
      let* '(e, (p0, p1)) := sys Pipe in
      if e <? 0 then sh_panic "pipe"
      else
        let* pid := fork1 in
        do* (if pid =? 0 then
               do* sys (Close 1) in do* sys (Dup p1) in
               do* sys (Close p0) in do* sys (Close p1) in runcmd buf l
             else Ret tt) in
        let* pid := fork1 in
        do* (if pid =? 0 then
               do* sys (Close 0) in do* sys (Dup p0) in
               do* sys (Close p0) in do* sys (Close p1) in runcmd buf r
             else Ret tt) in
        do* sys (Close p0) in do* sys (Close p1) in
        do* sys Wait in do* sys Wait in
        Exit
  | BACK c =>
      let* pid := fork1 in
      do* (if pid =? 0 then runcmd buf c else Ret tt) in
      Exit
  end.

(** * The shell's loop *)

Definition nbuf : nat := 100.

(** None at the end of the input. *)
Definition getcmd : prog (option (list Z)) :=
  do* printf 2 "$ " [] in
  let* buf := gets (replicate nbuf 0) (Z.of_nat nbuf) in
  if zget buf 0 =? 0 then Ret None else Ret (Some buf).

(** while((fd = open("console", O_RDWR)) >= 0) *)
Fixpoint sh_open (fuel : nat) : prog unit :=
  match fuel with
  | O => Loop
  | S fuel' =>
      let* fd := sys (Open (bytes "console") O_RDWR) in
      if fd <? 0 then Ret tt
      else if 3 <=? fd then do* sys (Close fd) in Ret tt
      else sh_open fuel'
  end.

Fixpoint sh_loop (fuel : nat) : prog unit :=
  match fuel with
  | O => Loop
  | S fuel' =>
      let* o := getcmd in
      match o with
      | None => Exit
      | Some buf =>
          if (zget buf 0 =? ord "c") && (zget buf 1 =? ord "d") && (zget buf 2 =? ord " ") then
            let buf := <[(strlen buf - 1)%nat := 0]> buf in
            let* r := sys (Chdir (cstr (drop 3 buf))) in
            do* (if r <? 0 then printf 2 "cannot cd %s\n" [AStr (Some (cstr (drop 3 buf)))] else Ret tt) in
            sh_loop fuel'
          else
            let* pid := fork1 in
            do* (if pid =? 0 then
                   let* '(c, buf) := parsecmd buf in runcmd buf c
                 else Ret tt) in
            do* sys Wait in
            sh_loop fuel'
      end
  end.
Definition sh_main (fuel : nat) : prog unit := do* sh_open fuel in sh_loop fuel.
