(* ===== verification/ShFacts.v ===== *)
(** The parser of sh.c: it always ends, its strings are whole words of the
    line, and cutting the line at their ends leaves each of them intact. *)
From S2P Require Import Prelude Kernel Mem Fsformat Console User Ulib Sh.
From Stdlib Require Import Ascii.

Lemma returns_panic {A} (Q : A -> Prop) s : returns Q (sh_panic s).
Proof. unfold sh_panic. apply returns_then; [auto with userdb|done]. Qed.
#[export] Hint Resolve returns_panic : userdb.

(** * The scanner *)

Section scanner.
Context (line : list Z).
Notation len := (length line).
Implicit Types (s e : nat).

Lemma span_le p l : (span p l <= length l)%nat.
Proof. induction l as [|c l IH]; simpl; [lia|]. destruct (p c); simpl; lia. Qed.

Lemma skip_le p s : (s <= len)%nat -> (s <= skip p line s <= len)%nat.
Proof. intros Hs. unfold skip. pose proof (span_le p (drop s line)). rewrite length_drop in *. lia. Qed.

(** Every character skipped satisfies the test, the one after does not. *)
Lemma span_all p l i : (i < span p l)%nat -> exists c, l !! i = Some c /\ p c = true.
Proof.
  revert i. induction l as [|c l IH]; intros i Hi; simpl in Hi; [lia|].
  destruct (p c) eqn:E; [|lia]. destruct i as [|i]; [by exists c|]. apply IH. lia.
Qed.
Lemma span_stop p l c : l !! span p l = Some c -> p c = false.
Proof.
  revert c. induction l as [|d l IH]; intros c; simpl; [done|].
  destruct (p d) eqn:E; [apply IH|]. by intros [= <-].
Qed.

Lemma skip_all p s i : (s <= i < skip p line s)%nat -> exists c, line !! i = Some c /\ p c = true.
Proof.
  intros Hi. destruct (span_all p (drop s line) (i - s)) as (c & Hc & Hp); [unfold skip in Hi; lia|].
  rewrite lookup_drop in Hc. replace (s + (i - s))%nat with i in Hc by lia. by exists c.
Qed.
Lemma skip_stop p s c : line !! skip p line s = Some c -> p c = false.
Proof. unfold skip. intros Hc. apply (span_stop p (drop s line)). by rewrite lookup_drop. Qed.

Lemma at_lt s : at_ line s <> 0 -> (s < len)%nat /\ line !! s = Some (at_ line s).
Proof.
  unfold at_. destruct (line !! s) as [c|] eqn:E; simpl; [|done]. intros _.
  split; [by eapply lookup_lt_Some|done].
Qed.

(** A string of the tree: a maximal run of word characters. *)
Definition tok_ok (q : place) : Prop :=
  (q.1 < q.2 <= len)%nat /\
  (forall i, (q.1 <= i < q.2)%nat -> exists c, line !! i = Some c /\ is_word c = true) /\
  (forall c, line !! q.2 = Some c -> is_word c = false).

Lemma word_char c : c <> 0 -> is_space c = false ->
  (c =? ord "|") || (c =? ord "(") || (c =? ord ")") || (c =? ord ";") || (c =? ord "&") || (c =? ord "<") = false ->
  c =? ord ">" = false -> is_word c = true.
Proof.
  intros Hc Hs Ho Hg. unfold is_word. rewrite Hs. cbn [negb andb]. unfold is_symbol.
  unfold found. replace (match strchr symbols c with Some _ => true | None => false end)
    with (existsb (Z.eqb c) symbols).
  2:{ symmetry. apply strchr_existsb. by repeat constructor. }
  rewrite !orb_false_iff in Ho. change symbols with
    [ord "<"; ord "|"; ord ">"; ord "&"; ord ";"; ord "("; ord ")"].
  cbn [existsb]. destruct Ho as (((((-> & ->) & ->) & ->) & ->) & ->). by rewrite Hg.
Qed.

(** gettoken moves forward, past something unless the line is at its end. *)
Lemma gettoken_ok s tok (q : place) s' : (s <= len)%nat -> gettoken line s = (tok, q, s') ->
  (s <= s' <= len)%nat /\ (tok <> 0 -> (s < s')%nat) /\ (tok = ord "a" -> tok_ok q) /\
  (at_ line (skip is_space line s) <> 0 -> tok <> 0).
Proof.
  intros Hs. unfold gettoken. pose proof (skip_le is_space s Hs) as Hq.
  set (q0 := skip is_space line s) in *. set (c := at_ line q0).
  assert (Hnext : forall e, (q0 <= e <= len)%nat ->
            (s <= skip is_space line e <= len)%nat /\ (e <= skip is_space line e)%nat).
  { intros e He. pose proof (skip_le is_space e ltac:(lia)). lia. }
  destruct (Z.eqb_spec c 0) as [Hc|Hc].
  { intros [= <- <- <-]. destruct (Hnext q0 ltac:(lia)). split_and!; [lia|lia|done|by rewrite Hc|done]. }
  destruct (at_lt q0 Hc) as [Hlt Hat].
  destruct (_ || _) eqn:Ho.
  { intros [= <- <- <-]. destruct (Hnext (S q0) ltac:(lia)). split_and!; [lia|lia|intros _; lia| |done].
    intros E. exfalso. fold c in E. rewrite E in Ho. done. }
  destruct (c =? ord ">") eqn:Hg.
  { destruct (at_ line (S q0) =? ord ">") eqn:Hg2; intros [= <- <- <-].
    - apply Z.eqb_eq in Hg2. destruct (at_lt (S q0)) as [Hlt2 _]; [by rewrite Hg2|].
      destruct (Hnext (S (S q0)) ltac:(lia)). split_and!; [lia|lia|intros _; lia|done|done].
    - destruct (Hnext (S q0) ltac:(lia)). split_and!; [lia|lia|intros _; lia| |done].
      intros E. exfalso. rewrite E in Hg. done. }
  intros [= <- <- <-].
  pose proof (skip_le is_word q0 ltac:(lia)) as He.
  assert (Hw : is_word c = true).
  { apply word_char; [done| |done|done]. apply (skip_stop is_space s). exact Hat. }
  assert (Hge : (q0 < skip is_word line q0)%nat).
  { unfold skip. rewrite (drop_S line c q0) by exact Hat. simpl. rewrite Hw. lia. }
  destruct (Hnext (skip is_word line q0) ltac:(lia)).
  split_and!; [lia|lia|intros _; lia| |done]. intros _. split_and!; cbn [fst snd]; [lia|lia| |].
  - intros i Hi. by apply (skip_all is_word q0).
  - intros d. apply skip_stop.
Qed.

Lemma peek_ok s toks b s' : (s <= len)%nat -> peek line s toks = (b, s') ->
  s' = skip is_space line s /\ (s <= s' <= len)%nat /\ (b = true -> (s' < len)%nat /\ at_ line s' <> 0).
Proof.
  intros Hs. unfold peek. intros [= <- <-]. pose proof (skip_le is_space s Hs).
  split; [done|]. split; [lia|]. intros Hb. apply andb_true_iff in Hb as [Hb _]. unfold nz in Hb.
  apply negb_true_iff, Z.eqb_neq in Hb. split; [by apply at_lt|done].
Qed.

(** After a peek that succeeds the next token is not the end. *)
Lemma skip_idem s : skip is_space line (skip is_space line s) = skip is_space line s.
Proof.
  unfold skip at 1. destruct (drop _ line) as [|c l] eqn:E; [simpl; lia|].
  simpl. rewrite (skip_stop is_space s c); [lia|].
  rewrite <- (Nat.add_0_r (skip _ _ _)), <- lookup_drop, E. done.
Qed.

(** A token behind a peek that succeeded. *)
Lemma peek_token s toks s1 tok (q : place) s2 : (s <= len)%nat ->
  peek line s toks = (true, s1) -> gettoken line s1 = (tok, q, s2) -> (s < s2 <= len)%nat.
Proof.
  intros Hs Hp Hg. destruct (peek_ok _ _ _ _ Hs Hp) as (-> & Hr & Hb).
  destruct (Hb eq_refl) as [Hlt Hat].
  destruct (gettoken_ok _ _ _ _ (proj2 Hr) Hg) as (? & Hm & _ & Hnz).
  rewrite skip_idem in Hnz. specialize (Hm (Hnz Hat)). lia.
Qed.

(** * The parser *)

(** Input comes from a file open for reading, output goes to one created. *)
Definition redir_ok (mode fd : Z) : Prop :=
  (mode = O_RDONLY /\ fd = 0) \/ (mode = Z.lor O_WRONLY O_CREATE /\ fd = 1).

(** A tree whose strings are words of the line, with no execcmd too long. *)
Fixpoint wf_cmd (c : cmd) : Prop :=
  match c with
  | EXEC argv => (length argv < MAXARGS)%nat /\ Forall tok_ok argv
  | REDIR c q mode fd => wf_cmd c /\ tok_ok q /\ redir_ok mode fd
  | PIPE l r | LIST l r => wf_cmd l /\ wf_cmd r
  | BACK c => wf_cmd c
  end.

Definition parsed (s : nat) (x : cmd * nat) : Prop := wf_cmd x.1 /\ (s <= x.2 <= len)%nat.

Lemma parsed_mono s s' p : (s <= s')%nat -> returns (parsed s') p -> returns (parsed s) p.
Proof. intros Hs. apply returns_mono. intros x [Hw Hx]. split; [done|lia]. Qed.

Lemma parseredirs_ok n : forall c s, wf_cmd c -> (s <= len)%nat -> (len - s < n)%nat ->
  returns (parsed s) (parseredirs line n c s).
Proof.
  induction n as [|n IH]; intros c s Hc Hs Hn; [lia|]. cbn [parseredirs].
  destruct (peek line s (bytes "<>")) as [b s1] eqn:Hp.
  destruct (peek_ok _ _ _ _ Hs Hp) as (_ & Hr & _).
  destruct b; cbn [negb]; [|split; [done|simpl; lia]].
  destruct (gettoken line s1) as [[tok q1] s2] eqn:Hg1.
  pose proof (peek_token _ _ _ _ _ _ Hs Hp Hg1) as Hs2.
  destruct (gettoken line s2) as [[t q] s3] eqn:Hg2.
  destruct (gettoken_ok _ _ _ _ (proj2 Hs2) Hg2) as (Hs3 & _ & Hq & _).
  destruct (Z.eqb_spec t (ord "a")) as [Ht|]; cbn [negb]; [|auto with userdb].
  specialize (Hq Ht).
  repeat case_match; (eapply parsed_mono; [|apply IH]; [lia|first [done|split; [done|split; [done|unfold redir_ok; tauto]]]|lia|lia]).
Qed.

Lemma under_wf c argv : wf_cmd c -> (length argv < MAXARGS)%nat -> Forall tok_ok argv ->
  wf_cmd (under c argv).
Proof. induction c; simpl; naive_solver. Qed.

Lemma parseargs_ok n : forall ret argv s, wf_cmd ret -> (length argv < MAXARGS)%nat ->
  Forall tok_ok argv -> (s <= len)%nat -> (len - s + 1 < n)%nat ->
  returns (parsed s) (parseargs line n ret argv s).
Proof.
  induction n as [|n IH]; intros ret argv s Hr Hl Ha Hs Hn; [lia|]. cbn [parseargs].
  destruct (peek line s (bytes "|)&;")) as [b s1] eqn:Hp.
  destruct (peek_ok _ _ _ _ Hs Hp) as (_ & Hs1 & _).
  destruct b; [split; [by apply under_wf|simpl; lia]|].
  destruct (gettoken line s1) as [[tok q] s2] eqn:Hg.
  destruct (gettoken_ok _ _ _ _ (proj2 Hs1) Hg) as (Hs2 & Hm & Hq & _).
  destruct (Z.eqb_spec tok 0) as [|Hne]; [split; [by apply under_wf|simpl; lia]|].
  destruct (Z.eqb_spec tok (ord "a")) as [Ht|]; cbn [negb]; [|auto with userdb].
  specialize (Hm Hne). specialize (Hq Ht).
  destruct (Nat.leb_spec MAXARGS (length (argv ++ [q]))); [auto with userdb|].
  eapply returns_bind; [apply (parseredirs_ok n ret s2); [done|lia|lia]|].
  intros [ret' s3] [Hw Hs3]. cbn [fst snd] in *.
  eapply parsed_mono; [|apply IH]; [lia|done|done| |lia|lia].
  apply Forall_app. split; [done|by constructor].
Qed.

Lemma parsebacks_ok n : forall c s, wf_cmd c -> (s <= len)%nat -> (len - s < n)%nat ->
  returns (parsed s) (parsebacks line n c s).
Proof.
  induction n as [|n IH]; intros c s Hc Hs Hn; [lia|]. cbn [parsebacks].
  destruct (peek line s (bytes "&")) as [b s1] eqn:Hp.
  destruct (peek_ok _ _ _ _ Hs Hp) as (_ & Hs1 & _).
  destruct b; [|split; [done|simpl; lia]].
  destruct (gettoken line s1) as [[tok q] s2] eqn:Hg.
  pose proof (peek_token _ _ _ _ _ _ Hs Hp Hg) as Hs2.
  eapply parsed_mono; [|apply IH]; [lia|done|lia|lia].
Qed.

Lemma parse_ok n :
  (forall s, (s <= len)%nat -> (4 * (len - s) + 4 <= n)%nat -> returns (parsed s) (parseline line n s)) /\
  (forall s, (s <= len)%nat -> (4 * (len - s) + 3 <= n)%nat -> returns (parsed s) (parsepipe line n s)) /\
  (forall s, (s <= len)%nat -> (4 * (len - s) + 2 <= n)%nat -> returns (parsed s) (parseexec line n s)) /\
  (forall s, (s <= len)%nat -> (4 * (len - s) + 1 <= n)%nat -> returns (parsed s) (parseblock line n s)).
Proof.
  induction n as [|n (IHl & IHp & IHe & IHb)]; [split_and!; intros; lia|].
  split_and!; intros s Hs Hn; cbn [parseline parsepipe parseexec parseblock].
  - eapply returns_bind; [apply IHp; lia|]. intros [c s1] [Hc Hs1]. cbn [fst snd] in *.
    eapply returns_bind; [apply (parsebacks_ok _ c s1); [done|lia|lia]|].
    intros [c2 s2] [Hc2 Hs2]. cbn [fst snd] in *.
    destruct (peek line s2 (bytes ";")) as [b s3] eqn:Hp.
    destruct (peek_ok _ _ _ _ (proj2 Hs2) Hp) as (_ & Hs3 & _).
    destruct b; [|split; [done|simpl; lia]].
    destruct (gettoken line s3) as [[tok q] s4] eqn:Hg.
    pose proof (peek_token _ _ _ _ _ _ (proj2 Hs2) Hp Hg) as Hs4.
    eapply returns_bind; [apply IHl; lia|]. intros [r s5] [Hr Hs5]. cbn [fst snd] in *.
    split; [done|simpl; lia].
  - eapply returns_bind; [apply IHe; lia|]. intros [c s1] [Hc Hs1]. cbn [fst snd] in *.
    destruct (peek line s1 (bytes "|")) as [b s3] eqn:Hp.
    destruct (peek_ok _ _ _ _ (proj2 Hs1) Hp) as (_ & Hs3 & _).
    destruct b; [|split; [done|simpl; lia]].
    destruct (gettoken line s3) as [[tok q] s4] eqn:Hg.
    pose proof (peek_token _ _ _ _ _ _ (proj2 Hs1) Hp Hg) as Hs4.
    eapply returns_bind; [apply IHp; lia|]. intros [r s5] [Hr Hs5]. cbn [fst snd] in *.
    split; [done|simpl; lia].
  - destruct (peek line s (bytes "(")) as [b s1] eqn:Hp.
    destruct (peek_ok _ _ _ _ Hs Hp) as (_ & Hs1 & _).
    destruct b; [eapply parsed_mono; [|apply IHb]; lia|].
    eapply returns_bind; [apply (parseredirs_ok _ (EXEC []) s1)|].
    + split; [unfold MAXARGS; simpl; lia|constructor].
    + lia.
    + lia.
    + intros [c s2] [Hc Hs2]. cbn [fst snd] in *. eapply parsed_mono; [|apply parseargs_ok]; try done.
      * lia.
      * unfold MAXARGS. simpl. lia.
      * lia.
      * lia.
  - destruct (peek line s (bytes "(")) as [b s1] eqn:Hp.
    destruct b; cbn [negb]; [|auto with userdb].
    destruct (gettoken line s1) as [[tok q] s2] eqn:Hg.
    pose proof (peek_token _ _ _ _ _ _ Hs Hp Hg) as Hs2.
    eapply returns_bind; [apply IHl; lia|]. intros [c s3] [Hc Hs3]. cbn [fst snd] in *.
    destruct (peek line s3 (bytes ")")) as [b' s4] eqn:Hp'.
    destruct b'; cbn [negb]; [|auto with userdb].
    destruct (gettoken line s4) as [[tok' q'] s5] eqn:Hg'.
    pose proof (peek_token _ _ _ _ _ _ (proj2 Hs3) Hp' Hg') as Hs5.
    eapply parsed_mono; [|apply parseredirs_ok]; [lia|done|lia|lia].
Qed.
End scanner.

(** * Cutting the strings *)

Fixpoint places (c : cmd) : list place :=
  match c with
  | EXEC argv => argv
  | REDIR c q _ _ => places c ++ [q]
  | PIPE l r | LIST l r => places l ++ places r
  | BACK c => places c
  end.

Definition cut (buf : list Z) (q : place) : list Z := <[q.2 := 0]> buf.
Definition slice (line : list Z) (q : place) : list Z := take (q.2 - q.1) (drop q.1 line).

Lemma nulterminate_cuts c : forall buf, nulterminate c buf = foldl cut buf (places c).
Proof.
  induction c as [argv|c IH q mode fd|l IHl r IHr|l IHl r IHr|c IH]; intros buf; simpl;
    rewrite ?foldl_app; simpl; by rewrite ?IH, ?IHl, ?IHr.
Qed.

Lemma cut_lookup ps : forall buf i,
  foldl cut buf ps !! i = if decide (i ∈ ps.*2) then (fun _ => 0) <$> (buf !! i) else buf !! i.
Proof.
  induction ps as [|q ps IH]; intros buf i; [done|]. cbn [foldl]. rewrite IH. unfold cut.
  destruct (decide (q.2 = i)) as [<-|Hne].
  - destruct (decide (q.2 ∈ (q :: ps).*2)) as [_|Hn]; [|set_solver].
    destruct (buf !! q.2) as [c|] eqn:E.
    + rewrite list_lookup_insert_eq by (by eapply lookup_lt_Some). by destruct (decide _).
    + rewrite list_insert_ge by (by apply lookup_ge_None). rewrite E. by destruct (decide _).
  - rewrite list_lookup_insert_ne by done.
    destruct (decide (i ∈ ps.*2)), (decide (i ∈ (q :: ps).*2)); set_solver.
Qed.

(** The string in a buffer and the NUL behind it. *)
Lemma cstr_prefix buf : (length (cstr buf) < length buf)%nat ->
  exists rest, buf = cstr buf ++ 0 :: rest.
Proof.
  induction buf as [|c buf IH]; simpl; [lia|]. destruct (Z.eqb_spec c 0) as [->|Hc]; simpl.
  - intros _. by exists buf.
  - intros Hl. destruct IH as [rest Hr]; [lia|]. exists rest. by rewrite Hr at 1.
Qed.

Lemma wf_places line c : wf_cmd line c -> Forall (tok_ok line) (places c).
Proof. induction c; simpl; rewrite ?Forall_app, ?list.Forall_cons; naive_solver. Qed.

Lemma str_at_cut buf ps q : (length (cstr buf) < length buf)%nat ->
  Forall (tok_ok (cstr buf)) ps -> q ∈ ps -> str_at (foldl cut buf ps) q = slice (cstr buf) q.
Proof.
  intros Hl Hps Hq. destruct (cstr_prefix buf Hl) as [rest Hbuf].
  pose proof (cstr_nulfree buf) as Hnf. set (line := cstr buf) in *. clearbody line.
  pose proof Hps as Hqt. eapply list.Forall_forall in Hqt; [|exact Hq].
  destruct Hqt as (Hle & Hw & Hstop).
  assert (Hnot : forall i, (q.1 <= i < q.2)%nat -> i ∉ ps.*2).
  { intros i Hi Hin. apply list_elem_of_fmap in Hin as (p & -> & Hp).
    eapply list.Forall_forall in Hps; [|exact Hp]. destruct Hps as (_ & _ & Hst).
    destruct (Hw _ Hi) as (c & Hc & Hcw). specialize (Hst c Hc). congruence. }
  unfold str_at. assert (Hd : exists r, drop q.1 (foldl cut buf ps) = slice line q ++ 0 :: r).
  { exists (drop (S (q.2 - q.1)) (drop q.1 (foldl cut buf ps))).
    apply list_eq. intros i. rewrite lookup_drop, cut_lookup.
    assert (Hsl : length (slice line q) = (q.2 - q.1)%nat).
    { unfold slice. rewrite length_take, length_drop. lia. }
    destruct (Nat.lt_trichotomy i (q.2 - q.1)) as [Hi|[->|Hi]].
    - rewrite decide_False by (apply Hnot; lia).
      rewrite lookup_app_l by lia. unfold slice. rewrite lookup_take_lt, lookup_drop by lia.
      rewrite Hbuf, lookup_app_l by lia. done.
    - replace (q.1 + (q.2 - q.1))%nat with q.2 by lia.
      rewrite decide_True by (apply list_elem_of_fmap_2; done).
      rewrite lookup_app_r, Hsl, Nat.sub_diag by lia. simpl.
      destruct (lookup_lt_is_Some_2 buf q.2 ltac:(lia)) as [c ->]. done.
    - rewrite lookup_app_r, Hsl by lia. destruct (i - (q.2 - q.1))%nat as [|j] eqn:E; [lia|].
      simpl. rewrite !lookup_drop, cut_lookup.
      by replace (q.1 + (S (q.2 - q.1) + j))%nat with (q.1 + i)%nat by lia. }
  destruct Hd as [r ->]. apply cstr_app_nul. apply Forall_lookup_2. intros i c Hi.
  unfold slice in Hi. apply lookup_take_Some in Hi as [Hi _]. rewrite lookup_drop in Hi.
  by eapply Forall_lookup_1 in Hnf.
Qed.

(** parsecmd ends, and the strings of its tree are the words of the line. *)
Lemma parsecmd_ok buf : (length (cstr buf) < length buf)%nat ->
  returns (fun x => wf_cmd (cstr buf) x.1 /\
                    Forall (fun q => str_at x.2 q = slice (cstr buf) q) (places x.1)) (parsecmd buf).
Proof.
  intros Hl. unfold parsecmd. cbv zeta.
  eapply returns_bind; [apply parse_ok; lia|].
  intros [c s] [Hc _]. cbn [fst snd] in *. destruct (peek _ s []) as [b s1].
  destruct (Nat.eqb s1 _); cbn [negb].
  - split; [done|]. apply list.Forall_forall. intros q Hq. cbn [fst snd] in *.
    rewrite nulterminate_cuts. apply str_at_cut; [done|by apply wf_places|done].
  - apply returns_then; auto with userdb.
Qed.
