(* ===== verification/ShPrint.v ===== *)
(** Every command tree can be written as a line, and the parser of sh.c reads
    that line back as the tree. *)
From S2P Require Import Prelude Kernel Mem Fsformat Console User Ulib Sh ShFacts.
From Stdlib Require Import Ascii.

(** * Trees and lines *)

(** A command with its strings. *)
Inductive tree :=
| TExec (args : list (list Z))
| TRedir (t : tree) (file : list Z) (mode fd : Z)
| TPipe (left right : tree)
| TList (left right : tree)
| TBack (t : tree).

(** The tree with the strings its places stand for. *)
Fixpoint resolve (f : place -> list Z) (c : cmd) : tree :=
  match c with
  | EXEC argv => TExec (f <$> argv)
  | REDIR c q mode fd => TRedir (resolve f c) (f q) mode fd
  | PIPE l r => TPipe (resolve f l) (resolve f r)
  | LIST l r => TList (resolve f l) (resolve f r)
  | BACK c => TBack (resolve f c)
  end.

Definition word (w : list Z) : Prop := w <> [] /\ Forall (fun c => is_word c = true /\ c <> 0) w.

(** What the shell can express: arguments and files are words, at most nine
    arguments, input redirected from and output to a file. *)
Fixpoint ok_tree (t : tree) : Prop :=
  match t with
  | TExec args => (length args < MAXARGS)%nat /\ Forall word args
  | TRedir t f mode fd => ok_tree t /\ word f /\ redir_ok mode fd
  | TPipe l r | TList l r => ok_tree l /\ ok_tree r
  | TBack t => ok_tree t
  end.

(** A line for a tree, every token followed by a blank; [lvl] is what the
    context takes: 0 a command, 1 a pipeline, 2 that in the background, 3 a
    list.  Anything else goes into parentheses. *)
Definition sp (c : ascii) : list Z := [ord c; 32].
Definition show_words (args : list (list Z)) : list Z := mjoin ((fun w => w ++ [32]) <$> args).
Definition show_redir (f : list Z) (fd : Z) : list Z :=
  sp (if fd =? 0 then "<"%char else ">"%char) ++ f ++ [32].
Definition paren (b : bool) (l : list Z) : list Z := if b then sp "(" ++ l ++ sp ")" else l.
Fixpoint show (lvl : nat) (t : tree) : list Z :=
  match t with
  | TExec args => show_words args
  | TRedir t f _ fd => show 0 t ++ show_redir f fd
  | TPipe l r => paren (lvl <? 1)%nat (show 0 l ++ sp "|" ++ show 1 r)
  | TBack t => paren (lvl <? 2)%nat (show 2 t ++ sp "&")
  | TList l r => paren (lvl <? 3)%nat (show 2 l ++ sp ";" ++ show 3 r)
  end.

(** * The scanner on a known text *)

Section text.
Context (line : list Z).
Implicit Types (s : nat) (txt rest r : list Z).

(** The text from [s] on. *)
Definition from s txt : Prop := drop s line = txt.
Definition nonspace txt : Prop := match txt with [] => True | c :: _ => is_space c = false end.
(** The text ends, or goes on with one of the characters. *)
Definition starts (cs : list Z) txt : Prop := match txt with [] => True | c :: _ => c ∈ cs end.

Lemma from_app s txt rest : from s (txt ++ rest) -> from (s + length txt) rest.
Proof. unfold from. intros H. rewrite <- drop_drop, H. by rewrite drop_app_length. Qed.

Lemma from_at s txt : from s txt -> at_ line s = match txt with [] => 0 | c :: _ => c end.
Proof.
  unfold from, at_. intros H. rewrite <- (Nat.add_0_r s), <- lookup_drop, H. by destruct txt.
Qed.

Lemma from_skip s txt : from s txt -> nonspace txt -> skip is_space line s = s.
Proof.
  unfold from, skip. intros -> Hn. destruct txt as [|c txt]; simpl; [lia|]. simpl in Hn. rewrite Hn. lia.
Qed.

Lemma from_skip_blank s txt : from s (32 :: txt) -> nonspace txt -> skip is_space line s = S s.
Proof.
  unfold from, skip. intros -> Hn. simpl. destruct txt as [|c txt]; simpl; [lia|].
  simpl in Hn. rewrite Hn. lia.
Qed.

Lemma span_word w txt : Forall (fun c => is_word c = true /\ c <> 0) w ->
  span is_word (w ++ 32 :: txt) = length w.
Proof. induction 1 as [|c w [Hc _] _ IH]; simpl; [done|]. by rewrite Hc, IH. Qed.

Lemma word_not_symbol c : is_word c = true ->
  is_space c = false /\ existsb (Z.eqb c) symbols = false.
Proof.
  unfold is_word, is_symbol, found. intros H. apply andb_true_iff in H as [H1 H2].
  apply negb_true_iff in H1, H2. split; [done|]. rewrite <- H2. symmetry.
  apply strchr_existsb. by repeat constructor.
Qed.

Lemma gettoken_word s w txt : from s (w ++ 32 :: txt) -> word w -> nonspace txt ->
  gettoken line s = (ord "a", (s, (s + length w)%nat), (s + length w + 1)%nat).
Proof.
  intros Hf [Hne Hw] Hn. destruct w as [|c w]; [done|]. pose proof (Forall_inv Hw) as [Hc Hc0].
  destruct (word_not_symbol c Hc) as [Hsp Hsy]. unfold gettoken.
  rewrite (from_skip s ((c :: w) ++ 32 :: txt)) by done.
  rewrite (from_at _ _ Hf). cbn [app]. rewrite (proj2 (Z.eqb_neq c 0)) by done.
  change symbols with [ord "<"; ord "|"; ord ">"; ord "&"; ord ";"; ord "("; ord ")"] in Hsy.
  cbn [existsb] in Hsy. rewrite !orb_false_iff in Hsy.
  destruct Hsy as (E1 & E2 & E3 & E4 & E5 & E6 & E7 & _). rewrite E1, E2, E3, E4, E5, E6, E7.
  cbn [orb]. assert (Hs : skip is_word line s = (s + length (c :: w))%nat).
  { unfold skip. rewrite Hf. by rewrite span_word. }
  rewrite Hs. f_equal. rewrite (from_skip_blank _ txt); [lia| |done].
  by apply from_app.
Qed.

(** A symbol other than a redirection of output, with its blank. *)
Lemma gettoken_sym s (c : ascii) txt : from s (sp c ++ txt) -> nonspace txt ->
  c ∈ ["|"; "("; ")"; ";"; "&"; "<"; ">"]%char ->
  exists q, gettoken line s = (ord c, q, (s + 2)%nat).
Proof.
  intros Hf Hn Hc. unfold sp in Hf. cbn [app] in Hf.
  assert (Hf1 : from (S s) (32 :: txt)).
  { replace (S s) with (s + length [ord c])%nat by (simpl; lia). by apply from_app. }
  assert (Hs1 : skip is_space line (S s) = (s + 2)%nat).
  { rewrite (from_skip_blank _ txt) by done. lia. }
  eexists. unfold gettoken. rewrite (from_skip s _ Hf).
  2:{ simpl. repeat (apply elem_of_cons in Hc as [->|Hc]; [done|]). by apply not_elem_of_nil in Hc. }
  rewrite (from_at _ _ Hf), (from_at _ _ Hf1).
  repeat (apply elem_of_cons in Hc as [->|Hc]; [simpl; rewrite Hs1; reflexivity|]).
  by apply not_elem_of_nil in Hc.
Qed.

Lemma peek_text s txt toks : from s txt -> nonspace txt -> Forall (fun c => c <> 0) toks ->
  peek line s toks =
  (match txt with [] => false | c :: _ => nz c && existsb (Z.eqb c) toks end, s).
Proof.
  intros Hf Hn Ht. unfold peek. rewrite (from_skip s txt) by done. rewrite (from_at _ _ Hf).
  f_equal. destruct txt as [|c txt]; [done|]. f_equal. by apply strchr_existsb.
Qed.

(** peek on a text whose first character is known to be one of [cs]. *)
Lemma starts_nonspace cs txt : Forall (fun c => is_space c = false) cs -> starts cs txt -> nonspace txt.
Proof. destruct txt as [|c txt]; [done|]. intros Hcs Hc. by eapply list.Forall_forall in Hcs. Qed.

Lemma peek_no s txt toks : from s txt -> nonspace txt -> Forall (fun c => c <> 0) toks ->
  match txt with [] => True | c :: _ => existsb (Z.eqb c) toks = false end ->
  peek line s toks = (false, s).
Proof.
  intros Hf Hn Ht Hc. rewrite (peek_text _ _ _ Hf Hn Ht). destruct txt as [|c txt]; [done|].
  by rewrite Hc, andb_false_r.
Qed.

Lemma peek_yes s c txt toks : from s (c :: txt) -> nonspace (c :: txt) -> Forall (fun c => c <> 0) toks ->
  existsb (Z.eqb c) toks = true -> peek line s toks = (true, s).
Proof.
  intros Hf Hn Ht Hc. rewrite (peek_text _ _ _ Hf Hn Ht), Hc, andb_true_r. f_equal.
  unfold nz. apply negb_true_iff, Z.eqb_neq. intros ->.
  apply existsb_exists in Hc as (x & Hx & E). apply Z.eqb_eq in E. subst x.
  rewrite List.Forall_forall in Ht. by apply (Ht 0).
Qed.

(** ** Redirections *)

Notation rplace := (place * Z * Z)%type.
Notation rname := (list Z * Z * Z)%type.

Definition redirs (c : cmd) (ps : list rplace) : cmd :=
  foldl (fun c '(q, mode, fd) => REDIR c q mode fd) c ps.
Definition tredirs (t : tree) (rs : list rname) : tree :=
  foldl (fun t '(f, mode, fd) => TRedir t f mode fd) t rs.
Definition rname_of (p : rplace) : rname := let '(q, mode, fd) := p in (slice line q, mode, fd).
Definition show_redirs (rs : list rname) : list Z := mjoin ((fun '(f, _, fd) => show_redir f fd) <$> rs).
Definition rname_ok (r : rname) : Prop := let '(f, mode, fd) := r in word f /\ redir_ok mode fd.

Lemma resolve_redirs ps : forall c,
  resolve (slice line) (redirs c ps) = tredirs (resolve (slice line) c) (rname_of <$> ps).
Proof. induction ps as [|[[q mode] fd] ps IH]; intros c; [done|]. apply IH. Qed.

Lemma under_redirs ps argv : forall c, under (redirs c ps) argv = redirs (under c argv) ps.
Proof. induction ps as [|[[q mode] fd] ps IH]; intros c; [done|]. apply IH. Qed.

Lemma slice_word s w txt : from s (w ++ txt) -> slice line (s, (s + length w)%nat) = w.
Proof.
  unfold from, slice. cbn [fst snd]. intros ->.
  replace (s + length w - s)%nat with (length w) by lia. apply take_app_length.
Qed.

Lemma length_show_redirs rs : (length rs <= length (show_redirs rs))%nat.
Proof.
  induction rs as [|[[f mode] fd] rs IH]; [simpl; lia|].
  change (show_redirs ((f, mode, fd) :: rs)) with (show_redir f fd ++ show_redirs rs).
  rewrite length_app. unfold show_redir, sp. simpl. lia.
Qed.

Lemma parseredirs_text n : forall rs c s rest,
  from s (show_redirs rs ++ rest) -> Forall rname_ok rs -> nonspace rest ->
  match rest with [] => True | c :: _ => existsb (Z.eqb c) (bytes "<>") = false end ->
  (length rs < n)%nat ->
  exists ps, rname_of <$> ps = rs /\
    parseredirs line n c s = Ret (redirs c ps, (s + length (show_redirs rs))%nat).
Proof.
  induction n as [|n IH]; intros rs c s rest Hf Hrs Hn Hrest Hl; [lia|]. cbn [parseredirs].
  destruct rs as [|[[f mode] fd] rs].
  { exists []. split; [done|]. simpl in Hf. rewrite (peek_no _ _ _ Hf Hn); [|by repeat constructor|done].
    simpl. do 2 f_equal. lia. }
  apply Forall_cons_1 in Hrs as [[Hw Hro] Hrs]. simpl in Hl.
  assert (Hns : forall txt, nonspace txt -> forall rs, nonspace (show_redirs rs ++ txt)).
  { intros txt Ht [|[[f' m'] fd'] rs']; [done|]. simpl. by destruct (fd' =? 0). }
  set (sym := if fd =? 0 then "<"%char else ">"%char).
  change (show_redirs ((f, mode, fd) :: rs)) with (show_redir f fd ++ show_redirs rs) in *.
  unfold show_redir in *. fold sym in Hf |- *.
  assert (Hsym : sym = "<"%char \/ sym = ">"%char) by (unfold sym; destruct (fd =? 0); auto).
  rewrite <- !app_assoc in Hf.
  assert (Hwn : nonspace (f ++ [32] ++ show_redirs rs ++ rest)).
  { destruct Hw as [Hne Hw]. destruct f as [|d f]; [done|]. apply Forall_inv in Hw as [Hd _].
    simpl. by apply word_not_symbol in Hd as [? _]. }
  assert (Hpk : peek line s (bytes "<>") = (true, s)).
  { apply (peek_yes s (ord sym) ([32] ++ f ++ [32] ++ show_redirs rs ++ rest)); [done| |by repeat constructor|];
      by destruct Hsym as [-> | ->]. }
  rewrite Hpk. cbn [negb].
  destruct (gettoken_sym s sym _ Hf Hwn) as [q0 ->]; [destruct Hsym as [-> | ->]; set_solver|].
  apply from_app in Hf. change (length (sp sym)) with 2%nat in Hf.
  rewrite (gettoken_word _ f (show_redirs rs ++ rest)); [|done|done|by apply Hns].
  rewrite Z.eqb_refl. cbn [negb].
  pose proof (slice_word _ _ _ Hf) as Hsl. rewrite app_assoc in Hf. apply from_app in Hf.
  rewrite length_app in Hf. cbn [length] in Hf.
  assert (Hstep : forall c', exists ps, rname_of <$> ps = rs /\
    parseredirs line n c' (s + 2 + length f + 1) =
    Ret (redirs c' ps, (s + length ((sp sym ++ f ++ [32%Z]) ++ show_redirs rs))%nat)).
  { intros c'. replace (s + 2 + length f + 1)%nat with (s + 2 + (length f + 1))%nat by lia.
    destruct (IH rs c' _ rest Hf Hrs Hn Hrest ltac:(lia)) as (ps & Hps & ->).
    exists ps. split; [done|]. do 2 f_equal. rewrite !length_app. simpl. lia. }
  destruct Hro as [[-> ->]|[-> ->]]; unfold sym in *; simpl.
  - destruct (Hstep (REDIR c ((s + 2)%nat, (s + 2 + length f)%nat) O_RDONLY 0)) as (ps & Hps & Hrun).
    exists ((((s + 2)%nat, (s + 2 + length f)%nat), O_RDONLY, 0) :: ps). split; [|exact Hrun].
    rewrite fmap_cons, Hps. unfold rname_of. by rewrite Hsl.
  - destruct (Hstep (REDIR c ((s + 2)%nat, (s + 2 + length f)%nat) (Z.lor O_WRONLY O_CREATE) 1))
      as (ps & Hps & Hrun).
    exists ((((s + 2)%nat, (s + 2 + length f)%nat), Z.lor O_WRONLY O_CREATE, 1) :: ps).
    split; [|exact Hrun]. rewrite fmap_cons, Hps. unfold rname_of. by rewrite Hsl.
Qed.

(** ** Arguments *)

Definition follow0 : list Z := bytes "|)&;".

Lemma follow0_spec rest : starts follow0 rest ->
  nonspace rest /\ match rest with [] => True | c :: _ => existsb (Z.eqb c) (bytes "<>") = false end.
Proof.
  destruct rest as [|c rest]; [done|]. unfold follow0. cbn [starts].
  intros Hc. repeat (apply elem_of_cons in Hc as [->|Hc]; [done|]). by apply not_elem_of_nil in Hc.
Qed.

Lemma word_nonspace w txt : word w -> nonspace (w ++ txt) /\
  match w ++ txt with [] => True | c :: _ => existsb (Z.eqb c) symbols = false end.
Proof.
  intros [Hne Hw]. destruct w as [|c w]; [done|]. apply Forall_inv in Hw as [Hc _].
  by apply word_not_symbol in Hc.
Qed.

(** A character that is no symbol is in no string of symbols. *)
Lemma no_symbol c cs : Forall (fun d => d ∈ symbols) cs -> existsb (Z.eqb c) symbols = false ->
  existsb (Z.eqb c) cs = false.
Proof.
  intros Hcs Hc. apply not_true_is_false. intros Ht. apply existsb_exists in Ht as (d & Hd & E).
  apply Z.eqb_eq in E. subst d. rewrite <- not_true_iff_false in Hc. apply Hc, existsb_exists.
  exists c. split; [|apply Z.eqb_refl]. apply list_elem_of_In. apply list_elem_of_In in Hd.
  by eapply list.Forall_forall in Hcs.
Qed.

Lemma show_words_nonspace args rest : Forall word args -> nonspace rest -> nonspace (show_words args ++ rest).
Proof.
  intros [|w args' Hw _]; [done|]. intros _. change (show_words (w :: args')) with ((w ++ [32]) ++ show_words args').
  rewrite <- !app_assoc. by apply word_nonspace.
Qed.

Lemma show_redirs_nonspace rs rest : nonspace rest -> nonspace (show_redirs rs ++ rest).
Proof. destruct rs as [|[[f m] fd] rs]; [done|]. intros _. simpl. by destruct (fd =? 0). Qed.

Lemma length_show_words args : Forall word args -> (2 * length args <= length (show_words args))%nat.
Proof.
  induction 1 as [|w args [Hne _] _ IH]; [simpl; lia|].
  change (show_words (w :: args)) with ((w ++ [32]) ++ show_words args).
  rewrite !length_app. destruct w; [done|]. simpl. lia.
Qed.

Lemma parseargs_end n ps argv s rest : from s rest -> starts follow0 rest ->
  parseargs line (S n) (redirs (EXEC []) ps) argv s = Ret (redirs (EXEC argv) ps, s).
Proof.
  intros Hf Hr. destruct (follow0_spec rest Hr) as [Hn _]. cbn [parseargs].
  rewrite (peek_text _ _ _ Hf Hn) by (by repeat constructor). destruct rest as [|c rest].
  - unfold gettoken. rewrite (from_skip _ _ Hf), (from_at _ _ Hf) by done. cbn.
    rewrite (from_skip _ _ Hf) by done. by rewrite under_redirs.
  - cbn [starts] in Hr. unfold follow0 in Hr.
    repeat (apply elem_of_cons in Hr as [->|Hr]; [cbn; by rewrite under_redirs|]).
    by apply not_elem_of_nil in Hr.
Qed.

Lemma parseargs_text n : forall args rs argv s rest,
  args <> [] -> from s (show_words args ++ show_redirs rs ++ rest) -> Forall word args ->
  Forall rname_ok rs -> starts follow0 rest -> (length argv + length args < MAXARGS)%nat ->
  (length args + length rs + 1 < n)%nat ->
  exists ps pl, rname_of <$> ps = rs /\ slice line <$> pl = args /\
    parseargs line n (EXEC []) argv s =
    Ret (redirs (EXEC (argv ++ pl)) ps,
         (s + length (show_words args ++ show_redirs rs))%nat).
Proof.
  induction n as [|n IH]; intros args rs argv s rest Hne Hf Hw Hrs Hr Hl Hn; [lia|].
  destruct args as [|w args]; [done|]. apply Forall_cons_1 in Hw as [Hw Hws].
  destruct (follow0_spec rest Hr) as [Hrn Hrr].
  pose proof (show_redirs_nonspace rs rest Hrn) as Hrsn.
  pose proof (show_words_nonspace args _ Hws Hrsn) as Hwsn.
  change (show_words (w :: args)) with ((w ++ [32]) ++ show_words args) in *.
  rewrite <- !app_assoc in Hf |- *. destruct (word_nonspace w ([32] ++ show_words args ++ show_redirs rs ++ rest) Hw)
    as [Hn1 Hn2]. cbn [parseargs].
  rewrite (peek_no _ _ _ Hf Hn1); [|by repeat constructor|].
  2:{ destruct (w ++ _); [done|]. apply no_symbol; [|done]. repeat constructor; set_solver. }
  rewrite (gettoken_word _ w (show_words args ++ show_redirs rs ++ rest)); [|done|done|done].
  cbn [Z.eqb]. change (ord "a" =? 0) with false. rewrite Z.eqb_refl. cbn [negb].
  pose proof (slice_word _ _ _ Hf) as Hsl. rewrite app_assoc in Hf. apply from_app in Hf.
  rewrite length_app in Hf. cbn [length] in Hf, Hl, Hn. rewrite <- Nat.add_assoc.
  rewrite (proj2 (Nat.leb_gt MAXARGS _)) by (rewrite length_app; simpl; lia).
  set (q := (s, (s + length w)%nat)) in *. set (s1 := (s + (length w + 1))%nat) in *.
  destruct args as [|w2 args].
  - cbn [show_words mjoin list_join fmap list_fmap app] in Hf.
    destruct (parseredirs_text n rs (EXEC []) s1 rest Hf Hrs Hrn Hrr ltac:(lia)) as (ps & Hps & ->).
    cbn [pbind]. apply from_app in Hf. destruct n as [|n]; [lia|].
    rewrite (parseargs_end n ps (argv ++ [q]) _ rest Hf Hr).
    exists ps, [q]. split_and!; [done|by rewrite <- Hsl|].
    do 2 f_equal. unfold s1. rewrite !length_app. simpl. lia.
  - assert (Hrr2 : match show_words (w2 :: args) ++ show_redirs rs ++ rest with
                   | [] => True | c :: _ => existsb (Z.eqb c) (bytes "<>") = false end).
    { change (show_words (w2 :: args)) with ((w2 ++ [32]) ++ show_words args). rewrite <- !app_assoc.
      apply Forall_inv in Hws as Hw2. destruct (word_nonspace w2 ([32] ++ show_words args ++ show_redirs rs ++ rest) Hw2)
        as [_ Hn3]. destruct (w2 ++ _); [done|]. apply no_symbol; [|done]. repeat constructor; set_solver. }
    destruct (parseredirs_text n [] (EXEC []) s1 _ Hf (List.Forall_nil _) Hwsn Hrr2 ltac:(simpl; lia)) as (ps0 & Hps0 & ->).
    apply fmap_nil_inv in Hps0 as ->. cbn [pbind redirs foldl]. simpl (length (show_redirs [])).
    rewrite Nat.add_0_r.
    destruct (IH (w2 :: args) rs (argv ++ [q]) s1 rest ltac:(done) Hf Hws Hrs Hr) as (ps & pl & Hps & Hpl & ->).
    { rewrite length_app. simpl in *. lia. }
    { simpl in *. lia. }
    exists ps, (q :: pl). split_and!; [done|by rewrite fmap_cons, Hpl, Hsl|].
    rewrite <- app_assoc. do 2 f_equal. unfold s1. rewrite !length_app. simpl. lia.
Qed.

(** ** Levels *)

Lemma from_len s txt : from s txt -> (length txt <= length line)%nat.
Proof. unfold from. intros <-. rewrite length_drop. lia. Qed.

Lemma show_nonspace t : forall lvl rest, ok_tree t -> nonspace rest -> nonspace (show lvl t ++ rest).
Proof.
  induction t as [args|t IH f mode fd|t1 IHl t2 IHr|t1 IHl t2 IHr|t IH]; intros lvl rest Hok Hn; simpl.
  - apply show_words_nonspace; [apply Hok|done].
  - rewrite <- app_assoc. apply IH; [apply Hok|]. unfold show_redir. destruct (fd =? 0); reflexivity.
  - unfold paren. destruct (lvl <? 1)%nat; [done|]. rewrite <- app_assoc. apply IHl; [apply Hok|]. simpl. reflexivity.
  - unfold paren. destruct (lvl <? 3)%nat; [done|]. rewrite <- app_assoc. apply IHl; [apply Hok|]. simpl. reflexivity.
  - unfold paren. destruct (lvl <? 2)%nat; [done|]. rewrite <- app_assoc. apply IH; [done|]. simpl. reflexivity.
Qed.

Definition follow1 : list Z := bytes ")&;".
Definition follow3 : list Z := bytes ")".

(** Parsed as a command with further redirections, as a pipeline, with its
    ampersands, and as a list. *)
Definition at0 (t : tree) : Prop := forall n s rs rest,
  from s (show 0 t ++ show_redirs rs ++ rest) -> Forall rname_ok rs -> starts follow0 rest ->
  (4 * length (show 0 t) + 2 <= n)%nat ->
  exists c, parseexec line n s = Ret (c, (s + length (show 0 t ++ show_redirs rs))%nat) /\
    resolve (slice line) c = tredirs t rs.
Definition at1 (t : tree) : Prop := forall n s rest,
  from s (show 1 t ++ rest) -> starts follow1 rest -> (4 * length (show 1 t) + 3 <= n)%nat ->
  exists c, parsepipe line n s = Ret (c, (s + length (show 1 t))%nat) /\ resolve (slice line) c = t.
Definition at2 (t : tree) : Prop := forall n N s rest,
  from s (show 2 t ++ rest) -> starts follow1 rest -> (4 * length (show 2 t) + 3 <= n)%nat ->
  (length (show 2 t) < N)%nat ->
  exists c N' c0 s0, (N - length (show 2 t) <= N' <= N)%nat /\ resolve (slice line) c = t /\
    parsepipe line n s = Ret (c0, s0) /\
    parsebacks line N c0 s0 = parsebacks line N' c (s + length (show 2 t)).
Definition at3 (t : tree) : Prop := forall n s rest,
  from s (show 3 t ++ rest) -> starts follow3 rest -> (4 * length (show 3 t) + 4 <= n)%nat ->
  exists c, parseline line n s = Ret (c, (s + length (show 3 t))%nat) /\ resolve (slice line) c = t.

(** What follows a level is no token of the levels below. *)
Lemma follow_peek cs toks rest s :
  from s rest -> starts cs rest -> Forall (fun c => is_space c = false /\ existsb (Z.eqb c) toks = false) cs ->
  Forall (fun c => c <> 0) toks -> peek line s toks = (false, s).
Proof.
  intros Hf Hr Hcs Ht. assert (Hc : match rest with [] => True | c :: _ =>
    is_space c = false /\ existsb (Z.eqb c) toks = false end).
  { destruct rest as [|c rest]; [done|]. by eapply list.Forall_forall in Hcs. }
  apply (peek_no _ rest); [done| |done|]; destruct rest; naive_solver.
Qed.

Lemma starts_mono cs cs' rest : cs ⊆ cs' -> starts cs rest -> starts cs' rest.
Proof. destruct rest; [done|]. simpl. set_solver. Qed.

Lemma at0_at1 t : show 1 t = show 0 t -> at0 t -> at1 t.
Proof.
  intros He H0 n s rest Hf Hr Hn. rewrite He in *. destruct n as [|n]; [lia|].
  destruct (H0 n s [] rest Hf (List.Forall_nil _)) as (c & Hc & Hres); [|lia|].
  { eapply starts_mono; [|exact Hr]. unfold follow1, follow0. simpl. set_solver. }
  rewrite app_nil_r in Hc. exists c. split; [|done]. cbn [parsepipe]. rewrite Hc. cbn [pbind].
  apply from_app in Hf. rewrite (follow_peek follow1 _ rest); [done|done|done| |]; by repeat constructor.
Qed.

Lemma at1_at2 t : show 2 t = show 1 t -> at1 t -> at2 t.
Proof.
  intros He H1 n N s rest Hf Hr Hn HN. rewrite He in *.
  destruct (H1 n s rest Hf Hr Hn) as (c & Hp & Hres). exists c, N, c, (s + length (show 1 t))%nat.
  by split; [lia|].
Qed.

Lemma at2_at3 t : show 3 t = show 2 t -> at2 t -> at3 t.
Proof.
  intros He H2 n s rest Hf Hr Hn. rewrite He in *. destruct n as [|n]; [lia|].
  pose proof (from_len _ _ Hf) as Hlen. rewrite length_app in Hlen.
  destruct (H2 n (S (length line)) s rest Hf) as (c & N' & c0 & s0 & HN & Hres & Hp & Hb); [|lia|lia|].
  { eapply starts_mono; [|exact Hr]. unfold follow1, follow3. simpl. set_solver. }
  exists c. split; [|done]. cbn [parseline]. apply from_app in Hf.
  rewrite Hp. cbn [pbind]. rewrite Hb. destruct N' as [|N']; [lia|]. cbn [parsebacks].
  rewrite (follow_peek follow3 _ rest); [|done|done|by repeat constructor..]. cbn [pbind].
  rewrite (follow_peek follow3 _ rest); [done|done|done|by repeat constructor..].
Qed.

Lemma at3_at0 t : ok_tree t -> show 0 t = sp "(" ++ show 3 t ++ sp ")" -> at3 t -> at0 t.
Proof.
  intros Hok He H3 n s rs rest Hf Hrs Hr Hn. rewrite He in *.
  pose proof (from_len _ _ Hf) as Hlen. rewrite !length_app in Hlen, Hn |- *. simpl in Hlen, Hn.
  destruct (follow0_spec rest Hr) as [Hrn Hrr]. pose proof (show_redirs_nonspace rs rest Hrn) as Hrsn.
  rewrite <- !app_assoc in Hf.
  assert (Hn3 : nonspace (show 3 t ++ sp ")" ++ show_redirs rs ++ rest)) by (by apply show_nonspace).
  destruct n as [|[|n]]; [lia|lia|]. cbn [parseexec parseblock].
  rewrite (peek_yes s (ord "(") ([32] ++ show 3 t ++ sp ")" ++ show_redirs rs ++ rest));
    [|done|done|by repeat constructor|done].
  rewrite (peek_yes s (ord "(") ([32] ++ show 3 t ++ sp ")" ++ show_redirs rs ++ rest));
    [|done|done|by repeat constructor|done]. cbn [negb].
  destruct (gettoken_sym s "(" _ Hf Hn3) as [q ->]; [set_solver|].
  apply from_app in Hf. change (length (sp "(")) with 2%nat in Hf.
  destruct (H3 n (s + 2)%nat _ Hf) as (c & -> & Hres); [simpl; set_solver|lia|]. cbn [pbind].
  apply from_app in Hf.
  rewrite (peek_yes _ (ord ")") ([32] ++ show_redirs rs ++ rest)); [|done|done|by repeat constructor|done].
  cbn [negb]. destruct (gettoken_sym _ ")" _ Hf Hrsn) as [q' ->]; [set_solver|].
  apply from_app in Hf. change (length (sp ")")) with 2%nat in Hf.
  pose proof (length_show_redirs rs). rewrite !length_app in Hlen.
  destruct (parseredirs_text (S (length line)) rs c _ rest Hf Hrs Hrn Hrr ltac:(lia)) as (ps & Hps & ->).
  exists (redirs c ps). split; [do 2 f_equal; rewrite ?length_app; simpl; lia|].
  by rewrite resolve_redirs, Hres, Hps.
Qed.

(** ** Commands *)

Lemma exec_at0 args : ok_tree (TExec args) -> at0 (TExec args).
Proof.
  intros [Hl Hw] n s rs rest Hf Hrs Hr Hn. cbn [show] in *.
  pose proof (from_len _ _ Hf) as Hlen. rewrite !length_app in Hlen.
  destruct (follow0_spec rest Hr) as [Hrn Hrr]. pose proof (show_redirs_nonspace rs rest Hrn) as Hrsn.
  pose proof (show_words_nonspace args _ Hw Hrsn) as Hwn. pose proof (length_show_redirs rs).
  destruct n as [|n]; [lia|]. cbn [parseexec].
  rewrite (peek_no _ _ _ Hf Hwn); [|by repeat constructor|].
  2:{ destruct args as [|w args].
      - destruct rs as [|[[f m] fd] rs]; [|simpl; by destruct (fd =? 0)].
        destruct rest as [|c rest]; [done|]. cbn [starts] in Hr. unfold follow0 in Hr.
        simpl in Hr. repeat (apply elem_of_cons in Hr as [->|Hr]; [done|]). by apply not_elem_of_nil in Hr.
      - change (show_words (w :: args)) with ((w ++ [32]) ++ show_words args). rewrite <- !app_assoc.
        apply Forall_inv in Hw. destruct (word_nonspace w ([32] ++ show_words args ++ show_redirs rs ++ rest) Hw) as [_ Hs].
        destruct (w ++ _); [done|]. apply no_symbol; [|done]. repeat constructor; set_solver. }
  destruct (decide (args = [])) as [->|Hne].
  - change (show_words []) with (@nil Z) in *. cbn [app] in *.
    destruct (parseredirs_text (S (length line)) rs (EXEC []) s rest Hf Hrs Hrn Hrr ltac:(lia)) as (ps & Hps & ->).
    cbn [pbind]. apply from_app in Hf. rewrite (parseargs_end _ ps [] _ rest) by done.
    exists (redirs (EXEC []) ps). split; [done|]. by rewrite resolve_redirs, Hps.
  - assert (Hrr2 : match show_words args ++ show_redirs rs ++ rest with
                   | [] => True | c :: _ => existsb (Z.eqb c) (bytes "<>") = false end).
    { destruct args as [|w args]; [done|].
      change (show_words (w :: args)) with ((w ++ [32]) ++ show_words args). rewrite <- !app_assoc.
      apply Forall_inv in Hw. destruct (word_nonspace w ([32] ++ show_words args ++ show_redirs rs ++ rest) Hw) as [_ Hs].
      destruct (w ++ _); [done|]. apply no_symbol; [|done]. repeat constructor; set_solver. }
    destruct (parseredirs_text (S (length line)) [] (EXEC []) s _ Hf (List.Forall_nil _) Hwn Hrr2 ltac:(simpl; lia))
      as (ps0 & Hps0 & ->). apply fmap_nil_inv in Hps0 as ->. cbn [pbind redirs foldl].
    simpl (length (show_redirs [])). rewrite Nat.add_0_r.
    destruct (parseargs_text (S (S (length line))) args rs [] s rest Hne Hf Hw Hrs Hr) as (ps & pl & Hps & Hpl & ->).
    { simpl. done. }
    { pose proof (length_show_words args Hw). lia. }
    exists (redirs (EXEC pl) ps). split; [done|]. rewrite resolve_redirs, Hps. cbn [resolve].
    by rewrite Hpl.
Qed.

Lemma redir_at0 t f mode fd : word f -> redir_ok mode fd -> at0 t -> at0 (TRedir t f mode fd).
Proof.
  intros Hw Hro H0 n s rs rest Hf Hrs Hr Hn. cbn [show] in *. rewrite <- app_assoc in Hf.
  rewrite length_app in Hn.
  destruct (H0 n s ((f, mode, fd) :: rs) rest) as (c & Hc & Hres); [|by constructor|done|lia|].
  { change (show_redirs ((f, mode, fd) :: rs)) with (show_redir f fd ++ show_redirs rs).
    by rewrite <- app_assoc. }
  exists c. split; [|done]. rewrite Hc. by rewrite <- app_assoc.
Qed.

Lemma pipe_at1 t1 t2 : ok_tree t2 -> at0 t1 -> at1 t2 -> at1 (TPipe t1 t2).
Proof.
  intros Hokr H0 H1 n s rest Hf Hr Hn.
  change (show 1 (TPipe t1 t2)) with (show 0 t1 ++ sp "|" ++ show 1 t2) in *.
  rewrite !length_app in *. simpl in Hn. destruct n as [|n]; [lia|]. cbn [parsepipe].
  rewrite <- !app_assoc in Hf.
  destruct (H0 n s [] (sp "|" ++ show 1 t2 ++ rest) Hf (List.Forall_nil _)) as (c & Hc & Hres);
    [simpl; set_solver|lia|].
  rewrite app_nil_r in Hc. rewrite Hc. cbn [pbind]. apply from_app in Hf.
  assert (Hnr : nonspace rest) by (eapply starts_nonspace; [|exact Hr]; by repeat constructor).
  rewrite (peek_yes _ (ord "|") ([32] ++ show 1 t2 ++ rest)); [|done|done|by repeat constructor|done].
  destruct (gettoken_sym _ "|" _ Hf) as [q ->]; [by apply show_nonspace|set_solver|].
  apply from_app in Hf. change (length (sp "|")) with 2%nat in Hf.
  destruct (H1 n _ rest Hf Hr ltac:(lia)) as (c' & -> & Hres'). cbn [pbind].
  exists (PIPE c c'). split; [do 2 f_equal; simpl; lia|]. cbn [resolve]. by rewrite Hres, Hres'.
Qed.

Lemma back_at2 t : at2 t -> at2 (TBack t).
Proof.
  intros H2 n N s rest Hf Hr Hn HN. change (show 2 (TBack t)) with (show 2 t ++ sp "&") in *.
  rewrite length_app in *. simpl in Hn, HN. rewrite <- app_assoc in Hf.
  destruct (H2 n N s (sp "&" ++ rest) Hf) as (c & N' & c0 & s0 & HN' & Hres & Hp & Hb); [simpl; set_solver|lia|lia|].
  assert (Hnr : nonspace rest) by (eapply starts_nonspace; [|exact Hr]; by repeat constructor).
  destruct N' as [|N']; [lia|]. exists (BACK c), N', c0, s0.
  split; [simpl; lia|]. split; [cbn [resolve]; by rewrite Hres|]. split; [done|]. rewrite Hb.
  cbn [parsebacks]. apply from_app in Hf.
  rewrite (peek_yes _ (ord "&") ([32] ++ rest)); [|done|done|by repeat constructor|done].
  destruct (gettoken_sym _ "&" _ Hf Hnr) as [q ->]; [set_solver|]. f_equal. simpl. lia.
Qed.

Lemma list_at3 t1 t2 : ok_tree t2 -> at2 t1 -> at3 t2 -> at3 (TList t1 t2).
Proof.
  intros Hokr H2 H3 n s rest Hf Hr Hn.
  change (show 3 (TList t1 t2)) with (show 2 t1 ++ sp ";" ++ show 3 t2) in *.
  pose proof (from_len _ _ Hf) as Hlen.
  rewrite !length_app in *. simpl in Hn, Hlen. destruct n as [|n]; [lia|]. cbn [parseline].
  rewrite <- !app_assoc in Hf.
  destruct (H2 n (S (length line)) s (sp ";" ++ show 3 t2 ++ rest) Hf) as (c & N' & c0 & s0 & HN & Hres & Hp & Hb);
    [simpl; set_solver|lia|lia|].
  rewrite Hp. cbn [pbind]. rewrite Hb. destruct N' as [|N']; [lia|]. cbn [parsebacks]. apply from_app in Hf.
  assert (Hnr : nonspace rest) by (eapply starts_nonspace; [|exact Hr]; by repeat constructor).
  rewrite (peek_no _ _ _ Hf); [|done|by repeat constructor|done]. cbn [pbind].
  rewrite (peek_yes _ (ord ";") ([32] ++ show 3 t2 ++ rest)); [|done|done|by repeat constructor|done].
  destruct (gettoken_sym _ ";" _ Hf) as [q ->]; [by apply show_nonspace|set_solver|].
  apply from_app in Hf. change (length (sp ";")) with 2%nat in Hf.
  destruct (H3 n _ rest Hf Hr ltac:(lia)) as (c' & -> & Hres'). cbn [pbind].
  exists (LIST c c'). split; [do 2 f_equal; simpl; lia|]. cbn [resolve]. by rewrite Hres, Hres'.
Qed.

Lemma parses t : ok_tree t -> at0 t /\ at1 t /\ at2 t /\ at3 t.
Proof.
  assert (H01 : forall t, show 1 t = show 0 t -> show 2 t = show 1 t -> show 3 t = show 2 t ->
            at0 t -> at0 t /\ at1 t /\ at2 t /\ at3 t).
  { clear t. intros t E1 E2 E3 H0. pose proof (at0_at1 t E1 H0) as H1. pose proof (at1_at2 t E2 H1) as H2.
    pose proof (at2_at3 t E3 H2). done. }
  induction t as [args|t IH f mode fd|t1 IHl t2 IHr|t1 IHl t2 IHr|t IH]; intros Hok.
  - apply H01; [done|done|done|]. by apply exec_at0.
  - destruct Hok as (Hok & Hw & Hro). apply H01; [done|done|done|]. apply redir_at0; [done|done|by apply IH].
  - destruct Hok as [Hl Hr]. pose proof (pipe_at1 t1 t2 Hr) as H1.
    assert (H1' : at1 (TPipe t1 t2)) by (apply H1; [by apply IHl|by apply IHr]).
    pose proof (at1_at2 (TPipe t1 t2) eq_refl H1') as H2. pose proof (at2_at3 (TPipe t1 t2) eq_refl H2) as H3.
    split; [by apply at3_at0|done].
  - destruct Hok as [Hl Hr].
    assert (H3 : at3 (TList t1 t2)) by (apply list_at3; [done|by apply IHl|by apply IHr]).
    assert (H0 : at0 (TList t1 t2)) by (by apply at3_at0).
    pose proof (at0_at1 (TList t1 t2) eq_refl H0) as H1. pose proof (at1_at2 (TList t1 t2) eq_refl H1). done.
  - assert (H2 : at2 (TBack t)) by (apply back_at2, IH; done).
    pose proof (at2_at3 (TBack t) eq_refl H2) as H3. assert (H0 : at0 (TBack t)) by (by apply at3_at0).
    pose proof (at0_at1 (TBack t) eq_refl H0). done.
Qed.
End text.
