(* ===== verification/ShSpec.v ===== *)
(** What the parser of sh.c promises: it reads any line as a tree of words or
    ends the shell with a message, and every tree can be written. *)
From S2P Require Import Prelude Kernel Mem Fsformat Console User Ulib Sh ShFacts ShPrint.
From Stdlib Require Import Ascii.

Lemma slice_is_word line q : Forall (fun c => c <> 0) line -> tok_ok line q -> word (slice line q).
Proof.
  intros Hz (Hq & Hw & _). unfold slice. split.
  - intros E. apply (f_equal length) in E. rewrite length_take, length_drop in E. simpl in E. lia.
  - apply Forall_lookup. intros i c Hi. apply lookup_take_Some in Hi as [Hi Hlt].
    rewrite lookup_drop in Hi. destruct (Hw (q.1 + i)%nat ltac:(lia)) as (c' & Hc & Hwc).
    rewrite Hi in Hc. injection Hc as <-. split; [done|]. eapply Forall_lookup in Hz; [|exact Hi]. done.
Qed.

Lemma resolve_ok line f c : Forall (fun c => c <> 0) line -> wf_cmd line c ->
  Forall (fun q => f q = slice line q) (places c) -> ok_tree (resolve f c).
Proof.
  intros Hz. induction c; simpl; rewrite ?Forall_app, ?list.Forall_cons; try naive_solver.
  - intros [Hl Hw] Hf. rewrite length_fmap. split; [done|].
    apply Forall_fmap, list.Forall_forall. intros q Hq. simpl.
    eapply list.Forall_forall in Hw; [|exact Hq]. eapply list.Forall_forall in Hf; [|exact Hq].
    rewrite Hf. by apply slice_is_word.
  - intros (Hw & Ht & Hr) [Hf Hs]. split_and!; [auto| |done].
    rewrite (proj1 Hs). by apply slice_is_word.
Qed.

Lemma resolve_ext f g c : Forall (fun q => f q = g q) (places c) -> resolve f c = resolve g c.
Proof.
  induction c; simpl; rewrite ?Forall_app, ?list.Forall_cons; try naive_solver congruence.
  - intros H. f_equal. induction H; [done|]. rewrite !fmap_cons. congruence.
Qed.

Lemma show_nulfree t : forall lvl, ok_tree t -> Forall (fun c => c <> 0) (show lvl t).
Proof.
  assert (Hpar : forall b l, Forall (fun c => c <> 0) l -> Forall (fun c => c <> 0) (paren b l)).
  { intros [] l Hl; [|done]. unfold paren. rewrite !Forall_app. split_and!; [by repeat constructor|done|by repeat constructor]. }
  assert (Hwd : forall w, word w -> Forall (fun c => c <> 0) (w ++ [32])).
  { intros w [_ Hw]. apply Forall_app. split; [|by repeat constructor].
    eapply list.Forall_impl; [exact Hw|]. naive_solver. }
  induction t as [args|t IH f mode fd|t1 IHl t2 IHr|t1 IHl t2 IHr|t IH]; intros lvl Hok; cbn [show].
  - destruct Hok as [_ Hw]. induction Hw as [|w args Hw _ IH]; [constructor|].
    change (show_words (w :: args)) with ((w ++ [32]) ++ show_words args). apply Forall_app. auto.
  - destruct Hok as (Hok & Hw & _). unfold show_redir. apply Forall_app. split; [auto|].
    apply Forall_app. split; [by destruct (fd =? 0); repeat constructor|auto].
  - destruct Hok as [Hl Hr]. apply Hpar. rewrite !Forall_app. split_and!; [auto|by repeat constructor|auto].
  - destruct Hok as [Hl Hr]. apply Hpar. rewrite !Forall_app. split_and!; [auto|by repeat constructor|auto].
  - apply Hpar. rewrite !Forall_app. split; [auto|by repeat constructor].
Qed.

(** C37. parsecmd of any buffer that holds a string ends: it prints a message
    and exits, or it returns a tree whose strings, as the terminated buffer
    now holds them, are non-empty words without blanks, symbols or NULs, with
    at most nine arguments per command, and whose redirections are an input
    open for reading or an output open for writing and created. *)
Theorem parsecmd_typed buf : (length (cstr buf) < length buf)%nat ->
  returns (fun x => ok_tree (resolve (str_at x.2) x.1)) (parsecmd buf).
Proof.
  intros Hl. eapply returns_mono; [|by apply parsecmd_ok]. intros [c b] [Hw Hs].
  eapply resolve_ok; [apply cstr_nulfree|exact Hw|exact Hs].
Qed.

Lemma parsecmd_typed_witness :
  returns (fun x => ok_tree (resolve (str_at x.2) x.1)) (parsecmd (bytes "a<b|(c;d)&" ++ [0])).
Proof. apply parsecmd_typed. vm_compute. lia. Defined.

(** C38. Every tree of words can be written as a line that parsecmd reads back
    as that tree, whatever follows the line's NUL in the buffer: nothing of
    the grammar is out of reach, and no parse is another tree's. *)
Theorem parse_show t rest : ok_tree t ->
  exists c buf, parsecmd (show 3 t ++ 0 :: rest) = Ret (c, buf) /\ resolve (str_at buf) c = t.
Proof.
  intros Hok. set (buf := show 3 t ++ 0 :: rest).
  assert (Hline : cstr buf = show 3 t) by (by apply cstr_app_nul, show_nulfree).
  assert (Hlen : (length (cstr buf) < length buf)%nat) by (rewrite Hline; unfold buf; rewrite length_app; simpl; lia).
  pose proof (parsecmd_ok buf Hlen) as Hret. rewrite Hline in Hret.
  destruct (parses (show 3 t) t Hok) as (_ & _ & _ & H3).
  destruct (H3 (4 * length (show 3 t) + 8)%nat 0%nat [] (eq_sym (app_nil_r _)) I ltac:(lia)) as (c & Hp & Hres).
  assert (Hcmd : parsecmd buf = Ret (c, nulterminate c buf)).
  { unfold parsecmd. cbv zeta. rewrite Hline, Hp. cbn [pbind Nat.add].
    rewrite (peek_text _ _ [] []); [|by apply drop_all|done|constructor]. by rewrite Nat.eqb_refl. }
  exists c, (nulterminate c buf). split; [done|]. rewrite Hcmd in Hret. destruct Hret as [_ Hs].
  rewrite <- Hres. by apply resolve_ext.
Qed.

Lemma parse_show_witness : exists c buf,
  parsecmd (bytes "ls | ( cd d ; wc > out ) & ; echo a " ++ 0 :: bytes "left over") = Ret (c, buf) /\
  resolve (str_at buf) c =
    TList (TBack (TPipe (TExec [bytes "ls"])
                        (TList (TExec [bytes "cd"; bytes "d"]) (TRedir (TExec [bytes "wc"]) (bytes "out") 513 1))))
          (TExec [bytes "echo"; bytes "a"]).
Proof.
  match goal with |- exists c buf, _ /\ _ = ?t =>
    replace (bytes "ls | ( cd d ; wc > out ) & ; echo a ") with (show 3 t) by (vm_compute; reflexivity);
    apply (parse_show t)
  end.
  simpl. unfold word, redir_ok. split_and!; try (by right); repeat constructor; done.
Defined.
