(* ===== verification/BlockFacts.v ===== *)
(** Words and dinodes in the byte array of a disk block: what a store changes. *)
From S2P Require Import Prelude Kernel Mem Fsformat.

Section blockfacts.
Implicit Types (l v : list Z) (o j : nat).

Lemma length_put_bytes l o v : (o + length v <= length l)%nat -> length (put_bytes l o v) = length l.
Proof. intros H. unfold put_bytes. rewrite !length_app, length_take, length_drop. lia. Qed.

Lemma length_put32 l o w : (o + 4 <= length l)%nat -> length (put32 l o w) = length l.
Proof. intros H. by apply length_put_bytes. Qed.

Lemma put_bytes_out l o v j : (o + length v <= length l)%nat -> (j < o \/ o + length v <= j)%nat ->
  put_bytes l o v !!! j = l !!! j.
Proof.
  intros Hl Hj. unfold put_bytes. rewrite !list_lookup_total_alt. f_equal. destruct Hj as [Hj|Hj].
  - rewrite lookup_app_l by (rewrite length_take; lia). by rewrite lookup_take_lt.
  - rewrite lookup_app_r by (rewrite length_take; lia). rewrite length_take, Nat.min_l by lia.
    rewrite lookup_app_r by lia. rewrite lookup_drop. f_equal. lia.
Qed.

Lemma get32_put32_eq l o w : (o + 4 <= length l)%nat -> get32 (put32 l o w) o = u32 w.
Proof.
  intros Hl. unfold put32, put_bytes. rewrite <- (get32_le32 w (take o l) (drop (o + length (le32 w)) l)).
  f_equal. rewrite length_take. lia.
Qed.

Lemma get32_put32_ne l o o' w : (o + 4 <= length l)%nat -> (o + 4 <= o' \/ o' + 4 <= o)%nat ->
  get32 (put32 l o w) o' = get32 l o'.
Proof.
  intros Hl Ho. unfold get32, put32. rewrite !put_bytes_out by (simpl; lia). done.
Qed.

Lemma get32_range l o : 0 <= get32 l o < 2 ^ 32.
Proof.
  unfold get32. assert (Hb : forall z, 0 <= u8 z < 2 ^ 8) by (intros; unfold u8; apply Z.mod_pos_bound; lia).
  pose proof (Hb (l !!! o)). pose proof (Hb (l !!! (o + 1)%nat)).
  pose proof (Hb (l !!! (o + 2)%nat)). pose proof (Hb (l !!! (o + 3)%nat)). lia.
Qed.
End blockfacts.

(** Lengths. *)
Lemma zlen_nil : zlen (@nil Z) = 0.
Proof. done. Qed.
Lemma zlen_app {A} (l1 l2 : list A) : zlen (l1 ++ l2) = zlen l1 + zlen l2.
Proof. unfold zlen. rewrite length_app. lia. Qed.
Lemma zlen_nonneg {A} (l : list A) : 0 <= zlen l.
Proof. unfold zlen. lia. Qed.

Section inodefacts.
Implicit Types (d v : list Z) (o x : nat) (di : dinode).

Lemma put_bytes_in d o v x : (o + length v <= length d)%nat -> (x < length v)%nat ->
  put_bytes d o v !!! (o + x)%nat = v !!! x.
Proof.
  intros Hl Hx. unfold put_bytes. rewrite !list_lookup_total_alt. f_equal.
  rewrite lookup_app_r by (rewrite length_take; lia). rewrite length_take, Nat.min_l by lia.
  rewrite lookup_app_l by lia. f_equal. lia.
Qed.

Lemma get32_put_in d o v x : (o + length v <= length d)%nat -> (x + 4 <= length v)%nat ->
  get32 (put_bytes d o v) (o + x) = get32 v x.
Proof.
  intros Hl Hx. unfold get32. rewrite <- !Nat.add_assoc. by rewrite !put_bytes_in by lia.
Qed.
Lemma get16_put_in d o v x : (o + length v <= length d)%nat -> (x + 2 <= length v)%nat ->
  get16 (put_bytes d o v) (o + x) = get16 v x.
Proof.
  intros Hl Hx. unfold get16. rewrite <- !Nat.add_assoc. by rewrite !put_bytes_in by lia.
Qed.
Lemma get32_put_out d o v x : (o + length v <= length d)%nat -> (x + 4 <= o \/ o + length v <= x)%nat ->
  get32 (put_bytes d o v) x = get32 d x.
Proof. intros Hl Hx. unfold get32. by rewrite !put_bytes_out by lia. Qed.
Lemma get16_put_out d o v x : (o + length v <= length d)%nat -> (x + 2 <= o \/ o + length v <= x)%nat ->
  get16 (put_bytes d o v) x = get16 d x.
Proof. intros Hl Hx. unfold get16. by rewrite !put_bytes_out by lia. Qed.

(** The fields fit their widths. *)
Definition dinode_ok di : Prop :=
  Forall (fun z => - 2 ^ 15 <= z < 2 ^ 15) [di_type di; di_major di; di_minor di; di_nlink di] /\
  0 <= di_size di < 2 ^ 32 /\ length (di_addrs di) = 13%nat /\ Forall (fun z => 0 <= z < 2 ^ 32) (di_addrs di).

Lemma length_dinode_bytes di : dinode_ok di -> length (dinode_bytes di) = 64%nat.
Proof.
  intros (_ & _ & Hl & _). destruct di as [ty ma mi nl sz a]. simpl in Hl.
  do 13 (destruct a as [|? a]; [discriminate Hl|]). by destruct a.
Qed.

Lemma i16_bytes z : - 2 ^ 15 <= z < 2 ^ 15 -> i16 (u8 (u8 z) + 2 ^ 8 * u8 (u8 (z / 2 ^ 8))) = z.
Proof. intros Hz. unfold i16, u8. dlia. Qed.
Lemma u32_bytes z : 0 <= z < 2 ^ 32 ->
  u8 (u8 z) + 2 ^ 8 * u8 (u8 (z / 2 ^ 8)) + 2 ^ 16 * u8 (u8 (z / 2 ^ 16)) + 2 ^ 24 * u8 (u8 (z / 2 ^ 24)) = z.
Proof. intros Hz. rewrite !u8_idem, bytes_of_word. by apply u32_small. Qed.

Lemma get_dinode_bytes di : dinode_ok di -> get_dinode (dinode_bytes di) 0 = di.
Proof.
  intros (Hh & Hs & Hl & Ha). destruct di as [ty ma mi nl sz a]. simpl in *.
  do 13 (destruct a as [|? a]; [discriminate Hl|]). destruct a; [|discriminate Hl].
  repeat match goal with H : Forall _ (_ :: _) |- _ => apply Forall_cons_1 in H as [? H] end.
  unfold get_dinode. cbn [seq fmap list_fmap]. unfold get16, get32.
  cbv [Nat.mul Nat.add dinode_bytes di_type di_major di_minor di_nlink di_size di_addrs mjoin list_join le16 le32 app
       fmap list_fmap lookup_total list_lookup_total].
  rewrite !i16_bytes, !u32_bytes by done. done.
Qed.

Lemma get_dinode_put di d o : dinode_ok di -> (o + 64 <= length d)%nat ->
  get_dinode (put_bytes d o (dinode_bytes di)) o = di.
Proof.
  intros Hok Hl. pose proof (length_dinode_bytes di Hok) as Hd. rewrite <- (get_dinode_bytes di Hok) at 2.
  unfold get_dinode. rewrite <- (Nat.add_0_r o) at 2.
  rewrite !get16_put_in, get32_put_in by lia. f_equal. apply list_fmap_ext. intros ? j Hj.
  apply lookup_seq in Hj as [-> Hj]. rewrite <- Nat.add_assoc. rewrite get32_put_in by lia. done.
Qed.

Lemma get_dinode_put_ne di d o o' : dinode_ok di -> (o + 64 <= length d)%nat -> (o + 64 <= o' \/ o' + 64 <= o)%nat ->
  get_dinode (put_bytes d o (dinode_bytes di)) o' = get_dinode d o'.
Proof.
  intros Hok Hl Ho. pose proof (length_dinode_bytes di Hok) as Hd. unfold get_dinode.
  rewrite !get16_put_out, get32_put_out by lia. f_equal. apply list_fmap_ext. intros ? j Hj.
  apply lookup_seq in Hj as [-> Hj]. rewrite get32_put_out by lia. done.
Qed.
End inodefacts.
