(* ===== verification/SleepFacts.v ===== *)
(** Sleep locks that are free: what acquiresleep, releasesleep and
    holdingsleep do for a process that no other interferes with. *)
From S2P Require Import Prelude Kernel Mem Spinlock Locks Str Kalloc Console Vm Sched SchedFacts Sleeplock ProcFacts.

(** A process running on CPU [i], no spin lock held anywhere. *)
Record thread (i p : nat) (pid : Z) (k : kernel) : Prop := {
  th_cpu : cpu_at i k;
  th_proc : c_proc (k_cpus k !!! i) = Some p;
  th_pid : p_pid <$> (k_ptable k !! p) = Some pid;
  th_free : forall l, lock_free l k
}.

(** The state but for what locking and waking change. *)
Definition quiet (k : kernel) : kernel :=
  k <| k_cpus := [] |> <| k_if := false |> <| k_locks := empty |> <| k_slocks := empty |>
    <| k_ptable := [] |>.

Section sleepfacts.
Context (i p : nat) (pid : Z).
Implicit Types (k : kernel) (e : env) (s : sleepid).

Lemma thread_frame k k' :
  lframe i k k' -> (k_ptable k' = k_ptable k \/ exists ch, k_ptable k' = wake (Some ch) <$> k_ptable k) ->
  thread i p pid k -> thread i p pid k'.
Proof.
  intros [Hc _ Hp Hf] Hpt [Tc Tp Ti Tf]. split; [auto|rewrite <- Tp; auto| |auto].
  destruct Hpt as [->|[ch ->]]; [done|]. rewrite list_lookup_fmap, <- Ti.
  destruct (k_ptable k !! p) as [x|]; [|done]. simpl. f_equal. unfold wake. by case_match.
Qed.

Lemma thread_same k k' : lk_same k k' -> k_ptable k' = k_ptable k -> thread i p pid k -> thread i p pid k'.
Proof. intros Hs Hp. apply thread_frame; [by apply lk_same_frame|by left]. Qed.

Lemma slock_of_set s s' v k :
  slock_of (set_slock s v k) s' = if decide (s = s') then v else slock_of k s'.
Proof.
  unfold slock_of, set_slock. fields. case_decide as Hd.
  - subst. by rewrite lookup_insert_eq.
  - by rewrite lookup_insert_ne.
Qed.

(** curproc inside a critical section. *)
Lemma curproc_entered l k0 k e :
  thread i p pid k0 -> entered i l k0 k -> curproc k e = Ok p k e.
Proof.
  intros [Tc Tp _ _] He. destruct (entered_ready i l k0 k Tc He) as (Hc & _ & Hn).
  assert (Hp : c_proc (k_cpus k !!! i) = Some p).
  { rewrite (en_cpus _ _ _ _ He), cpu_locked by apply Tc. rewrite <- Tp. by destruct (_ =? 0). }
  rewrite (curproc_ok i p) by done. by rewrite popped_pushed_nested.
Qed.

Lemma holdingsleep_ok s k e : thread i p pid k ->
  exists k', holdingsleep s k e =
      Ok (nz (sl_locked (slock_of k s)) && (sl_pid (slock_of k s) =? pid)) k' e /\
    thread i p pid k' /\ quiet k' = quiet k /\ k_slocks k' = k_slocks k.
Proof.
  intros Ht. pose proof Ht as [Tc Tp Ti Tf]. unfold holdingsleep.
  destruct (acquire_enter i (L_sleep s) k e Tc (Tf _)) as [Hacq He].
  rewrite (bind_ok _ _ _ _ _ _ _ Hacq). step.
  change (slock_of (locked_by i (L_sleep s) k) s) with (slock_of k s).
  destruct (entered_leave i (L_sleep s) k _ e Tc He) as (Hrel & Hfr & _).
  exists (touch i (L_sleep s) k). split_and!; [|eapply thread_frame; [exact Hfr|by left|done]|done|done].
  destruct (nz _); cbn [andb].
  - rewrite !bind_assoc, (bind_ok _ _ _ _ _ _ _ (curproc_entered _ _ _ _ Ht He)).
    unfold get_proc. step. rewrite (bind_ok _ _ _ _ _ _ _ Hrel). unfold ret. do 2 f_equal.
    change (k_ptable (locked_by i (L_sleep s) k)) with (k_ptable k).
    apply fmap_Some in Ti as (x & Hx & ->). by rewrite (list_lookup_total_correct _ _ _ Hx).
  - step. by rewrite (bind_ok _ _ _ _ _ _ _ Hrel).
Qed.

Lemma acquiresleep_ok s k e : thread i p pid k -> sl_locked (slock_of k s) = 0 ->
  exists k' v, acquiresleep s k e = Ok tt k' e /\ thread i p pid k' /\ quiet k' = quiet k /\
    sl_locked v = 1 /\ sl_pid v = pid /\
    (forall s', slock_of k' s' = if decide (s = s') then v else slock_of k s').
Proof.
  intros Ht Hl. pose proof Ht as [Tc Tp Ti Tf]. unfold acquiresleep.
  destruct (acquire_enter i (L_sleep s) k e Tc (Tf _)) as [Hacq He].
  rewrite (bind_ok _ _ _ _ _ _ _ Hacq). set (k1 := locked_by i (L_sleep s) k) in *.
  erewrite bind_ok; [|apply wait_loop_now; step; change (slock_of k1 s) with (slock_of k s);
    rewrite Hl; reflexivity].
  step. set (k2 := set_slock s _ k1).
  assert (He2 : entered i (L_sleep s) k k2) by (eapply entered_same; [|exact He]; done).
  rewrite (bind_ok _ _ _ _ _ _ _ (curproc_entered _ _ _ _ Ht He2)). unfold get_proc. step.
  set (k3 := set_slock s _ k2).
  assert (He3 : entered i (L_sleep s) k k3) by (eapply entered_same; [|exact He2]; done).
  destruct (entered_leave i (L_sleep s) k k3 e Tc He3) as (Hrel & Hfr & _). rewrite Hrel.
  eexists _, (mkSleeplock 1 (sl_name (slock_of k s)) pid).
  split_and!; [done|eapply thread_frame; [exact Hfr|by left|done]|done|done|done|].
  intros s'. change (slock_of (unlocked_by i (L_sleep s) k3) s') with (slock_of k3 s').
  unfold k3. rewrite slock_of_set. case_decide as Hs; [|unfold k2; by rewrite slock_of_set, decide_False].
  unfold k2. rewrite slock_of_set, decide_True by done. cbn [sl_locked sl_name]. f_equal.
  apply fmap_Some in Ti as (x & Hx & ->). by rewrite (list_lookup_total_correct _ _ _ Hx).
Qed.

Lemma releasesleep_ok s k e : thread i p pid k ->
  exists k' v, releasesleep s k e = Ok tt k' e /\ thread i p pid k' /\ quiet k' = quiet k /\
    sl_locked v = 0 /\
    (forall s', slock_of k' s' = if decide (s = s') then v else slock_of k s').
Proof.
  intros Ht. pose proof Ht as [Tc Tp Ti Tf]. unfold releasesleep.
  destruct (acquire_enter i (L_sleep s) k e Tc (Tf _)) as [Hacq He].
  rewrite (bind_ok _ _ _ _ _ _ _ Hacq). step. set (k2 := set_slock s _ _).
  assert (He2 : entered i (L_sleep s) k k2) by (eapply entered_same; [|exact He]; done).
  destruct (entered_wakeup i (L_sleep s) k k2 e (Ch_sleep s) Tc ltac:(done) (Tf _) He2) as [Hw He3].
  rewrite (bind_ok _ _ _ _ _ _ _ Hw).
  destruct (entered_leave i (L_sleep s) k _ e Tc He3) as (Hrel & Hfr & _). rewrite Hrel.
  eexists _, (mkSleeplock 0 (sl_name (slock_of k s)) 0).
  split_and!; [done|eapply thread_frame; [exact Hfr|right; by eexists|done]|done|done|].
  intros s'. change (slock_of (set_slock s (mkSleeplock 0 (sl_name (slock_of k s)) 0) (locked_by i (L_sleep s) k)) s'
    = if decide (s = s') then mkSleeplock 0 (sl_name (slock_of k s)) 0 else slock_of k s').
  by rewrite slock_of_set.
Qed.

End sleepfacts.
