(* ===== verification/LruFacts.v ===== *)
(** The LRU list of bio.c: a ring of buffers through the list head. *)
From S2P Require Import Prelude Kernel Mem Spinlock Console Vm Sched Sleeplock Ide Bio.

Section lru.
Implicit Types (bs : list buf) (l ord : list nat) (a z x b : nat).

(** From [a] through [l] to [z], linked both ways. *)
Fixpoint linked bs a l z : Prop :=
  match l with
  | [] => b_next (bs !!! a) = z /\ b_prev (bs !!! z) = a
  | x :: l' => (b_next (bs !!! a) = x /\ b_prev (bs !!! x) = a) /\ linked bs x l' z
  end.

(** The buffers in the order of their use, the most recent first. *)
Record lru bs ord : Prop := {
  lru_len : length bs = S HEAD;
  lru_perm : ord ≡ₚ seq 0 HEAD;
  lru_ring : linked bs HEAD ord HEAD
}.

Lemma linked_app bs l1 x l2 : forall a z,
  linked bs a (l1 ++ x :: l2) z <-> linked bs a l1 x /\ linked bs x l2 z.
Proof. induction l1 as [|y l1 IH]; intros a z; simpl; [tauto|]. rewrite IH. tauto. Qed.

(** Only the next fields of [a] and [l] and the prev fields of [l] and [z] matter. *)
Lemma linked_frame bs bs' l : forall a z,
  (forall x, x ∈ a :: l -> b_next (bs' !!! x) = b_next (bs !!! x)) ->
  (forall x, x ∈ l ++ [z] -> b_prev (bs' !!! x) = b_prev (bs !!! x)) ->
  linked bs a l z -> linked bs' a l z.
Proof.
  induction l as [|y l IH]; intros a z Hn Hp; simpl.
  - rewrite Hn, Hp by set_solver. done.
  - rewrite Hn, Hp by set_solver. intros [? Hl]. split; [done|].
    apply IH; [intros; apply Hn; set_solver|intros; apply Hp; set_solver|done].
Qed.

Lemma lru_elem bs ord b : lru bs ord -> b ∈ ord <-> (b < HEAD)%nat.
Proof. intros [_ Hp _]. rewrite Hp, elem_of_seq. lia. Qed.
Lemma lru_nodup bs ord : lru bs ord -> NoDup (HEAD :: ord).
Proof.
  intros Hl. constructor; [|rewrite (lru_perm _ _ Hl); apply NoDup_seq].
  rewrite (lru_elem _ _ _ Hl). lia.
Qed.

(** ** Searching *)

Lemma lru_find_next p bs l : forall a n,
  (length l < n)%nat -> HEAD ∉ l -> linked bs a l HEAD ->
  lru_find n b_next p bs (b_next (bs !!! a)) = List.find (fun b => p (bs !!! b)) l.
Proof.
  induction l as [|x l IH]; intros a [|n] Hn Hh Hl; simpl in Hn; try lia; cbn [lru_find List.find].
  - destruct Hl as [-> _]. by rewrite bool_decide_eq_true_2.
  - destruct Hl as [[-> _] Hl]. rewrite bool_decide_eq_false_2 by set_solver.
    destruct (p (bs !!! x)); [done|]. apply IH; [lia|set_solver|done].
Qed.

Lemma lru_find_prev p bs l : forall z n,
  (length l < n)%nat -> HEAD ∉ l -> linked bs HEAD l z ->
  lru_find n b_prev p bs (b_prev (bs !!! z)) = List.find (fun b => p (bs !!! b)) (rev l).
Proof.
  induction l as [|x l IH] using rev_ind; intros z [|n] Hn Hh Hl; rewrite ?length_app in Hn; simpl in Hn;
    try lia; cbn [lru_find].
  - destruct Hl as [_ ->]. by rewrite bool_decide_eq_true_2.
  - rewrite rev_app_distr. cbn [rev app List.find]. apply linked_app in Hl as [Hl [_ ->]].
    rewrite bool_decide_eq_false_2 by set_solver.
    destruct (p (bs !!! x)); [done|]. apply IH; [lia|set_solver|done].
Qed.

Lemma lru_search p bs ord : lru bs ord ->
  lru_find (S HEAD) b_next p bs (b_next (bs !!! HEAD)) = List.find (fun b => p (bs !!! b)) ord /\
  lru_find (S HEAD) b_prev p bs (b_prev (bs !!! HEAD)) = List.find (fun b => p (bs !!! b)) (rev ord).
Proof.
  intros Hl. pose proof (lru_nodup _ _ Hl) as Hnd. apply NoDup_cons_1_1 in Hnd.
  assert (length ord = HEAD) by (by rewrite (lru_perm _ _ Hl), length_seq).
  destruct Hl as [_ _ Hr]. split; [apply lru_find_next|apply lru_find_prev]; (done || lia).
Qed.

Lemma find_ord_Some (p : nat -> bool) bs ord b : lru bs ord ->
  List.find p ord = Some b -> (b < HEAD)%nat /\ p b = true.
Proof.
  intros Hl Hf. apply List.find_some in Hf as [Hin Hp]. split; [|done].
  apply list_elem_of_In in Hin. by apply (lru_elem _ _ _ Hl).
Qed.

(** ** Moving a buffer to the front *)

Lemma total_alter (f : buf -> buf) y x bs : (x < length bs)%nat ->
  alter f y bs !!! x = if decide (y = x) then f (bs !!! x) else bs !!! x.
Proof.
  intros Hx. apply list_lookup_total_correct. case_decide as Hd.
  - subst. by rewrite list_lookup_alter_eq, (list_lookup_lookup_total_lt bs x) by done.
  - by rewrite list_lookup_alter_ne, (list_lookup_lookup_total_lt bs x) by done.
Qed.

Lemma linked_cut bs bs' l1 b l2 a z :
  NoDup (a :: l1 ++ b :: l2) -> z ∉ l1 ++ b :: l2 ->
  linked bs a (l1 ++ b :: l2) z ->
  (forall x, x ∈ a :: l1 ++ l2 -> b_next (bs' !!! x) =
     if decide (x = b_prev (bs !!! b)) then b_next (bs !!! b) else b_next (bs !!! x)) ->
  (forall x, x ∈ l1 ++ l2 ++ [z] -> b_prev (bs' !!! x) =
     if decide (x = b_next (bs !!! b)) then b_prev (bs !!! b) else b_prev (bs !!! x)) ->
  linked bs' a (l1 ++ l2) z.
Proof.
  assert (Hnil : forall a, NoDup (a :: b :: l2) -> z ∉ b :: l2 -> linked bs a [] b -> linked bs b l2 z ->
    (forall x, x ∈ a :: l2 -> b_next (bs' !!! x) =
       if decide (x = b_prev (bs !!! b)) then b_next (bs !!! b) else b_next (bs !!! x)) ->
    (forall x, x ∈ l2 ++ [z] -> b_prev (bs' !!! x) =
       if decide (x = b_next (bs !!! b)) then b_prev (bs !!! b) else b_prev (bs !!! x)) ->
    linked bs' a l2 z).
  { clear a l1. intros a Hnd Hz [Ha Hb] Hl Hn Hp. rewrite Hb in Hn, Hp.
    destruct l2 as [|y l2]; simpl in *.
    - destruct Hl as [Hbz Hzb]. rewrite Hn, Hp by set_solver. rewrite Hbz, !decide_True by done. done.
    - destruct Hl as [[Hby Hyb] Hl]. rewrite Hby in Hn, Hp.
      rewrite (Hn a), (Hp y) by set_solver. rewrite !decide_True by done. split; [done|].
      apply list.NoDup_cons in Hnd as [Ha1 Hnd]. apply list.NoDup_cons in Hnd as [Hb1 Hnd].
      apply list.NoDup_cons in Hnd as [Hy1 Hnd].
      eapply linked_frame; [..|exact Hl]; intros x Hx.
      + rewrite Hn, decide_False by set_solver. done.
      + rewrite Hp, decide_False by set_solver. done. }
  destruct l1 as [|c l1 _] using rev_ind; intros Hnd Hz Hl Hn Hp.
  - destruct Hl as [Hab Hl]. by apply Hnil.
  - rewrite <- !app_assoc in *. cbn [app] in *. apply linked_app in Hl as [Hl1 Hl].
    apply linked_app. pose proof Hl as [[Hcb Hbc] Hl2]. rewrite Hbc in Hn, Hp.
    assert (Hnd2 : NoDup (c :: b :: l2) /\ c ∉ a :: l1 /\ (forall x, x ∈ l1 ++ [c] -> x <> b_next (bs !!! b))).
    { rewrite app_comm_cons in Hnd. apply list.NoDup_app in Hnd as (Hnd1 & Hd & Hnd2).
      split_and!; [done|intros Hc; apply (Hd c Hc); set_solver|].
      assert (Hbn : b_next (bs !!! b) ∈ l2 ++ [z]).
      { destruct l2; simpl in Hl2; [destruct Hl2 as [-> _]|destruct Hl2 as [[-> _] _]]; set_solver. }
      intros x Hx ->. apply elem_of_app in Hbn as [Hbn|Hbn]; [|set_solver].
      apply elem_of_app in Hx as [Hx|Hx].
      - apply (Hd _ (list_elem_of_further _ _ _ Hx)). set_solver.
      - apply list_elem_of_singleton in Hx. rewrite Hx in Hbn. apply list.NoDup_cons in Hnd2 as [Hc _]. set_solver. }
    destruct Hnd2 as (Hnd2 & Hc & Hne). split.
    + eapply linked_frame; [..|exact Hl1]; intros x Hx.
      * rewrite Hn by set_solver. rewrite decide_False; [done|]. intros ->. set_solver.
      * rewrite Hp by set_solver. rewrite decide_False by auto. done.
    + apply Hnil; [done|set_solver|done|done|..].
      * intros x Hx. rewrite Hbc. apply Hn. set_solver.
      * intros x Hx. rewrite Hbc. apply Hp. set_solver.
Qed.

(** A buffer but for its place in the list. *)
Definition content (x : buf) : buf := x <| b_next := O |> <| b_prev := O |>.

Lemma content_alter (f : buf -> buf) y bs x :
  (forall c : buf, content (f c) = content c) -> content (alter f y bs !!! x) = content (bs !!! x).
Proof.
  intros Hf. destruct (decide (x < length bs)%nat).
  - rewrite total_alter by done. case_decide; [apply Hf|done].
  - by rewrite !list_lookup_total_alt, !lookup_ge_None_2 by (rewrite ?length_alter; lia).
Qed.

Lemma lru_push_content b bs x : content (lru_push b bs !!! x) = content (bs !!! x).
Proof. unfold lru_push. by rewrite !content_alter. Qed.
Lemma lru_unlink_content b bs x : content (lru_unlink b bs !!! x) = content (bs !!! x).
Proof. unfold lru_unlink. by rewrite !content_alter. Qed.

Lemma length_lru_push b bs : length (lru_push b bs) = length bs.
Proof. unfold lru_push. by rewrite !length_alter. Qed.
Lemma length_lru_unlink b bs : length (lru_unlink b bs) = length bs.
Proof. unfold lru_unlink. by rewrite !length_alter. Qed.

Lemma linked_push bs ord b :
  length bs = S HEAD -> (forall x, x ∈ ord -> (x < HEAD)%nat) -> NoDup ord ->
  (b < HEAD)%nat -> b ∉ ord -> linked bs HEAD ord HEAD -> linked (lru_push b bs) HEAD (b :: ord) HEAD.
Proof.
  intros Hlen Hord Hnd Hb Hnb Hl. set (h := b_next (bs !!! HEAD)).
  assert (Hh : (h <= HEAD)%nat /\ (h = HEAD \/ h ∈ ord)).
  { destruct ord as [|y ord]; simpl in Hl; unfold h.
    - destruct Hl as [-> _]. lia.
    - destruct Hl as [[-> _] _]. specialize (Hord y ltac:(set_solver)). split; [lia|right; set_solver]. }
  assert (Hget : forall x, (x <= HEAD)%nat ->
    b_next (lru_push b bs !!! x) = (if decide (HEAD = x) then b else if decide (b = x) then h else b_next (bs !!! x)) /\
    b_prev (lru_push b bs !!! x) = (if decide (h = x) then b else if decide (b = x) then HEAD else b_prev (bs !!! x))).
  { intros x Hx. unfold lru_push. rewrite !total_alter by (rewrite ?length_alter; lia).
    rewrite (decide_False (P := b = HEAD)) by lia. fold h.
    repeat case_decide; subst; simpl; try done; try lia. }
  assert (Hbh : h <> b) by (destruct Hh as [_ [->|Hin]]; [lia|by intros ->]).
  cbn [linked]. destruct (Hget HEAD ltac:(lia)) as [-> _]. destruct (Hget b ltac:(lia)) as [_ ->].
  rewrite (decide_True (P := HEAD = HEAD)), (decide_False (P := h = b)), (decide_True (P := b = b)) by done.
  split; [done|]. destruct ord as [|y ord]; simpl in Hl |- *.
  - destruct (Hget b ltac:(lia)) as [-> _]. destruct (Hget HEAD ltac:(lia)) as [_ ->].
    destruct Hl as [Hl _]. fold h in Hl. rewrite Hl.
    rewrite (decide_False (P := HEAD = b)), !decide_True by (done || lia). done.
  - destruct Hl as [[Hy _] Hl]. fold h in Hy. pose proof (Hord y ltac:(set_solver)) as Hyh.
    destruct (Hget b ltac:(lia)) as [-> _]. destruct (Hget y ltac:(lia)) as [_ ->].
    rewrite (decide_False (P := HEAD = b)), !decide_True by (done || lia). split; [done|].
    apply list.NoDup_cons in Hnd as [Hy1 Hnd].
    eapply linked_frame; [..|exact Hl]; intros x Hx.
    + assert (x ∈ y :: ord) by set_solver. pose proof (Hord x ltac:(done)).
      destruct (Hget x ltac:(lia)) as [-> _]. rewrite !decide_False by (lia || set_solver). done.
    + assert (Hxle : (x <= HEAD)%nat /\ x <> y /\ x <> b).
      { apply elem_of_app in Hx as [Hx|Hx].
        - pose proof (Hord x ltac:(set_solver)). split; [lia|set_solver].
        - apply list_elem_of_singleton in Hx as ->. lia. }
      destruct (Hget x ltac:(lia)) as [_ ->]. rewrite !decide_False by (rewrite ?Hy; naive_solver). done.
Qed.

Lemma linked_unlink bs l1 b l2 :
  length bs = S HEAD -> NoDup (HEAD :: l1 ++ b :: l2) -> (forall x, x ∈ l1 ++ b :: l2 -> (x < HEAD)%nat) ->
  linked bs HEAD (l1 ++ b :: l2) HEAD -> linked (lru_unlink b bs) HEAD (l1 ++ l2) HEAD.
Proof.
  intros Hlen Hnd Hord Hl. pose proof Hl as Hl'. apply linked_app in Hl' as [Hl1 Hl2].
  assert (Hnb : b_next (bs !!! b) <> b).
  { destruct l2 as [|y l2]; simpl in Hl2; [destruct Hl2 as [-> _]|destruct Hl2 as [[-> _] _]].
    - specialize (Hord b ltac:(set_solver)). lia.
    - apply list.NoDup_cons in Hnd as [_ Hnd]. apply list.NoDup_app in Hnd as (_ & _ & Hnd).
      apply list.NoDup_cons in Hnd as [Hb _]. set_solver. }
  apply (linked_cut bs _ l1 b l2); [done|by apply list.NoDup_cons in Hnd as [? _]|done|..].
  - intros x Hx. assert (x <= HEAD)%nat.
    { apply elem_of_cons in Hx as [->|Hx]; [lia|]. specialize (Hord x ltac:(set_solver)). lia. }
    unfold lru_unlink. rewrite !total_alter by (rewrite ?length_alter; specialize (Hord b ltac:(set_solver)); lia).
    rewrite (decide_False (P := b_next (bs !!! b) = b)) by done.
    repeat case_decide; subst; simpl; done.
  - intros x Hx. assert (x <= HEAD)%nat.
    { apply elem_of_app in Hx as [Hx|Hx]; [specialize (Hord x ltac:(set_solver)); lia|].
      apply elem_of_app in Hx as [Hx|Hx]; [specialize (Hord x ltac:(set_solver)); lia|].
      apply list_elem_of_singleton in Hx as ->. lia. }
    unfold lru_unlink. rewrite !total_alter by (rewrite ?length_alter; specialize (Hord b ltac:(set_solver)); lia).
    rewrite (decide_False (P := b_next (bs !!! b) = b)) by done.
    repeat case_decide; subst; simpl; done.
Qed.

(** brelse's move of a buffer to the front. *)
Lemma lru_move bs ord b : lru bs ord -> (b < HEAD)%nat ->
  exists ord', lru (lru_push b (lru_unlink b bs)) ord'.
Proof.
  intros Hl Hb. pose proof (lru_nodup _ _ Hl) as Hnd. pose proof (proj2 (lru_elem _ _ b Hl) Hb) as Hin.
  assert (Hord : forall x, x ∈ ord -> (x < HEAD)%nat) by (intros x; by apply (lru_elem _ _ _ Hl)).
  destruct Hl as [Hlen Hperm Hring]. apply list_elem_of_split in Hin as (l1 & l2 & ->).
  exists (b :: l1 ++ l2). split.
  - by rewrite length_lru_push, length_lru_unlink.
  - by rewrite Permutation_middle.
  - pose proof Hnd as Hnd'. apply list.NoDup_cons in Hnd' as [_ Hnd'].
    rewrite <- Permutation_middle in Hnd'. apply list.NoDup_cons in Hnd' as [Hbn Hnd'].
    apply linked_push; [by rewrite length_lru_unlink|intros x Hx; apply Hord; set_solver|done|done|done|].
    by apply linked_unlink.
Qed.

(** A change that leaves the links alone. *)
Lemma lru_content_only bs bs' ord : length bs' = length bs ->
  (forall x, b_next (bs' !!! x) = b_next (bs !!! x) /\ b_prev (bs' !!! x) = b_prev (bs !!! x)) ->
  lru bs ord -> lru bs' ord.
Proof.
  intros Hlen Hf [H1 H2 H3]. split; [congruence|done|].
  eapply linked_frame; [..|exact H3]; intros x _; apply Hf.
Qed.
End lru.
