(* ===== verification/BioFacts.v ===== *)
(** The buffer cache: at most one buffer per block, and a buffer that is not in
    use and not pinned holds what the disk holds. *)
From S2P Require Import Prelude Kernel Mem Spinlock Locks Console Vm Sched Sleeplock SleepFacts Ide Bio LruFacts.

(** * The flags *)

Definition valid (x : buf) : bool := bit_set (b_flags x) B_VALID.
Definition dirty (x : buf) : bool := bit_set (b_flags x) B_DIRTY.

Section flags.
Implicit Types (f n : Z).

Lemma bit_set_pow f n : 0 <= n -> bit_set f (2 ^ n) = Z.testbit f n.
Proof.
  intros Hn. unfold bit_set, nz. destruct (Z.testbit f n) eqn:E.
  - apply negb_true_iff, Z.eqb_neq. intros H0. apply (f_equal (fun z => Z.testbit z n)) in H0.
    rewrite Z.land_spec, E, Z.pow2_bits_true, Z.testbit_0_l in H0 by done. done.
  - apply negb_false_iff, Z.eqb_eq. apply Z.bits_inj'. intros j Hj.
    rewrite Z.land_spec, Z.testbit_0_l. destruct (decide (j = n)) as [->|]; [by rewrite E|].
    by rewrite Z.pow2_bits_false, andb_false_r by done.
Qed.
Lemma valid_bit f : bit_set f B_VALID = Z.testbit f 1.
Proof. apply (bit_set_pow f 1). done. Qed.
Lemma dirty_bit f : bit_set f B_DIRTY = Z.testbit f 2.
Proof. apply (bit_set_pow f 2). done. Qed.

Lemma flags_read f : bit_set (Z.lor f B_VALID) B_VALID = true /\
  bit_set (Z.lor f B_VALID) B_DIRTY = bit_set f B_DIRTY.
Proof. rewrite !valid_bit, !dirty_bit, !Z.lor_spec. by rewrite orb_true_r, orb_false_r. Qed.
Lemma flags_write f : bit_set (Z.lor f B_DIRTY) B_DIRTY = true /\
  bit_set (Z.lor f B_DIRTY) B_VALID = bit_set f B_VALID.
Proof. rewrite !valid_bit, !dirty_bit, !Z.lor_spec. by rewrite orb_true_r, orb_false_r. Qed.
Lemma flags_written f : bit_set (Z.lor (Z.land f (Z.lnot B_DIRTY)) B_VALID) B_VALID = true /\
  bit_set (Z.lor (Z.land f (Z.lnot B_DIRTY)) B_VALID) B_DIRTY = false.
Proof.
  rewrite !valid_bit, !dirty_bit, !Z.lor_spec, !Z.land_spec. split; [apply orb_true_r|].
  by rewrite andb_false_r.
Qed.
Lemma flags_busy f : Z.land f (Z.lor B_VALID B_DIRTY) =? B_VALID = bit_set f B_VALID && negb (bit_set f B_DIRTY).
Proof.
  rewrite valid_bit, dirty_bit. destruct (Z.testbit f 1 && negb (Z.testbit f 2)) eqn:E.
  - apply andb_true_iff in E as [E1 E2]. apply negb_true_iff in E2. apply Z.eqb_eq, Z.bits_inj'.
    intros j Hj. rewrite Z.land_spec. destruct (decide (j = 1)) as [->|]; [by rewrite E1|].
    destruct (decide (j = 2)) as [->|]; [by rewrite E2|].
    change (Z.lor B_VALID B_DIRTY) with (Z.lor (2 ^ 1) (2 ^ 2)). change B_VALID with (2 ^ 1).
    by rewrite Z.lor_spec, !Z.pow2_bits_false, andb_false_r by done.
  - apply Z.eqb_neq. intros H.
    assert (H1 : Z.testbit f 1 = true).
    { apply (f_equal (fun z => Z.testbit z 1)) in H. by rewrite Z.land_spec, andb_true_r in H. }
    assert (H2 : Z.testbit f 2 = false).
    { apply (f_equal (fun z => Z.testbit z 2)) in H. by rewrite Z.land_spec, andb_true_r in H. }
    by rewrite H1, H2 in E.
Qed.
End flags.

(** * The interface to the driver *)

(** The state after the driver has served buffer [b]. *)
Definition served (dev : Z) (b : nat) (k : kernel) : kernel :=
  let x := k_bcache k !!! b in
  if dirty x then
    disk_write dev (b_blockno x) (b_data x)
      (k <| k_bcache ::= alter (fun x => x <| b_flags ::= fun f => Z.lor (Z.land f (Z.lnot B_DIRTY)) B_VALID |>) b |>)
  else k <| k_bcache ::= alter (fun y => y <| b_data := disk_sector k dev (b_blockno x) |>
                                           <| b_flags ::= fun f => Z.lor f B_VALID |>) b |>.

(** What the cache relies on: a request for a locked buffer of the disk
    returns with the block written, or read, and nothing else changed. *)
Class DiskOk `{DiskDriver} (dev : Z) := {
  disk_has : kernel -> Z -> Prop;
  disk_has_ide : forall k k' n, k_ide k' = k_ide k -> disk_has k n -> disk_has k' n;
  iderw_ok : forall i p pid k e b,
    thread i p pid k -> (b < length (k_bcache k))%nat ->
    nz (sl_locked (slock_of k (S_buf b))) && (sl_pid (slock_of k (S_buf b)) =? pid) = true ->
    b_dev (k_bcache k !!! b) = dev -> disk_has k (b_blockno (k_bcache k !!! b)) ->
    negb (valid (k_bcache k !!! b)) || dirty (k_bcache k !!! b) = true ->
    exists k', iderw b k e = Ok tt k' e /\ thread i p pid k' /\ quiet k' = quiet (served dev b k) /\
      k_slocks k' = k_slocks k
}.

(** [quiet_by Hq]: the same updates of two states that agree but for locks. *)
Ltac quiet_by Hq :=
  match type of Hq with
  | quiet ?a = quiet ?b =>
      pattern a; match goal with |- ?P a => change (P (quiet a)) end; cbv beta; rewrite Hq; reflexivity
  end.

(** memide.c keeps the promise for disk 1. *)
#[export] Instance memide_ok size : @DiskOk (memide_driver size) 1.
Proof.
  refine {| disk_has := fun k n => n < disksize (k_ide k) |}.
  - by intros k k' n ->.
  - intros i p pid k e b Ht Hlen Hl Hd Hn Hf. change iderw with MemideDrv.rw. unfold MemideDrv.rw.
    destruct (holdingsleep_ok i p pid (S_buf b) k e Ht) as (k1 & Hrun & Ht1 & Hq & Hs).
    rewrite (bind_ok _ _ _ _ _ _ _ Hrun), Hl. cbn [negb]. unfold get_buf, upd_buf. step.
    assert (Hbc : k_bcache k1 = k_bcache k) by exact (f_equal k_bcache Hq).
    assert (Hide : k_ide k1 = k_ide k) by exact (f_equal k_ide Hq).
    rewrite Hbc, flags_busy.
    destruct (bit_set (b_flags (k_bcache k !!! b)) B_VALID &&
              negb (bit_set (b_flags (k_bcache k !!! b)) B_DIRTY)) eqn:E.
    { apply andb_true_iff in E as [E1 E2]. apply negb_true_iff in E2. unfold valid, dirty in Hf.
      by rewrite E1, E2 in Hf. }
    rewrite Hd. change (negb (1 =? 1)) with false. cbv iota. step. rewrite Hide.
    rewrite (proj2 (Z.leb_gt _ _)) by done. unfold served, dirty.
    destruct (bit_set (b_flags (k_bcache k !!! b)) B_DIRTY) eqn:Ed; step; (eexists; split; [reflexivity|]).
    + split_and!; [eapply thread_same; [..|exact Ht1]; done| |done].
      transitivity (quiet (disk_write 1 (b_blockno (k_bcache k !!! b)) (b_data (k_bcache k !!! b))
        (k <| k_bcache := alter (fun x => x <| b_flags ::= fun f => Z.lor f B_VALID |>) b
           (alter (fun x => x <| b_flags ::= fun f => Z.land f (Z.lnot B_DIRTY) |>) b (k_bcache k)) |>))).
      * quiet_by Hq.
      * by rewrite list_alter_alter_eq.
    + split_and!; [eapply thread_same; [..|exact Ht1]; done| |done].
      transitivity (quiet (k <| k_bcache := alter (fun x => x <| b_flags ::= fun f => Z.lor f B_VALID |>) b
           (alter (fun x => x <| b_data := disk_sector k 1 (b_blockno (k_bcache k !!! b)) |>) b (k_bcache k)) |>)).
      * quiet_by Hq.
      * by rewrite list_alter_alter_eq.
Defined.

(** * The cache *)

Section cache.
Context `{HD : DiskDriver} (dev : Z) {HOK : DiskOk dev} (i p : nat) (pid : Z).
Implicit Types (k : kernel) (e : env) (b : nat) (n : Z) (held : list nat).

(** The cache while one process uses it, holding the buffers [held]: [C] the
    buffers, [L] their sleep locks, [D] the disk. *)
Record binv held (C : nat -> buf) (L : nat -> sleeplock) (D : Z -> list Z) : Prop := {
  bi_nodup : NoDup held;
  bi_range : forall b, b ∈ held -> (b < HEAD)%nat;
  bi_lock : forall b, (b < HEAD)%nat -> sl_locked (L b) = if decide (b ∈ held) then 1 else 0;
  bi_pid : forall b, b ∈ held -> sl_pid (L b) = pid;
  bi_ref : forall b, (b < HEAD)%nat -> b_refcnt (C b) = if decide (b ∈ held) then 1 else 0;
  bi_once : forall a b, (a < HEAD)%nat -> (b < HEAD)%nat -> b_dev (C a) = dev -> b_dev (C b) = dev ->
    b_blockno (C a) = b_blockno (C b) -> a = b;
  bi_valid : forall b, (b < HEAD)%nat -> b_dev (C b) = dev -> valid (C b) = true;
  bi_clean : forall b, (b < HEAD)%nat -> b_dev (C b) = dev -> b ∉ held -> dirty (C b) = false ->
    b_data (C b) = D (b_blockno (C b));
  bi_other : forall b, (b < HEAD)%nat -> b_dev (C b) <> dev -> dirty (C b) = false;
  bi_size : forall b, (b < HEAD)%nat -> b_dev (C b) = dev -> length (b_data (C b)) = 512%nat;
  bi_disk : forall n, length (D n) = 512%nat
}.

(** One buffer, its lock and its block change. *)
Lemma binv_set held held' C C' L L' D D' b :
  binv held C L D -> (b < HEAD)%nat ->
  (forall x, x <> b -> (x < HEAD)%nat -> content (C' x) = content (C x)) ->
  (forall x, x <> b -> L' x = L x) ->
  NoDup held' -> (forall x, x <> b -> x ∈ held' <-> x ∈ held) ->
  (b_refcnt (C' b) = (if decide (b ∈ held') then 1 else 0) /\
   sl_locked (L' b) = (if decide (b ∈ held') then 1 else 0) /\
   (b ∈ held' -> sl_pid (L' b) = pid)) ->
  (b_dev (C' b) = dev /\ valid (C' b) = true /\ length (b_data (C' b)) = 512%nat /\
   (b ∉ held' -> dirty (C' b) = false -> b_data (C' b) = D' (b_blockno (C' b)))) ->
  (forall x, x <> b -> (x < HEAD)%nat -> b_dev (C x) = dev -> b_blockno (C x) <> b_blockno (C' b)) ->
  (forall n, n <> b_blockno (C' b) -> D' n = D n) -> length (D' (b_blockno (C' b))) = 512%nat ->
  binv held' C' L' D'.
Proof.
  intros [I1 I2 I3 I4 I5 I6 I7 I8 I9 I10 I11] Hb HC HL Hnd Hh (B1 & B2 & B3) (B4 & B5 & B6 & B7) Hone HD' Hlen.
  assert (Hf : forall x, x <> b -> (x < HEAD)%nat -> b_flags (C' x) = b_flags (C x) /\ b_dev (C' x) = b_dev (C x) /\
    b_blockno (C' x) = b_blockno (C x) /\ b_refcnt (C' x) = b_refcnt (C x) /\ b_data (C' x) = b_data (C x)).
  { intros x Hx Hr. pose proof (HC x Hx Hr) as E. split_and!; [exact (f_equal b_flags E)|exact (f_equal b_dev E)|
      exact (f_equal b_blockno E)|exact (f_equal b_refcnt E)|exact (f_equal b_data E)]. }
  assert (Hdec : forall x, x <> b -> (if decide (x ∈ held') then 1 else 0) = if decide (x ∈ held) then 1 else 0).
  { intros x Hx. specialize (Hh x Hx). repeat case_decide; tauto. }
  split.
  - done.
  - intros x Hx. destruct (decide (x = b)) as [->|Hne]; [done|]. apply I2. by apply Hh.
  - intros x Hx. destruct (decide (x = b)) as [->|Hne]; [done|]. rewrite HL, I3, Hdec by done. done.
  - intros x Hx. destruct (decide (x = b)) as [->|Hne]; [auto|]. rewrite HL by done. by apply I4, Hh.
  - intros x Hx. destruct (decide (x = b)) as [->|Hne]; [done|].
    destruct (Hf x Hne Hx) as (_ & _ & _ & -> & _). rewrite I5, Hdec by done. done.
  - intros x y Hx Hy. destruct (decide (x = b)) as [->|Hxb], (decide (y = b)) as [->|Hyb]; [done|..].
    + destruct (Hf y Hyb Hy) as (_ & -> & -> & _ & _). intros _ Hd Heq. by destruct (Hone y Hyb Hy Hd).
    + destruct (Hf x Hxb Hx) as (_ & -> & -> & _ & _). intros Hd _ Heq. by destruct (Hone x Hxb Hx Hd).
    + destruct (Hf y Hyb Hy) as (_ & -> & -> & _ & _), (Hf x Hxb Hx) as (_ & -> & -> & _ & _). auto.
  - intros x Hx. destruct (decide (x = b)) as [->|Hne]; [done|]. unfold valid.
    destruct (Hf x Hne Hx) as (-> & -> & _). by apply I7.
  - intros x Hx. destruct (decide (x = b)) as [->|Hne]; [auto|]. unfold dirty. rewrite Hh by done.
    destruct (Hf x Hne Hx) as (-> & -> & -> & _ & ->). intros Hd Hxh Hdi.
    rewrite HD'; [by apply I8|]. by apply Hone.
  - intros x Hx. destruct (decide (x = b)) as [->|Hne]; [by rewrite B4|]. unfold dirty.
    destruct (Hf x Hne Hx) as (-> & -> & _). by apply I9.
  - intros x Hx. destruct (decide (x = b)) as [->|Hne]; [done|].
    destruct (Hf x Hne Hx) as (_ & -> & _ & _ & ->). by apply I10.
  - intros n. destruct (decide (n = b_blockno (C' b))) as [->|]; [done|]. by rewrite HD'.
Qed.

Record cache held k : Prop := {
  ca_lru : exists ord, lru (k_bcache k) ord;
  ca_inv : binv held (fun b => k_bcache k !!! b) (fun b => slock_of k (S_buf b)) (disk_sector k dev)
}.

(** Block [n] is in buffer [b]. *)
Definition cached k n b : Prop :=
  (b < HEAD)%nat /\ b_dev (k_bcache k !!! b) = dev /\ b_blockno (k_bcache k !!! b) = n.

Definition has_block (n : Z) (x : buf) : bool := (b_dev x =? dev) && (b_blockno x =? n).
Lemma has_block_spec n x : has_block n x = true <-> b_dev x = dev /\ b_blockno x = n.
Proof. unfold has_block. by rewrite andb_true_iff, !Z.eqb_eq. Qed.

(** The block's contents for the running system: the buffer's, else the disk's. *)
Definition view k n : list Z :=
  match List.find (fun b => has_block n (k_bcache k !!! b)) (seq 0 HEAD) with
  | Some b => b_data (k_bcache k !!! b)
  | None => disk_sector k dev n
  end.

Lemma cached_unique held k n a b : cache held k -> cached k n a -> cached k n b -> a = b.
Proof. intros [_ Hi] (? & ? & ?) (? & ? & ?). apply (bi_once _ _ _ _ Hi); congruence. Qed.

Lemma view_cached held k n b : cache held k -> cached k n b -> view k n = b_data (k_bcache k !!! b).
Proof.
  intros Hc Hb. unfold view. destruct (List.find _ _) as [a|] eqn:E.
  - apply List.find_some in E as [Hin Ha]. apply has_block_spec in Ha as [Hd Hn].
    apply list_elem_of_In, elem_of_seq in Hin. f_equal. f_equal.
    apply (cached_unique held k n); [done| |done]. split; [lia|done].
  - destruct Hb as (Hr & Hd & Hn). assert (Hf : has_block n (k_bcache k !!! b) = false).
    { apply (List.find_none _ _ E). apply list_elem_of_In, elem_of_seq. lia. }
    by rewrite (proj2 (has_block_spec n _)) in Hf.
Qed.
Lemma view_uncached k n : (forall b, ~ cached k n b) -> view k n = disk_sector k dev n.
Proof.
  intros Hno. unfold view. destruct (List.find _ _) as [a|] eqn:E; [|done].
  apply List.find_some in E as [Hin Ha]. apply has_block_spec in Ha as [Hd Hn].
  apply list_elem_of_In, elem_of_seq in Hin. destruct (Hno a). split; [lia|done].
Qed.
Lemma cached_dec k n : (exists b, cached k n b) \/ (forall b, ~ cached k n b).
Proof.
  destruct (List.find (fun b => has_block n (k_bcache k !!! b)) (seq 0 HEAD)) as [a|] eqn:E.
  - apply List.find_some in E as [Hin Ha]. apply has_block_spec in Ha as [Hd Hn].
    apply list_elem_of_In, elem_of_seq in Hin. left. exists a. split; [lia|done].
  - right. intros b (Hr & Hd & Hn). assert (Hf : has_block n (k_bcache k !!! b) = false).
    { apply (List.find_none _ _ E). apply list_elem_of_In, elem_of_seq. lia. }
    by rewrite (proj2 (has_block_spec n _)) in Hf.
Qed.

(** ** bread *)

(** The end of both branches of bget, in its critical section. *)
Lemma bget_grab b f k e : thread i p pid k -> sl_locked (slock_of k (S_buf b)) = 0 ->
  exists k' v,
    (upd_buf b f ;; release L_bcache ;; acquiresleep (S_buf b) ;; ret b) (locked_by i L_bcache k) e = Ok b k' e /\
    thread i p pid k' /\ quiet k' = quiet (k <| k_bcache ::= alter f b |>) /\
    sl_locked v = 1 /\ sl_pid v = pid /\
    (forall s, slock_of k' s = if decide (S_buf b = s) then v else slock_of k s).
Proof.
  intros Ht Hl. pose proof Ht as [Tc _ _ Tf]. unfold upd_buf. step.
  destruct (acquire_enter i L_bcache k e Tc (Tf _)) as [_ He].
  set (k1 := locked_by i L_bcache k <| k_bcache ::= alter f b |>).
  assert (He1 : entered i L_bcache k k1) by (eapply entered_same; [|exact He]; done).
  destruct (entered_leave i L_bcache k k1 e Tc He1) as (Hrel & Hfr & _).
  rewrite (bind_ok _ _ _ _ _ _ _ Hrel). set (k2 := unlocked_by i L_bcache k1) in *.
  assert (Ht2 : thread i p pid k2) by (eapply thread_frame; [exact Hfr|by left|done]).
  destruct (acquiresleep_ok i p pid (S_buf b) k2 e Ht2) as (k3 & v & Hrun & Ht3 & Hq & Hv & Hp & Hs); [done|].
  rewrite (bind_ok _ _ _ _ _ _ _ Hrun). exists k3, v. split_and!; [done|done|by rewrite Hq|done|done|done].
Qed.

(** A buffer that can be recycled. *)
Definition reusable held k b : Prop :=
  (b < HEAD)%nat /\ b ∉ held /\ dirty (k_bcache k !!! b) = false.

(** What a read leaves: [b] now holds the block, the rest is as it was. *)
Record got held k n b k' : Prop := {
  go_thread : thread i p pid k';
  go_cache : cache (b :: held) k';
  go_new : b ∉ held;
  go_cached : cached k' n b;
  go_old : cached k n b \/ (dirty (k_bcache k !!! b) = false /\ forall x, ~ cached k n x);
  go_rest : quiet k' = quiet (k <| k_bcache := k_bcache k' |>);
  go_same : forall x, x <> b -> k_bcache k' !!! x = k_bcache k !!! x;
  go_dirty : dirty (k_bcache k' !!! b) = dirty (k_bcache k !!! b);
  go_view : forall m, view k' m = view k m;
  go_inode : forall s, slock_of k' (S_inode s) = slock_of k (S_inode s)
}.

Lemma bget_ok n k e held :
  thread i p pid k -> cache held k -> (forall b, b ∈ held -> ~ cached k n b) ->
  (exists b, cached k n b \/ reusable held k b) ->
  exists b k' v f, bget dev n k e = Ok b k' e /\ thread i p pid k' /\ (b < HEAD)%nat /\ b ∉ held /\
    quiet k' = quiet (k <| k_bcache ::= alter f b |>) /\ sl_locked v = 1 /\ sl_pid v = pid /\
    (forall s, slock_of k' s = if decide (S_buf b = s) then v else slock_of k s) /\
    ((cached k n b /\ f = (fun x => x <| b_refcnt ::= fun n => u32 (n + 1) |>)) \/
     ((forall b, ~ cached k n b) /\ reusable held k b /\
      f = (fun x => x <| b_dev := dev |> <| b_blockno := n |> <| b_flags := 0 |> <| b_refcnt := 1 |>))).
Proof.
  intros Ht [[ord Hlru] Hinv] Hheld Hroom. pose proof Ht as [Tc _ _ Tf].
  assert (Hfree : forall b, (b < HEAD)%nat -> b ∉ held -> sl_locked (slock_of k (S_buf b)) = 0).
  { intros b Hb Hnb. rewrite (bi_lock _ _ _ _ Hinv b Hb). by rewrite decide_False. }
  unfold bget. destruct (acquire_enter i L_bcache k e Tc (Tf _)) as [Hacq _].
  rewrite (bind_ok _ _ _ _ _ _ _ Hacq). step.
  change (k_bcache (locked_by i L_bcache k)) with (k_bcache k).
  destruct (lru_search (fun y => (b_dev y =? dev) && (b_blockno y =? n)) _ _ Hlru) as [-> _].
  destruct (List.find _ _) as [b|] eqn:E.
  - apply (find_ord_Some _ _ _ _ Hlru) in E as [Hb Hp]. apply has_block_spec in Hp as [Hd Hn].
    assert (Hc : cached k n b) by done.
    assert (Hnb : b ∉ held) by (intros Hin; by apply (Hheld b)).
    destruct (bget_grab b (fun x => x <| b_refcnt ::= fun n => u32 (n + 1) |>) k e Ht (Hfree b Hb Hnb))
      as (k' & v & Hrun & Ht' & Hq & Hv & Hpid & Hs).
    eexists b, k', v, _. split_and!; try done. by left.
  - destruct (lru_search (fun y => (b_refcnt y =? 0) && negb (bit_set (b_flags y) B_DIRTY)) _ _ Hlru) as [_ ->].
    assert (Hno : forall b, ~ cached k n b).
    { intros b (Hb & Hd & Hn). assert (Hf : has_block n (k_bcache k !!! b) = false).
      { apply (List.find_none _ _ E). apply list_elem_of_In. by apply (lru_elem _ _ _ Hlru). }
      by rewrite (proj2 (has_block_spec n _)) in Hf. }
    destruct (List.find _ (rev ord)) as [b|] eqn:E2.
    + apply List.find_some in E2 as [Hin Hp]. apply List.in_rev, list_elem_of_In in Hin.
      apply (lru_elem _ _ _ Hlru) in Hin. apply andb_true_iff in Hp as [Hr Hdi].
      apply Z.eqb_eq in Hr. apply negb_true_iff in Hdi.
      assert (Hnb : b ∉ held).
      { intros Hh. rewrite (bi_ref _ _ _ _ Hinv b Hin), decide_True in Hr by done. done. }
      destruct (bget_grab b (fun x => x <| b_dev := dev |> <| b_blockno := n |> <| b_flags := 0 |> <| b_refcnt := 1 |>)
                  k e Ht (Hfree b Hin Hnb)) as (k' & v & Hrun & Ht' & Hq & Hv & Hpid & Hs).
      eexists b, k', v, _. split_and!; try done. by right.
    + destruct Hroom as (b & [Hc|(Hb & Hnb & Hdi)]); [by destruct (Hno b)|].
      exfalso. pose proof (List.find_none _ _ E2 b) as Hf. cbv beta in Hf.
      rewrite (bi_ref _ _ _ _ Hinv b Hb), decide_False in Hf by done. unfold dirty in Hdi. rewrite Hdi in Hf.
      assert (Hin : b ∈ ord) by (by apply (lru_elem _ _ _ Hlru)).
      apply list_elem_of_In, List.in_rev in Hin. by specialize (Hf Hin).
Qed.

Lemma view_ext k k' :
  (forall x, (x < HEAD)%nat -> b_dev (k_bcache k' !!! x) = b_dev (k_bcache k !!! x) /\
     b_blockno (k_bcache k' !!! x) = b_blockno (k_bcache k !!! x) /\
     b_data (k_bcache k' !!! x) = b_data (k_bcache k !!! x)) ->
  k_disk k' = k_disk k -> forall m, view k' m = view k m.
Proof.
  intros Hb Hd m. unfold view.
  assert (Hf : forall l, (forall x, x ∈ l -> (x < HEAD)%nat) ->
    List.find (fun b => has_block m (k_bcache k' !!! b)) l = List.find (fun b => has_block m (k_bcache k !!! b)) l).
  { induction l as [|x l IH]; intros Hl; [done|]. cbn [List.find]. rewrite IH by set_solver.
    unfold has_block. destruct (Hb x ltac:(apply Hl; set_solver)) as (-> & -> & _). done. }
  rewrite Hf by (intros x Hx; apply elem_of_seq in Hx; lia).
  destruct (List.find _ _) as [b|] eqn:E; [|unfold disk_sector; by rewrite Hd].
  apply List.find_some in E as [Hin _]. apply list_elem_of_In, elem_of_seq in Hin. apply Hb. lia.
Qed.

Lemma lru_alter (f : buf -> buf) b bs ord :
  (forall x, b_next (f x) = b_next x /\ b_prev (f x) = b_prev x) -> lru bs ord -> lru (alter f b bs) ord.
Proof.
  intros Hf. apply lru_content_only; [by rewrite length_alter|]. intros x.
  destruct (decide (x < length bs)%nat).
  - rewrite total_alter by done. case_decide; [apply Hf|done].
  - by rewrite !list_lookup_total_alt, !lookup_ge_None_2 by (rewrite ?length_alter; lia).
Qed.

Lemma bread_cached held k n b k' v :
  cache held k -> cached k n b -> b ∉ held -> thread i p pid k' ->
  quiet k' = quiet (k <| k_bcache ::= alter (fun x => x <| b_refcnt ::= fun n => u32 (n + 1) |>) b |>) ->
  sl_locked v = 1 -> sl_pid v = pid ->
  (forall s, slock_of k' s = if decide (S_buf b = s) then v else slock_of k s) ->
  got held k n b k'.
Proof.
  intros Hca Hc Hnb Ht Hq Hv Hpid Hs. pose proof Hca as [[ord Hl] Hi]. pose proof Hc as (Hb & Hd & Hn).
  assert (Hbc : k_bcache k' = alter (fun x => x <| b_refcnt ::= fun n => u32 (n + 1) |>) b (k_bcache k))
    by exact (f_equal k_bcache Hq).
  assert (Hdk : k_disk k' = k_disk k) by exact (f_equal k_disk Hq).
  assert (Hget : forall x, (x < HEAD)%nat -> k_bcache k' !!! x =
    if decide (b = x) then (k_bcache k !!! x) <| b_refcnt := 1 |> else k_bcache k !!! x).
  { intros x Hx. rewrite Hbc, total_alter by (rewrite (lru_len _ _ Hl); lia). case_decide; [|done]. subst x.
    pose proof (bi_ref _ _ _ _ Hi b Hb) as Hr. rewrite decide_False in Hr by done.
    change ((k_bcache k !!! b) <| b_refcnt := u32 (b_refcnt (k_bcache k !!! b) + 1) |> =
            (k_bcache k !!! b) <| b_refcnt := 1 |>). by rewrite Hr. }
  pose proof (Hget b Hb) as Hgb. rewrite decide_True in Hgb by done.
  split; [done| |done| |by left|rewrite Hq, Hbc; done| | | |].
  - split; [exists ord; rewrite Hbc; by apply lru_alter|].
    eapply (binv_set held (b :: held)); [exact Hi|exact Hb|..]; cbv beta; rewrite ?Hgb.
    + intros x Hx Hr. by rewrite Hget, decide_False.
    + intros x Hx. rewrite Hs, decide_False; [done|]. naive_solver.
    + constructor; [done|apply (bi_nodup _ _ _ _ Hi)].
    + set_solver.
    + rewrite Hs, !decide_True by set_solver. done.
    + split_and!; [done|by apply (bi_valid _ _ _ _ Hi)|by apply (bi_size _ _ _ _ Hi)|set_solver].
    + intros x Hx Hr Hdx Heq. apply Hx. by apply (bi_once _ _ _ _ Hi).
    + intros m _. unfold disk_sector. by rewrite Hdk.
    + unfold disk_sector. rewrite Hdk. apply (bi_disk _ _ _ _ Hi).
  - split; [done|]. by rewrite Hgb.
  - intros x Hx. rewrite Hbc, !list_lookup_total_alt. by rewrite list_lookup_alter_ne.
  - by rewrite Hgb.
  - apply view_ext; [|done]. intros x Hx. rewrite Hget by done. by case_decide.
  - intros s. by rewrite Hs, decide_False.
Qed.

(** The view when buffer [b], clean and not in use, is given to block [n]. *)
Lemma view_recycled held k n b k' x' :
  cache held k -> (forall b, ~ cached k n b) -> reusable held k b ->
  (forall x, (x < HEAD)%nat -> k_bcache k' !!! x = if decide (b = x) then x' else k_bcache k !!! x) ->
  b_dev x' = dev -> b_blockno x' = n -> b_data x' = disk_sector k dev n -> k_disk k' = k_disk k ->
  cache (b :: held) k' -> forall m, view k' m = view k m.
Proof.
  intros Hca Hno (Hb & Hnb & Hdi) Hget Hd Hn Hdata Hdk Hca' m. pose proof Hca as [_ Hi].
  assert (Hds : forall m, disk_sector k' dev m = disk_sector k dev m) by (intros; unfold disk_sector; by rewrite Hdk).
  assert (Hother : forall x, x <> b -> cached k' m x <-> cached k m x).
  { intros x Hx. unfold cached. split; intros (Hr & H1 & H2); rewrite Hget in * by done;
      rewrite decide_False in * by done; done. }
  destruct (cached_dec k m) as [[x Hx]|Hnone].
  - rewrite (view_cached held k m x Hca Hx). destruct (decide (x = b)) as [->|Hxb].
    + pose proof Hx as (_ & Hdb & Hmb). rewrite (bi_clean _ _ _ _ Hi b Hb Hdb Hnb Hdi), Hmb.
      rewrite view_uncached; [apply Hds|]. intros y Hy. destruct (decide (y = b)) as [->|Hyb].
      * destruct Hy as (_ & _ & Hy). rewrite Hget, decide_True, Hn in Hy by done. subst m. by apply (Hno b).
      * apply Hyb. apply (cached_unique held k m); [done|by apply Hother|done].
    + rewrite (view_cached _ _ _ _ Hca' (proj2 (Hother x Hxb) Hx)).
      destruct Hx as (Hr & _). by rewrite Hget, decide_False.
  - rewrite (view_uncached k m Hnone). destruct (decide (m = n)) as [->|Hmn].
    + rewrite (view_cached (b :: held) k' n b Hca'); [by rewrite Hget, decide_True|].
      split; [done|]. by rewrite Hget, decide_True.
    + rewrite view_uncached; [apply Hds|]. intros y Hy. destruct (decide (y = b)) as [->|Hyb].
      * destruct Hy as (_ & _ & Hy). rewrite Hget, decide_True in Hy by done. congruence.
      * apply (Hnone y). by apply Hother.
Qed.

Lemma bread_recycled held k n b k' x' v :
  cache held k -> (forall b, ~ cached k n b) -> reusable held k b -> thread i p pid k' ->
  quiet k' = quiet (k <| k_bcache ::= alter (fun _ => x') b |>) ->
  x' = (k_bcache k !!! b) <| b_dev := dev |> <| b_blockno := n |> <| b_flags := B_VALID |> <| b_refcnt := 1 |>
         <| b_data := disk_sector k dev n |> ->
  sl_locked v = 1 -> sl_pid v = pid ->
  (forall s, slock_of k' s = if decide (S_buf b = s) then v else slock_of k s) ->
  got held k n b k'.
Proof.
  intros Hca Hno Hre Ht Hq Hx' Hv Hpid Hs. pose proof Hca as [[ord Hl] Hi]. pose proof Hre as (Hb & Hnb & Hdi).
  assert (Hbc : k_bcache k' = alter (fun _ => x') b (k_bcache k)) by exact (f_equal k_bcache Hq).
  assert (Hdk : k_disk k' = k_disk k) by exact (f_equal k_disk Hq).
  assert (Hget : forall x, (x < HEAD)%nat -> k_bcache k' !!! x = if decide (b = x) then x' else k_bcache k !!! x).
  { intros x Hx. rewrite Hbc, total_alter by (rewrite (lru_len _ _ Hl); lia). done. }
  pose proof (Hget b Hb) as Hgb. rewrite decide_True in Hgb by done.
  assert (Hca' : cache (b :: held) k').
  { split.
    - exists ord. eapply lru_content_only; [..|exact Hl]; [by rewrite Hbc, length_alter|].
      intros x. rewrite Hbc. destruct (decide (x < length (k_bcache k))%nat).
      + rewrite total_alter by done. case_decide; [|done]. subst. done.
      + by rewrite !list_lookup_total_alt, !lookup_ge_None_2 by (rewrite ?length_alter; lia).
    - eapply (binv_set held (b :: held)); [exact Hi|exact Hb|..]; cbv beta; rewrite ?Hgb, ?Hx'.
      + intros x Hx Hr. by rewrite Hget, decide_False.
      + intros x Hx. rewrite Hs, decide_False; [done|]. naive_solver.
      + constructor; [done|apply (bi_nodup _ _ _ _ Hi)].
      + set_solver.
      + rewrite Hs, !decide_True by set_solver. done.
      + split_and!; [done|done|apply (bi_disk _ _ _ _ Hi)|set_solver].
      + intros x Hx Hr Hdx Heq. by apply (Hno x).
      + intros m _. unfold disk_sector. by rewrite Hdk.
      + unfold disk_sector. rewrite Hdk. apply (bi_disk _ _ _ _ Hi). }
  split; [done|done|done| |by right|by rewrite Hq, Hbc| | | |].
  - split; [done|]. rewrite Hgb, Hx'. done.
  - intros x Hx. rewrite Hbc, !list_lookup_total_alt. by rewrite list_lookup_alter_ne.
  - rewrite Hgb, Hx', Hdi. done.
  - eapply (view_recycled held k n b k' x'); try done; by rewrite Hx'.
  - intros s. by rewrite Hs, decide_False.
Qed.

(** bread returns the block's buffer, locked, with the block's contents. *)
Lemma bread_ok n k e held :
  thread i p pid k -> cache held k -> (forall b, b ∈ held -> ~ cached k n b) -> disk_has k n ->
  (exists b, cached k n b \/ reusable held k b) ->
  exists b k', bread dev n k e = Ok b k' e /\ got held k n b k'.
Proof.
  intros Ht Hca Hheld Hhas Hroom. unfold bread.
  destruct (bget_ok n k e held Ht Hca Hheld Hroom) as
    (b & k1 & v & f & Hrun & Ht1 & Hb & Hnb & Hq & Hv & Hpid & Hs & Hcase).
  rewrite (bind_ok _ _ _ _ _ _ _ Hrun). unfold get_buf. step. exists b.
  pose proof Hca as [[ord Hl] Hi].
  assert (Hlen : (b < length (k_bcache k))%nat) by (rewrite (lru_len _ _ Hl); lia).
  assert (Hbc : k_bcache k1 = alter f b (k_bcache k)) by exact (f_equal k_bcache Hq).
  assert (Hb1 : k_bcache k1 !!! b = f (k_bcache k !!! b)).
  { rewrite Hbc, total_alter by done. by rewrite decide_True. }
  rewrite Hb1. destruct Hcase as [[Hc ->]|(Hno & Hre & ->)].
  - pose proof Hc as (_ & Hd & Hn).
    change (bit_set (b_flags _) B_VALID) with (valid (k_bcache k !!! b)).
    rewrite (bi_valid _ _ _ _ Hi b Hb Hd). exists k1. split; [done|]. by eapply bread_cached.
  - change (bit_set (b_flags _) B_VALID) with false. cbn [negb]. step.
    assert (Hlk : nz (sl_locked (slock_of k1 (S_buf b))) && (sl_pid (slock_of k1 (S_buf b)) =? pid) = true).
    { rewrite Hs, decide_True, Hv, Hpid by done. by rewrite Z.eqb_refl. }
    destruct (iderw_ok i p pid k1 e b Ht1) as (k2 & Hrw & Ht2 & Hq2 & Hs2).
    + by rewrite Hbc, length_alter.
    + done.
    + by rewrite Hb1.
    + rewrite Hb1. eapply disk_has_ide; [|exact Hhas]. exact (f_equal k_ide Hq).
    + by rewrite Hb1.
    + rewrite (bind_ok _ _ _ _ _ _ _ Hrw). exists k2. split; [done|].
      eapply (bread_recycled held k n b k2 _ v Hca Hno Hre Ht2); [|reflexivity|done|done|].
      * rewrite Hq2. unfold served. rewrite Hb1. change (dirty _) with false. cbv iota.
        change (disk_sector k1 dev _) with (default (replicate 512 0) (k_disk k1 !! (dev, n))).
        rewrite (f_equal k_disk Hq : k_disk k1 = k_disk k).
        transitivity (quiet (k <| k_bcache := alter (fun y => y <| b_data := disk_sector k dev n |>
            <| b_flags ::= fun f => Z.lor f B_VALID |>) b (alter (fun x => x <| b_dev := dev |> <| b_blockno := n |>
               <| b_flags := 0 |> <| b_refcnt := 1 |>) b (k_bcache k)) |>)); [quiet_by Hq|].
        rewrite list_alter_alter_eq.
        assert (Heq : alter (fun x => (x <| b_dev := dev |> <| b_blockno := n |> <| b_flags := 0 |> <| b_refcnt := 1 |>
            <| b_data := disk_sector k dev n |> <| b_flags ::= fun f => Z.lor f B_VALID |>)) b (k_bcache k) =
          alter (fun _ => (k_bcache k !!! b) <| b_dev := dev |> <| b_blockno := n |> <| b_flags := B_VALID |>
            <| b_refcnt := 1 |> <| b_data := disk_sector k dev n |>) b (k_bcache k));
          [|exact (f_equal (fun bs => quiet (k <| k_bcache := bs |>)) Heq)].
        apply list_alter_ext; [|done]. intros x Hx. by rewrite (list_lookup_total_correct _ _ _ Hx).
      * intros s. unfold slock_of. rewrite Hs2. apply Hs.
Qed.

Lemma cache_perm held held' k : held ≡ₚ held' -> cache held k -> cache held' k.
Proof.
  intros Hp [Hl [I1 I2 I3 I4 I5 I6 I7 I8 I9 I10 I11]]. split; [done|].
  assert (Hin : forall b, b ∈ held' <-> b ∈ held) by (intros b; by rewrite Hp).
  assert (Hdec : forall b, (if decide (b ∈ held') then 1 else 0) = if decide (b ∈ held) then 1 else 0).
  { intros b. specialize (Hin b). repeat case_decide; tauto. }
  split; try done.
  - by rewrite <- Hp.
  - intros b Hb. by apply I2, Hin.
  - intros b Hb. rewrite Hdec. auto.
  - intros b Hb. by apply I4, Hin.
  - intros b Hb. rewrite Hdec. auto.
  - intros b Hb Hd Hnb. apply I8; [done|done|]. by rewrite <- Hin.
Qed.

(** A process holds the locks of its buffers. *)
Lemma cache_holds held k b : cache held k -> b ∈ held ->
  nz (sl_locked (slock_of k (S_buf b))) && (sl_pid (slock_of k (S_buf b)) =? pid) = true.
Proof.
  intros [_ Hi] Hb. pose proof (bi_range _ _ _ _ Hi b Hb) as Hr.
  rewrite (bi_lock _ _ _ _ Hi b Hr), decide_True, (bi_pid _ _ _ _ Hi b Hb) by done.
  by rewrite Z.eqb_refl.
Qed.

(** ** Changing a buffer in use *)

Lemma cache_set held k n b x' k' :
  cache held k -> b ∈ held -> cached k n b ->
  (forall x, (x < HEAD)%nat -> k_bcache k' !!! x = if decide (b = x) then x' else k_bcache k !!! x) ->
  (exists ord, lru (k_bcache k') ord) -> k_slocks k' = k_slocks k ->
  b_dev x' = dev -> b_blockno x' = n -> b_refcnt x' = b_refcnt (k_bcache k !!! b) -> valid x' = true ->
  length (b_data x') = 512%nat ->
  (forall m, m <> n -> disk_sector k' dev m = disk_sector k dev m) -> length (disk_sector k' dev n) = 512%nat ->
  cache held k' /\ cached k' n b /\ view k' n = b_data x' /\ (forall m, m <> n -> view k' m = view k m).
Proof.
  intros Hca Hin Hc Hget Hlru Hs Hd Hn Hr Hv Hlen Hdk Hdl. pose proof Hca as [_ Hi]. pose proof Hc as (Hb & Hdb & Hnb).
  pose proof (Hget b Hb) as Hgb. rewrite decide_True in Hgb by done.
  assert (Hca' : cache held k').
  { split; [done|]. eapply (binv_set held held); [exact Hi|exact Hb|..]; cbv beta; rewrite ?Hgb.
    - intros x Hx Hrx. by rewrite Hget, decide_False.
    - intros x Hx. unfold slock_of. by rewrite Hs.
    - apply (bi_nodup _ _ _ _ Hi).
    - done.
    - unfold slock_of. rewrite Hs. rewrite Hr, (bi_ref _ _ _ _ Hi b Hb).
      split_and!; [done|apply (bi_lock _ _ _ _ Hi b Hb)|]. intros _. by apply (bi_pid _ _ _ _ Hi).
    - done.
    - intros x Hx Hrx Hdx. rewrite Hn. intros Heq. apply Hx. apply (bi_once _ _ _ _ Hi); congruence.
    - rewrite Hn. done.
    - by rewrite Hn. }
  assert (Hc' : cached k' n b) by (split; [done|]; by rewrite Hgb).
  split_and!; [done|done|by rewrite (view_cached _ _ _ _ Hca' Hc'), Hgb|].
  intros m Hm. assert (Hiff : forall x, cached k' m x <-> cached k m x).
  { intros x. unfold cached. split; intros (Hrx & H1 & H2); rewrite Hget in * by done;
      (destruct (decide (b = x)) as [<-|]; [|done]); exfalso; congruence. }
  destruct (cached_dec k m) as [[x Hx]|Hno].
  - rewrite (view_cached _ _ _ _ Hca Hx), (view_cached _ _ _ _ Hca' (proj2 (Hiff x) Hx)).
    destruct Hx as (Hrx & _ & Hmx). rewrite Hget by done. case_decide as Hbx; [|done]. congruence.
  - rewrite !view_uncached; [by apply Hdk|done|]. intros x Hx. by apply (Hno x), Hiff.
Qed.

(** The process stores into its buffer. *)
Lemma store_ok held k n b (f : list Z -> list Z) :
  thread i p pid k -> cache held k -> b ∈ held -> cached k n b ->
  (forall d, length d = 512%nat -> length (f d) = 512%nat) ->
  let k' := k <| k_bcache ::= alter (fun x => x <| b_data ::= f |>) b |> in
  thread i p pid k' /\ cache held k' /\ cached k' n b /\ view k' n = f (view k n) /\
  (forall m, m <> n -> view k' m = view k m).
Proof.
  intros Ht Hca Hin Hc Hf k'. split; [by eapply thread_same; [..|exact Ht]|].
  pose proof Hca as [[ord Hl] Hi]. pose proof Hc as (Hb & Hd & Hn).
  rewrite (view_cached _ _ _ _ Hca Hc).
  change (f (b_data (k_bcache k !!! b))) with (b_data ((k_bcache k !!! b) <| b_data ::= f |>)).
  apply (cache_set held k n b ((k_bcache k !!! b) <| b_data ::= f |>) k'); try done.
  - intros x Hx. unfold k'. fields. rewrite total_alter by (rewrite (lru_len _ _ Hl); lia).
    by case_decide; subst.
  - exists ord. by apply lru_alter.
  - by apply (bi_valid _ _ _ _ Hi).
  - fields. apply Hf. by apply (bi_size _ _ _ _ Hi).
  - apply (bi_disk _ _ _ _ Hi).
Qed.

(** bwrite: the block reaches the disk. *)
Record wrote held k n b k' : Prop := {
  wr_thread : thread i p pid k';
  wr_cache : cache held k';
  wr_cached : cached k' n b;
  wr_rest : quiet k' = quiet (disk_write dev n (view k n) (k <| k_bcache := k_bcache k' |>));
  wr_same : forall x, x <> b -> k_bcache k' !!! x = k_bcache k !!! x;
  wr_clean : dirty (k_bcache k' !!! b) = false;
  wr_view : forall m, view k' m = view k m;
  wr_slocks : k_slocks k' = k_slocks k
}.

Lemma bwrite_ok held k e n b :
  thread i p pid k -> cache held k -> b ∈ held -> cached k n b -> disk_has k n ->
  exists k', bwrite b k e = Ok tt k' e /\ wrote held k n b k'.
Proof.
  intros Ht Hca Hin Hc Hhas. pose proof Hca as [[ord Hl] Hi]. pose proof Hc as (Hb & Hd & Hn). unfold bwrite.
  destruct (holdingsleep_ok i p pid (S_buf b) k e Ht) as (k1 & Hrun & Ht1 & Hq & Hs).
  rewrite (bind_ok _ _ _ _ _ _ _ Hrun), (cache_holds _ _ _ Hca Hin). cbn [negb]. unfold upd_buf. step.
  assert (Hbc : k_bcache k1 = k_bcache k) by exact (f_equal k_bcache Hq).
  set (k2 := k1 <| k_bcache ::= _ |>).
  assert (Hlen : (b < length (k_bcache k))%nat) by (rewrite (lru_len _ _ Hl); lia).
  assert (Hb2 : k_bcache k2 !!! b = (k_bcache k !!! b) <| b_flags ::= fun f => Z.lor f B_DIRTY |>).
  { unfold k2. fields. rewrite Hbc, total_alter by done. by rewrite decide_True. }
  assert (Hdi : dirty (k_bcache k2 !!! b) = true) by (rewrite Hb2; apply flags_write).
  destruct (iderw_ok i p pid k2 e b) as (k' & Hrw & Ht' & Hq' & Hs').
  - by eapply thread_same; [..|exact Ht1].
  - unfold k2. fields. by rewrite length_alter, Hbc.
  - unfold slock_of. change (k_slocks k2) with (k_slocks k1). rewrite Hs. by apply (cache_holds held).
  - by rewrite Hb2.
  - rewrite Hb2. apply (disk_has_ide k k2); [exact (f_equal k_ide Hq)|]. fields. by rewrite Hn.
  - rewrite Hdi. apply orb_true_r.
  - exists k'. split; [exact Hrw|]. unfold served in Hq'. rewrite Hdi, Hb2 in Hq'. fields_in Hq'.
    set (g := fun x : buf => x <| b_flags ::= fun f => Z.lor (Z.land (Z.lor f B_DIRTY) (Z.lnot B_DIRTY)) B_VALID |>).
    assert (Hbc' : k_bcache k' = alter g b (k_bcache k)).
    { etrans; [exact (f_equal k_bcache Hq')|].
      change (alter (fun x => x <| b_flags ::= fun f => Z.lor (Z.land f (Z.lnot B_DIRTY)) B_VALID |>) b
        (alter (fun x => x <| b_flags ::= fun f => Z.lor f B_DIRTY |>) b (k_bcache k1)) = alter g b (k_bcache k)).
      by rewrite Hbc, list_alter_alter_eq. }
    assert (Hget : forall x, (x < HEAD)%nat ->
      k_bcache k' !!! x = if decide (b = x) then g (k_bcache k !!! b) else k_bcache k !!! x).
    { intros x Hx. rewrite Hbc', total_alter by (rewrite (lru_len _ _ Hl); lia). by case_decide; subst. }
    assert (Hdisk : k_disk k' = <[(dev, n) := b_data (k_bcache k !!! b)]> (k_disk k)).
    { etrans; [exact (f_equal k_disk Hq')|].
      change (<[(dev, b_blockno (k_bcache k !!! b)) := b_data (k_bcache k !!! b)]> (k_disk k1) =
              <[(dev, n) := b_data (k_bcache k !!! b)]> (k_disk k)).
      by rewrite Hn, (f_equal k_disk Hq : k_disk k1 = k_disk k). }
    assert (Hsl : k_slocks k' = k_slocks k) by (by rewrite Hs').
    destruct (cache_set held k n b (g (k_bcache k !!! b)) k') as (Hca' & Hc' & Hvn & Hvm); try done.
    + exists ord. rewrite Hbc'. by apply lru_alter.
    + unfold valid, g. fields. apply flags_written.
    + by apply (bi_size _ _ _ _ Hi).
    + intros m Hm. unfold disk_sector. rewrite Hdisk, lookup_insert_ne by congruence. done.
    + unfold disk_sector. rewrite Hdisk, lookup_insert_eq. by apply (bi_size _ _ _ _ Hi).
    + split; [done|done|done| | | | |done].
      * rewrite Hbc', Hq', (view_cached _ _ _ _ Hca Hc), Hn.
        transitivity (quiet (disk_write dev n (b_data (k_bcache k !!! b)) (k <| k_bcache := alter (fun x => x <| b_flags ::= fun f => Z.lor (Z.land f (Z.lnot B_DIRTY)) B_VALID |>) b
          (alter (fun x => x <| b_flags ::= fun f => Z.lor f B_DIRTY |>) b (k_bcache k)) |>))); [unfold k2; quiet_by Hq|].
        by rewrite list_alter_alter_eq.
      * intros x Hx. rewrite Hbc', !list_lookup_total_alt. by rewrite list_lookup_alter_ne.
      * rewrite Hget, decide_True by done. unfold dirty, g. fields. apply flags_written.
      * intros m. destruct (decide (m = n)) as [->|Hm]; [|by apply Hvm].
        by rewrite Hvn, (view_cached _ _ _ _ Hca Hc).
Qed.

(** ** brelse *)

(** The state after a release: only locks, references and the list's order. *)
Record freed held k b k' : Prop := {
  fr_thread : thread i p pid k';
  fr_cache : cache held k';
  fr_rest : quiet k' = quiet (k <| k_bcache := k_bcache k' |>);
  fr_same : forall x, (x < HEAD)%nat -> content ((k_bcache k' !!! x) <| b_refcnt := 0 |>) =
              content ((k_bcache k !!! x) <| b_refcnt := 0 |>);
  fr_view : forall m, view k' m = view k m;
  fr_inode : forall s, slock_of k' (S_inode s) = slock_of k (S_inode s)
}.

Lemma freed_info held k b k' x : freed held k b k' -> (x < HEAD)%nat ->
  b_flags (k_bcache k' !!! x) = b_flags (k_bcache k !!! x) /\ b_dev (k_bcache k' !!! x) = b_dev (k_bcache k !!! x) /\
  b_blockno (k_bcache k' !!! x) = b_blockno (k_bcache k !!! x) /\ b_data (k_bcache k' !!! x) = b_data (k_bcache k !!! x).
Proof.
  intros Hf Hx. pose proof (fr_same _ _ _ _ Hf x Hx) as E.
  split_and!; [exact (f_equal b_flags E)|exact (f_equal b_dev E)|exact (f_equal b_blockno E)|exact (f_equal b_data E)].
Qed.

Lemma brelse_ok held k e n b :
  thread i p pid k -> cache (b :: held) k -> cached k n b ->
  dirty (k_bcache k !!! b) = true \/ view k n = disk_sector k dev n ->
  exists k', brelse b k e = Ok tt k' e /\ freed held k b k'.
Proof.
  intros Ht Hca Hc Hsaved. pose proof Hca as [[ord Hl] Hi]. pose proof Hc as (Hb & Hd & Hn). unfold brelse.
  pose proof (bi_nodup _ _ _ _ Hi) as Hnd. apply list.NoDup_cons in Hnd as [Hbh Hnd].
  destruct (holdingsleep_ok i p pid (S_buf b) k e Ht) as (k1 & Hrun & Ht1 & Hq1 & Hs1).
  rewrite (bind_ok _ _ _ _ _ _ _ Hrun), (cache_holds _ _ _ Hca) by set_solver. cbn [negb].
  destruct (releasesleep_ok i p pid (S_buf b) k1 e Ht1) as (k2 & v & Hrun2 & Ht2 & Hq2 & Hv & Hs2).
  rewrite (bind_ok _ _ _ _ _ _ _ Hrun2). pose proof Ht2 as [Tc _ _ Tf].
  destruct (acquire_enter i L_bcache k2 e Tc (Tf _)) as [Hacq He].
  rewrite (bind_ok _ _ _ _ _ _ _ Hacq). unfold upd_buf, get_buf. step.
  assert (Hq : quiet k2 = quiet k) by congruence.
  assert (Hbc : k_bcache k2 = k_bcache k) by exact (f_equal k_bcache Hq).
  set (bs1 := alter (fun x => x <| b_refcnt ::= fun n => u32 (n - 1) |>) b (k_bcache k)).
  set (k3 := locked_by i L_bcache k2 <| k_bcache ::= _ |>).
  assert (Hk3 : k_bcache k3 = bs1) by (unfold k3, bs1; fields; by rewrite <- Hbc).
  assert (Hget : forall x, (x < HEAD)%nat -> bs1 !!! x = if decide (b = x) then (k_bcache k !!! b) <| b_refcnt := 0 |>
                                            else k_bcache k !!! x).
  { intros x Hx. unfold bs1. rewrite total_alter by (rewrite (lru_len _ _ Hl); lia). case_decide; [|done]. subst x.
    pose proof (bi_ref _ _ _ _ Hi b Hb) as Hr. rewrite decide_True in Hr by set_solver.
    change ((k_bcache k !!! b) <| b_refcnt := u32 (b_refcnt (k_bcache k !!! b) - 1) |> =
            (k_bcache k !!! b) <| b_refcnt := 0 |>). by rewrite Hr. }
  rewrite Hk3, Hget, decide_True by done. fields. change (0 =? 0) with true. step.
  set (k4 := k3 <| k_bcache ::= _ |>). set (bs2 := lru_push b (lru_unlink b bs1)).
  assert (Hk4 : k_bcache k4 = bs2) by (unfold k4, bs2; fields; by rewrite Hk3).
  assert (He4 : entered i L_bcache k2 k4) by (eapply entered_same; [|exact He]; done).
  destruct (entered_leave i L_bcache k2 k4 e Tc He4) as (Hrel & Hfr & _). rewrite Hrel.
  set (k' := unlocked_by i L_bcache k4) in *. exists k'. split; [done|].
  assert (Hbc' : k_bcache k' = bs2) by done.
  assert (Hsame : forall x, (x < HEAD)%nat -> content (k_bcache k' !!! x) =
    if decide (b = x) then content ((k_bcache k !!! b) <| b_refcnt := 0 |>) else content (k_bcache k !!! x)).
  { intros x Hx. rewrite Hbc'. unfold bs2. rewrite lru_push_content, lru_unlink_content, Hget by done.
    by case_decide. }
  pose proof (Hsame b Hb) as Hsb. rewrite decide_True in Hsb by done.
  assert (Hinfo : b_refcnt (k_bcache k' !!! b) = 0 /\ b_dev (k_bcache k' !!! b) = b_dev (k_bcache k !!! b) /\
    b_flags (k_bcache k' !!! b) = b_flags (k_bcache k !!! b) /\ b_data (k_bcache k' !!! b) = b_data (k_bcache k !!! b) /\
    b_blockno (k_bcache k' !!! b) = b_blockno (k_bcache k !!! b)).
  { split_and!; [exact (f_equal b_refcnt Hsb)|exact (f_equal b_dev Hsb)|exact (f_equal b_flags Hsb)|
      exact (f_equal b_data Hsb)|exact (f_equal b_blockno Hsb)]. }
  destruct Hinfo as (Href & Hdev & Hflags & Hdata & Hblk).
  assert (Hdk : k_disk k' = k_disk k) by exact (f_equal k_disk Hq).
  assert (Hds : forall m, disk_sector k' dev m = disk_sector k dev m) by (intros; unfold disk_sector; by rewrite Hdk).
  assert (Hs : forall s, slock_of k' s = if decide (S_buf b = s) then v else slock_of k s).
  { intros s. change (slock_of k' s) with (slock_of k2 s). rewrite Hs2. case_decide; [done|].
    unfold slock_of. by rewrite Hs1. }
  split.
  - eapply thread_frame; [exact Hfr|by left|done].
  - split.
    + rewrite Hbc'. apply (lru_move bs1 ord); [|done]. by apply lru_alter.
    + eapply (binv_set (b :: held) held); [exact Hi|exact Hb|..]; cbv beta.
      * intros x Hx Hr. by rewrite Hsame, decide_False.
      * intros x Hx. rewrite Hs, decide_False; [done|]. naive_solver.
      * done.
      * set_solver.
      * rewrite Href, Hs, !(decide_False (P := b ∈ held)) by done.
        by rewrite decide_True.
      * unfold valid, dirty. rewrite Hdev, Hflags, Hdata, Hblk.
        split_and!; [done|by apply (bi_valid _ _ _ _ Hi)|by apply (bi_size _ _ _ _ Hi)|].
        intros _ Hdi. destruct Hsaved as [Hs'|Hs']; [unfold dirty in Hs'; congruence|].
        rewrite Hds, Hn, <- Hs'. symmetry. by apply (view_cached (b :: held)).
      * intros x Hx Hr Hdx. rewrite Hblk.
        intros Heq. apply Hx. by apply (bi_once _ _ _ _ Hi).
      * intros m _. apply Hds.
      * rewrite Hds. apply (bi_disk _ _ _ _ Hi).
  - transitivity (quiet (k <| k_bcache := bs2 |>)); [|by rewrite Hbc'].
    transitivity (quiet (k2 <| k_bcache := bs2 |>)); [by rewrite <- Hk4|quiet_by Hq].
  - intros x Hx. pose proof (Hsame x Hx) as E. case_decide as Hbx; [subst x|];
      exact (f_equal (fun y => y <| b_refcnt := 0 |>) E).
  - apply view_ext; [|done]. intros x Hx. pose proof (Hsame x Hx) as E. case_decide as Hbx; [subst x|];
      (split_and!; [exact (f_equal b_dev E)|exact (f_equal b_blockno E)|exact (f_equal b_data E)]).
  - intros s. by rewrite Hs, decide_False.
Qed.
End cache.
