(* ===== verification/LogFacts.v ===== *)
(** The steps of the log: copying a block to or from the log, writing and
    reading the header. *)
From S2P Require Import Prelude Kernel Mem BlockFacts Spinlock Locks Console Vm Sched Sleeplock SleepFacts.
From S2P Require Import Ide Bio LruFacts BioFacts Log.

Section logfacts.
Context `{HD : DiskDriver} (dev : Z) {HOK : DiskOk dev} (i p : nat) (pid : Z).
Implicit Types (k : kernel) (e : env) (b : nat) (m n : Z) (held : list nat).

Local Notation thread := (thread i p pid).
Local Notation cache := (cache dev pid).
Local Notation cached := (cached dev).
Local Notation view := (view dev).
Local Notation got := (got dev i p pid).

(** A block that bget may not drop from the cache. *)
Definition pinned k m : Prop := exists b, cached k m b /\ dirty (k_bcache k !!! b) = true.

Lemma view_unpinned k m : cache [] k -> ~ pinned k m -> view k m = disk_sector k dev m.
Proof.
  intros Hca Hp. destruct (cached_dec dev k m) as [[b Hb]|Hno]; [|by apply view_uncached].
  rewrite (view_cached _ _ _ _ _ _ Hca Hb). pose proof Hb as (Hr & Hd & <-). destruct Hca as [_ Hi].
  apply (bi_clean _ _ _ _ _ _ Hi); [done|done|set_solver|].
  destruct (dirty _) eqn:E; [|done]. destruct Hp. by exists b.
Qed.

(** One block written, nothing held before and after. *)
(** The sleep locks of the inodes are as they were. *)
Definition ilocks_kept k k' : Prop := forall s, slock_of k' (S_inode s) = slock_of k (S_inode s).

Record stepped k m data k' : Prop := {
  sp_thread : thread k';
  sp_cache : cache [] k';
  sp_rest : quiet k' = quiet (disk_write dev m data (k <| k_bcache := k_bcache k' |>));
  sp_view : forall x, view k' x = if decide (x = m) then data else view k x;
  sp_pinned : forall x, pinned k' x <-> pinned k x /\ x <> m;
  sp_clean : forall b, (b < HEAD)%nat -> dirty (k_bcache k !!! b) = false -> dirty (k_bcache k' !!! b) = false;
  sp_inode : ilocks_kept k k'
}.

(** A buffer in use stays where it is when another block is read. *)
Lemma got_keeps held k n b k' m x : cache held k -> got held k n b k' -> m <> n -> cached k m x ->
  x ∈ held \/ dirty (k_bcache k !!! x) = true -> cached k' m x /\ k_bcache k' !!! x = k_bcache k !!! x.
Proof.
  intros Hca Hg Hmn Hx Hor. assert (Hne : x <> b).
  { intros ->. destruct (go_old _ _ _ _ _ _ _ _ _ Hg) as [(_ & _ & Hn)|[Hd _]].
    - destruct Hx as (_ & _ & Hm). congruence.
    - destruct Hor as [Hin|Hdi]; [by apply (go_new _ _ _ _ _ _ _ _ _ Hg)|congruence]. }
  pose proof (go_same _ _ _ _ _ _ _ _ _ Hg x Hne) as Hs. split; [|done].
  destruct Hx as (Hr & Hd & Hm). split; [done|]. by rewrite Hs.
Qed.

Lemma got_dirty held k n b k' x : got held k n b k' -> dirty (k_bcache k' !!! x) = dirty (k_bcache k !!! x).
Proof.
  intros Hg. destruct (decide (x = b)) as [->|Hx]; [apply (go_dirty _ _ _ _ _ _ _ _ _ Hg)|].
  by rewrite (go_same _ _ _ _ _ _ _ _ _ Hg x Hx).
Qed.

Lemma got_pinned held k n b k' x : cache held k -> got held k n b k' -> pinned k' x <-> pinned k x.
Proof.
  intros Hca Hg. split; intros (y & Hy & Hdi).
  - exists y. rewrite (got_dirty _ _ _ _ _ y Hg) in Hdi. split; [|done].
    destruct (decide (y = b)) as [->|Hne].
    + destruct (go_old _ _ _ _ _ _ _ _ _ Hg) as [Hc|[Hd _]]; [|congruence].
      pose proof (go_cached _ _ _ _ _ _ _ _ _ Hg) as (_ & _ & Hn). destruct Hy as (_ & _ & Hx).
      by replace x with n by congruence.
    + destruct Hy as (Hr & Hd & Hn). rewrite (go_same _ _ _ _ _ _ _ _ _ Hg y Hne) in Hd, Hn. done.
  - exists y. rewrite (got_dirty _ _ _ _ _ y Hg). split; [|done].
    destruct (decide (x = n)) as [->|Hxn]; [|by apply (got_keeps held k n b k' x y); auto].
    destruct (go_old _ _ _ _ _ _ _ _ _ Hg) as [Hc|[_ Hno]]; [|by destruct (Hno y)].
    rewrite (cached_unique _ _ _ _ _ _ _ Hca Hy Hc). apply (go_cached _ _ _ _ _ _ _ _ _ Hg).
Qed.

(** ** Copying one buffer over another *)

Definition copy_buf (s d : nat) : K unit :=
  sb <- get_buf s ;;
  upd_buf d (fun x => x <| b_data := b_data sb |>) ;;
  bwrite d ;;
  brelse s ;;
  brelse d.

Record copied k nd data d k' : Prop := {
  cp_thread : thread k';
  cp_cache : cache [] k';
  cp_rest : quiet k' = quiet (disk_write dev nd data (k <| k_bcache := k_bcache k' |>));
  cp_view : forall x, view k' x = if decide (x = nd) then data else view k x;
  cp_place : forall x, (x < HEAD)%nat -> b_dev (k_bcache k' !!! x) = b_dev (k_bcache k !!! x) /\
               b_blockno (k_bcache k' !!! x) = b_blockno (k_bcache k !!! x);
  cp_dirty : forall x, (x < HEAD)%nat -> dirty (k_bcache k' !!! x) = if decide (x = d) then false else dirty (k_bcache k !!! x);
  cp_inode : ilocks_kept k k'
}.

Lemma length_view held k n b : cache held k -> cached k n b -> length (view k n) = 512%nat.
Proof.
  intros Hca Hc. rewrite (view_cached _ _ _ _ _ _ Hca Hc). destruct Hc as (Hr & Hd & _).
  destruct Hca as [_ Hi]. by apply (bi_size _ _ _ _ _ _ Hi).
Qed.

Lemma copy_buf_ok held k e ns nd s d :
  thread k -> cache held k -> held ≡ₚ [s; d] -> cached k ns s -> cached k nd d -> ns <> nd -> disk_has k nd ->
  dirty (k_bcache k !!! s) = true \/ view k ns = disk_sector k dev ns ->
  exists k', copy_buf s d k e = Ok tt k' e /\ copied k nd (view k ns) d k'.
Proof.
  intros Ht Hca Hheld Hs Hd Hne Hhas Hsaved. apply (cache_perm dev pid _ _ _ Hheld) in Hca.
  assert (Hsd : s <> d) by (intros ->; destruct Hs as (_ & _ & H1), Hd as (_ & _ & H2); congruence).
  unfold copy_buf, get_buf, upd_buf. step. rewrite <- (view_cached _ _ _ _ _ _ Hca Hs).
  set (data := view k ns).
  destruct (store_ok dev i p pid [s; d] k nd d (fun _ => data) Ht Hca ltac:(set_solver) Hd)
    as (Ht1 & Hca1 & Hd1 & Hv1 & Hvo1); [intros _ _; by eapply length_view|].
  set (k1 := k <| k_bcache ::= _ |>) in *. cbv beta in Hv1.
  assert (Hs1 : k_bcache k1 !!! s = k_bcache k !!! s).
  { unfold k1. fields. by rewrite !list_lookup_total_alt, list_lookup_alter_ne. }
  destruct (bwrite_ok dev i p pid [s; d] k1 e nd d Ht1 Hca1 ltac:(set_solver) Hd1) as (k2 & Hrun2 & Hw).
  { by apply (disk_has_ide k k1). }
  rewrite (bind_ok _ _ _ _ _ _ _ Hrun2). destruct Hw as [Ht2 Hca2 Hd2 Hq2 Hsame2 Hcl2 Hv2 Hsl2].
  assert (Hs2 : k_bcache k2 !!! s = k_bcache k !!! s) by (by rewrite Hsame2).
  assert (Hcs2 : cached k2 ns s) by (unfold cached; rewrite Hs2; done).
  assert (Hdisk2 : k_disk k2 = <[(dev, nd) := data]> (k_disk k)).
  { etrans; [exact (f_equal k_disk Hq2)|]. by rewrite Hv1. }
  destruct (brelse_ok dev i p pid [d] k2 e ns s Ht2 Hca2 Hcs2) as (k3 & Hrun3 & Hf3).
  { rewrite Hs2. destruct Hsaved as [?|Hsv]; [by left|right]. rewrite Hv2, Hvo1, Hsv by done.
    unfold disk_sector. by rewrite Hdisk2, lookup_insert_ne by congruence. }
  rewrite (bind_ok _ _ _ _ _ _ _ Hrun3).
  pose proof (fun x => freed_info dev i p pid [d] k2 s k3 x Hf3) as Hi3.
  destruct Hf3 as [Ht3 Hca3 Hq3 _ Hv3 Hsl3]. pose proof Hd2 as (Hrd & Hdd & Hnd).
  assert (Hd3 : cached k3 nd d).
  { destruct (Hi3 d Hrd) as (_ & E1 & E2 & _). unfold cached. rewrite E1, E2. done. }
  assert (Hdisk3 : k_disk k3 = k_disk k2) by exact (f_equal k_disk Hq3).
  destruct (brelse_ok dev i p pid [] k3 e nd d Ht3 Hca3 Hd3) as (k4 & Hrun4 & Hf4).
  { right. unfold disk_sector. by rewrite Hv3, Hv2, Hv1, Hdisk3, Hdisk2, lookup_insert_eq. }
  exists k4. split; [exact Hrun4|]. pose proof (fun x => freed_info dev i p pid [] k3 d k4 x Hf4) as Hi4.
  destruct Hf4 as [Ht4 Hca4 Hq4 _ Hv4 Hsl4].
  assert (Hplace1 : forall x, b_dev (k_bcache k1 !!! x) = b_dev (k_bcache k !!! x) /\
    b_blockno (k_bcache k1 !!! x) = b_blockno (k_bcache k !!! x) /\ b_flags (k_bcache k1 !!! x) = b_flags (k_bcache k !!! x)).
  { intros x. unfold k1. fields. destruct (decide (x < length (k_bcache k))%nat).
    - rewrite total_alter by done. by case_decide.
    - by rewrite !list_lookup_total_alt, !lookup_ge_None_2 by (rewrite ?length_alter; lia). }
  split; [done|done| | | | |].
  - rewrite Hq4. transitivity (quiet (k2 <| k_bcache := k_bcache k4 |>)); [quiet_by Hq3|].
    transitivity (quiet (disk_write dev nd (view k1 nd) (k1 <| k_bcache := k_bcache k4 |>))); [quiet_by Hq2|].
    by rewrite Hv1.
  - intros x. rewrite Hv4, Hv3, Hv2. case_decide as Hx; [by subst x|by apply Hvo1].
  - intros x Hx. destruct (Hi4 x Hx) as (_ & -> & -> & _), (Hi3 x Hx) as (_ & -> & -> & _).
    destruct (decide (x = d)) as [->|Hxd].
    + destruct Hd as (_ & Hd' & Hn'). rewrite Hdd, Hnd. done.
    + rewrite Hsame2 by done. destruct (Hplace1 x) as (-> & -> & _). done.
  - intros x Hx. unfold dirty. destruct (Hi4 x Hx) as (-> & _), (Hi3 x Hx) as (-> & _).
    case_decide as Hxd; [by subst x|]. rewrite Hsame2 by done. destruct (Hplace1 x) as (_ & _ & ->). done.
  - intros x. rewrite Hsl4, Hsl3. unfold slock_of. by rewrite Hsl2.
Qed.

(** Enough buffers for two blocks, the second one pinned or not. *)
Definition room1 k n : Prop := exists b, cached k n b \/ reusable [] k b.
Definition room2 k n : Prop :=
  pinned k n \/ exists a b, a <> b /\ reusable [] k a /\ reusable [] k b.

Lemma copied_pinned held k nd data d k' x : cache held k -> cached k nd d -> copied k nd data d k' ->
  pinned k' x <-> pinned k x /\ x <> nd.
Proof.
  intros Hca Hd Hcp.
  assert (Hiff : forall y, cached k' x y <-> cached k x y).
  { intros y. unfold cached. split; intros (Hr & H1 & H2); destruct (cp_place _ _ _ _ _ Hcp y Hr) as [E1 E2];
      rewrite E1, E2 in *; done. }
  split.
  - intros (y & Hy & Hdi). apply Hiff in Hy. rewrite (cp_dirty _ _ _ _ _ Hcp) in Hdi by apply Hy.
    case_decide as Hyd; [done|]. split; [by exists y|]. intros ->.
    by apply Hyd, (cached_unique _ _ _ _ _ _ _ Hca Hy Hd).
  - intros [(y & Hy & Hdi) Hx]. exists y. split; [by apply Hiff|].
    rewrite (cp_dirty _ _ _ _ _ Hcp) by apply Hy. case_decide as Hyd; [|done]. subst y.
    destruct Hy as (_ & _ & H1), Hd as (_ & _ & H2). congruence.
Qed.

Lemma copy_step (snd_is_src : bool) nf n2 k e :
  thread k -> cache [] k -> nf <> n2 -> disk_has k nf -> disk_has k n2 -> room1 k nf -> room2 k n2 ->
  exists k',
    (x1 <- bread dev nf ;; x2 <- bread dev n2 ;;
     copy_buf (if snd_is_src then x2 else x1) (if snd_is_src then x1 else x2)) k e = Ok tt k' e /\
    stepped k (if snd_is_src then nf else n2) (view k (if snd_is_src then n2 else nf)) k'.
Proof.
  intros Ht Hca Hne Hhf Hh2 Hr1 Hr2.
  destruct (bread_ok dev i p pid nf k e [] Ht Hca ltac:(set_solver) Hhf Hr1) as (x1 & k1 & Hrun1 & Hg1).
  rewrite (bind_ok _ _ _ _ _ _ _ Hrun1).
  pose proof (go_thread _ _ _ _ _ _ _ _ _ Hg1) as Ht1. pose proof (go_cache _ _ _ _ _ _ _ _ _ Hg1) as Hca1.
  pose proof (go_cached _ _ _ _ _ _ _ _ _ Hg1) as Hc1.
  assert (Hh21 : disk_has k1 n2).
  { eapply disk_has_ide; [|exact Hh2]. exact (f_equal k_ide (go_rest _ _ _ _ _ _ _ _ _ Hg1)). }
  destruct (bread_ok dev i p pid n2 k1 e [x1] Ht1 Hca1) as (x2 & k2 & Hrun2 & Hg2).
  { intros b Hb Hcb. apply list_elem_of_singleton in Hb as ->. destruct Hc1 as (_ & _ & H1), Hcb as (_ & _ & H2).
    congruence. }
  { done. }
  { destruct Hr2 as [(b & Hb & Hdi)|(a & b & Hab & (Ha1 & Ha2 & Ha3) & (Hb1 & Hb2 & Hb3))].
    - exists b. left. by apply (got_keeps [] k nf x1 k1 n2 b); auto.
    - destruct (decide (a = x1)) as [->|Hax]; [exists b|exists a]; right; (split; [done|split; [set_solver|]]);
        by rewrite (got_dirty _ _ _ _ _ _ Hg1). }
  rewrite (bind_ok _ _ _ _ _ _ _ Hrun2).
  pose proof (go_thread _ _ _ _ _ _ _ _ _ Hg2) as Ht2. pose proof (go_cache _ _ _ _ _ _ _ _ _ Hg2) as Hca2.
  pose proof (go_cached _ _ _ _ _ _ _ _ _ Hg2) as Hc2.
  assert (Hc1' : cached k2 nf x1) by (by apply (got_keeps [x1] k1 n2 x2 k2 nf x1); [..|left; set_solver]).
  assert (Hview : forall m, view k2 m = view k m).
  { intros m. rewrite (go_view _ _ _ _ _ _ _ _ _ Hg2). apply (go_view _ _ _ _ _ _ _ _ _ Hg1). }
  assert (Hq : quiet k2 = quiet (k <| k_bcache := k_bcache k2 |>)).
  { rewrite (go_rest _ _ _ _ _ _ _ _ _ Hg2). pose proof (go_rest _ _ _ _ _ _ _ _ _ Hg1) as Hq1. quiet_by Hq1. }
  assert (Hpin : forall x, pinned k2 x <-> pinned k x).
  { intros x. rewrite (got_pinned _ _ _ _ _ x Hca1 Hg2). by apply (got_pinned [] k nf x1). }
  set (s := if snd_is_src then x2 else x1). set (d := if snd_is_src then x1 else x2).
  set (ns := if snd_is_src then n2 else nf). set (nd := if snd_is_src then nf else n2).
  assert (Hs : cached k2 ns s) by (by unfold ns, s; destruct snd_is_src).
  assert (Hd : cached k2 nd d) by (by unfold nd, d; destruct snd_is_src).
  destruct (copy_buf_ok [x2; x1] k2 e ns nd s d Ht2 Hca2) as (k3 & Hrun3 & Hcp).
  - unfold s, d. destruct snd_is_src; [done|]. apply perm_swap.
  - done.
  - done.
  - unfold ns, nd. by destruct snd_is_src.
  - apply (disk_has_ide k k2); [exact (f_equal k_ide Hq)|]. unfold nd. by destruct snd_is_src.
  - destruct (dirty (k_bcache k2 !!! s)) eqn:Edi; [by left|right]. rewrite Hview.
    unfold disk_sector. rewrite (f_equal k_disk Hq : k_disk k2 = k_disk k). apply view_unpinned; [done|].
    intros Hp. apply Hpin in Hp as (b & Hb & Hdi). rewrite (cached_unique _ _ _ _ _ _ _ Hca2 Hb Hs) in Hdi. congruence.
  - exists k3. split; [exact Hrun3|]. rewrite Hview in Hcp. split.
    + apply (cp_thread _ _ _ _ _ Hcp).
    + apply (cp_cache _ _ _ _ _ Hcp).
    + rewrite (cp_rest _ _ _ _ _ Hcp). quiet_by Hq.
    + intros x. rewrite (cp_view _ _ _ _ _ Hcp), Hview. done.
    + intros x. rewrite (copied_pinned _ _ _ _ _ _ x Hca2 Hd Hcp), Hpin. done.
    + intros b Hb Hdi. rewrite (cp_dirty _ _ _ _ _ Hcp) by done. case_decide; [done|].
      rewrite (got_dirty _ _ _ _ _ _ Hg2), (got_dirty _ _ _ _ _ _ Hg1). done.
    + intros x. by rewrite (cp_inode _ _ _ _ _ Hcp), (go_inode _ _ _ _ _ _ _ _ _ Hg2), (go_inode _ _ _ _ _ _ _ _ _ Hg1).
Qed.

(** ** Rewriting a block in place *)

Lemma rewrite_step (f : list Z -> list Z) n k e :
  thread k -> cache [] k -> disk_has k n -> room1 k n ->
  (forall d, length d = 512%nat -> length (f d) = 512%nat) ->
  exists b k1 k', bread dev n k e = Ok b k1 e /\
    (bwrite b ;; brelse b) (k1 <| k_bcache ::= alter (fun x => x <| b_data ::= f |>) b |>) e = Ok tt k' e /\
    quiet k1 = quiet (k <| k_bcache := k_bcache k1 |>) /\ stepped k n (f (view k n)) k'.
Proof.
  intros Ht Hca Hh Hr Hf.
  destruct (bread_ok dev i p pid n k e [] Ht Hca ltac:(set_solver) Hh Hr) as (b & k1 & Hrun1 & Hg).
  pose proof (go_cached _ _ _ _ _ _ _ _ _ Hg) as Hc1. pose proof (go_rest _ _ _ _ _ _ _ _ _ Hg) as Hq1.
  pose proof (go_view _ _ _ _ _ _ _ _ _ Hg) as Hv1. pose proof (go_cache _ _ _ _ _ _ _ _ _ Hg) as Hca1.
  destruct (store_ok dev i p pid [b] k1 n b f (go_thread _ _ _ _ _ _ _ _ _ Hg) Hca1
    ltac:(set_solver) Hc1 Hf) as (Ht2 & Hca2 & Hc2 & Hvn2 & Hvm2).
  set (k2 := k1 <| k_bcache ::= _ |>) in *.
  destruct (bwrite_ok dev i p pid [b] k2 e n b Ht2 Hca2 ltac:(set_solver) Hc2) as (k3 & Hrun3 & Hw).
  { apply (disk_has_ide k k2); [exact (f_equal k_ide Hq1)|done]. }
  destruct Hw as [Ht3 Hca3 Hc3 Hq3 Hs3 Hcl3 Hv3 Hsl3].
  destruct (brelse_ok dev i p pid [] k3 e n b Ht3 Hca3 Hc3) as (k4 & Hrun4 & Hf4).
  { right. assert (Hdk : k_disk k3 = <[(dev, n) := view k2 n]> (k_disk k2)) by exact (f_equal k_disk Hq3).
    unfold disk_sector. by rewrite Hv3, Hdk, lookup_insert_eq. }
  exists b, k1, k4. split_and!; [done|by rewrite (bind_ok _ _ _ _ _ _ _ Hrun3)|done|].
  pose proof (fun x => freed_info dev i p pid [] k3 b k4 x Hf4) as Hi4.
  destruct Hf4 as [Ht4 Hca4 Hq4 _ Hv4 Hsl4].
  assert (Hk2 : forall x, b_dev (k_bcache k2 !!! x) = b_dev (k_bcache k1 !!! x) /\
    b_blockno (k_bcache k2 !!! x) = b_blockno (k_bcache k1 !!! x) /\ b_flags (k_bcache k2 !!! x) = b_flags (k_bcache k1 !!! x)).
  { intros x. unfold k2. fields. destruct (decide (x < length (k_bcache k1))%nat).
    - rewrite total_alter by done. by case_decide.
    - by rewrite !list_lookup_total_alt, !lookup_ge_None_2 by (rewrite ?length_alter; lia). }
  rewrite Hv1 in Hvn2.
  assert (Hcp : copied k1 n (f (view k n)) b k4).
  { split; [done|done| | | | |].
    - rewrite Hq4. transitivity (quiet (disk_write dev n (view k2 n) (k2 <| k_bcache := k_bcache k4 |>))); [quiet_by Hq3|].
      by rewrite Hvn2.
    - intros x. rewrite Hv4, Hv3. case_decide as Hx; [by subst x|by apply Hvm2].
    - intros x Hx. destruct (Hi4 x Hx) as (_ & -> & -> & _). destruct (decide (x = b)) as [->|Hxb].
      + destruct Hc3 as (_ & -> & ->), Hc1 as (_ & -> & ->). done.
      + rewrite Hs3 by done. destruct (Hk2 x) as (-> & -> & _). done.
    - intros x Hx. unfold dirty. destruct (Hi4 x Hx) as (-> & _). case_decide as Hxb; [by subst x|].
      rewrite Hs3 by done. destruct (Hk2 x) as (_ & _ & ->). done.
    - intros x. rewrite Hsl4. unfold slock_of. by rewrite Hsl3. }
  split.
  - done.
  - done.
  - rewrite (cp_rest _ _ _ _ _ Hcp). quiet_by Hq1.
  - intros x. rewrite (cp_view _ _ _ _ _ Hcp), Hv1. done.
  - intros x. rewrite (copied_pinned _ _ _ _ _ _ x Hca1 Hc1 Hcp). by rewrite (got_pinned _ _ _ _ _ x Hca Hg).
  - intros x Hx Hdi. rewrite (cp_dirty _ _ _ _ _ Hcp) by done. case_decide; [done|].
    rewrite (got_dirty _ _ _ _ _ _ Hg). done.
  - intros x. by rewrite (cp_inode _ _ _ _ _ Hcp), (go_inode _ _ _ _ _ _ _ _ _ Hg).
Qed.

(** ** The header block *)

Fixpoint put_blocks (c : nat) (j : Z) (bl d : list Z) : list Z :=
  match c with
  | O => d
  | S c' => put_blocks c' (j + 1) bl (put32 d (lh_off j) (zget bl j))
  end.
(** The header for the first [n] blocks of [bl], over the old header. *)
Definition head_bytes (n : Z) (bl d : list Z) : list Z := put_blocks (Z.to_nat n) 0 bl (put32 d 0 n).

Lemma length_put_blocks c : forall j bl d, 0 <= j -> j + Z.of_nat c <= LOGSIZE ->
  length d = 512%nat -> length (put_blocks c j bl d) = 512%nat.
Proof.
  induction c as [|c IH]; intros j bl d Hj Hc Hd; [done|]. cbn [put_blocks].
  apply IH; [lia|lia|]. rewrite length_put32; [done|]. unfold lh_off, LOGSIZE, MAXOPBLOCKS in *. lia.
Qed.

Lemma put_blocks_get c : forall j bl d o, 0 <= j -> j + Z.of_nat c <= LOGSIZE -> length d = 512%nat ->
  (forall t, j <= t < j + Z.of_nat c -> get32 (put_blocks c j bl d) (lh_off t) = u32 (zget bl t)) /\
  ((o + 4 <= lh_off j)%nat -> get32 (put_blocks c j bl d) o = get32 d o).
Proof.
  induction c as [|c IH]; intros j bl d o Hj Hc Hd; cbn [put_blocks]; [split; [intros; lia|done]|].
  set (d1 := put32 d (lh_off j) (zget bl j)).
  assert (Hoff : (lh_off j + 4 <= length d)%nat) by (unfold lh_off, LOGSIZE, MAXOPBLOCKS in *; lia).
  assert (Hd1 : length d1 = 512%nat) by (unfold d1; by rewrite length_put32).
  assert (Hj1 : (lh_off (j + 1) = lh_off j + 4)%nat) by (unfold lh_off; lia).
  split.
  - intros t Ht. destruct (decide (t = j)) as [->|Htj].
    + destruct (IH (j + 1) bl d1 (lh_off j)) as [_ Ho]; [lia|lia|done|]. rewrite Ho by lia.
      unfold d1. by apply get32_put32_eq.
    + apply (IH (j + 1) bl d1 O); [lia|lia|done|lia].
  - intros Ho. destruct (IH (j + 1) bl d1 o) as [_ Hg]; [lia|lia|done|]. rewrite Hg by lia.
    unfold d1. apply get32_put32_ne; lia.
Qed.

Lemma head_bytes_spec n bl d : 0 <= n <= LOGSIZE -> length d = 512%nat ->
  length (head_bytes n bl d) = 512%nat /\ get32 (head_bytes n bl d) 0 = n /\
  (forall t, 0 <= t < n -> get32 (head_bytes n bl d) (lh_off t) = u32 (zget bl t)).
Proof.
  intros Hn Hd. unfold head_bytes. assert (Hp : length (put32 d 0 n) = 512%nat) by (by rewrite length_put32 by lia).
  split_and!.
  - apply length_put_blocks; [lia|lia|done].
  - destruct (put_blocks_get (Z.to_nat n) 0 bl (put32 d 0 n) 0) as [_ Hg]; [lia|lia|done|].
    rewrite Hg by (unfold lh_off; lia).
    rewrite get32_put32_eq by lia. apply u32_small. unfold LOGSIZE, MAXOPBLOCKS in *. lia.
  - intros t Ht. apply (put_blocks_get (Z.to_nat n) 0 bl (put32 d 0 n) 0); [lia|lia|done|lia].
Qed.

Lemma head_loop b bl c : forall j k e (h : list Z -> list Z),
  for_ c j (fun j => upd_buf b (fun x => x <| b_data ::= fun d => put32 d (lh_off j) (zget bl j) |>))
    (k <| k_bcache ::= alter (fun x => x <| b_data ::= h |>) b |>) e =
  Ok tt (k <| k_bcache ::= alter (fun x => x <| b_data ::= fun d => put_blocks c j bl (h d) |>) b |>) e.
Proof.
  induction c as [|c IH]; intros j k e h; cbn [for_]; [done|]. unfold upd_buf at 1. step.
  etrans; [|exact (IH (j + 1) k e (fun d => put32 (h d) (lh_off j) (zget bl j)))]. f_equal.
  change (k <| k_bcache := alter (fun x => x <| b_data ::= fun d => put32 d (lh_off j) (zget bl j) |>) b
            (alter (fun x => x <| b_data ::= h |>) b (k_bcache k)) |> =
          k <| k_bcache := alter (fun x => x <| b_data ::= fun d => put32 (h d) (lh_off j) (zget bl j) |>) b (k_bcache k) |>).
  by rewrite list_alter_alter_eq.
Qed.

Lemma write_head_ok k e :
  thread k -> cache [] k -> l_dev (k_log k) = dev -> disk_has k (l_start (k_log k)) ->
  room1 k (l_start (k_log k)) -> 0 <= lh_n (k_log k) <= LOGSIZE ->
  exists k', write_head k e = Ok tt k' e /\
    stepped k (l_start (k_log k)) (head_bytes (lh_n (k_log k)) (lh_block (k_log k)) (view k (l_start (k_log k)))) k'.
Proof.
  intros Ht Hca Hd Hh Hr Hn. set (lg := k_log k) in *.
  destruct (rewrite_step (head_bytes (lh_n lg) (lh_block lg)) (l_start lg) k e Ht Hca Hh Hr)
    as (b & k1 & k' & Hrun1 & Hrun2 & Hq & Hs).
  { intros d Hl. by apply head_bytes_spec. }
  exists k'. split; [|exact Hs]. unfold write_head, get_log. step. unfold id. fold lg.
  rewrite Hd, (bind_ok _ _ _ _ _ _ _ Hrun1). unfold upd_buf at 1. step.
  rewrite (bind_ok _ _ _ _ _ _ _ (head_loop b (lh_block lg) (Z.to_nat (lh_n lg)) 0 k1 e (fun d => put32 d 0 (lh_n lg)))).
  exact Hrun2.
Qed.
End logfacts.
