(* ===== verification/CommitFacts.v ===== *)
(** commit and recovery as sequences of disk writes. *)
From S2P Require Import Prelude Kernel Mem BlockFacts Spinlock Locks Console Vm Sched Sleeplock SleepFacts.
From S2P Require Import Ide Bio LruFacts BioFacts Log LogFacts.

(** A disk write: disk, sector, data. *)
Definition dwrite : Type := Z * Z * list Z.

(** The disk after some writes, and the state. *)
Definition replay (ws : list dwrite) (D : gmap (Z * Z) (list Z)) : gmap (Z * Z) (list Z) :=
  foldl (fun D w => <[w.1 := w.2]> D) D ws.
Definition redo (ws : list dwrite) (k : kernel) : kernel :=
  foldl (fun k w => disk_write w.1.1 w.1.2 w.2 k) k ws.

Lemma redo_disk ws : forall k, k_disk (redo ws k) = replay ws (k_disk k).
Proof. induction ws as [|[[d m] x] ws IH]; intros k; [done|]. cbn [redo foldl]. by apply IH. Qed.
Lemma redo_dwrites ws : forall k, k_dwrites (redo ws k) = k_dwrites k ++ ws.
Proof.
  induction ws as [|[[d m] x] ws IH]; intros k; [by rewrite app_nil_r|]. cbn [redo foldl].
  etrans; [apply IH|]. unfold disk_write. fields. by rewrite <- app_assoc.
Qed.

(** The last block written at [x], else [V x]. *)
Definition overlay (ws : list dwrite) (V : Z -> list Z) : Z -> list Z :=
  foldl (fun V w x => if decide (x = w.1.2) then w.2 else V x) V ws.

Lemma overlay_app ws1 ws2 V x : overlay (ws1 ++ ws2) V x = overlay ws2 (overlay ws1 V) x.
Proof. unfold overlay. by rewrite foldl_app. Qed.

Lemma overlay_ext ws : forall V V' x, (forall y, V y = V' y) -> overlay ws V x = overlay ws V' x.
Proof.
  induction ws as [|w ws IH]; intros V V' x Hv; [apply Hv|]. cbn [overlay foldl]. apply IH.
  intros y. by case_decide.
Qed.

(** Blocks that are not written, and the only write of a block. *)
Lemma overlay_out ws : forall V x, (forall w, w ∈ ws -> w.1.2 <> x) -> overlay ws V x = V x.
Proof.
  induction ws as [|w ws IH]; intros V x Hx; [done|]. cbn [overlay foldl].
  etrans; [apply IH; intros; apply Hx; set_solver|]. rewrite decide_False; [done|].
  intros E. by apply (Hx w); [set_solver|].
Qed.
Lemma overlay_in ws V w : NoDup ws.*1.*2 -> w ∈ ws -> overlay ws V w.1.2 = w.2.
Proof.
  revert V. induction ws as [|v ws IH]; intros V Hnd Hw; [set_solver|].
  rewrite !fmap_cons in Hnd. apply list.NoDup_cons in Hnd as [Hv Hnd]. cbn [overlay foldl].
  apply elem_of_cons in Hw as [->|Hw]; [|by apply IH].
  etrans; [apply overlay_out|by rewrite decide_True].
  intros u Hu E. apply Hv. rewrite <- E. apply list_elem_of_fmap. exists u.1.
  split; [done|]. apply list_elem_of_fmap. by exists u.
Qed.

(** The sectors of one disk under writes to it. *)
Lemma replay_sector dev ws : forall D, Forall (fun w => w.1.1 = dev) ws ->
  forall m, default (replicate 512 0) (replay ws D !! (dev, m)) =
    overlay ws (fun m => default (replicate 512 0) (D !! (dev, m))) m.
Proof.
  induction ws as [|[[d x] data] ws IH]; intros D Hd m; [done|]. apply Forall_cons_1 in Hd as [Hd Hds].
  cbn [replay foldl overlay]. etrans; [by apply IH|]. apply overlay_ext. intros y. simpl in *. subst d.
  case_decide as Hy; [subst y; by rewrite lookup_insert_eq|]. by rewrite lookup_insert_ne by congruence.
Qed.

Section commit.
Context `{HD : DiskDriver} (dev : Z) {HOK : DiskOk dev} (i p : nat) (pid : Z).
Implicit Types (k : kernel) (e : env) (b : nat) (m n : Z) (ws : list dwrite).

Local Notation thread := (thread i p pid).
Local Notation cache := (cache dev pid).
Local Notation view := (view dev).
Local Notation pinned := (pinned dev).
Local Notation stepped := (stepped dev i p pid).

(** A run that writes [ws], nothing held before and after. *)
Record ran k ws k' : Prop := {
  rn_thread : thread k';
  rn_cache : cache [] k';
  rn_rest : quiet k' = quiet (redo ws (k <| k_bcache := k_bcache k' |>));
  rn_dev : Forall (fun w => w.1.1 = dev) ws;
  rn_view : forall x, view k' x = overlay ws (view k) x;
  rn_pinned : forall x, pinned k' x <-> pinned k x /\ x ∉ ws.*1.*2;
  rn_clean : forall b, (b < HEAD)%nat -> dirty (k_bcache k !!! b) = false -> dirty (k_bcache k' !!! b) = false;
  rn_inode : ilocks_kept k k'
}.

Lemma redo_quiet ws : forall k k', quiet k = quiet k' -> quiet (redo ws k) = quiet (redo ws k').
Proof.
  induction ws as [|w ws IH]; intros k k' Hq; [done|]. cbn [redo foldl]. apply IH.
  transitivity (disk_write w.1.1 w.1.2 w.2 (quiet k)); [done|]. by rewrite Hq.
Qed.
Lemma redo_bcache ws bs : forall k, redo ws k <| k_bcache := bs |> = redo ws (k <| k_bcache := bs |>).
Proof. induction ws as [|w ws IH]; intros k; [done|]. cbn [redo foldl]. exact (IH (disk_write w.1.1 w.1.2 w.2 k)). Qed.

Lemma ran_nil k : thread k -> cache [] k -> ran k [] k.
Proof.
  intros Ht Hc. split; [done|done|by destruct k|constructor|done| |done|done]. intros x. set_solver.
Qed.

Lemma ran_step k m data k' : stepped k m data k' -> ran k [(dev, m, data)] k'.
Proof.
  intros [H1 H2 H3 H4 H5 H6 H7]. split; [done|done|done|by repeat constructor|done| |done|done].
  intros x. rewrite H5. simpl. set_solver.
Qed.

Lemma ran_trans k ws1 k1 ws2 k2 : ran k ws1 k1 -> ran k1 ws2 k2 -> ran k (ws1 ++ ws2) k2.
Proof.
  intros [A1 A2 A3 A4 A5 A6 A7 A8] [B1 B2 B3 B4 B5 B6 B7 B8]. split; [done|done| | | | |auto|intros x; by rewrite B8].
  - rewrite B3. unfold redo at 2. rewrite foldl_app. fold (redo ws1 (k <| k_bcache := k_bcache k2 |>)).
    apply redo_quiet. rewrite <- redo_bcache.
    transitivity (quiet (redo ws1 (k <| k_bcache := k_bcache k1 |>) <| k_bcache := k_bcache k2 |>));
      [exact (f_equal (fun q => q <| k_bcache := k_bcache k2 |>) A3)|]. by rewrite !redo_bcache.
  - by apply Forall_app.
  - intros x. rewrite B5, overlay_app. by apply overlay_ext.
  - intros x. rewrite B6, A6, !fmap_app. set_solver.
Qed.

Lemma redo_log ws : forall k, k_log (redo ws k) = k_log k.
Proof. induction ws as [|w ws IH]; intros k; [done|]. cbn [redo foldl]. by etrans; [apply IH|]. Qed.
Lemma redo_ide ws : forall k, k_ide (redo ws k) = k_ide k.
Proof. induction ws as [|w ws IH]; intros k; [done|]. cbn [redo foldl]. by etrans; [apply IH|]. Qed.

(** The tables of files and inodes, and the superblock. *)
Definition tables k : list file * list inode * superblock := (k_ftable k, k_icache k, k_sb k).
Lemma redo_tables ws : forall k, tables (redo ws k) = tables k.
Proof. induction ws as [|w ws IH]; intros k; [done|]. cbn [redo foldl]. by etrans; [apply IH|]. Qed.

Lemma ran_log k ws k' : ran k ws k' -> k_log k' = k_log k.
Proof.
  intros Hr. etrans; [exact (f_equal k_log (rn_rest _ _ _ Hr))|].
  change (k_log (redo ws (k <| k_bcache := k_bcache k' |>)) = k_log k). by rewrite redo_log.
Qed.
Lemma ran_ide k ws k' : ran k ws k' -> k_ide k' = k_ide k.
Proof.
  intros Hr. etrans; [exact (f_equal k_ide (rn_rest _ _ _ Hr))|].
  change (k_ide (redo ws (k <| k_bcache := k_bcache k' |>)) = k_ide k). by rewrite redo_ide.
Qed.
Lemma ran_tables k ws k' : ran k ws k' -> tables k' = tables k.
Proof.
  intros Hr. etrans; [exact (f_equal tables (rn_rest _ _ _ Hr))|].
  change (tables (redo ws (k <| k_bcache := k_bcache k' |>)) = tables k). by rewrite redo_tables.
Qed.
(** These, and who has locked an inode. *)
Definition tables_kept k k' : Prop := tables k' = tables k /\ ilocks_kept k k'.
Lemma tables_kept_trans k1 k2 k3 : tables_kept k1 k2 -> tables_kept k2 k3 -> tables_kept k1 k3.
Proof. intros [A1 A2] [B1 B2]. split; [congruence|]. intros s. by rewrite B2. Qed.
Lemma ran_kept k ws k' : ran k ws k' -> tables_kept k k'.
Proof. intros Hr. split; [by eapply ran_tables|apply (rn_inode _ _ _ Hr)]. Qed.
Lemma ran_disk k ws k' : ran k ws k' -> k_disk k' = replay ws (k_disk k).
Proof.
  intros Hr. etrans; [exact (f_equal k_disk (rn_rest _ _ _ Hr))|].
  change (k_disk (redo ws (k <| k_bcache := k_bcache k' |>)) = replay ws (k_disk k)). by rewrite redo_disk.
Qed.
Lemma ran_dwrites k ws k' : ran k ws k' -> k_dwrites k' = k_dwrites k ++ ws.
Proof.
  intros Hr. etrans; [exact (f_equal k_dwrites (rn_rest _ _ _ Hr))|].
  change (k_dwrites (redo ws (k <| k_bcache := k_bcache k' |>)) = k_dwrites k ++ ws). by rewrite redo_dwrites.
Qed.

(** ** The log's place on the disk *)

Definition in_log start x : Prop := start <= x <= start + LOGSIZE.

(** [n] blocks in the log, the [t]th for block [home t]. *)
Record geom start n (home : Z -> Z) k : Prop := {
  ge_start : 0 <= start /\ start + LOGSIZE < 2 ^ 31;
  ge_n : 0 <= n <= LOGSIZE;
  ge_home : forall t, 0 <= t < n -> ~ in_log start (home t) /\ 0 <= home t < 2 ^ 32 /\ disk_has k (home t);
  ge_inj : forall s t, 0 <= s < n -> 0 <= t < n -> home s = home t -> s = t;
  ge_log : forall t, 0 <= t <= n -> disk_has k (start + t)
}.

Lemma geom_ide start n home k k' : k_ide k' = k_ide k -> geom start n home k -> geom start n home k'.
Proof.
  intros He [H1 H2 H3 H4 H5]. split; [done|done| |done|].
  - intros t Ht. destruct (H3 t Ht) as (? & ? & ?). split; [done|]. split; [done|]. by apply (disk_has_ide k k').
  - intros t Ht. apply (disk_has_ide k k'); [done|]. by apply H5.
Qed.

(** The log of the state: its start, its blocks. *)
Definition log_is start n (home : Z -> Z) k : Prop :=
  l_dev (k_log k) = dev /\ l_start (k_log k) = start /\ lh_n (k_log k) = n /\
  (forall t, 0 <= t < n -> zget (lh_block (k_log k)) t = home t).

Definition spare k : Prop := exists b, reusable [] k b.

Lemma spare_ran k ws k' : ran k ws k' -> spare k -> spare k'.
Proof. intros Hr (b & Hb & Hn & Hd). exists b. split_and!; [done|done|]. by apply (rn_clean _ _ _ Hr). Qed.

(** What write_log writes for the slots [j], ..., [j + c - 1]. *)
Definition slots (c : nat) (j : Z) : list Z := (fun t => j + Z.of_nat t) <$> seq 0 c.
Lemma slots_S c j : slots (S c) j = j :: slots c (j + 1).
Proof.
  unfold slots. cbn [seq fmap list_fmap]. rewrite Z.add_0_r. f_equal.
  rewrite <- fmap_S_seq, <- list_fmap_compose. apply list_fmap_ext. intros ? t _. simpl. lia.
Qed.
Lemma elem_of_slots c j t : t ∈ slots c j <-> j <= t < j + Z.of_nat c.
Proof.
  unfold slots. rewrite list_elem_of_fmap. split.
  - intros (x & -> & Hx). apply elem_of_seq in Hx. lia.
  - intros Ht. exists (Z.to_nat (t - j)). split; [lia|]. apply elem_of_seq. lia.
Qed.

Definition log_writes start (home : Z -> Z) (V : Z -> list Z) ts : list dwrite :=
  (fun t => (dev, start + t + 1, V (home t))) <$> ts.
Definition home_writes start (home : Z -> Z) (V : Z -> list Z) ts : list dwrite :=
  (fun t => (dev, home t, V (start + t + 1))) <$> ts.

Lemma log_block_ok start n home t k e :
  thread k -> cache [] k -> log_is start n home k -> geom start n home k -> 0 <= t < n ->
  spare k -> pinned k (home t) ->
  exists k', log_block t k e = Ok tt k' e /\ stepped k (start + t + 1) (view k (home t)) k'.
Proof.
  intros Ht Hca (Hd & Hs & Hn & Hb) Hg Htn (b & Hre) Hp.
  destruct (ge_home _ _ _ _ Hg t Htn) as (Hout & Hr & Hh). destruct (ge_start _ _ _ _ Hg) as [? ?].
  pose proof (ge_n _ _ _ _ Hg).
  assert (Hu : u32 (start + t + 1) = start + t + 1) by (apply u32_small; lia).
  destruct (copy_step dev i p pid true (start + t + 1) (home t) k e Ht Hca) as (k' & Hrun & Hst).
  - unfold in_log in Hout. lia.
  - replace (start + t + 1) with (start + (t + 1)) by lia. apply (ge_log _ _ _ _ Hg). lia.
  - done.
  - exists b. by right.
  - by left.
  - exists k'. split; [|exact Hst]. unfold log_block, get_log. step. unfold id.
    rewrite Hd, Hs, Hb, Hu by done. exact Hrun.
Qed.

Lemma install_block_ok start n home t k e :
  thread k -> cache [] k -> log_is start n home k -> geom start n home k -> 0 <= t < n ->
  spare k -> room2 dev k (home t) ->
  exists k', install_block t k e = Ok tt k' e /\ stepped k (home t) (view k (start + t + 1)) k'.
Proof.
  intros Ht Hca (Hd & Hs & Hn & Hb) Hg Htn (b & Hre) Hp.
  destruct (ge_home _ _ _ _ Hg t Htn) as (Hout & Hr & Hh). destruct (ge_start _ _ _ _ Hg) as [? ?].
  pose proof (ge_n _ _ _ _ Hg).
  assert (Hu : u32 (start + t + 1) = start + t + 1) by (apply u32_small; lia).
  destruct (copy_step dev i p pid false (start + t + 1) (home t) k e Ht Hca) as (k' & Hrun & Hst).
  - unfold in_log in Hout. lia.
  - replace (start + t + 1) with (start + (t + 1)) by lia. apply (ge_log _ _ _ _ Hg). lia.
  - done.
  - exists b. by right.
  - done.
  - exists k'. split; [|exact Hst]. unfold install_block, get_log. step. unfold id.
    rewrite Hd, Hs, Hb, Hu by done. exact Hrun.
Qed.

(** ** The loops *)

Lemma log_is_ran start n home k ws k' : ran k ws k' -> log_is start n home k -> log_is start n home k'.
Proof. intros Hr. unfold log_is. by rewrite (ran_log _ _ _ Hr). Qed.

Lemma log_writes_ext start home V V' ts : (forall t, t ∈ ts -> V (home t) = V' (home t)) ->
  log_writes start home V ts = log_writes start home V' ts.
Proof. intros Hv. apply list_fmap_ext. intros j t Hj. by rewrite Hv by (by eapply list_elem_of_lookup_2). Qed.
Lemma home_writes_ext start home V V' ts : (forall t, t ∈ ts -> V (start + t + 1) = V' (start + t + 1)) ->
  home_writes start home V ts = home_writes start home V' ts.
Proof. intros Hv. apply list_fmap_ext. intros j t Hj. by rewrite Hv by (by eapply list_elem_of_lookup_2). Qed.

Lemma write_log_loop start n home e c : forall j k,
  thread k -> cache [] k -> log_is start n home k -> geom start n home k -> spare k ->
  0 <= j -> j + Z.of_nat c <= n -> (forall t, j <= t < j + Z.of_nat c -> pinned k (home t)) ->
  exists k', for_ c j log_block k e = Ok tt k' e /\ ran k (log_writes start home (view k) (slots c j)) k'.
Proof.
  induction c as [|c IH]; intros j k Ht Hca Hl Hg Hsp Hj Hc Hp.
  { exists k. split; [done|by apply ran_nil]. }
  cbn [for_]. destruct (log_block_ok start n home j k e Ht Hca Hl Hg ltac:(lia) Hsp (Hp j ltac:(lia))) as (k1 & Hrun & Hst).
  rewrite (bind_ok _ _ _ _ _ _ _ Hrun). pose proof (ran_step _ _ _ _ Hst) as Hr1.
  destruct (IH (j + 1) k1) as (k' & Hrun' & Hr').
  - apply (rn_thread _ _ _ Hr1).
  - apply (rn_cache _ _ _ Hr1).
  - by apply (log_is_ran _ _ _ _ _ _ Hr1).
  - eapply geom_ide; [|exact Hg]. by apply (ran_ide _ _ _ Hr1).
  - by apply (spare_ran _ _ _ Hr1).
  - lia.
  - lia.
  - intros t Hlt. apply (rn_pinned _ _ _ Hr1). split; [apply Hp; lia|]. simpl.
    destruct (ge_home _ _ _ _ Hg t ltac:(lia)) as [Hout _]. pose proof (ge_n _ _ _ _ Hg). unfold in_log in Hout.
    intros Hin. apply list_elem_of_singleton in Hin. lia.
  - exists k'. split; [done|]. rewrite slots_S. cbn [log_writes fmap list_fmap].
    change ((dev, start + j + 1, view k (home j)) :: ?l) with ([(dev, start + j + 1, view k (home j))] ++ l).
    eapply ran_trans; [exact Hr1|].
    change (ran k1 (log_writes start home (view k) (slots c (j + 1))) k').
    rewrite (log_writes_ext start home (view k) (view k1)); [done|].
    intros t Hin. apply elem_of_slots in Hin. rewrite (sp_view _ _ _ _ _ _ _ _ Hst), decide_False; [done|].
    destruct (ge_home _ _ _ _ Hg t ltac:(lia)) as [Hout _]. pose proof (ge_n _ _ _ _ Hg). unfold in_log in Hout. lia.
Qed.

Lemma install_loop start n home e c : forall j k,
  thread k -> cache [] k -> log_is start n home k -> geom start n home k -> spare k ->
  0 <= j -> j + Z.of_nat c <= n ->
  ((forall t, j <= t < j + Z.of_nat c -> pinned k (home t)) \/
   exists a b, a <> b /\ reusable [] k a /\ reusable [] k b) ->
  exists k', for_ c j install_block k e = Ok tt k' e /\ ran k (home_writes start home (view k) (slots c j)) k'.
Proof.
  induction c as [|c IH]; intros j k Ht Hca Hl Hg Hsp Hj Hc Hp.
  { exists k. split; [done|by apply ran_nil]. }
  cbn [for_]. destruct (install_block_ok start n home j k e Ht Hca Hl Hg ltac:(lia) Hsp) as (k1 & Hrun & Hst).
  { destruct Hp as [Hp|Hp]; [left; apply Hp; lia|by right]. }
  rewrite (bind_ok _ _ _ _ _ _ _ Hrun). pose proof (ran_step _ _ _ _ Hst) as Hr1.
  destruct (IH (j + 1) k1) as (k' & Hrun' & Hr').
  - apply (rn_thread _ _ _ Hr1).
  - apply (rn_cache _ _ _ Hr1).
  - by apply (log_is_ran _ _ _ _ _ _ Hr1).
  - eapply geom_ide; [|exact Hg]. by apply (ran_ide _ _ _ Hr1).
  - by apply (spare_ran _ _ _ Hr1).
  - lia.
  - lia.
  - destruct Hp as [Hp|(a & b & Hab & (Ha1 & Ha2 & Ha3) & (Hb1 & Hb2 & Hb3))]; [left|right].
    + intros t Hlt. apply (rn_pinned _ _ _ Hr1). split; [apply Hp; lia|]. simpl.
      intros Hin. apply list_elem_of_singleton in Hin. apply (ge_inj _ _ _ _ Hg) in Hin; lia.
    + exists a, b. split; [done|]. split; (split_and!; [done|done|by apply (rn_clean _ _ _ Hr1)]).
  - exists k'. split; [done|]. rewrite slots_S. cbn [home_writes fmap list_fmap].
    change ((dev, home j, view k (start + j + 1)) :: ?l) with ([(dev, home j, view k (start + j + 1))] ++ l).
    eapply ran_trans; [exact Hr1|].
    change (ran k1 (home_writes start home (view k) (slots c (j + 1))) k').
    rewrite (home_writes_ext start home (view k) (view k1)); [done|].
    intros t Hin. apply elem_of_slots in Hin. rewrite (sp_view _ _ _ _ _ _ _ _ Hst), decide_False; [done|].
    destruct (ge_home _ _ _ _ Hg j ltac:(lia)) as [Hout _]. pose proof (ge_n _ _ _ _ Hg). unfold in_log in Hout. lia.
Qed.

(** ** commit *)

Definition install_writes (home : Z -> Z) (V : Z -> list Z) ts : list dwrite :=
  (fun t => (dev, home t, V (home t))) <$> ts.

(** The log blocks, the header that commits, the blocks at home, and the
    header that ends the transaction. *)
Definition commit_writes start n (home : Z -> Z) (bl : list Z) (V : Z -> list Z) : list dwrite :=
  log_writes start home V (slots (Z.to_nat n) 0) ++
  [(dev, start, head_bytes n bl (V start))] ++
  install_writes home V (slots (Z.to_nat n) 0) ++
  [(dev, start, head_bytes 0 bl (head_bytes n bl (V start)))].

Lemma nodup_slots c j : NoDup (slots c j).
Proof. unfold slots. apply NoDup_fmap_2; [intros x y; lia|apply NoDup_seq]. Qed.

Lemma nodup_fmap_slots (f : Z -> Z) c j :
  (forall s t, j <= s < j + Z.of_nat c -> j <= t < j + Z.of_nat c -> f s = f t -> s = t) -> NoDup (f <$> slots c j).
Proof.
  intros Hf. apply NoDup_fmap_2_strong; [|apply nodup_slots].
  intros x y Hx Hy. rewrite elem_of_slots in Hx, Hy. by apply Hf.
Qed.

Lemma log_writes_blocks start home V ts : (log_writes start home V ts).*1.*2 = (fun t => start + t + 1) <$> ts.
Proof. unfold log_writes. by rewrite <- !list_fmap_compose. Qed.
Lemma install_writes_blocks home V ts : (install_writes home V ts).*1.*2 = home <$> ts.
Proof. unfold install_writes. by rewrite <- !list_fmap_compose. Qed.

Lemma overlay_log_in start home V V' c t : 0 <= t < Z.of_nat c ->
  overlay (log_writes start home V (slots c 0)) V' (start + t + 1) = V (home t).
Proof.
  intros Ht. apply (overlay_in _ V' (dev, start + t + 1, V (home t))).
  - rewrite log_writes_blocks. apply nodup_fmap_slots. intros; lia.
  - apply list_elem_of_fmap. exists t. split; [done|]. apply elem_of_slots. lia.
Qed.
Lemma overlay_log_out start home V V' c x : (x <= start \/ start + Z.of_nat c < x) ->
  overlay (log_writes start home V (slots c 0)) V' x = V' x.
Proof.
  intros Hx. apply overlay_out. intros w Hw. apply list_elem_of_fmap in Hw as (t & -> & Ht).
  apply elem_of_slots in Ht. simpl. lia.
Qed.

Lemma cache_log held k f : cache held k -> cache held (k <| k_log ::= f |>).
Proof. intros [H1 H2]. by split. Qed.
Lemma thread_log k f : thread k -> thread (k <| k_log ::= f |>).
Proof. intros Ht. by eapply thread_same; [..|exact Ht]. Qed.

Record committed start n (home : Z -> Z) k k' : Prop := {
  cm_thread : thread k';
  cm_cache : cache [] k';
  cm_dwrites : k_dwrites k' = k_dwrites k ++ commit_writes start n home (lh_block (k_log k)) (view k);
  cm_disk : k_disk k' = replay (commit_writes start n home (lh_block (k_log k)) (view k)) (k_disk k);
  cm_log : k_log k' = k_log k <| lh_n := 0 |>;
  cm_ide : k_ide k' = k_ide k;
  cm_tables : tables_kept k k';
  cm_view : forall x, ~ in_log start x -> view k' x = view k x;
  cm_pinned : forall x, pinned k' x <-> pinned k x /\ x <> start /\
                (forall t, 0 <= t < n -> x <> home t /\ x <> start + t + 1)
}.

Lemma install_trans_for start n home k e : log_is start n home k ->
  install_trans k e = for_ (Z.to_nat n) 0 install_block k e.
Proof. intros (_ & _ & Hn & _). unfold install_trans, get_log. step. by rewrite Hn. Qed.
Lemma write_log_for start n home k e : log_is start n home k ->
  write_log k e = for_ (Z.to_nat n) 0 log_block k e.
Proof. intros (_ & _ & Hn & _). unfold write_log, get_log. step. by rewrite Hn. Qed.

Lemma room_spare k n : spare k -> room1 dev k n.
Proof. intros [b Hb]. exists b. by right. Qed.

(** The first three phases. *)
Lemma commit_phases start n home k e :
  thread k -> cache [] k -> log_is start n home k -> geom start n home k -> 0 < n -> spare k ->
  (forall t, 0 <= t < n -> pinned k (home t)) ->
  exists k', (write_log ;; write_head ;; install_trans) k e = Ok tt k' e /\
    ran k (log_writes start home (view k) (slots (Z.to_nat n) 0) ++
           [(dev, start, head_bytes n (lh_block (k_log k)) (view k start))] ++
           install_writes home (view k) (slots (Z.to_nat n) 0)) k'.
Proof.
  intros Ht Hca Hl Hg Hn Hsp Hp. pose proof (ge_n _ _ _ _ Hg) as Hns.
  destruct (write_log_loop start n home e (Z.to_nat n) 0 k Ht Hca Hl Hg Hsp) as (k1 & Hrun1 & Hr1); [lia|lia| |].
  { intros t Hlt. apply Hp. lia. }
  rewrite <- (write_log_for start n home) in Hrun1 by done. rewrite (bind_ok _ _ _ _ _ _ _ Hrun1).
  pose proof (log_is_ran _ _ _ _ _ _ Hr1 Hl) as Hl1. pose proof Hl1 as (Hd1 & Hs1 & Hn1 & _).
  assert (Hg1 : geom start n home k1) by (eapply geom_ide; [by apply (ran_ide _ _ _ Hr1)|done]).
  pose proof (spare_ran _ _ _ Hr1 Hsp) as Hsp1.
  destruct (write_head_ok dev i p pid k1 e (rn_thread _ _ _ Hr1) (rn_cache _ _ _ Hr1) Hd1) as (k2 & Hrun2 & Hst2).
  { rewrite Hs1. replace start with (start + 0) by lia. apply (ge_log _ _ _ _ Hg1). lia. }
  { by apply room_spare. }
  { by rewrite Hn1. }
  rewrite (bind_ok _ _ _ _ _ _ _ Hrun2). rewrite Hs1, Hn1, (ran_log _ _ _ Hr1) in Hst2.
  assert (Hv1 : view k1 start = view k start).
  { rewrite (rn_view _ _ _ Hr1). apply overlay_log_out. lia. }
  rewrite Hv1 in Hst2. pose proof (ran_step _ _ _ _ Hst2) as Hr2. pose proof (ran_trans _ _ _ _ _ Hr1 Hr2) as Hr12.
  pose proof (log_is_ran _ _ _ _ _ _ Hr2 Hl1) as Hl2.
  destruct (install_loop start n home e (Z.to_nat n) 0 k2 (rn_thread _ _ _ Hr2) (rn_cache _ _ _ Hr2) Hl2)
    as (k3 & Hrun3 & Hr3).
  { eapply geom_ide; [by apply (ran_ide _ _ _ Hr2)|done]. }
  { by apply (spare_ran _ _ _ Hr2). }
  { lia. }
  { lia. }
  { left. intros t Hlt. apply (rn_pinned _ _ _ Hr12). split; [apply Hp; lia|].
    destruct (ge_home _ _ _ _ Hg t ltac:(lia)) as [Hout _]. unfold in_log in Hout.
    rewrite !fmap_app, log_writes_blocks. simpl. rewrite elem_of_app, list_elem_of_singleton, list_elem_of_fmap.
    intros [(s & Hs & Hin)|Hs]; [apply elem_of_slots in Hin; lia|lia]. }
  rewrite <- (install_trans_for start n home) in Hrun3 by done. exists k3. split; [done|].
  rewrite app_assoc. eapply ran_trans; [exact Hr12|].
  assert (Heq : install_writes home (view k) (slots (Z.to_nat n) 0) = home_writes start home (view k2) (slots (Z.to_nat n) 0));
    [|by rewrite Heq].
  apply list_fmap_ext. intros j t Hj. apply list_elem_of_lookup_2, elem_of_slots in Hj.
  f_equal. rewrite (rn_view _ _ _ Hr12), overlay_app, overlay_out.
  - symmetry. apply overlay_log_in. lia.
  - intros w Hw. apply list_elem_of_singleton in Hw as ->. simpl. lia.
Qed.

Lemma pinned_log k f x : pinned (k <| k_log ::= f |>) x <-> pinned k x.
Proof. done. Qed.

(** Ending the transaction: the in-memory header cleared, then the one on disk. *)
Lemma clear_log_ok start k e :
  thread k -> cache [] k -> l_dev (k_log k) = dev -> l_start (k_log k) = start -> disk_has k start -> spare k ->
  exists k', (upd_log (fun l => l <| lh_n := 0 |>) ;; write_head) k e = Ok tt k' e /\
    ran (k <| k_log ::= fun l => l <| lh_n := 0 |> |>) [(dev, start, head_bytes 0 (lh_block (k_log k)) (view k start))] k'.
Proof.
  intros Ht Hca Hd Hs Hh Hsp. unfold upd_log. step. set (k1 := k <| k_log ::= _ |>).
  destruct (write_head_ok dev i p pid k1 e) as (k' & Hrun & Hst).
  - by apply thread_log.
  - by apply cache_log.
  - done.
  - apply (disk_has_ide k k1); [done|]. by rewrite <- Hs in Hh.
  - by apply room_spare.
  - change (lh_n (k_log k1)) with 0. unfold LOGSIZE, MAXOPBLOCKS. lia.
  - exists k'. split; [done|]. apply ran_step. change (l_start (k_log k1)) with (l_start (k_log k)) in Hst.
    rewrite Hs in Hst. exact Hst.
Qed.

Lemma commit_ok start n home k e :
  thread k -> cache [] k -> log_is start n home k -> geom start n home k -> 0 < n -> spare k ->
  (forall t, 0 <= t < n -> pinned k (home t)) ->
  exists k', commit k e = Ok tt k' e /\ committed start n home k k'.
Proof.
  intros Ht Hca Hl Hg Hn Hsp Hp. pose proof Hl as (Hd & Hs & Hln & _).
  destruct (commit_phases start n home k e Ht Hca Hl Hg Hn Hsp Hp) as (k1 & Hrun1 & Hr1).
  set (W1 := _ ++ _ ++ _) in Hr1. set (bl := lh_block (k_log k)) in *.
  destruct (clear_log_ok start k1 e (rn_thread _ _ _ Hr1) (rn_cache _ _ _ Hr1)) as (k2 & Hrun2 & Hr2).
  { by rewrite (ran_log _ _ _ Hr1). }
  { by rewrite (ran_log _ _ _ Hr1). }
  { apply (disk_has_ide k k1); [by apply (ran_ide _ _ _ Hr1)|].
    replace start with (start + 0) by lia. apply (ge_log _ _ _ _ Hg). lia. }
  { by apply (spare_ran _ _ _ Hr1). }
  exists k2. split.
  { unfold commit, get_log. step. rewrite Hln, (proj2 (Z.ltb_lt 0 n)) by done. cbn [when].
    unfold bind in Hrun1, Hrun2 |- *.
    destruct (write_log k e) as [[] ka ea| | |]; [|done..].
    destruct (write_head ka ea) as [[] kb eb| | |]; [|done..]. by rewrite Hrun1. }
  set (k1' := k1 <| k_log ::= _ |>) in *.
  assert (Hhome : forall x, in_log start x -> forall w, w ∈ install_writes home (view k) (slots (Z.to_nat n) 0) -> w.1.2 <> x).
  { intros x Hx w Hw. apply list_elem_of_fmap in Hw as (t & -> & Htn). apply elem_of_slots in Htn. simpl.
    destruct (ge_home _ _ _ _ Hg t ltac:(lia)) as [Hout _]. intros E. by rewrite E in Hout. }
  pose proof (ge_n _ _ _ _ Hg) as Hns.
  assert (Hv1 : view k1 start = head_bytes n bl (view k start)).
  { rewrite (rn_view _ _ _ Hr1). unfold W1. rewrite !overlay_app, overlay_out.
    - simpl. by rewrite decide_True.
    - apply Hhome. unfold in_log, LOGSIZE, MAXOPBLOCKS. lia. }
  rewrite Hv1, (ran_log _ _ _ Hr1) in Hr2. fold bl in Hr2.
  assert (Hcw : commit_writes start n home bl (view k) = W1 ++ [(dev, start, head_bytes 0 bl (head_bytes n bl (view k start)))]).
  { unfold commit_writes, W1. by rewrite <- !app_assoc. }
  assert (Hview : forall x, view k2 x = overlay (commit_writes start n home bl (view k)) (view k) x).
  { intros x. rewrite (rn_view _ _ _ Hr2), Hcw, overlay_app. apply overlay_ext.
    intros y. change (view k1' y) with (view k1 y). apply (rn_view _ _ _ Hr1). }
  split.
  - apply (rn_thread _ _ _ Hr2).
  - apply (rn_cache _ _ _ Hr2).
  - fold bl. rewrite (ran_dwrites _ _ _ Hr2), Hcw, app_assoc. change (k_dwrites k1') with (k_dwrites k1).
    by rewrite (ran_dwrites _ _ _ Hr1).
  - fold bl. rewrite (ran_disk _ _ _ Hr2), Hcw. unfold replay. rewrite foldl_app. change (k_disk k1') with (k_disk k1).
    by rewrite (ran_disk _ _ _ Hr1).
  - rewrite (ran_log _ _ _ Hr2). unfold k1'. fields. by rewrite (ran_log _ _ _ Hr1).
  - rewrite (ran_ide _ _ _ Hr2). change (k_ide k1') with (k_ide k1). apply (ran_ide _ _ _ Hr1).
  - apply (tables_kept_trans _ k1); [by apply (ran_kept _ _ _ Hr1)|by apply (ran_kept _ _ _ Hr2)].
  - intros x Hx. rewrite Hview. unfold commit_writes. rewrite !overlay_app.
    rewrite (overlay_out [_]) by (intros w Hw; apply list_elem_of_singleton in Hw as ->; simpl; unfold in_log in Hx;
      unfold LOGSIZE, MAXOPBLOCKS in *; lia).
    destruct (decide (x ∈ home <$> slots (Z.to_nat n) 0)) as [Hin|Hin].
    + apply list_elem_of_fmap in Hin as (t & -> & Hts).
      apply (overlay_in _ _ (dev, home t, view k (home t))).
      * rewrite install_writes_blocks. apply nodup_fmap_slots. intros; apply (ge_inj _ _ _ _ Hg); [lia..|done].
      * apply list_elem_of_fmap. by exists t.
    + rewrite overlay_out.
      2:{ intros w Hw. apply list_elem_of_fmap in Hw as (t & -> & Hts). simpl. intros <-. apply Hin.
          apply list_elem_of_fmap. by exists t. }
      rewrite (overlay_out [_]) by (intros w Hw; apply list_elem_of_singleton in Hw as ->; simpl; unfold in_log in Hx;
        unfold LOGSIZE, MAXOPBLOCKS in *; lia).
      apply overlay_log_out. unfold in_log in Hx. lia.
  - intros x. rewrite (rn_pinned _ _ _ Hr2). unfold k1'. rewrite pinned_log, (rn_pinned _ _ _ Hr1). unfold W1.
    rewrite !fmap_app, log_writes_blocks, install_writes_blocks. simpl.
    rewrite !elem_of_app, elem_of_cons, !list_elem_of_singleton, !list_elem_of_fmap.
    setoid_rewrite elem_of_slots. split.
    + intros [[Hpx Hno] Hxs]. split_and!; [done|tauto|]. intros t Hlt. split; intros ->; apply Hno.
      * right. right. exists t. split; [done|lia].
      * left. exists t. split; [done|lia].
    + intros (Hpx & Hxs & Hno). split; [|done]. split; [done|].
      intros [(t & -> & Hlt)|[?|(t & -> & Hlt)]]; [|done|]; destruct (Hno t ltac:(lia)); done.
Qed.
End commit.
