(* ===== verification/CrashFacts.v ===== *)
(** Recovery after a crash: what recover_from_log makes of the disk it finds. *)
From S2P Require Import Prelude Kernel Mem BlockFacts Spinlock Locks Console Vm Sched Sleeplock SleepFacts.
From S2P Require Import Ide Bio LruFacts BioFacts Log LogFacts CommitFacts.

Section crash.
Context `{HD : DiskDriver} (dev : Z) {HOK : DiskOk dev} (i p : nat) (pid : Z).
Implicit Types (k : kernel) (e : env) (b : nat) (m n : Z) (ws : list dwrite).

Local Notation thread := (thread i p pid).
Local Notation cache := (cache dev pid).
Local Notation view := (view dev).
Local Notation pinned := (pinned dev).
Local Notation ran := (ran dev i p pid).

(** Filling the in-memory header from slot [j] on. *)
Lemma head_fill (g : Z -> Z) c : forall j k e, 0 <= j -> j + Z.of_nat c <= LOGSIZE ->
  zlen (lh_block (k_log k)) = LOGSIZE ->
  exists bl, for_ c j (fun j => set_lh_block j (g j)) k e = Ok tt (k <| k_log ::= fun l => l <| lh_block := bl |> |>) e /\
    zlen bl = LOGSIZE /\ (forall t, j <= t < j + Z.of_nat c -> zget bl t = g t) /\
    (forall t, 0 <= t < j -> zget bl t = zget (lh_block (k_log k)) t).
Proof.
  induction c as [|c IH]; intros j k e Hj Hc Hlen; cbn [for_].
  { exists (lh_block (k_log k)). split_and!; [|done|intros; lia|done]. unfold ret. f_equal.
    destruct k as [? ? ? ? ? ? ? ? ? ? ? ? ? ? ? ? ? ? ? ? ? []]. done. }
  unfold set_lh_block at 1. rewrite (proj2 (Z.ltb_ge j 0)), (proj2 (Z.leb_gt LOGSIZE j)) by lia. cbn [orb].
  unfold upd_log. step. set (k1 := k <| k_log ::= _ |>).
  destruct (IH (j + 1) k1 e) as (bl & Hrun & Hl & Hg & Hb); [lia|lia|unfold k1; fields; by rewrite zlen_zset|].
  exists bl. split_and!; [exact Hrun|done| |].
  - intros t Ht. destruct (decide (t = j)) as [->|Htj]; [|apply Hg; lia].
    rewrite Hb by lia. unfold k1. fields. apply zget_zset_eq. rewrite Hlen. lia.
  - intros t Ht. rewrite Hb by lia. unfold k1. fields. apply zget_zset_ne; lia.
Qed.

Lemma read_head_ok start k e :
  thread k -> cache [] k -> l_dev (k_log k) = dev -> l_start (k_log k) = start -> disk_has k start -> spare k ->
  zlen (lh_block (k_log k)) = LOGSIZE -> 0 <= i32 (get32 (view k start) 0) <= LOGSIZE ->
  exists k', read_head k e = Ok tt k' e /\ thread k' /\ cache [] k' /\
    log_is dev start (i32 (get32 (view k start) 0)) (fun t => get32 (view k start) (lh_off t)) k' /\
    zlen (lh_block (k_log k')) = LOGSIZE /\ k_ide k' = k_ide k /\ k_disk k' = k_disk k /\
    (forall x, view k' x = view k x) /\ (forall b, (b < HEAD)%nat -> dirty (k_bcache k' !!! b) = dirty (k_bcache k !!! b)).
Proof.
  intros Ht Hca Hd Hs Hh Hsp Hlen Hn. unfold read_head, get_log. step. unfold id. rewrite Hd, Hs.
  destruct (bread_ok dev i p pid start k e [] Ht Hca ltac:(set_solver) Hh (room_spare dev k start Hsp)) as (b & k1 & Hrun1 & Hg).
  rewrite (bind_ok _ _ _ _ _ _ _ Hrun1). unfold get_buf, upd_log at 1. step.
  pose proof (go_cache _ _ _ _ _ _ _ _ _ Hg) as Hca1. pose proof (go_cached _ _ _ _ _ _ _ _ _ Hg) as Hc1.
  pose proof (go_rest _ _ _ _ _ _ _ _ _ Hg) as Hq1.
  assert (Hdata : b_data (k_bcache k1 !!! b) = view k start).
  { rewrite <- (view_cached _ _ _ _ _ _ Hca1 Hc1). apply (go_view _ _ _ _ _ _ _ _ _ Hg). }
  rewrite Hdata. set (n := i32 _) in *. set (g := fun j => get32 (view k start) (lh_off j)).
  assert (Hlog1 : k_log k1 = k_log k) by exact (f_equal k_log Hq1).
  set (k2 := k1 <| k_log ::= _ |>).
  destruct (head_fill g (Z.to_nat n) 0 k2 e) as (bl & Hrun2 & Hbl & Hget & _); [lia|lia|by unfold k2; fields; rewrite Hlog1|].
  rewrite (bind_ok _ _ _ _ _ _ _ Hrun2). set (k3 := k2 <| k_log ::= _ |>).
  assert (Hca3 : cache [b] k3) by (by apply cache_log, cache_log).
  destruct (brelse_ok dev i p pid [] k3 e start b) as (k4 & Hrun4 & Hf).
  { by apply thread_log, thread_log, (go_thread _ _ _ _ _ _ _ _ _ Hg). }
  { done. }
  { done. }
  { destruct (dirty (k_bcache k1 !!! b)) eqn:Edi; [by left|right].
    change (view k1 start = disk_sector k1 dev start). rewrite (go_view _ _ _ _ _ _ _ _ _ Hg).
    unfold disk_sector. rewrite (f_equal k_disk Hq1 : k_disk k1 = k_disk k). apply view_unpinned with pid; [done|].
    intros (y & Hy & Hdi). rewrite (go_dirty _ _ _ _ _ _ _ _ _ Hg) in Edi.
    destruct (go_old _ _ _ _ _ _ _ _ _ Hg) as [Hc|[_ Hno]]; [|by apply (Hno y)].
    rewrite (cached_unique _ _ _ _ _ _ _ Hca Hy Hc) in Hdi. congruence. }
  exists k4. split; [done|]. pose proof (fun x => freed_info dev i p pid [] k3 b k4 x Hf) as Hi4.
  destruct Hf as [Ht4 Hca4 Hq4 _ Hv4 _].
  assert (Hlog4 : k_log k4 = k_log k <| lh_n := n |> <| lh_block := bl |>).
  { etrans; [exact (f_equal k_log Hq4)|].
    change (k_log k1 <| lh_n := n |> <| lh_block := bl |> = k_log k <| lh_n := n |> <| lh_block := bl |>).
    by rewrite Hlog1. }
  split_and!; [done|done| | | | | |].
  - unfold log_is. rewrite Hlog4. fields. split_and!; [done|done|done|]. intros t Htn. apply Hget. lia.
  - by rewrite Hlog4.
  - etrans; [exact (f_equal k_ide Hq4)|]. exact (f_equal k_ide Hq1).
  - etrans; [exact (f_equal k_disk Hq4)|]. exact (f_equal k_disk Hq1).
  - intros x. rewrite Hv4. apply (go_view _ _ _ _ _ _ _ _ _ Hg).
  - intros x Hx. unfold dirty. destruct (Hi4 x Hx) as (-> & _).
    change (dirty (k_bcache k1 !!! x) = dirty (k_bcache k !!! x)). apply (got_dirty _ _ _ _ _ _ _ _ _ _ Hg).
Qed.

(** A kernel that has just booted: nothing pinned, the log's place known. *)
Record booted start k : Prop := {
  bo_thread : thread k;
  bo_cache : cache [] k;
  bo_clean : forall b, (b < HEAD)%nat -> dirty (k_bcache k !!! b) = false;
  bo_dev : l_dev (k_log k) = dev;
  bo_start : l_start (k_log k) = start;
  bo_block : zlen (lh_block (k_log k)) = LOGSIZE
}.

Lemma booted_view start k x : booted start k -> view k x = disk_sector k dev x.
Proof.
  intros Hb. apply view_unpinned with pid; [apply (bo_cache _ _ Hb)|]. intros (b & (Hr & _) & Hd).
  rewrite (bo_clean _ _ Hb b Hr) in Hd. done.
Qed.

Lemma clean_spares k : (forall b, (b < HEAD)%nat -> dirty (k_bcache k !!! b) = false) ->
  spare k /\ exists a b, a <> b /\ reusable [] k a /\ reusable [] k b.
Proof.
  intros Hc. assert (H0 : reusable [] k 0) by (split_and!; [vm_compute; lia|set_solver|apply Hc; vm_compute; lia]).
  assert (H1 : reusable [] k 1) by (split_and!; [vm_compute; lia|set_solver|apply Hc; vm_compute; lia]).
  split; [by exists 0%nat|by exists 0%nat, 1%nat].
Qed.

(** Recovery copies the blocks the header names from the log to their homes,
    and changes nothing else outside the log. *)
Lemma recover_ok start n home k e :
  booted start k -> n = i32 (get32 (disk_sector k dev start) 0) ->
  (forall t, 0 <= t < n -> home t = get32 (disk_sector k dev start) (lh_off t)) -> geom dev start n home k ->
  exists k', recover_from_log k e = Ok tt k' e /\
    (forall t, 0 <= t < n -> disk_sector k' dev (home t) = disk_sector k dev (start + t + 1)) /\
    (forall x, ~ in_log start x -> (forall t, 0 <= t < n -> home t <> x) -> disk_sector k' dev x = disk_sector k dev x).
Proof.
  intros Hb Hn Hhome Hg. pose proof (booted_view start k start Hb) as Hvs.
  destruct (clean_spares k (bo_clean _ _ Hb)) as [Hsp _]. unfold recover_from_log.
  assert (Hhs : disk_has k start).
  { replace start with (start + 0) by lia. apply (ge_log _ _ _ _ _ Hg). pose proof (ge_n _ _ _ _ _ Hg). lia. }
  destruct (read_head_ok start k e (bo_thread _ _ Hb) (bo_cache _ _ Hb) (bo_dev _ _ Hb) (bo_start _ _ Hb) Hhs Hsp
    (bo_block _ _ Hb)) as (k1 & Hrun1 & Ht1 & Hca1 & Hl1 & Hlen1 & Hide1 & Hdisk1 & Hv1 & Hd1).
  { rewrite Hvs, <- Hn. apply (ge_n _ _ _ _ _ Hg). }
  rewrite Hvs, <- Hn in Hl1. rewrite (bind_ok _ _ _ _ _ _ _ Hrun1).
  assert (Hl1' : log_is dev start n home k1).
  { destruct Hl1 as (? & ? & ? & Hz). split_and!; [done..|]. intros t Ht. rewrite Hz, Hhome by done. done. }
  assert (Hc1 : forall b, (b < HEAD)%nat -> dirty (k_bcache k1 !!! b) = false).
  { intros b Hr. rewrite Hd1 by done. by apply (bo_clean _ _ Hb). }
  destruct (clean_spares k1 Hc1) as [Hsp1 Htwo1]. pose proof (ge_n _ _ _ _ _ Hg) as Hns.
  assert (Hg1 : geom dev start n home k1) by (by eapply geom_ide).
  destruct (install_loop dev i p pid start n home e (Z.to_nat n) 0 k1 Ht1 Hca1 Hl1' Hg1 Hsp1) as (k2 & Hrun2 & Hr2);
    [lia|lia|by right|].
  rewrite <- (install_trans_for dev start n home) in Hrun2 by done. rewrite (bind_ok _ _ _ _ _ _ _ Hrun2).
  destruct (clear_log_ok dev i p pid start k2 e (rn_thread _ _ _ _ _ _ _ Hr2) (rn_cache _ _ _ _ _ _ _ Hr2)) as (k3 & Hrun3 & Hr3).
  { rewrite (ran_log _ _ _ _ _ _ _ Hr2). apply Hl1'. }
  { rewrite (ran_log _ _ _ _ _ _ _ Hr2). apply Hl1'. }
  { apply (disk_has_ide k k2); [|done]. by rewrite (ran_ide _ _ _ _ _ _ _ Hr2). }
  { by apply (spare_ran _ _ _ _ _ _ _ Hr2). }
  exists k3. split; [exact Hrun3|].
  set (hdr := (dev, start, head_bytes 0 _ _)) in Hr3.
  assert (Hds : forall x, x <> start -> disk_sector k3 dev x =
    overlay (home_writes dev start home (view k1) (slots (Z.to_nat n) 0)) (disk_sector k dev) x).
  { intros x Hx. unfold disk_sector at 1. rewrite (ran_disk _ _ _ _ _ _ _ Hr3).
    rewrite (replay_sector dev) by apply (rn_dev _ _ _ _ _ _ _ Hr3).
    rewrite overlay_out by (intros w Hw; apply list_elem_of_singleton in Hw as ->; simpl; lia).
    change (k_disk (k2 <| k_log ::= _ |>)) with (k_disk k2). rewrite (ran_disk _ _ _ _ _ _ _ Hr2).
    rewrite (replay_sector dev) by apply (rn_dev _ _ _ _ _ _ _ Hr2). by rewrite Hdisk1. }
  split.
  - intros t Htn. destruct (ge_home _ _ _ _ _ Hg t Htn) as (Hout & _). rewrite Hds.
    2:{ intros E. apply Hout. rewrite E. unfold in_log, LOGSIZE, MAXOPBLOCKS. lia. }
    etrans; [apply (overlay_in _ _ (dev, home t, view k1 (start + t + 1)))|].
    + unfold home_writes. rewrite <- !list_fmap_compose. apply nodup_fmap_slots.
      intros s t' Hs Ht' E. apply (ge_inj _ _ _ _ _ Hg); [lia..|done].
    + apply list_elem_of_fmap. exists t. split; [done|]. apply elem_of_slots. lia.
    + simpl. by rewrite Hv1, (booted_view start).
  - intros x Hx Hno. rewrite Hds.
    2:{ intros ->. apply Hx. unfold in_log, LOGSIZE, MAXOPBLOCKS. lia. }
    apply overlay_out. intros w Hw. apply list_elem_of_fmap in Hw as (t & -> & Hts). apply elem_of_slots in Hts.
    apply Hno. lia.
Qed.

(** ** Crashes during commit *)

(** The disk sectors that matter to a file system on the disk. *)
Definition same_outside start k (V : Z -> list Z) : Prop :=
  forall x, ~ in_log start x -> disk_sector k dev x = V x.

Section points.
Context (start n : Z) (home : Z -> Z) (bl : list Z) (V : Z -> list Z) (D : gmap (Z * Z) (list Z)).

Local Notation sector D x := (default (replicate 512 0) (D !! (dev, x))).

(** Before the transaction: an empty header on disk, blocks to be changed in
    the log's list, the others as on disk. *)
Record before : Prop := {
  be_head : i32 (get32 (sector D start) 0) = 0;
  be_len : length (V start) = 512%nat;
  be_block : forall t, 0 <= t < n -> zget bl t = home t;
  be_rest : forall x, ~ in_log start x -> (forall t, 0 <= t < n -> home t <> x) -> V x = sector D x
}.

Local Notation A := (log_writes dev start home V (slots (Z.to_nat n) 0)).
Local Notation B := (install_writes dev home V (slots (Z.to_nat n) 0)).
Local Notation h := ((dev, start, head_bytes n bl (V start)) : dwrite).
Local Notation h0 := ((dev, start, head_bytes 0 bl (head_bytes n bl (V start))) : dwrite).

Lemma crash_sector k ws x : k_disk k = replay ws D -> Forall (fun w => w.1.1 = dev) ws ->
  disk_sector k dev x = overlay ws (fun x => sector D x) x.
Proof. intros Hd Hw. unfold disk_sector. rewrite Hd. by apply replay_sector. Qed.

Lemma in_A w : w ∈ A -> w.1.1 = dev /\ start < w.1.2 <= start + Z.of_nat (Z.to_nat n).
Proof. intros Hw. apply list_elem_of_fmap in Hw as (t & -> & Ht). apply elem_of_slots in Ht. simpl. lia. Qed.
Lemma in_B k w : geom dev start n home k -> w ∈ B -> w.1.1 = dev /\ ~ in_log start w.1.2 /\ w.2 = V w.1.2 /\
  exists t, 0 <= t < n /\ w.1.2 = home t.
Proof.
  intros Hg Hw. apply list_elem_of_fmap in Hw as (t & -> & Ht). apply elem_of_slots in Ht. simpl.
  destruct (ge_home _ _ _ _ _ Hg t ltac:(lia)) as [Ho _]. split_and!; [done|done|done|]. exists t. split; [lia|done].
Qed.

(** With an empty header recovery leaves the disk as it is. *)
Lemma recover_empty k e : booted start k -> geom dev start n home k ->
  i32 (get32 (disk_sector k dev start) 0) = 0 ->
  exists k', recover_from_log k e = Ok tt k' e /\ same_outside start k' (disk_sector k dev).
Proof.
  intros Hb Hg Hz. destruct Hg as [G1 G2 G3 G4 G5].
  destruct (recover_ok start 0 home k e Hb) as (k' & Hrun & _ & Hx); [by rewrite Hz|intros; lia| |].
  { split; [done|unfold LOGSIZE, MAXOPBLOCKS; lia|intros; lia|intros; lia|]. intros t Ht. apply G5. lia. }
  exists k'. split; [done|]. intros x Hout. apply Hx; [done|]. intros; lia.
Qed.

(** Before the header is written. *)
Lemma crash_early k e ws : before -> booted start k -> geom dev start n home k ->
  (forall w, w ∈ ws -> w ∈ A) -> k_disk k = replay ws D ->
  exists k', recover_from_log k e = Ok tt k' e /\ same_outside start k' (fun x => sector D x).
Proof.
  intros Hbe Hb Hg Hin Hd. pose proof (ge_n _ _ _ _ _ Hg).
  assert (Hsec : forall x, x <= start \/ start + LOGSIZE < x -> disk_sector k dev x = sector D x).
  { intros x Hx. rewrite (crash_sector k ws x Hd).
    - apply overlay_out. intros w Hw. destruct (in_A w (Hin w Hw)). lia.
    - apply list.Forall_forall. intros w Hw. by apply in_A, Hin. }
  destruct (recover_empty k e Hb Hg) as (k' & Hrun & Hs).
  { rewrite Hsec by lia. apply (be_head Hbe). }
  exists k'. split; [done|]. intros x Hx. rewrite Hs by done. apply Hsec. unfold in_log in Hx. lia.
Qed.

(** A block outside the log after the blocks [Q] of the install phase. *)
Lemma overlay_install k Q x : before -> geom dev start n home k -> (forall w, w ∈ Q -> w ∈ B) ->
  ~ in_log start x -> (forall t, 0 <= t < n -> home t <> x) -> overlay (A ++ [h] ++ Q) (fun x => sector D x) x = V x.
Proof.
  intros Hbe Hg HQ Hx Hno. pose proof (ge_n _ _ _ _ _ Hg). unfold in_log in Hx.
  rewrite (be_rest Hbe x Hx Hno). apply overlay_out. intros w Hw. rewrite !elem_of_app in Hw.
  destruct Hw as [Hw|[Hw|Hw]].
  - destruct (in_A w Hw). lia.
  - apply list_elem_of_singleton in Hw as ->. simpl. unfold LOGSIZE, MAXOPBLOCKS in *. lia.
  - destruct (in_B k w Hg (HQ w Hw)) as (_ & _ & _ & t & Ht & ->). auto.
Qed.

(** After the header, before the transaction is ended. *)
Lemma crash_committed k e Q : before -> booted start k -> geom dev start n home k ->
  (forall w, w ∈ Q -> w ∈ B) -> k_disk k = replay (A ++ [h] ++ Q) D ->
  exists k', recover_from_log k e = Ok tt k' e /\ same_outside start k' V.
Proof.
  intros Hbe Hb Hg HQ Hd. pose proof (ge_n _ _ _ _ _ Hg) as Hn.
  assert (Hdev : Forall (fun w => w.1.1 = dev) (A ++ [h] ++ Q)).
  { apply list.Forall_forall. intros w Hw. rewrite !elem_of_app in Hw. destruct Hw as [Hw|[Hw|Hw]].
    - by apply in_A. - by apply list_elem_of_singleton in Hw as ->. - by apply (in_B k w Hg), HQ. }
  assert (HQout : forall x, in_log start x -> forall w, w ∈ Q -> w.1.2 <> x).
  { intros x Hx w Hw E. destruct (in_B k w Hg (HQ w Hw)) as (_ & Ho & _). by rewrite E in Ho. }
  assert (Hstart : disk_sector k dev start = head_bytes n bl (V start)).
  { rewrite (crash_sector k _ start Hd Hdev), !overlay_app, overlay_out.
    - simpl. by rewrite decide_True.
    - apply HQout. unfold in_log, LOGSIZE, MAXOPBLOCKS. lia. }
  assert (Hslot : forall t, 0 <= t < n -> disk_sector k dev (start + t + 1) = V (home t)).
  { intros t Ht. rewrite (crash_sector k _ _ Hd Hdev), !overlay_app, overlay_out.
    - rewrite overlay_out; [apply overlay_log_in; lia|].
      intros w Hw. apply list_elem_of_singleton in Hw as ->. simpl. lia.
    - apply HQout. unfold in_log. lia. }
  destruct (head_bytes_spec n bl (V start) Hn (be_len Hbe)) as (_ & Hhn & Hhb).
  destruct (recover_ok start n home k e Hb) as (k' & Hrun & Hhome & Hrest).
  - rewrite Hstart, Hhn. symmetry. apply i32_small. unfold LOGSIZE, MAXOPBLOCKS in *. lia.
  - intros t Ht. rewrite Hstart, Hhb, (be_block Hbe) by done. symmetry. apply u32_small. by apply (ge_home _ _ _ _ _ Hg).
  - done.
  - exists k'. split; [done|]. intros x Hx.
    destruct (decide (x ∈ home <$> slots (Z.to_nat n) 0)) as [Hin|Hin].
    + apply list_elem_of_fmap in Hin as (t & -> & Ht). apply elem_of_slots in Ht.
      rewrite Hhome, Hslot by lia. done.
    + assert (Hno : forall t, 0 <= t < n -> home t <> x).
      { intros t Ht <-. apply Hin. apply list_elem_of_fmap. exists t. split; [done|]. apply elem_of_slots. lia. }
      rewrite Hrest by done. rewrite (crash_sector k _ _ Hd Hdev). by apply (overlay_install k).
Qed.

(** After the transaction is ended. *)
Lemma crash_late k e : before -> booted start k -> geom dev start n home k ->
  k_disk k = replay (A ++ [h] ++ B ++ [h0]) D ->
  exists k', recover_from_log k e = Ok tt k' e /\ same_outside start k' V.
Proof.
  intros Hbe Hb Hg Hd. pose proof (ge_n _ _ _ _ _ Hg) as Hn.
  assert (Hdev : Forall (fun w => w.1.1 = dev) (A ++ [h] ++ B ++ [h0])).
  { apply list.Forall_forall. intros w Hw. rewrite !elem_of_app in Hw. destruct Hw as [Hw|[Hw|[Hw|Hw]]].
    - by apply in_A. - by apply list_elem_of_singleton in Hw as ->. - by apply (in_B k w Hg).
    - by apply list_elem_of_singleton in Hw as ->. }
  destruct (head_bytes_spec n bl (V start) Hn (be_len Hbe)) as (Hl & _ & _).
  destruct (recover_empty k e Hb Hg) as (k' & Hrun & Hs).
  { rewrite (crash_sector k _ start Hd Hdev), !overlay_app. simpl. rewrite decide_True by done.
    destruct (head_bytes_spec 0 bl (head_bytes n bl (V start))) as (_ & -> & _); [unfold LOGSIZE, MAXOPBLOCKS; lia|done|done]. }
  exists k'. split; [done|]. intros x Hx. rewrite Hs, (crash_sector k _ _ Hd Hdev) by done.
  rewrite !app_assoc, overlay_app, (overlay_out [_]), <- !app_assoc.
  2:{ intros w Hw. apply list_elem_of_singleton in Hw as ->. simpl. intros ->. apply Hx.
      unfold in_log, LOGSIZE, MAXOPBLOCKS. lia. }
  destruct (decide (x ∈ home <$> slots (Z.to_nat n) 0)) as [Hin|Hin].
  - apply list_elem_of_fmap in Hin as (t & -> & Ht). rewrite !overlay_app.
    apply (overlay_in _ _ (dev, home t, V (home t))).
    + rewrite install_writes_blocks. apply nodup_fmap_slots. intros; apply (ge_inj _ _ _ _ _ Hg); [lia..|done].
    + apply list_elem_of_fmap. by exists t.
  - apply (overlay_install k); try done. intros t Ht <-. apply Hin. apply list_elem_of_fmap. exists t.
    split; [done|]. apply elem_of_slots. lia.
Qed.

(** Wherever the crash falls, the disk is the old one or the new one. *)
Lemma crash_points k e ws : before -> booted start k -> geom dev start n home k ->
  ws `prefix_of` commit_writes dev start n home bl V -> k_disk k = replay ws D ->
  exists k', recover_from_log k e = Ok tt k' e /\
    (same_outside start k' (fun x => sector D x) \/ same_outside start k' V).
Proof.
  intros Hbe Hb Hg [rest Hpre] Hd. unfold commit_writes in Hpre.
  assert (Hearly : (forall w, w ∈ ws -> w ∈ A) -> exists k', recover_from_log k e = Ok tt k' e /\
    (same_outside start k' (fun x => sector D x) \/ same_outside start k' V)).
  { intros Hin. destruct (crash_early k e ws Hbe Hb Hg Hin Hd) as (k' & ? & ?). exists k'. auto. }
  apply app_eq_inv in Hpre as [(ws2 & HA & Hrest)|(ws2 & -> & Hpre)].
  2:{ destruct ws2 as [|w ws2]; [apply Hearly; rewrite app_nil_r; set_solver|]. injection Hpre as <- Hpre.
      assert (Hmid : forall Q, ws2 = Q -> (forall w, w ∈ Q -> w ∈ B) -> exists k', recover_from_log k e = Ok tt k' e /\
        (same_outside start k' (fun x => sector D x) \/ same_outside start k' V)).
      { intros Q -> HQ. destruct (crash_committed k e Q Hbe Hb Hg HQ Hd) as (k' & ? & ?). exists k'. auto. }
      apply app_eq_inv in Hpre as [(ws3 & HB & _)|(ws3 & -> & Hpre)].
      - apply (Hmid ws2); [done|]. intros w Hw. rewrite HB. set_solver.
      - destruct ws3 as [|w ws3]; [apply (Hmid B); [by rewrite app_nil_r|done]|].
        injection Hpre as <- Hpre. symmetry in Hpre. apply app_nil in Hpre as [-> _].
        destruct (crash_late k e Hbe Hb Hg Hd) as (k' & ? & ?). exists k'. auto. }
  apply Hearly. intros w Hw. rewrite HA. set_solver.
Qed.
End points.
End crash.
