(* ===== verification/TxnFacts.v ===== *)
(** Transactions: the updates between begin_op and end_op stay in the cache
    until end_op commits them. *)
From S2P Require Import Prelude Kernel Mem BlockFacts Spinlock Locks Console Vm Sched SchedFacts Sleeplock SleepFacts.
From S2P Require Import Ide Bio LruFacts BioFacts Log LogFacts CommitFacts CrashFacts.

Section txn.
Context `{HD : DiskDriver} (dev : Z) {HOK : DiskOk dev} (i p : nat) (pid : Z).
Implicit Types (k : kernel) (e : env) (b : nat) (m n : Z) (held : list nat).

Local Notation thread := (thread i p pid).
Local Notation cache := (cache dev pid).
Local Notation cached := (cached dev).
Local Notation view := (view dev).
Local Notation pinned := (pinned dev).

(** ** The log in memory *)

Definition logged (l : log) : list Z := take (Z.to_nat (lh_n l)) (lh_block l).

(** A header with [bs] recorded. *)
Record lists (l : log) (bs : list Z) : Prop := {
  li_dev : l_dev l = dev;
  li_n : lh_n l = zlen bs;
  li_block : zlen (lh_block l) = LOGSIZE;
  li_prefix : logged l = bs;
  li_nodup : NoDup bs;
  li_room : zlen bs <= LOGSIZE
}.

Lemma lists_get l bs t : lists l bs -> 0 <= t < zlen bs -> zget (lh_block l) t = zget bs t.
Proof.
  intros [_ Hn _ Hp _ _] Ht. rewrite <- Hp. unfold zget, logged. rewrite !list_lookup_total_alt.
  rewrite lookup_take_lt by (rewrite Hn; lia). done.
Qed.

Lemma log_slot_spec l bs n : lists l bs ->
  (n ∈ bs -> exists t, log_slot l n = t /\ 0 <= t < zlen bs /\ zget (lh_block l) t = n) /\
  (n ∉ bs -> log_slot l n = zlen bs).
Proof.
  intros Hl. unfold log_slot. change (take _ (lh_block l)) with (logged l). rewrite (li_prefix _ _ Hl).
  destruct (findi (Z.eqb n) bs) as [t|] eqn:E.
  - apply findi_Some in E as [(x & Hx & Heq) _]. apply Z.eqb_eq in Heq as <-.
    pose proof (lookup_lt_Some _ _ _ Hx) as Hlt. split.
    + intros _. exists (Z.of_nat t). split; [done|]. split; [unfold zlen; lia|].
      rewrite (lists_get l bs) by (done || unfold zlen; lia). unfold zget. rewrite Nat2Z.id.
      by apply list_lookup_total_correct.
    + intros Hn. destruct Hn. by eapply list_elem_of_lookup_2.
  - apply findi_None in E. split; [|intros _; by rewrite (li_n _ _ Hl)].
    intros Hin. eapply list.Forall_forall in E; [|exact Hin]. by rewrite Z.eqb_refl in E.
Qed.

(** The header after log_write of block [n]. *)
Definition with_block (l : log) (n : Z) : log :=
  let j := log_slot l n in
  let l' := l <| lh_block ::= fun bl => zset bl j n |> in
  if j =? lh_n l then l' <| lh_n ::= fun n => n + 1 |> else l'.

Lemma with_block_lists l bs n : lists l bs -> zlen bs < LOGSIZE ->
  lists (with_block l n) (if decide (n ∈ bs) then bs else bs ++ [n]).
Proof.
  intros Hl Hroom. destruct (log_slot_spec l bs n Hl) as [Hin Hout]. pose proof Hl as [H1 H2 H3 H4 H5 H6].
  unfold with_block. case_decide as Hn.
  - destruct (Hin Hn) as (t & -> & Ht & Hg). rewrite (proj2 (Z.eqb_neq t (lh_n l))) by lia.
    assert (Hsame : zset (lh_block l) t n = lh_block l).
    { unfold zset. apply list_insert_id. unfold zget in Hg. rewrite <- Hg. apply list_lookup_lookup_total_lt.
      unfold zlen in *. lia. }
    assert (Heq : l <| lh_block ::= fun bl => zset bl t n |> = l).
    { destruct l. simpl in *. unfold over, over_lh_block. simpl. by rewrite Hsame. }
    by rewrite Heq.
  - rewrite (Hout Hn), H2, Z.eqb_refl. split; fields.
    + done.
    + rewrite H2. unfold zlen. rewrite length_app. simpl. lia.
    + by rewrite zlen_zset.
    + unfold logged. fields. rewrite H2. unfold zset.
      unfold zlen in *. rewrite Nat2Z.id.
      replace (Z.to_nat (Z.of_nat (length bs) + 1)) with (S (length bs)) by lia.
      rewrite (take_S_r _ _ n) by (apply list_lookup_insert_eq; lia). f_equal.
      rewrite take_insert_ge by lia. unfold logged in H4. by rewrite H2, Nat2Z.id in H4.
    + apply list.NoDup_app. split_and!; [done|set_solver|apply NoDup_singleton].
    + unfold zlen in *. rewrite length_app. simpl. lia.
Qed.

(** ** log_write *)

Lemma log_write_ok held k e n b bs :
  thread k -> cache held k -> b ∈ held -> cached k n b -> lists (k_log k) bs -> zlen bs < LOGSIZE ->
  zlen bs < l_size (k_log k) - 1 -> 1 <= l_outstanding (k_log k) ->
  exists k', log_write b k e = Ok tt k' e /\ thread k' /\ cache held k' /\ cached k' n b /\
    quiet k' = quiet (k <| k_log := with_block (k_log k) n |>
                        <| k_bcache ::= alter (fun x => x <| b_flags ::= fun f => Z.lor f B_DIRTY |>) b |>) /\
    (forall x, view k' x = view k x) /\ dirty (k_bcache k' !!! b) = true /\ k_slocks k' = k_slocks k.
Proof.
  intros Ht Hca Hin Hc Hl Hroom Hsize Hout. pose proof Hc as (Hb & Hd & Hn). pose proof Hca as [[ord Hlru] Hi].
  pose proof Ht as [Tc _ _ Tf]. pose proof Hl as [_ Hln Hlb _ _ _]. unfold log_write, get_log. step. unfold id.
  rewrite (proj2 (Z.leb_gt LOGSIZE _)), (proj2 (Z.leb_gt (l_size (k_log k) - 1) _)) by lia. cbn [orb].
  rewrite (proj2 (Z.ltb_ge _ 1)) by done.
  destruct (acquire_enter i L_log k e Tc (Tf _)) as [Hacq He].
  rewrite (bind_ok _ _ _ _ _ _ _ Hacq). unfold get_buf. step.
  change (k_bcache (locked_by i L_log k)) with (k_bcache k). change (k_log (locked_by i L_log k)) with (k_log k).
  rewrite Hn. set (j := log_slot (k_log k) n).
  assert (Hj : 0 <= j < LOGSIZE).
  { destruct (log_slot_spec _ _ n Hl) as [H1 H2]. destruct (decide (n ∈ bs)) as [Hin'|Hin'].
    - destruct (H1 Hin') as (t & Hs & Hr & _). fold j in Hs. lia.
    - specialize (H2 Hin'). fold j in H2. unfold zlen in *. lia. }
  unfold set_lh_block. rewrite (proj2 (Z.ltb_ge j 0)), (proj2 (Z.leb_gt LOGSIZE j)) by lia. cbn [orb].
  unfold upd_log, upd_buf. step.
  set (k2 := locked_by i L_log k <| k_log ::= _ |>).
  set (g := fun x : buf => x <| b_flags ::= fun f => Z.lor f B_DIRTY |>).
  set (k3 := locked_by i L_log k <| k_log := with_block (k_log k) n |> <| k_bcache ::= alter g b |>).
  assert (Hrun : (when (j =? lh_n (k_log k)) (modify (fun k => k <| k_log ::= fun l => l <| lh_n ::= fun n => n + 1 |> |>)) ;;
      modify (fun k => k <| k_bcache ::= alter g b |>) ;; release L_log) k2 e = release L_log k3 e).
  { unfold k3, with_block. fold j. destruct (j =? lh_n (k_log k)); step; reflexivity. }
  assert (He3 : entered i L_log k k3) by (eapply entered_same; [|exact He]; done).
  destruct (entered_leave i L_log k k3 e Tc He3) as (Hrel & Hfr & _).
  set (k' := unlocked_by i L_log k3) in *. exists k'. split; [etrans; [exact Hrun|exact Hrel]|].
  assert (Hget : forall x, (x < HEAD)%nat -> k_bcache k' !!! x = if decide (b = x) then g (k_bcache k !!! b) else k_bcache k !!! x).
  { intros x Hx. change (k_bcache k') with (alter g b (k_bcache k)).
    rewrite total_alter by (rewrite (lru_len _ _ Hlru); lia). by case_decide; subst. }
  destruct (cache_set dev pid held k n b (g (k_bcache k !!! b)) k' Hca Hin Hc Hget) as (Hca' & Hc' & Hvn & Hvm); try done.
  - exists ord. change (k_bcache k') with (alter g b (k_bcache k)). by apply lru_alter.
  - unfold valid, g. fields. rewrite (proj2 (flags_write _)). by apply (bi_valid _ _ _ _ _ _ Hi).
  - by apply (bi_size _ _ _ _ _ _ Hi).
  - apply (bi_disk _ _ _ _ _ _ Hi).
  - split_and!; [|done|done|done| | |done].
    + eapply thread_frame; [exact Hfr|by left|done].
    + intros x. destruct (decide (x = n)) as [->|Hx]; [|by apply Hvm].
      by rewrite Hvn, (view_cached _ _ _ _ _ _ Hca Hc).
    + rewrite Hget, decide_True by done. unfold dirty, g. fields. apply flags_write.
Qed.

(** ** Updates inside a transaction *)

(** A client's change of block [n]. *)
Definition update (n : Z) (f : list Z -> list Z) : K unit :=
  b <- bread dev n ;;
  upd_buf b (fun x => x <| b_data ::= f |>) ;;
  log_write b ;;
  brelse b.

(** Between begin_op and end_op, the buffers [held] locked and the blocks [bs]
    changed so far. *)
Record in_txn held start bs k : Prop := {
  it_thread : thread k;
  it_cache : cache held k;
  it_lists : lists (k_log k) bs;
  it_start : l_start (k_log k) = start;
  it_out : l_outstanding (k_log k) = 1;
  it_idle : l_committing (k_log k) = 0;
  it_size : MAXOPBLOCKS < l_size (k_log k) - 1;
  it_pinned : forall x, pinned k x <-> x ∈ bs;
  it_saved : forall b n, b ∈ held -> cached k n b -> n ∈ bs \/ view k n = disk_sector k dev n
}.

(** What work inside a transaction leaves alone: all but the log and the cache. *)
Record worked k k' : Prop := {
  wk_rest : quiet k' = quiet (k <| k_log := k_log k' |> <| k_bcache := k_bcache k' |>);
  wk_inode : forall s, slock_of k' (S_inode s) = slock_of k (S_inode s)
}.

Lemma worked_refl k : worked k k.
Proof. split; [by destruct k|done]. Qed.
Lemma worked_trans k1 k2 k3 : worked k1 k2 -> worked k2 k3 -> worked k1 k3.
Proof.
  intros [Q1 I1] [Q2 I2]. split; [|intros s; by rewrite I2].
  rewrite Q2. change (quiet k2 <| k_log := k_log k3 |> <| k_bcache := k_bcache k3 |> =
    quiet (k1 <| k_log := k_log k3 |> <| k_bcache := k_bcache k3 |>)). by rewrite Q1.
Qed.
Lemma worked_disk k k' : worked k k' -> k_disk k' = k_disk k /\ k_dwrites k' = k_dwrites k /\ k_ide k' = k_ide k.
Proof. intros [Hq _]. split_and!; [exact (f_equal k_disk Hq)|exact (f_equal k_dwrites Hq)|exact (f_equal k_ide Hq)]. Qed.
Lemma worked_has k k' n : worked k k' -> disk_has k n -> disk_has k' n.
Proof. intros Hw. apply disk_has_ide. apply (worked_disk _ _ Hw). Qed.
(** A change of the buffers alone. *)
Lemma worked_bcache k k' : quiet k' = quiet (k <| k_bcache := k_bcache k' |>) ->
  (forall s, slock_of k' (S_inode s) = slock_of k (S_inode s)) -> worked k k'.
Proof.
  intros Hq Hi. split; [|done]. assert (Hl : k_log k' = k_log k) by exact (f_equal k_log Hq). rewrite Hl, Hq. by destruct k.
Qed.

Lemma pinned_ext k k' : (forall x, (x < HEAD)%nat -> b_flags (k_bcache k' !!! x) = b_flags (k_bcache k !!! x) /\
    b_dev (k_bcache k' !!! x) = b_dev (k_bcache k !!! x) /\ b_blockno (k_bcache k' !!! x) = b_blockno (k_bcache k !!! x)) ->
  forall x, pinned k' x <-> pinned k x.
Proof.
  intros Hx x. unfold pinned, cached, dirty.
  split; intros (b & (Hr & Hd & Hn) & Hf); destruct (Hx b Hr) as (E1 & E2 & E3); exists b;
    rewrite E1, E2, E3 in *; done.
Qed.

(** Fewer pinned and locked buffers than there are leave one to recycle. *)
Lemma reusable_of held k bs : cache held k -> (forall x, pinned k x -> x ∈ bs) -> (length bs + length held < HEAD)%nat ->
  exists b, reusable held k b.
Proof.
  intros Hca Hp Hlen. pose proof Hca as [_ Hi].
  destruct (List.find (fun b => negb (dirty (k_bcache k !!! b) || bool_decide (b ∈ held))) (seq 0 HEAD)) as [b|] eqn:E.
  { apply List.find_some in E as [Hin Hd]. apply list_elem_of_In, elem_of_seq in Hin.
    apply negb_true_iff, orb_false_iff in Hd as [Hd Hh]. apply bool_decide_eq_false in Hh. exists b. split_and!; [lia|done|done]. }
  exfalso. assert (Hall : forall b, (b < HEAD)%nat -> b ∉ held -> dirty (k_bcache k !!! b) = true /\ b_dev (k_bcache k !!! b) = dev).
  { intros b Hb Hh. assert (Hd : dirty (k_bcache k !!! b) = true).
    { pose proof (List.find_none _ _ E b) as Hf. cbv beta in Hf. rewrite (bool_decide_eq_false_2 _ Hh), orb_false_r in Hf.
      apply negb_false_iff, Hf. apply list_elem_of_In, elem_of_seq. lia. }
    split; [done|]. destruct (decide (b_dev (k_bcache k !!! b) = dev)) as [|Hne]; [done|].
    rewrite (bi_other _ _ _ _ _ _ Hi b Hb Hne) in Hd. done. }
  set (l := filter (fun b => b ∉ held) (seq 0 HEAD)). assert (Hl : forall b, b ∈ l <-> (b < HEAD)%nat /\ b ∉ held).
  { intros b. unfold l. rewrite list_elem_of_filter, elem_of_seq. naive_solver lia. }
  assert (Hsub : (fun b => b_blockno (k_bcache k !!! b)) <$> l ⊆+ bs).
  { apply NoDup_submseteq.
    - apply NoDup_fmap_2_strong; [|apply list.NoDup_filter, NoDup_seq]. intros a b Ha Hb Heq. apply Hl in Ha as [Ha Hah], Hb as [Hb Hbh].
      apply (bi_once _ _ _ _ _ _ Hi); [done|done|by apply Hall|by apply Hall|done].
    - intros x Hx. apply list_elem_of_fmap in Hx as (b & -> & Hb). apply Hl in Hb as [Hb Hbh]. apply Hp.
      destruct (Hall b Hb Hbh). exists b. split; [|done]. split; [lia|done]. }
  apply submseteq_length in Hsub. rewrite length_fmap in Hsub.
  assert (Hcov : seq 0 HEAD ⊆+ held ++ l).
  { apply NoDup_submseteq; [apply NoDup_seq|]. intros b Hb. apply elem_of_seq in Hb. rewrite elem_of_app, Hl.
    destruct (decide (b ∈ held)); [by left|right; split; [lia|done]]. }
  apply submseteq_length in Hcov. rewrite length_app, length_seq in Hcov. lia.
Qed.
Lemma spare_of k bs : cache [] k -> (forall x, pinned k x -> x ∈ bs) -> (length bs < HEAD)%nat -> spare k.
Proof. intros Hca Hp Hlen. apply (reusable_of [] k bs); [done|done|simpl; lia]. Qed.

Lemma txn_room held start bs k : in_txn held start bs k -> zlen bs <= MAXOPBLOCKS + 1 -> (length held <= 1)%nat -> exists b, reusable held k b.
Proof.
  intros Htx Hbs Hh. apply (reusable_of held k bs); [apply (it_cache _ _ _ _ Htx)|intros x; by apply (it_pinned _ _ _ _ Htx)|].
  change HEAD with 30%nat. unfold zlen, MAXOPBLOCKS in *. lia.
Qed.

(** A clean block that nobody holds is what the disk has. *)
Lemma view_loose held k m : cache held k -> (forall b, b ∈ held -> ~ cached k m b) -> ~ pinned k m -> view k m = disk_sector k dev m.
Proof.
  intros Hca Hh Hp. destruct (cached_dec dev k m) as [[b Hb]|Hno]; [|by apply view_uncached].
  rewrite (view_cached _ _ _ _ _ _ Hca Hb). pose proof Hb as (Hr & Hd & <-). destruct Hca as [_ Hi].
  apply (bi_clean _ _ _ _ _ _ Hi); [done|done|intros Hin; by apply (Hh b Hin)|].
  destruct (dirty _) eqn:E; [|done]. destruct Hp. by exists b.
Qed.

(** bread inside a transaction. *)
Lemma hold_ok held start bs n k e : in_txn held start bs k -> disk_has k n -> zlen bs <= MAXOPBLOCKS + 1 -> (length held <= 1)%nat ->
  (forall b, b ∈ held -> ~ cached k n b) ->
  exists b k', bread dev n k e = Ok b k' e /\ in_txn (b :: held) start bs k' /\ worked k k' /\ cached k' n b /\
    b_data (k_bcache k' !!! b) = view k n /\ (forall x, view k' x = view k x) /\
    (forall c m, c ∈ held -> cached k' m c <-> cached k m c).
Proof.
  intros Htx Hh Hbs Hlen Hheld. pose proof Htx as [Ht Hca Hl Hst Ho Hc Hsz Hp Hsv].
  destruct (txn_room held start bs k Htx Hbs Hlen) as [y Hy].
  destruct (bread_ok dev i p pid n k e held Ht Hca Hheld Hh) as (b & k1 & Hrun1 & Hg); [exists y; by right|].
  pose proof (fun x => got_pinned _ _ _ _ _ _ _ _ _ x Hca Hg) as Hp1. pose proof Hg as [Ht1 Hca1 Hnew Hc1 _ Hq1 Hsame _ Hv1 Hi1].
  assert (Hl1 : k_log k1 = k_log k) by exact (f_equal k_log Hq1). assert (Hd1 : k_disk k1 = k_disk k) by exact (f_equal k_disk Hq1).
  assert (Hcc : forall c m, c ∈ held -> cached k1 m c <-> cached k m c).
  { intros c m Hin. unfold cached. rewrite Hsame by (intros ->; done). done. }
  exists b, k1. split; [done|]. split; [|split; [by apply worked_bcache|]].
  - split; rewrite ?Hl1; try done.
    + intros x. by rewrite Hp1.
    + intros c m Hin Hcm. rewrite Hv1. unfold disk_sector. rewrite Hd1. apply elem_of_cons in Hin as [->|Hin].
      * destruct Hc1 as (_ & _ & Hn1), Hcm as (_ & _ & Hm). replace m with n by congruence.
        destruct (decide (n ∈ bs)) as [|Hn]; [by left|right]. apply (view_loose held); [done|done|by rewrite Hp].
      * apply (Hsv c m Hin). by apply Hcc.
  - split; [done|]. split; [by rewrite <- (view_cached _ _ _ _ _ _ Hca1 Hc1), Hv1|]. split; [done|]. done.
Qed.

Lemma elem_of_logged bs n x : x ∈ (if decide (n ∈ bs) then bs else bs ++ [n]) <-> x ∈ bs \/ x = n.
Proof. case_decide; [naive_solver|]. by rewrite elem_of_app, list_elem_of_singleton. Qed.

(** Changing the data of a locked buffer and logging it. *)
Lemma put_ok held start bs n b f k e : in_txn (b :: held) start bs k -> cached k n b -> zlen bs <= MAXOPBLOCKS ->
  (forall d, length d = 512%nat -> length (f d) = 512%nat) ->
  exists k', log_write b (k <| k_bcache ::= alter (fun x => x <| b_data ::= f |>) b |>) e = Ok tt k' e /\
    in_txn (b :: held) start (if decide (n ∈ bs) then bs else bs ++ [n]) k' /\ worked k k' /\ cached k' n b /\
    (forall x, view k' x = if decide (x = n) then f (view k n) else view k x) /\
    (forall c m, c ∈ held -> cached k' m c <-> cached k m c).
Proof.
  intros [Ht Hca Hl Hst Ho Hc Hsz Hp Hsv] Hc1 Hbs Hf. pose proof (bi_nodup _ _ _ _ _ _ (ca_inv _ _ _ _ Hca)) as Hnd.
  apply list.NoDup_cons in Hnd as [Hnb _].
  destruct (store_ok dev i p pid (b :: held) k n b f Ht Hca ltac:(set_solver) Hc1 Hf) as (Ht2 & Hca2 & Hc2 & Hvn2 & Hvm2).
  set (k2 := k <| k_bcache ::= _ |>) in *.
  destruct (log_write_ok (b :: held) k2 e n b bs Ht2 Hca2 ltac:(set_solver) Hc2 Hl) as (k3 & Hrun3 & Ht3 & Hca3 & Hc3 & Hq3 & Hv3 & Hd3 & Hs3).
  { unfold LOGSIZE, MAXOPBLOCKS in *. lia. }
  { change (k_log k2) with (k_log k). lia. }
  { change (k_log k2) with (k_log k). lia. }
  exists k3. split; [done|]. assert (Hlog : k_log k3 = with_block (k_log k) n) by exact (f_equal k_log Hq3).
  assert (Hbc3 : k_bcache k3 = alter (fun y => y <| b_flags ::= fun f => Z.lor f B_DIRTY |>) b (k_bcache k2)) by exact (f_equal k_bcache Hq3).
  assert (Hk3 : forall y, y <> b -> k_bcache k3 !!! y = k_bcache k !!! y).
  { intros y Hy. rewrite Hbc3. unfold k2. fields. rewrite !list_lookup_total_alt, !list_lookup_alter_ne by done. done. }
  assert (Hcc : forall c m, c ∈ held -> cached k3 m c <-> cached k m c).
  { intros c m Hin. unfold cached. rewrite Hk3 by (intros ->; done). done. }
  assert (Hv : forall x, view k3 x = if decide (x = n) then f (view k n) else view k x).
  { intros x. rewrite Hv3. case_decide as Hx; [subst x; exact Hvn2|by apply Hvm2]. }
  split; [|split; [|split; [done|split; [done|done]]]].
  - assert (Hwb : forall l, l_start (with_block l n) = l_start l /\ l_outstanding (with_block l n) = l_outstanding l /\
      l_committing (with_block l n) = l_committing l /\ l_size (with_block l n) = l_size l).
    { intros l. unfold with_block. by destruct (_ =? _). }
    destruct (Hwb (k_log k)) as (W1 & W2 & W3 & W4). split; rewrite ?Hlog, ?W1, ?W2, ?W3, ?W4; try done.
    + apply with_block_lists; [done|]. unfold LOGSIZE, MAXOPBLOCKS in *. lia.
    + intros x. assert (Hp3 : pinned k3 x <-> x = n \/ pinned k x); [|rewrite Hp3, Hp, elem_of_logged; naive_solver]. split.
      * intros (y & Hy & Hdi). destruct (decide (y = b)) as [->|Hyb].
        -- left. destruct Hy as (_ & _ & Hy), Hc3 as (_ & _ & Hn). congruence.
        -- right. exists y. unfold cached in *. rewrite Hk3 in Hy, Hdi by done. done.
      * intros [->|(y & Hy & Hdi)]; [by exists b|]. destruct (decide (y = b)) as [->|Hyb].
        -- exists b. split; [|done]. replace x with n; [done|]. destruct Hy as (_ & _ & <-), Hc1 as (_ & _ & <-). done.
        -- exists y. unfold cached in *. rewrite Hk3 by done. done.
    + intros c m Hin Hcm. destruct (decide (m = n)) as [->|Hm]; [left; rewrite elem_of_logged; by right|].
      apply elem_of_cons in Hin as [->|Hin]; [destruct Hm; destruct Hcm as (_ & _ & <-), Hc3 as (_ & _ & <-); done|].
      apply Hcc in Hcm; [|done]. rewrite Hv, (decide_False (P := m = n)), elem_of_logged by done. unfold disk_sector.
      rewrite (f_equal k_disk Hq3 : k_disk k3 = k_disk k). destruct (Hsv c m) as [Hmb|Hmb]; [by right|done|left; by left|by right].
  - split; [|intros s; unfold slock_of; by rewrite Hs3]. rewrite Hlog, Hbc3, Hq3. done.
Qed.

(** brelse inside a transaction. *)
Lemma drop_ok held start bs n b k e : in_txn (b :: held) start bs k -> cached k n b ->
  exists k', brelse b k e = Ok tt k' e /\ in_txn held start bs k' /\ worked k k' /\ (forall x, view k' x = view k x) /\
    (forall c m, c ∈ held -> cached k' m c <-> cached k m c).
Proof.
  intros [Ht Hca Hl Hst Ho Hc Hsz Hp Hsv] Hc1.
  destruct (brelse_ok dev i p pid held k e n b Ht Hca Hc1) as (k4 & Hrun4 & Hfr).
  { destruct (Hsv b n ltac:(set_solver) Hc1) as [Hn|Hn]; [left|by right].
    apply Hp in Hn as (y & Hy & Hd). by rewrite (cached_unique _ _ _ _ _ _ _ Hca Hc1 Hy). }
  exists k4. split; [done|]. pose proof (fun x => freed_info dev i p pid held k b k4 x Hfr) as Hi4.
  destruct Hfr as [Ht4 Hca4 Hq4 _ Hv4 Hs4]. assert (Hl4 : k_log k4 = k_log k) by exact (f_equal k_log Hq4).
  assert (Hcc : forall c m, cached k4 m c <-> cached k m c).
  { intros c m. unfold cached. split; intros (Hr & H1 & H2); destruct (Hi4 c Hr) as (_ & E1 & E2 & _); rewrite E1, E2 in *; done. }
  split; [|split; [by apply worked_bcache|split; [done|intros c m _; apply Hcc]]].
  split; rewrite ?Hl4; try done.
  - intros x. rewrite (pinned_ext k k4) by (intros y Hy; destruct (Hi4 y Hy) as (-> & -> & -> & _); done). apply Hp.
  - intros c m Hin Hcm. rewrite Hv4. unfold disk_sector. rewrite (f_equal k_disk Hq4 : k_disk k4 = k_disk k).
    apply (Hsv c m); [set_solver|by apply Hcc].
Qed.

Lemma update_ok held start bs n f k e :
  in_txn held start bs k -> disk_has k n -> zlen bs <= MAXOPBLOCKS -> (length held <= 1)%nat -> (forall b, b ∈ held -> ~ cached k n b) ->
  (forall d, length d = 512%nat -> length (f d) = 512%nat) ->
  exists k', update n f k e = Ok tt k' e /\ in_txn held start (if decide (n ∈ bs) then bs else bs ++ [n]) k' /\ worked k k' /\
    (forall x, view k' x = if decide (x = n) then f (view k n) else view k x) /\
    (forall c m, c ∈ held -> cached k' m c <-> cached k m c).
Proof.
  intros Htx Hh Hbs Hlen Hheld Hf. unfold update.
  destruct (hold_ok held start bs n k e Htx Hh ltac:(lia) Hlen Hheld) as (b & k1 & Hrun1 & Htx1 & Hw1 & Hc1 & _ & Hv1 & Hk1).
  rewrite (bind_ok _ _ _ _ _ _ _ Hrun1). unfold upd_buf. step.
  destruct (put_ok held start bs n b f k1 e Htx1 Hc1 Hbs Hf) as (k2 & Hrun2 & Htx2 & Hw2 & Hc2 & Hv2 & Hk2).
  rewrite (bind_ok _ _ _ _ _ _ _ Hrun2). destruct (drop_ok held start _ n b k2 e Htx2 Hc2) as (k3 & Hrun3 & Htx3 & Hw3 & Hv3 & Hk3).
  exists k3. split; [done|]. split; [done|]. split; [eapply worked_trans; [exact Hw1|]; by eapply worked_trans|]. split.
  - intros x. by rewrite Hv3, Hv2, !Hv1.
  - intros c m Hin. by rewrite Hk3, Hk2, Hk1.
Qed.

Definition change : Type := Z * (list Z -> list Z).
Fixpoint updates (us : list change) : K unit :=
  match us with
  | [] => ret tt
  | (n, f) :: us' => update n f ;; updates us'
  end.
(** What the changes make of the blocks. *)
Definition apply (us : list change) (V : Z -> list Z) : Z -> list Z :=
  foldl (fun V u x => if decide (x = u.1) then u.2 (V u.1) else V x) V us.

Lemma apply_ext us : forall V V' x, (forall y, V y = V' y) -> apply us V x = apply us V' x.
Proof.
  induction us as [|u us IH]; intros V V' x Hv; [apply Hv|]. cbn [apply foldl]. apply IH.
  intros y. rewrite !Hv. by case_decide.
Qed.
Lemma apply_out us : forall V x, x ∉ us.*1 -> apply us V x = V x.
Proof.
  induction us as [|u us IH]; intros V x Hx; [done|]. rewrite fmap_cons in Hx. cbn [apply foldl].
  etrans; [apply IH; set_solver|]. rewrite decide_False by set_solver. done.
Qed.

(** A change of a block outside the log. *)
Definition change_ok start k (u : change) : Prop :=
  ~ in_log start u.1 /\ 0 <= u.1 < 2 ^ 32 /\ disk_has k u.1 /\
  (forall d, length d = 512%nat -> length (u.2 d) = 512%nat).

Lemma length_size (l : list Z) (X : gset Z) : NoDup l -> (forall x, x ∈ l -> x ∈ X) -> (length l <= size X)%nat.
Proof.
  intros Hnd Hin. rewrite <- (size_list_to_set (C := gset Z)) by done. apply subseteq_size. set_solver.
Qed.

Lemma updates_ok start us e : forall bs k,
  in_txn [] start bs k -> Forall (change_ok start k) us ->
  (size (list_to_set bs ∪ list_to_set us.*1 : gset Z) <= Z.to_nat MAXOPBLOCKS)%nat ->
  exists k' bs', updates us k e = Ok tt k' e /\ in_txn [] start bs' k' /\ worked k k' /\
    (forall x, view k' x = apply us (view k) x) /\ (forall x, x ∈ bs' <-> x ∈ bs \/ x ∈ us.*1).
Proof.
  induction us as [|[n f] us IH]; intros bs k Htx Hus Hsize; cbn [updates].
  { exists k, bs. split_and!; [done|done|apply worked_refl|done|set_solver]. }
  apply Forall_cons_1 in Hus as [(Hout & Hr & Hh & Hf) Hus]. cbn [fst snd] in *.
  destruct (update_ok [] start bs n f k e Htx Hh) as (k1 & Hrun & Htx1 & Hw1 & Hv1 & _).
  { assert (length bs <= Z.to_nat MAXOPBLOCKS)%nat.
    { etrans; [|exact Hsize]. apply length_size; [apply (li_nodup _ _ (it_lists _ _ _ _ Htx))|set_solver]. }
    unfold zlen, MAXOPBLOCKS in *. lia. }
  { simpl. lia. }
  { set_solver. }
  { done. }
  rewrite (bind_ok _ _ _ _ _ _ _ Hrun). pose proof (elem_of_logged bs n) as Hbs1.
  set (bs1 := if decide (n ∈ bs) then bs else bs ++ [n]) in *.
  destruct (IH bs1 k1 Htx1) as (k' & bs' & Hrun' & Htx' & Hw' & Hv' & Hbs').
  - eapply list.Forall_impl; [exact Hus|]. intros [m g] (H1 & H2 & H3 & H4). split; [done|]. split; [done|].
    split; [|done]. by apply (worked_has k k1).
  - replace (list_to_set bs1 ∪ list_to_set us.*1 : gset Z) with (list_to_set bs ∪ list_to_set ((n, f) :: us).*1 : gset Z);
      [done|]. apply set_eq. intros x. rewrite fmap_cons. cbn [list_to_set]. specialize (Hbs1 x). set_solver.
  - exists k', bs'. split_and!; [done|done|by eapply worked_trans| |].
    + intros x. rewrite Hv'. cbn [apply foldl]. by apply apply_ext.
    + intros x. rewrite Hbs', Hbs1, fmap_cons. set_solver.
Qed.

(** ** begin_op and end_op *)

(** No operation in progress. *)
Record at_rest start k : Prop := {
  ar_thread : thread k;
  ar_cache : cache [] k;
  ar_lists : lists (k_log k) [];
  ar_start : l_start (k_log k) = start;
  ar_out : l_outstanding (k_log k) = 0;
  ar_idle : l_committing (k_log k) = 0;
  ar_size : MAXOPBLOCKS < l_size (k_log k) - 1;
  ar_clean : forall x, ~ pinned k x;
  ar_head : i32 (get32 (disk_sector k dev start) 0) = 0;
  ar_place : 0 <= start /\ start + LOGSIZE < 2 ^ 31 /\ forall t, 0 <= t <= LOGSIZE -> disk_has k (start + t)
}.

Lemma cache_eq held k k' : k_bcache k' = k_bcache k -> k_slocks k' = k_slocks k -> k_disk k' = k_disk k ->
  cache held k -> cache held k'.
Proof.
  intros Hb Hs Hd [H1 H2]. split; [by rewrite Hb|]. unfold slock_of, disk_sector in *. by rewrite Hb, Hs, Hd.
Qed.

Lemma begin_op_ok start k e : at_rest start k ->
  exists k', begin_op k e = Ok tt k' e /\ in_txn [] start [] k' /\ worked k k' /\ (forall x, view k' x = view k x).
Proof.
  intros [Ht Hca Hl Hst Ho Hid Hsz Hcl _ _]. pose proof Ht as [Tc _ _ Tf]. unfold begin_op, get_log.
  destruct (acquire_enter i L_log k e Tc (Tf _)) as [Hacq He].
  rewrite (bind_ok _ _ _ _ _ _ _ Hacq). set (k1 := locked_by i L_log k) in *.
  set (k2 := k1 <| k_log ::= fun l => l <| l_outstanding ::= fun n => n + 1 |> |>).
  assert (He2 : entered i L_log k k2) by (eapply entered_same; [|exact He]; done).
  destruct (entered_leave i L_log k k2 e Tc He2) as (Hrel & Hfr & _).
  exists (unlocked_by i L_log k2). split_and!; [|split|by split; [destruct k|]|done].
  - apply wait_loop_now. step. unfold id. change (k_log k1) with (k_log k). rewrite Hid. change (nz 0) with false. cbv iota.
    rewrite (li_n _ _ Hl), Ho. change (LOGSIZE <? _) with false. cbv iota. unfold upd_log. step. fold k2.
    rewrite (bind_ok _ _ _ _ _ _ _ Hrel). done.
  - eapply thread_frame; [exact Hfr|by left|done].
  - by apply (cache_eq [] k).
  - change (k_log (unlocked_by i L_log k2)) with (k_log k <| l_outstanding ::= fun n => n + 1 |>).
    destruct Hl as [H1 H2 H3 H4 H5 H6]. by split.
  - done.
  - change (l_outstanding (k_log k) + 1 = 1). lia.
  - done.
  - done.
  - intros x. split; [|set_solver]. intros Hp. by destruct (Hcl x).
  - set_solver.
Qed.

(** What [bs] needs to be in the log. *)
Lemma geom_of start bs k :
  0 <= start /\ start + LOGSIZE < 2 ^ 31 /\ (forall t, 0 <= t <= LOGSIZE -> disk_has k (start + t)) ->
  NoDup bs -> zlen bs <= LOGSIZE ->
  (forall x, x ∈ bs -> ~ in_log start x /\ 0 <= x < 2 ^ 32 /\ disk_has k x) -> geom dev start (zlen bs) (zget bs) k.
Proof.
  intros (Hs1 & Hs2 & Hlog) Hnd Hn Hbs.
  assert (Hget : forall t, 0 <= t < zlen bs -> bs !! Z.to_nat t = Some (zget bs t)).
  { intros t Ht. apply list_lookup_lookup_total_lt. unfold zlen in *. lia. }
  split.
  - done.
  - unfold zlen in *. lia.
  - intros t Ht. apply Hbs. eapply list_elem_of_lookup_2, Hget. done.
  - intros s t Hs Ht Heq. pose proof (Hget s Hs) as E1. pose proof (Hget t Ht) as E2. rewrite Heq in E1.
    pose proof (NoDup_lookup _ _ _ _ Hnd E1 E2). lia.
  - intros t Ht. apply Hlog. lia.
Qed.

(** The transaction's disk writes. *)
Definition txn_writes start bs bl (V : Z -> list Z) : list dwrite :=
  if bool_decide (bs = []) then [] else commit_writes dev start (zlen bs) (zget bs) bl V.

Lemma quiet_commit start bs k e :
  thread k -> cache [] k -> lists (k_log k) bs -> l_start (k_log k) = start -> geom dev start (zlen bs) (zget bs) k ->
  zlen bs < Z.of_nat HEAD -> (forall x, pinned k x <-> x ∈ bs) ->
  exists k', commit k e = Ok tt k' e /\ thread k' /\ cache [] k' /\
    k_dwrites k' = k_dwrites k ++ txn_writes start bs (lh_block (k_log k)) (view k) /\
    k_disk k' = replay (txn_writes start bs (lh_block (k_log k)) (view k)) (k_disk k) /\
    k_log k' = k_log k <| lh_n := 0 |> /\ k_ide k' = k_ide k /\ tables_kept k k' /\
    (forall x, ~ in_log start x -> view k' x = view k x) /\ (forall x, ~ pinned k' x).
Proof.
  intros Ht Hca Hl Hst Hg Hn Hp. unfold txn_writes. case_bool_decide as Hbs.
  - subst bs. exists k. unfold commit, get_log. step. rewrite (li_n _ _ Hl).
    split_and!; try done; [by rewrite app_nil_r| |].
    + pose proof (li_n _ _ Hl) as Hz. destruct (k_log k). simpl in *. by subst.
    + intros x Hx. by apply Hp, elem_of_nil in Hx.
  - assert (Hpos : 0 < zlen bs) by (destruct bs; [done|unfold zlen; simpl; lia]).
    destruct (commit_ok dev i p pid start (zlen bs) (zget bs) k e Ht Hca) as (k' & Hrun & Hcm).
    + split_and!; [apply (li_dev _ _ Hl)|done|apply (li_n _ _ Hl)|]. intros t Htn. by apply lists_get.
    + done.
    + done.
    + apply (spare_of k bs); [done|intros x; by apply Hp|]. unfold zlen in *. lia.
    + intros t Htn. apply Hp. eapply list_elem_of_lookup_2. apply list_lookup_lookup_total_lt. unfold zlen in *. lia.
    + exists k'. split; [done|]. destruct Hcm as [C1 C2 C3 C4 C5 C6 C7 C8 C9]. split_and!; try done.
      intros x Hx. apply C9 in Hx as (Hx & _ & Hno). apply Hp in Hx. apply list_elem_of_lookup in Hx as [t Htx].
      destruct (Hno (Z.of_nat t)) as [Hne _].
      { apply lookup_lt_Some in Htx. unfold zlen. lia. }
      apply Hne. unfold zget. rewrite Nat2Z.id. symmetry. by apply list_lookup_total_correct.
Qed.

Lemma end_op_ok start bs k e :
  in_txn [] start bs k -> geom dev start (zlen bs) (zget bs) k -> zlen bs < Z.of_nat HEAD ->
  exists k', end_op k e = Ok tt k' e /\ thread k' /\ cache [] k' /\
    k_dwrites k' = k_dwrites k ++ txn_writes start bs (lh_block (k_log k)) (view k) /\
    k_disk k' = replay (txn_writes start bs (lh_block (k_log k)) (view k)) (k_disk k) /\
    k_log k' = k_log k <| lh_n := 0 |> <| l_outstanding := 0 |> <| l_committing := 0 |> /\ k_ide k' = k_ide k /\ tables_kept k k' /\
    (forall x, ~ in_log start x -> view k' x = view k x) /\ (forall x, ~ pinned k' x).
Proof.
  intros [Ht Hca Hl Hst Ho Hid Hsz Hp _] Hg Hn. pose proof Ht as [Tc _ _ Tf]. unfold end_op, get_log.
  destruct (acquire_enter i L_log k e Tc (Tf _)) as [Hacq He].
  rewrite (bind_ok _ _ _ _ _ _ _ Hacq). unfold upd_log. step. unfold id. fields.
  change (k_log (locked_by i L_log k)) with (k_log k).
  rewrite Hid, Ho. change (nz 0) with false. change (1 - 1 =? 0) with true. cbv iota. step.
  set (k1 := locked_by i L_log k <| k_log ::= _ |> <| k_log ::= _ |>).
  assert (He1 : entered i L_log k k1) by (eapply entered_same; [|exact He]; done).
  destruct (entered_leave i L_log k k1 e Tc He1) as (Hrel & Hfr & _).
  rewrite (bind_ok _ _ _ _ _ _ _ Hrel). cbn [when]. set (k2 := unlocked_by i L_log k1) in *.
  destruct (quiet_commit start bs k2 e) as (k3 & Hrun3 & Ht3 & Hca3 & Hw3 & Hd3 & Hl3 & Hi3 & Htb3 & Hv3 & Hp3).
  { eapply thread_frame; [exact Hfr|by left|done]. }
  { by apply (cache_eq [] k). }
  { change (k_log k2) with (k_log k <| l_outstanding ::= fun n => n - 1 |> <| l_committing := 1 |>).
    destruct Hl as [H1 H2 H3 H4 H5 H6]. by split. }
  { done. }
  { by apply (geom_ide dev start _ _ k). }
  { done. }
  { done. }
  rewrite (bind_ok _ _ _ _ _ _ _ Hrun3). pose proof Ht3 as [Tc3 _ _ Tf3].
  destruct (acquire_enter i L_log k3 e Tc3 (Tf3 _)) as [Hacq3 He3].
  rewrite (bind_ok _ _ _ _ _ _ _ Hacq3). step. set (k4 := locked_by i L_log k3 <| k_log ::= _ |>).
  assert (He4 : entered i L_log k3 k4) by (eapply entered_same; [|exact He3]; done).
  destruct (entered_wakeup i L_log k3 k4 e Ch_log Tc3 ltac:(done) (Tf3 _) He4) as [Hwk He5].
  rewrite (bind_ok _ _ _ _ _ _ _ Hwk).
  destruct (entered_leave i L_log k3 _ e Tc3 He5) as (Hrel5 & Hfr5 & _). rewrite Hrel5.
  set (k5 := unlocked_by i L_log (woken Ch_log (touch i L_ptable k4))) in *. exists k5. split; [reflexivity|].
  split; [eapply thread_frame; [exact Hfr5|right; by eexists|done]|].
  split; [by apply (cache_eq [] k3)|]. split; [exact Hw3|]. split; [exact Hd3|].
  split; [|split; [exact Hi3|split; [exact Htb3|split; [exact Hv3|exact Hp3]]]].
  change (k_log k3 <| l_committing := 0 |> = k_log k <| lh_n := 0 |> <| l_outstanding := 0 |> <| l_committing := 0 |>).
  rewrite Hl3. change (k_log k2) with (k_log k <| l_outstanding ::= fun n => n - 1 |> <| l_committing := 1 |>).
  unfold over, over_l_committing, over_lh_n, over_l_outstanding. simpl. by rewrite Ho.
Qed.

(** ** Whole transactions *)

Definition transaction (us : list change) : K unit := begin_op ;; updates us ;; end_op.

(** The header on disk after the transaction names no block. *)
Lemma txn_writes_head start bs bl V (D : Z -> list Z) : length (V start) = 512%nat -> zlen bs <= LOGSIZE ->
  (forall w, w ∈ txn_writes start bs bl V -> w.1.1 = dev) /\
  (i32 (get32 (D start) 0) = 0 -> i32 (get32 (overlay (txn_writes start bs bl V) D start) 0) = 0).
Proof.
  intros Hlen Hn. unfold txn_writes. case_bool_decide as Hbs; [split; [set_solver|done]|]. split.
  - unfold commit_writes, log_writes, install_writes. intros w Hw. rewrite !elem_of_app in Hw.
    destruct Hw as [Hw|[Hw|[Hw|Hw]]];
      first [by apply list_elem_of_singleton in Hw as ->|by apply list_elem_of_fmap in Hw as (t & -> & _)].
  - intros _. unfold commit_writes. rewrite !overlay_app. simpl. rewrite decide_True by done.
    assert (Hz : 0 <= zlen bs) by (unfold zlen; lia).
    destruct (head_bytes_spec (zlen bs) bl (V start) ltac:(lia) Hlen) as (Hl & _ & _).
    destruct (head_bytes_spec 0 bl (head_bytes (zlen bs) bl (V start))) as (_ & -> & _);
      [unfold LOGSIZE, MAXOPBLOCKS; lia|done|done].
Qed.
End txn.
