(* ===== verification/SampleFs.v ===== *)
(** A small machine with a file system: the sample machine with a memory disk
    and an empty buffer cache.  The properties of the file system are applied to it. *)
From S2P Require Import Prelude Kernel Mem BlockFacts Spinlock Locks Console Vm Sched Sleeplock SleepFacts.
From S2P Require Import Ide Bio LruFacts BioFacts Log LogFacts CommitFacts TxnFacts Sample.

(** The sample machine with a memory disk of 1000 empty blocks, its log in
    blocks 2 to 31, and the cache as binit leaves it. *)
Definition fresh_cache : list buf :=
  foldl (fun bs b => lru_push b bs)
    (alter (fun x => x <| b_next := HEAD |> <| b_prev := HEAD |>) HEAD (k_bcache kernel0)) (seq 0 HEAD).
Definition fresh : kernel := Sample.k
  <| k_bcache := fresh_cache |> <| k_ide := mkIde false None 0 1000 |>
  <| k_log := mkLog 2 30 0 0 1 0 (replicate 30 0) |>.

Lemma fresh_buf b : (b < HEAD)%nat -> b_flags (fresh_cache !!! b) = 0 /\ b_dev (fresh_cache !!! b) = 0 /\
  b_refcnt (fresh_cache !!! b) = 0.
Proof.
  intros Hb. assert (Hall : Forall (fun x => b_flags x = 0 /\ b_dev x = 0 /\ b_refcnt x = 0) fresh_cache)
    by (vm_compute; repeat constructor).
  eapply (Forall_lookup_total_1 _ _ b) in Hall; [done|]. change (length fresh_cache) with 31%nat. change HEAD with 30%nat in Hb. lia.
Qed.

Lemma sample_thread : thread 0 0 1 Sample.k.
Proof. split; [apply Sample.cpu|reflexivity|reflexivity|apply Sample.locks]. Qed.

Lemma fresh_disk k n : k_disk k = empty -> disk_sector k 1 n = replicate 512 0.
Proof. intros Hd. unfold disk_sector. by rewrite Hd, lookup_empty. Qed.

Lemma thread_with i p pid k bs d l : thread i p pid k ->
  thread i p pid (k <| k_bcache := bs |> <| k_ide := d |> <| k_log := l |>).
Proof. by apply thread_same. Qed.

Lemma fresh_lru : lru fresh_cache (rev (seq 0 HEAD)).
Proof.
  split; [by vm_compute|symmetry; apply Permutation_rev|].
  vm_compute. repeat (split; [split; reflexivity|]). split; reflexivity.
Qed.

Section with_fresh.
Context (k : kernel) (bs : list buf).
Hypothesis (Hlru : lru bs (rev (seq 0 HEAD))).
Hypothesis (Hbuf : forall b, (b < HEAD)%nat -> b_flags (bs !!! b) = 0 /\ b_dev (bs !!! b) = 0 /\ b_refcnt (bs !!! b) = 0).
Hypothesis (Hbc : k_bcache k = bs) (Hsl : k_slocks k = empty) (Hdk : forall n, length (disk_sector k 1 n) = 512%nat).

Lemma fresh_inv : cache 1 1 [] k.
Proof.
  assert (Hdev : forall b, (b < HEAD)%nat -> b_dev (k_bcache k !!! b) = 1 -> False).
  { intros b Hb Hd. rewrite Hbc in Hd. destruct (Hbuf b Hb) as (_ & E & _). rewrite E in Hd. discriminate Hd. }
  split; [exists (rev (seq 0 HEAD)); rewrite Hbc; exact Hlru|]. split.
  - apply NoDup_nil_2.
  - intros b Hb. by apply elem_of_nil in Hb.
  - intros b Hb. unfold slock_of. by rewrite Hsl, lookup_empty.
  - intros b Hb. by apply elem_of_nil in Hb.
  - intros b Hb. rewrite Hbc. exact (proj2 (proj2 (Hbuf b Hb))).
  - intros a b Ha Hb Hd. by destruct (Hdev a Ha).
  - intros b Hb Hd. by destruct (Hdev b Hb).
  - intros b Hb Hd. by destruct (Hdev b Hb).
  - intros b Hb _. unfold dirty. rewrite Hbc. destruct (Hbuf b Hb) as (E & _). by rewrite E.
  - intros b Hb Hd. by destruct (Hdev b Hb).
  - exact Hdk.
Qed.

Lemma fresh_clean x : ~ pinned 1 k x.
Proof.
  intros (b & (Hb & _) & Hd). unfold dirty in Hd. rewrite Hbc in Hd.
  destruct (Hbuf b Hb) as [E _]. rewrite E in Hd. discriminate Hd.
Qed.

Lemma fresh_rest : thread 0 0 1 k -> k_ide k = mkIde false None 0 1000 ->
  k_log k = mkLog 2 30 0 0 1 0 (replicate 30 0) -> get32 (disk_sector k 1 2) 0 = 0 -> @at_rest (memide_driver 512000) 1 _ 0 0 1 2 k.
Proof.
  intros Ht Hi Hl H0.
  split; [exact Ht|exact fresh_inv| |rewrite Hl; reflexivity..| | |].
  - rewrite Hl. split; [reflexivity|reflexivity|reflexivity|reflexivity|apply NoDup_nil_2|by vm_compute].
  - exact fresh_clean.
  - by rewrite H0.
  - split; [lia|]. split; [unfold LOGSIZE, MAXOPBLOCKS; lia|]. intros t Hr. change (2 + t < disksize (k_ide k)).
    rewrite Hi. unfold LOGSIZE, MAXOPBLOCKS in Hr. simpl. lia.
Qed.
End with_fresh.
