(* ===== verification/LogSpec.v ===== *)
(** Transactions are atomic: whenever the machine stops, recovery finds all of
    a transaction's changes on the disk or none of them. *)
From S2P Require Import Prelude Kernel Mem BlockFacts Spinlock Locks Console Vm Sched Sleeplock SleepFacts.
From S2P Require Import Ide Bio LruFacts BioFacts Log LogFacts CommitFacts CrashFacts TxnFacts Sample SampleFs.

Section atomic.
Context `{HD : DiskDriver} (dev : Z) {HOK : DiskOk dev} (i p : nat) (pid : Z).
Implicit Types (k : kernel) (e : env).

(** With nothing in progress the disk is what the system sees. *)
Lemma rest_view start k x : at_rest dev i p pid start k -> view dev k x = disk_sector k dev x.
Proof. intros Hr. eapply view_unpinned; [apply (ar_cache _ _ _ _ _ _ Hr)|apply (ar_clean _ _ _ _ _ _ Hr)]. Qed.

(** What a crash during the writes [ws], from the disk of [k] on, leaves after
    recovery: all of [V] or nothing. *)
Definition all_or_nothing start k (ws : list dwrite) (V : Z -> list Z) : Prop :=
  forall ws1, ws1 `prefix_of` ws ->
  forall ib pb pidb kb eb, booted dev ib pb pidb start kb -> k_ide kb = k_ide k -> k_disk kb = replay ws1 (k_disk k) ->
    exists kb', recover_from_log kb eb = Ok tt kb' eb /\
      (same_outside dev start kb' (disk_sector k dev) \/ same_outside dev start kb' V).

Lemma all_or_nothing_ext start k ws V V' : (forall x, V x = V' x) -> all_or_nothing start k ws V -> all_or_nothing start k ws V'.
Proof.
  intros HV Ha ws1 Hpre ib pb pidb kb eb Hb Hide Hd. destruct (Ha ws1 Hpre ib pb pidb kb eb Hb Hide Hd) as (kb' & Hrun & [Ho|Hn]);
    exists kb'; (split; [done|]); [by left|right]. intros x Hx. by rewrite <- HV, Hn.
Qed.

Lemma txn_writes_atomic start bs bl V k : i32 (get32 (disk_sector k dev start) 0) = 0 -> geom dev start (zlen bs) (zget bs) k ->
  before dev start (zlen bs) (zget bs) bl V (k_disk k) -> all_or_nothing start k (txn_writes dev start bs bl V) V.
Proof.
  intros Hhead Hg Hbe ws1 Hpre ib pb pidb kb eb Hb Hide Hd.
  assert (Hgb : geom dev start (zlen bs) (zget bs) kb) by (by eapply geom_ide).
  unfold txn_writes in Hpre. case_bool_decide as Hbs.
  - apply prefix_nil_inv in Hpre as ->.
    destruct (recover_empty dev ib pb pidb start (zlen bs) (zget bs) kb eb Hb Hgb) as (kb' & Hrunb & Hsb).
    { unfold disk_sector. by rewrite Hd. }
    exists kb'. split; [done|left]. intros x Hx. rewrite Hsb by done. unfold disk_sector. by rewrite Hd.
  - destruct (crash_points dev ib pb pidb start _ _ bl V (k_disk k) kb eb ws1 Hbe Hb Hgb Hpre Hd) as (kb' & Hrunb & [Ho|Hn]);
      exists kb'; (split; [done|]); [by left|by right].
Qed.

(** end_op of a transaction that began in [k] and has come to [k2]. *)
Lemma commit_atomic start bs k k2 e : at_rest dev i p pid start k -> in_txn dev i p pid [] start bs k2 ->
  k_disk k2 = k_disk k -> k_dwrites k2 = k_dwrites k -> k_ide k2 = k_ide k -> zlen bs <= MAXOPBLOCKS + 1 ->
  (forall x, x ∈ bs -> ~ in_log start x /\ 0 <= x < 2 ^ 32 /\ disk_has k x) ->
  (forall x, x ∉ bs -> view dev k2 x = disk_sector k dev x) ->
  exists k3 ws, end_op k2 e = Ok tt k3 e /\ at_rest dev i p pid start k3 /\ tables_kept k2 k3 /\ k_ide k3 = k_ide k /\
    same_outside dev start k3 (view dev k2) /\ k_dwrites k3 = k_dwrites k ++ ws /\ k_disk k3 = replay ws (k_disk k) /\ all_or_nothing start k ws (view dev k2).
Proof.
  intros Hr Htx2 Hd2 Hw2 Hi2 Hlen Hbs Hout. pose proof Hr as [_ _ _ _ _ _ _ _ Hhead Hplace].
  pose proof (it_lists _ _ _ _ _ _ _ _ Htx2) as Hl2. assert (Hlog : zlen bs <= LOGSIZE) by (unfold LOGSIZE, MAXOPBLOCKS in *; lia).
  assert (Hg : geom dev start (zlen bs) (zget bs) k) by (apply geom_of; [done|apply (li_nodup _ _ _ Hl2)|done|done]).
  destruct (end_op_ok dev i p pid start bs k2 e Htx2) as (k3 & Hrun3 & Ht3 & Hca3 & Hw3 & Hd3 & Hl3 & Hi3 & Htb3 & Hv3 & Hp3).
  { eapply geom_ide; [|exact Hg]. done. }
  { change HEAD with 30%nat. unfold zlen, MAXOPBLOCKS in *. lia. }
  set (bl := lh_block (k_log k2)) in *. set (V := view dev k2) in *.
  assert (HlV : length (V start) = 512%nat).
  { unfold V. rewrite Hout; [apply (bi_disk _ _ _ _ _ _ (ca_inv _ _ _ _ (ar_cache _ _ _ _ _ _ Hr)))|].
    intros Hs. destruct (Hbs start Hs) as [Hno _]. apply Hno. unfold in_log, LOGSIZE, MAXOPBLOCKS. lia. }
  destruct (txn_writes_head dev start bs bl V (disk_sector k dev) HlV Hlog) as [Hdev Hh0].
  assert (Hds : forall x, disk_sector k3 dev x = overlay (txn_writes dev start bs bl V) (disk_sector k dev) x).
  { intros x. unfold disk_sector at 1. rewrite Hd3, (replay_sector dev) by (by apply list.Forall_forall). by rewrite Hd2. }
  assert (Hr3 : at_rest dev i p pid start k3).
  { destruct Hl2 as [L1 L2 L3 L4 L5 L6]. split; [done|done| | | | | | | |].
    - rewrite Hl3. split; fields; [done|done|done|done|apply NoDup_nil_2|done].
    - rewrite Hl3. apply (it_start _ _ _ _ _ _ _ _ Htx2).
    - by rewrite Hl3.
    - by rewrite Hl3.
    - rewrite Hl3. apply (it_size _ _ _ _ _ _ _ _ Htx2).
    - done.
    - rewrite Hds. by apply Hh0.
    - destruct Hplace as (? & ? & Hh). split; [done|]. split; [done|]. intros t Ht.
      apply (disk_has_ide k k3); [congruence|by apply Hh]. }
  exists k3, (txn_writes dev start bs bl V). split_and!; [done|done|done|congruence| |by rewrite Hw3, Hw2|by rewrite Hd3, Hd2|].
  - intros x Hx. rewrite <- (rest_view start k3 x Hr3). by apply Hv3.
  - apply txn_writes_atomic; [done|done|]. split; [done|done| |].
    + intros t Ht. by apply (lists_get dev).
    + intros x _ Hx. apply Hout. intros Hxb. apply list_elem_of_lookup in Hxb as [t Ht].
      apply (Hx (Z.of_nat t)); [apply lookup_lt_Some in Ht; unfold zlen; lia|]. unfold zget. rewrite Nat2Z.id.
      by apply list_lookup_total_correct.
Qed.

End atomic.

