(* ===== verification/ReadFacts.v ===== *)
(** Reading: blocks through the cache, the blocks and the bytes of a file. *)
From S2P Require Import Prelude Kernel Mem Fsformat BlockFacts Spinlock Locks Console Vm Sched Sleeplock SleepFacts.
From S2P Require Import Ide Bio LruFacts BioFacts Log LogFacts CommitFacts TxnFacts Fs.

Section reading.
Context `{HD : DiskDriver} (dev : Z) {HOK : DiskOk dev} (i p : nat) (pid : Z).
Implicit Types (k : kernel) (e : env) (b j : nat) (m n : Z) (t : list inode).

Local Notation thread := (thread i p pid).
Local Notation cache := (cache dev pid).
Local Notation cached := (cached dev).
Local Notation view := (view dev).
Local Notation pinned := (pinned dev).

(** No buffer is locked and one can be recycled. *)
Record reader k : Prop := {
  rd_thread : thread k;
  rd_cache : cache [] k;
  rd_spare : spare k
}.

(** What reading blocks changes: which of them are in the cache. *)
Record looked k k' : Prop := {
  lo_reader : reader k';
  lo_rest : quiet k' = quiet (k <| k_bcache := k_bcache k' |>);
  lo_view : forall m, view k' m = view k m;
  lo_pinned : forall m, pinned k' m <-> pinned k m;
  lo_inode : forall s, slock_of k' (S_inode s) = slock_of k (S_inode s)
}.

Lemma set_bcache_id k : k <| k_bcache := k_bcache k |> = k.
Proof. by destruct k. Qed.
Lemma set_icache_id k : k <| k_icache := k_icache k |> = k.
Proof. by destruct k. Qed.

Lemma looked_refl k : reader k -> looked k k.
Proof. intros Hr. split; [done|by rewrite set_bcache_id|done..]. Qed.

Lemma looked_trans k1 k2 k3 : looked k1 k2 -> looked k2 k3 -> looked k1 k3.
Proof.
  intros [_ Q1 V1 P1 I1] [R2 Q2 V2 P2 I2]. split; [done| | | |].
  - rewrite Q2. change (quiet k2 <| k_bcache := k_bcache k3 |> = quiet (k1 <| k_bcache := k_bcache k3 |>)).
    by rewrite Q1.
  - intros m. by rewrite V2.
  - intros m. by rewrite P2.
  - intros s. by rewrite I2.
Qed.

Lemma looked_disk k k' : looked k k' -> k_disk k' = k_disk k /\ k_ide k' = k_ide k /\ k_dwrites k' = k_dwrites k.
Proof. intros Hl. pose proof (lo_rest _ _ Hl) as Hq. split_and!; [exact (f_equal k_disk Hq)|exact (f_equal k_ide Hq)|exact (f_equal k_dwrites Hq)]. Qed.
Lemma looked_icache k k' : looked k k' -> k_icache k' = k_icache k.
Proof. intros Hl. exact (f_equal k_icache (lo_rest _ _ Hl)). Qed.
Lemma looked_sb k k' : looked k k' -> k_sb k' = k_sb k.
Proof. intros Hl. exact (f_equal k_sb (lo_rest _ _ Hl)). Qed.
Lemma looked_has k k' n : looked k k' -> disk_has k n -> disk_has k' n.
Proof. intros Hl. apply disk_has_ide. apply (looked_disk _ _ Hl). Qed.

(** A clean buffer that was just read can be released as it is. *)
Lemma got_saved k n b k1 : cache [] k -> got dev i p pid [] k n b k1 ->
  dirty (k_bcache k1 !!! b) = true \/ view k1 n = disk_sector k1 dev n.
Proof.
  intros Hca Hg. destruct (dirty (k_bcache k1 !!! b)) eqn:Edi; [by left|right].
  pose proof (go_rest _ _ _ _ _ _ _ _ _ Hg) as Hq1. rewrite (go_view _ _ _ _ _ _ _ _ _ Hg).
  unfold disk_sector. rewrite (f_equal k_disk Hq1 : k_disk k1 = k_disk k). apply view_unpinned with pid; [done|].
  intros (y & Hy & Hdi). rewrite (go_dirty _ _ _ _ _ _ _ _ _ Hg) in Edi.
  destruct (go_old _ _ _ _ _ _ _ _ _ Hg) as [Hc|[_ Hno]]; [|by apply (Hno y)].
  rewrite (cached_unique _ _ _ _ _ _ _ Hca Hy Hc) in Hdi. congruence.
Qed.

(** bread and brelse, the inode table [t] set in between. *)
Lemma look_ok n k e : reader k -> disk_has k n ->
  exists b k1, bread dev n k e = Ok b k1 e /\ b_data (k_bcache k1 !!! b) = view k n /\
    k_icache k1 = k_icache k /\ k_sb k1 = k_sb k /\
    forall t, exists k2, brelse b (k1 <| k_icache := t |>) e = Ok tt k2 e /\ looked (k <| k_icache := t |>) k2.
Proof.
  intros [Ht Hca Hsp] Hh.
  destruct (bread_ok dev i p pid n k e [] Ht Hca ltac:(set_solver) Hh (room_spare dev k n Hsp)) as (b & k1 & Hrun1 & Hg).
  pose proof Hg as [Ht1 Hca1 _ Hc1 _ Hq1 _ _ Hv1 Hi1].
  exists b, k1. split; [done|]. split; [by rewrite <- (view_cached _ _ _ _ _ _ Hca1 Hc1)|].
  split; [exact (f_equal k_icache Hq1)|]. split; [exact (f_equal k_sb Hq1)|]. intros t.
  set (k1' := k1 <| k_icache := t |>). assert (Hca1' : cache [b] k1') by (by destruct Hca1).
  destruct (brelse_ok dev i p pid [] k1' e n b) as (k2 & Hrun2 & Hf).
  { eapply thread_same; [..|exact Ht1]; done. }
  { done. }
  { done. }
  { exact (got_saved k n b k1 Hca Hg). }
  exists k2. split; [done|]. pose proof (fun x => freed_info dev i p pid [] k1' b k2 x Hf) as Hi2.
  destruct Hf as [Ht2 Hca2 Hq2 _ Hv2 Hs2]. assert (Hdi : forall x, (x < HEAD)%nat -> dirty (k_bcache k2 !!! x) = dirty (k_bcache k !!! x)).
  { intros x Hx. unfold dirty. destruct (Hi2 x Hx) as (-> & _).
    apply (got_dirty _ _ _ _ _ _ _ _ _ _ Hg). }
  split; [split; [done|done|]| | | |].
  - destruct Hsp as (y & Hy & Hny & Hyd). exists y. split; [done|]. split; [done|]. by rewrite Hdi.
  - rewrite Hq2. change (quiet k1 <| k_icache := t |> <| k_bcache := k_bcache k2 |> =
      quiet k <| k_icache := t |> <| k_bcache := k_bcache k2 |>). by rewrite Hq1.
  - intros m. rewrite Hv2. apply Hv1.
  - intros m. rewrite (pinned_ext dev k1' k2) by (intros y Hy; destruct (Hi2 y Hy) as (-> & -> & -> & _); done).
    apply (got_pinned _ _ _ _ _ _ _ _ _ _ Hca Hg).
  - intros s. rewrite Hs2. apply Hi1.
Qed.

Lemma look_same n k e : reader k -> disk_has k n ->
  exists b k1 k2, bread dev n k e = Ok b k1 e /\ b_data (k_bcache k1 !!! b) = view k n /\ k_icache k1 = k_icache k /\
    brelse b k1 e = Ok tt k2 e /\ looked k k2.
Proof.
  intros Hr Hh. destruct (look_ok n k e Hr Hh) as (b & k1 & Hrun & Hd & Hi & _ & Hrel).
  destruct (Hrel (k_icache k)) as (k2 & Hrun2 & Hl). rewrite <- Hi, set_icache_id in Hrun2. rewrite set_icache_id in Hl.
  by exists b, k1, k2.
Qed.

(** * The blocks of a file *)

(** The number of block [bn] of a file with addresses [a]; [V]: the blocks. *)
Definition block_at (V : Z -> list Z) (a : list Z) (bn : Z) : Z :=
  if bn <? NDIRECT then zget a bn else get32 (V (zget a NDIRECT)) (Z.to_nat (4 * (bn - NDIRECT))).

(** Its byte at offset [o], and [n] bytes from there. *)
Definition byte_at (V : Z -> list Z) (a : list Z) (o : Z) : Z :=
  zget (V (block_at V a (o / BSIZE))) (o mod BSIZE).
Definition bytes_at (V : Z -> list Z) (a : list Z) (o n : Z) : list Z := byte_at V a <$> seqZ o n.

(** The first [c] blocks are allocated. *)
Record allocated (V : Z -> list Z) k (a : list Z) (c : Z) : Prop := {
  al_max : c <= NDIRECT + NINDIRECT;
  al_block : forall bn, 0 <= bn < c -> block_at V a bn <> 0 /\ disk_has k (block_at V a bn);
  al_ind : NDIRECT < c -> zget a NDIRECT <> 0 /\ disk_has k (zget a NDIRECT)
}.

Lemma block_at_ext V V' a bn : (forall m, V' m = V m) -> block_at V' a bn = block_at V a bn.
Proof. intros Hv. unfold block_at. by rewrite Hv. Qed.
Lemma bytes_at_ext V V' a o n : (forall m, V' m = V m) -> bytes_at V' a o n = bytes_at V a o n.
Proof.
  intros Hv. unfold bytes_at. apply list_fmap_ext. intros ? x _. unfold byte_at.
  by rewrite (block_at_ext V V'), Hv.
Qed.

Lemma allocated_looked k k' a c : looked k k' -> allocated (view k) k a c -> allocated (view k') k' a c.
Proof.
  intros Hl [H1 H2 H3]. split; [done| |].
  - intros bn Hbn. rewrite (block_at_ext (view k)) by apply (lo_view _ _ Hl). destruct (H2 bn Hbn).
    split; [done|]. by apply (looked_has k).
  - intros Hc. destruct (H3 Hc). split; [done|]. by apply (looked_has k).
Qed.

(** bmap finds an allocated block. *)
Lemma bmap_ok j bn c k e : let ip := k_icache k !!! j in
  reader k -> i_dev ip = dev -> allocated (view k) k (i_addrs ip) c -> 0 <= bn < c ->
  exists k', bmap j bn k e = Ok (block_at (view k) (i_addrs ip) bn) k' e /\ looked k k'.
Proof.
  intros ip Hr Hdev [Hmax Hblk Hind] Hbn. unfold bmap, get_inode. step. fold ip.
  destruct (Hblk bn Hbn) as [Hnz _]. unfold block_at in *. destruct (Z.ltb_spec bn NDIRECT) as [Hlt|Hge].
  - rewrite (proj2 (Z.eqb_neq _ 0)) by done. exists k. split; [done|by apply looked_refl].
  - destruct Hind as [Hiz Hih]; [lia|]. rewrite (proj2 (Z.ltb_lt (bn - NDIRECT) NINDIRECT)) by lia.
    rewrite (proj2 (Z.eqb_neq (zget (i_addrs ip) NDIRECT) 0)) by done. step. rewrite Hdev.
    destruct (look_same (zget (i_addrs ip) NDIRECT) k e Hr Hih) as (b & k1 & k2 & Hrun1 & Hd & _ & Hrun2 & Hl).
    rewrite (bind_ok _ _ _ _ _ _ _ Hrun1). unfold get_buf. step. rewrite Hd.
    rewrite (proj2 (Z.eqb_neq _ 0)) by done. step. rewrite (bind_ok _ _ _ _ _ _ _ Hrun2).
    exists k2. by split.
Qed.

Lemma view_length held k m : cache held k -> length (view k m) = 512%nat.
Proof.
  intros Hca. destruct (cached_dec dev k m) as [[b Hb]|Hno].
  - rewrite (view_cached _ _ _ _ _ _ Hca Hb). destruct Hb as (Hr & Hd & _). by apply (bi_size _ _ _ _ _ _ (ca_inv _ _ _ _ Hca)).
  - rewrite view_uncached by done. apply (bi_disk _ _ _ _ _ _ (ca_inv _ _ _ _ Hca)).
Qed.

(** A run of bytes inside one block. *)
Lemma bytes_at_block V a o m : 0 <= o -> 0 <= m <= BSIZE - o mod BSIZE -> (forall x, length (V x) = 512%nat) ->
  take (Z.to_nat m) (drop (Z.to_nat (o mod BSIZE)) (V (block_at V a (o / BSIZE)))) = bytes_at V a o m.
Proof.
  intros Ho Hm Hlen. unfold BSIZE in *. apply list_eq. intros x. unfold bytes_at. rewrite list_lookup_fmap.
  destruct (decide (x < Z.to_nat m)%nat) as [Hx|Hx].
  - rewrite lookup_take_lt, lookup_drop, lookup_seqZ_lt by lia. simpl. unfold byte_at, BSIZE, zget.
    replace ((o + Z.of_nat x) / 512) with (o / 512) by dlia.
    replace ((o + Z.of_nat x) mod 512) with (o mod 512 + Z.of_nat x) by dlia.
    replace (Z.to_nat (o mod 512 + Z.of_nat x)) with (Z.to_nat (o mod 512) + x)%nat by dlia.
    apply list_lookup_lookup_total_lt. rewrite Hlen. dlia.
  - rewrite lookup_take_ge by lia. by rewrite lookup_seqZ_ge by lia.
Qed.

Lemma bytes_at_app V a o n1 n2 : 0 <= n1 -> 0 <= n2 -> bytes_at V a o (n1 + n2) = bytes_at V a o n1 ++ bytes_at V a (o + n1) n2.
Proof. intros H1 H2. unfold bytes_at. by rewrite seqZ_app, fmap_app by lia. Qed.

Lemma readi_loop_ok j sz c e : c * BSIZE < 2 ^ 31 -> sz <= c * BSIZE -> forall fuel tot off n out k,
  let ip := k_icache k !!! j in
  reader k -> i_dev ip = dev -> allocated (view k) k (i_addrs ip) c ->
  0 <= tot <= n -> 0 <= off -> off + (n - tot) <= sz -> (Z.to_nat (n - tot) < fuel)%nat ->
  exists k', readi_loop fuel j tot off n out k e = Ok (out ++ bytes_at (view k) (i_addrs ip) off (n - tot)) k' e /\ looked k k'.
Proof.
  intros Hc Hsz. induction fuel as [|fuel IH]; intros tot off n out k ip Hr Hdev Hal Ht Ho Hn Hf; [lia|].
  cbn [readi_loop]. destruct (Z.ltb_spec tot n) as [Hlt|Hge]; cbn [negb].
  2:{ exists k. replace (n - tot) with 0 by lia. split; [|by apply looked_refl]. unfold ret. by rewrite app_nil_r. }
  assert (Hbn : 0 <= off / BSIZE < c) by (unfold BSIZE in *; dlia).
  unfold get_inode. step. fold ip. destruct (bmap_ok j (off / BSIZE) c k e Hr Hdev Hal Hbn) as (k1 & Hrun1 & Hl1).
  rewrite (bind_ok _ _ _ _ _ _ _ Hrun1), Hdev. fold ip.
  destruct (look_same (block_at (view k) (i_addrs ip) (off / BSIZE)) k1 e (lo_reader _ _ Hl1)) as
    (b & k2 & k3 & Hrun2 & Hd & _ & Hrun3 & Hl2).
  { apply (looked_has k); [done|]. by apply (al_block _ _ _ _ Hal). }
  rewrite (bind_ok _ _ _ _ _ _ _ Hrun2). unfold get_buf. step. rewrite (bind_ok _ _ _ _ _ _ _ Hrun3), Hd.
  rewrite (lo_view _ _ Hl1). set (m := Z.min (n - tot) (BSIZE - off mod BSIZE)).
  assert (Hm : 0 < m <= n - tot) by (unfold m, BSIZE; dlia).
  pose proof (looked_trans _ _ _ Hl1 Hl2) as Hl. assert (Hip : k_icache k3 !!! j = ip) by (by rewrite (looked_icache _ _ Hl)).
  rewrite bytes_at_block; [|done|unfold m, BSIZE in *; dlia|intros; eapply view_length, (rd_cache _ Hr)].
  rewrite (u32_small (off + m)) by lia.
  destruct (IH (tot + m) (off + m) n (out ++ bytes_at (view k) (i_addrs ip) off m) k3) as (k4 & Hrun4 & Hl4);
    rewrite ?Hip; [apply (lo_reader _ _ Hl)|done|by apply (allocated_looked k)|lia|lia|lia|lia|].
  exists k4. split; [|by eapply looked_trans]. rewrite Hrun4, Hip, <- app_assoc. do 2 f_equal.
  rewrite (bytes_at_ext (view k) (view k3)) by apply (lo_view _ _ Hl). rewrite <- bytes_at_app by lia. f_equal; lia.
Qed.

Context `{Devices}.

(** readi: the bytes of the file from [off], as many as it has; past its end
    it fails. *)
Lemma readi_ok j off n c k e : let ip := k_icache k !!! j in
  reader k -> i_dev ip = dev -> i_type ip <> T_DEV -> allocated (view k) k (i_addrs ip) c ->
  0 <= i_size ip <= c * BSIZE -> 0 <= off < 2 ^ 31 -> 0 <= n < 2 ^ 31 ->
  exists k', looked k k' /\ readi j off n k e =
    if i_size ip <? off then Ok (-1, []) k' e
    else let n' := Z.min n (i_size ip - off) in Ok (n', bytes_at (view k) (i_addrs ip) off n') k' e.
Proof.
  intros ip Hr Hdev Hty Hal Hsz Ho Hn. unfold readi, get_inode. step. fold ip.
  rewrite (proj2 (Z.eqb_neq (i_type ip) T_DEV)) by done. rewrite (u32_small (off + n)) by lia.
  destruct (Z.ltb_spec (i_size ip) off) as [|Hoff]; cbn [orb]; [exists k; split; [by apply looked_refl|done]|].
  rewrite (proj2 (Z.ltb_ge (off + n) off)) by lia. pose proof (al_max _ _ _ _ Hal) as Hmax.
  set (n' := if i_size ip <? off + n then i_size ip - off else n).
  assert (Hn' : n' = Z.min n (i_size ip - off)) by (unfold n'; destruct (Z.ltb_spec (i_size ip) (off + n)); lia).
  destruct (readi_loop_ok j (i_size ip) c e) with (fuel := S (Z.to_nat n')) (tot := 0) (off := off) (n := n')
    (out := @nil Z) (k := k) as (k' & Hrun & Hl); fold ip; try done; try lia.
  { change (NDIRECT + NINDIRECT) with 140 in Hmax. unfold BSIZE. lia. }
  exists k'. split; [done|]. rewrite (bind_ok _ _ _ _ _ _ _ Hrun). unfold ret. fold ip. rewrite <- Hn'.
  replace (n' - 0) with n' by lia. done.
Qed.
End reading.
