(* ===== verification/Mkfs.v ===== *)
(** mkfs.c: the program that builds the disk image on the host.  The image file
    is the list of its sectors; the host is little-endian, as the machines the
    Makefile builds on are. *)
From S2P Require Import Prelude Kernel Mem Fsformat Str.

Definition NINODES : Z := 200.

(** The globals of the program: the image, what is free, the super block and
    what was printed. *)
Record host := mkHost {
  h_img : list (list Z);
  h_freeinode : Z;
  h_freeblock : Z;
  h_sb : superblock;
  h_out : list (string * list Z)
}.
#[export] Instance eta_host : Eta host := fun h =>
  mkHost (h_img h) (h_freeinode h) (h_freeblock h) (h_sb h) (h_out h).
#[export] Instance eta_dinode : Eta dinode := fun d =>
  mkDinode (di_type d) (di_major d) (di_minor d) (di_nlink d) (di_size d) (di_addrs d).
#[export] Instance over_h_img : Updater h_img := ltac:(derive_updater).
#[export] Instance over_h_freeinode : Updater h_freeinode := ltac:(derive_updater).
#[export] Instance over_h_freeblock : Updater h_freeblock := ltac:(derive_updater).
#[export] Instance over_h_sb : Updater h_sb := ltac:(derive_updater).
#[export] Instance over_h_out : Updater h_out := ltac:(derive_updater).
#[export] Instance over_di_size : Updater di_size := ltac:(derive_updater).
#[export] Instance over_di_addrs : Updater di_addrs := ltac:(derive_updater).

(** The host's files: does open of the image succeed; what the calls of read
    on a file return, None when it does not open. *)
Class Host := {
  open_image : list Z -> bool;
  host_file : list Z -> option (list (list Z))
}.

Definition H := M host.
(** exit(1) after an error message, and a failed assertion. *)
Definition exit1 {A} : H A := panic "exit(1)".
Definition assert (b : bool) : H unit := if b then ret tt else panic "assert".
Definition hprintf (fmt : string) (args : list Z) : H unit :=
  modify (fun h => h <| h_out ::= fun o => o ++ [(fmt, args)] |>).

Definition zeroes : list Z := replicate (Z.to_nat BSIZE) 0.
Definition nbitmap : Z := FSSIZE / (BSIZE * 8) + 1.
Definition ninodeblocks : Z := NINODES / IPB + 1.
Definition nlog : Z := LOGSIZE.
Definition nmeta : Z := 2 + nlog + ninodeblocks + nbitmap.

(** convert to intel byte order *)
Definition xshort (x : Z) : Z := get16 (le16 x) 0.
Definition xint (x : Z) : Z := get32 (le32 x) 0.

(** Behind the end of the image a write leaves a hole of zeroes, and a read
    comes back short. *)
Definition wsect (sec : Z) (buf : list Z) : H unit :=
  let s := Z.to_nat (u32 (sec * BSIZE) / BSIZE) in
  modify (fun h => h <| h_img ::= fun img =>
    <[s := buf]> (img ++ replicate (S s - length img) zeroes) |>).
Definition rsect (sec : Z) : H (list Z) :=
  img <- gets h_img ;;
  match img !! Z.to_nat (u32 (sec * BSIZE) / BSIZE) with
  | Some buf => ret buf
  | None => exit1
  end.

Definition winode (inum : Z) (ip : dinode) : H unit :=
  sb <- gets h_sb ;;
  let bn := IBLOCK inum sb in
  buf <- rsect bn ;;
  wsect bn (put_bytes buf (dinode_off inum) (dinode_bytes ip)).
Definition rinode (inum : Z) : H dinode :=
  sb <- gets h_sb ;;
  buf <- rsect (IBLOCK inum sb) ;;
  ret (get_dinode buf (dinode_off inum)).

Definition ialloc (type : Z) : H Z :=
  inum <- gets h_freeinode ;;
  modify (fun h => h <| h_freeinode ::= fun n => u32 (n + 1) |>) ;;
  winode inum (mkDinode (xshort type) 0 0 (xshort 1) (xint 0) (replicate 13 0)) ;;
  ret inum.

(** The bitmap of the first [used] blocks. *)
Fixpoint bitmap_loop (n : nat) (i : Z) (buf : list Z) : list Z :=
  match n with
  | O => buf
  | S n' => bitmap_loop n' (i + 1)
      (zset buf (i / 8) (u8 (Z.lor (zget buf (i / 8)) (Z.shiftl 0x1 (i mod 8)))))
  end.
Definition balloc (used : Z) : H unit :=
  hprintf "balloc: first %d blocks have been allocated\n" [used] ;;
  assert (used <? BSIZE * 8) ;;
  let buf := bitmap_loop (Z.to_nat used) 0 zeroes in
  sb <- gets h_sb ;;
  hprintf "balloc: write bitmap block at sector %d\n" [sb_bmapstart sb] ;;
  wsect (sb_bmapstart sb) buf.

(** freeblock++ *)
Definition next_block : H Z :=
  b <- gets h_freeblock ;;
  modify (fun h => h <| h_freeblock ::= fun n => u32 (n + 1) |>) ;;
  ret b.

(** if(xint(din.addrs[j]) == 0) din.addrs[j] = xint(freeblock++); *)
Definition fill_addr (din : dinode) (j : Z) : H dinode :=
  if xint (zget (di_addrs din) j) =? 0 then
    b <- next_block ;;
    ret (din <| di_addrs ::= fun a => zset a j (xint b) |>)
  else ret din.

(** The word at [o] of the indirect block [ind], likewise. *)
Definition indirect_word (ind : Z) (o : nat) : H Z :=
  indirect <- rsect ind ;;
  indirect <- (if get32 indirect o =? 0 then
                 b <- next_block ;;
                 let indirect := put32 indirect o (xint b) in
                 wsect ind indirect ;;
                 ret indirect
               else ret indirect) ;;
  ret (xint (get32 indirect o)).

(** The block [fbn] of the file, allocated if it was not; the inode after it. *)
Definition append_block (din : dinode) (fbn : Z) : H (dinode * Z) :=
  if fbn <? NDIRECT then
    din <- fill_addr din fbn ;;
    ret (din, xint (zget (di_addrs din) fbn))
  else
    din <- fill_addr din NDIRECT ;;
    x <- indirect_word (xint (zget (di_addrs din) NDIRECT)) (Z.to_nat (4 * (fbn - NDIRECT))) ;;
    ret (din, x).

(** Every round copies at least one byte. *)
Fixpoint iappend_loop (fuel : nat) (p : list Z) (off n : Z) (din : dinode) : H (dinode * Z) :=
  match fuel with
  | O => fun h _ => Blocked h
  | S fuel' =>
      if 0 <? n then
        let fbn := off / BSIZE in
        assert (fbn <? MAXFILE) ;;
        '(din, x) <- append_block din fbn ;;
        let n1 := Z.min n (u32 ((fbn + 1) * BSIZE - off)) in
        buf <- rsect x ;;
        wsect x (put_bytes buf (Z.to_nat (off - fbn * BSIZE)) (take (Z.to_nat n1) p)) ;;
        iappend_loop fuel' (drop (Z.to_nat n1) p) (u32 (off + n1)) (n - n1) din
      else ret (din, off)
  end.
Definition iappend (inum : Z) (xp : list Z) (n : Z) : H unit :=
  din <- rinode inum ;;
  let off := xint (di_size din) in
  '(din, off) <- iappend_loop (S (Z.to_nat n)) xp off n din ;;
  winode inum (din <| di_size := xint off |>).

Section main.
Context `{Host}.

(** An entry of the root directory; the name is padded with zeroes. *)
Definition add_entry (rootino inum : Z) (name : list Z) : H unit :=
  iappend rootino (dirent_bytes (xshort inum) name) sizeof_dirent.

(** while((cc = read(fd, buf, sizeof(buf))) > 0) *)
Fixpoint copy_file (inum : Z) (reads : list (list Z)) : H unit :=
  match reads with
  | [] => ret tt
  | buf :: reads' =>
      if 0 <? zlen buf then iappend inum buf (zlen buf) ;; copy_file inum reads' else ret tt
  end.

Fixpoint add_files (rootino : Z) (argv : list (list Z)) : H unit :=
  match argv with
  | [] => ret tt
  | arg :: argv' =>
      assert (negb (bool_decide (47 ∈ arg))) ;;
      match host_file arg with
      | None => exit1
      | Some reads =>
          (* Skip leading _ in name when writing to file system. *)
          let name := if zget arg 0 =? 95 then tail arg else arg in
          inum <- ialloc T_FILE ;;
          add_entry rootino inum (strncpy (replicate (Z.to_nat DIRSIZ) 0) name DIRSIZ) ;;
          copy_file inum reads
      end ;;
      add_files rootino argv'
  end.

(** sb of the program, as a block. *)
Definition sb_bytes (sb : superblock) : list Z :=
  le32 (sb_size sb) ++ le32 (sb_nblocks sb) ++ le32 (sb_ninodes sb) ++ le32 (sb_nlog sb) ++
  le32 (sb_logstart sb) ++ le32 (sb_inodestart sb) ++ le32 (sb_bmapstart sb).

(** What main writes once the image is empty. *)
Definition populate (files : list (list Z)) : H unit :=
  sb <- gets h_sb ;;
  wsect 1 (put_bytes zeroes 0 (sb_bytes sb)) ;;
  rootino <- ialloc T_DIR ;;
  assert (rootino =? ROOTINO) ;;
  add_entry rootino rootino (put_bytes (replicate (Z.to_nat DIRSIZ) 0) 0 [46; 0]) ;;
  add_entry rootino rootino (put_bytes (replicate (Z.to_nat DIRSIZ) 0) 0 [46; 46; 0]) ;;
  add_files rootino files ;;
  (* fix size of root inode dir *)
  din <- rinode rootino ;;
  let off := xint (di_size din) in
  let off := u32 ((off / BSIZE + 1) * BSIZE) in
  winode rootino (din <| di_size := xint off |>) ;;
  b <- gets h_freeblock ;;
  balloc b.

(** sb and freeblock, and the line printed about them. *)
Definition layout : H unit :=
  let nblocks := FSSIZE - nmeta in
  modify (fun h => h <| h_sb := mkSb (xint FSSIZE) (xint nblocks) (xint NINODES) (xint nlog)
    (xint 2) (xint (2 + nlog)) (xint (2 + nlog + ninodeblocks)) |>) ;;
  hprintf "nmeta %d (boot, super, log blocks %u inode blocks %u, bitmap blocks %u) blocks %d total %d\n"
    [nmeta; nlog; ninodeblocks; nbitmap; nblocks; FSSIZE] ;;
  modify (fun h => h <| h_freeblock := nmeta |>). (* the first free block that we can allocate *)

(** [argv]: the arguments after the name of the program. *)
Definition main (argv : list (list Z)) : H unit :=
  match argv with
  | [] => exit1
  | img :: files =>
      assert (BSIZE mod sizeof_dinode =? 0) ;;
      assert (BSIZE mod sizeof_dirent =? 0) ;;
      if negb (open_image img) then exit1
      else
        modify (fun h => h <| h_img := [] |>) ;;
        layout ;;
        for_ (Z.to_nat FSSIZE) 0 (fun i => wsect i zeroes) ;;
        populate files
  end.
End main.

(** What the program starts with. *)
Definition host0 : host := mkHost [] 1 0 (mkSb 0 0 0 0 0 0 0) [].
