(* ===== verification/MkfsFacts.v ===== *)
(** mkfs builds files block by block: what a file of the image consists of, and
    that appending to one leaves the others alone. *)
From S2P Require Import Prelude Kernel Mem Fsformat BlockFacts Str ReadFacts Mkfs.

Section image.
Implicit Types (h : host) (own : Z -> Z) (f n b : Z) (a s : list Z) (e : list (host -> host)).

(** The sectors of the image, by number. *)
Definition sector h n : list Z := h_img h !!! Z.to_nat n.

Definition img_ok h : Prop := length (h_img h) = Z.to_nat FSSIZE /\ forall n, 0 <= n < FSSIZE -> length (sector h n) = 512%nat.

Definition set_sector n (buf : list Z) h : host := h <| h_img ::= fun img => <[Z.to_nat n := buf]> img |>.

Lemma sector_set h n m buf : img_ok h -> 0 <= n < FSSIZE -> 0 <= m ->
  sector (set_sector n buf h) m = if decide (n = m) then buf else sector h m.
Proof.
  intros [Hl _] Hn Hm. unfold sector, set_sector. fields. case_decide as Hd.
  - subst. apply list_lookup_total_insert_eq. lia.
  - apply list_lookup_total_insert_ne. lia.
Qed.

Lemma set_sector_ok h n buf : img_ok h -> 0 <= n < FSSIZE -> length buf = 512%nat -> img_ok (set_sector n buf h).
Proof.
  intros Hi Hn Hb. split; [unfold set_sector; fields; rewrite length_insert; apply Hi|].
  intros m Hm. rewrite sector_set by (done || lia). case_decide; [done|]. by apply Hi.
Qed.

Lemma sec_index n : 0 <= n < FSSIZE -> u32 (n * BSIZE) / BSIZE = n.
Proof. intros Hn. unfold FSSIZE, BSIZE in *. rewrite u32_small by lia. apply Z.div_mul. lia. Qed.

Lemma rsect_ok n h e : img_ok h -> 0 <= n < FSSIZE -> rsect n h e = Ok (sector h n) h e.
Proof.
  intros [Hl _] Hn. unfold rsect. step. rewrite sec_index by done.
  rewrite (list_lookup_lookup_total_lt (h_img h)) by lia. done.
Qed.
Lemma wsect_ok n buf h e : img_ok h -> 0 <= n < FSSIZE -> wsect n buf h e = Ok tt (set_sector n buf h) e.
Proof.
  intros [Hl _] Hn. unfold wsect, set_sector, modify. rewrite sec_index by done. f_equal.
  destruct h as [img fi fb sb out]. cbv [over over_h_img h_img h_freeinode h_freeblock h_sb h_out] in *.
  rewrite (proj2 (Nat.sub_0_le (S (Z.to_nat n)) (length img))) by lia. cbn [replicate]. by rewrite (app_nil_r img).
Qed.

Lemma xint_small z : 0 <= z < 2 ^ 32 -> xint z = z.
Proof. intros Hz. unfold xint, get32. cbn. by apply u32_bytes. Qed.

(** Block [b] was given to file [f]. *)
Definition mine own (hi f b : Z) : Prop := nmeta <= b < hi /\ own b = f.

(** A file with [nb] blocks, whose bytes begin with [s] and are 0 from there;
    [g]: does it have its indirect block? *)
Record filed (D : Z -> list Z) own (hi f : Z) a (g : bool) (nb : Z) s : Prop := {
  fd_len : length a = 13%nat;
  fd_word : Forall (fun z => 0 <= z < 2 ^ 32) a;
  fd_max : 0 <= nb <= MAXFILE;
  fd_size : zlen s <= nb * BSIZE;
  fd_flag : NDIRECT < nb -> g = true;
  fd_block : forall bn, 0 <= bn < nb -> mine own hi f (block_at D a bn);
  fd_ind : g = true -> mine own hi f (zget a NDIRECT);
  fd_inj : forall bn bn', 0 <= bn < nb -> 0 <= bn' < nb -> block_at D a bn = block_at D a bn' -> bn = bn';
  fd_apart : forall bn, g = true -> 0 <= bn < nb -> block_at D a bn <> zget a NDIRECT;
  fd_zero : forall bn, nb <= bn < MAXFILE -> bn < NDIRECT \/ g = true -> block_at D a bn = 0;
  fd_noind : g = false -> zget a NDIRECT = 0;
  fd_bytes : forall o, 0 <= o < nb * BSIZE -> byte_at D a o = zget s o
}.

(** From [h] to [h'] only [f] has changed: the blocks of the others, and those
    that are in front of the data, are as they were. *)
Record grows own f h h' : Prop := {
  gr_ok : img_ok h';
  gr_hi : h_freeblock h <= h_freeblock h';
  gr_sb : h_sb h' = h_sb h;
  gr_freeinode : h_freeinode h' = h_freeinode h;
  gr_same : forall n, 0 <= n < h_freeblock h -> n < nmeta \/ own n <> f -> sector h' n = sector h n;
  gr_fresh : forall n, h_freeblock h' <= n < FSSIZE -> sector h' n = zeroes
}.

Lemma block_at_same D D' own hi f a g nb s bn : filed D own hi f a g nb s ->
  (forall b, mine own hi f b -> D' b = D b) -> 0 <= bn < MAXFILE -> bn < NDIRECT \/ g = true ->
  block_at D' a bn = block_at D a bn.
Proof.
  intros Hf Hs Hbn Hc. unfold block_at. destruct (Z.ltb_spec bn NDIRECT); [done|].
  rewrite Hs; [done|]. apply (fd_ind _ _ _ _ _ _ _ _ Hf). destruct Hc; [lia|done].
Qed.

Lemma filed_direct D own hi f a g nb s bn : filed D own hi f a g nb s -> 0 <= bn < nb -> bn < NDIRECT \/ g = true.
Proof. intros Hf Hbn. destruct (decide (bn < NDIRECT)); [by left|right]. apply (fd_flag _ _ _ _ _ _ _ _ Hf). lia. Qed.

(** Another file keeps its blocks. *)
Lemma filed_frame D D' own hi hi' f a g nb s : filed D own hi f a g nb s -> hi <= hi' ->
  (forall b, mine own hi f b -> D' b = D b) -> filed D' own hi' f a g nb s.
Proof.
  intros Hf Hhi Hs. pose proof (fun bn => block_at_same D D' own hi f a g nb s bn Hf Hs) as Hb.
  pose proof Hf as [F1 F2 F3 F4 F5 F6 F7 F8 F9 F10 F11 F12].
  assert (Hb' : forall bn, 0 <= bn < nb -> block_at D' a bn = block_at D a bn)
    by (intros bn Hbn; apply Hb; [lia|by eapply filed_direct]).
  assert (Hm : forall b, mine own hi f b -> mine own hi' f b) by (intros b []; split; [lia|done]).
  split; [done|done|done|done|done| | | | | | |].
  - intros bn Hbn. rewrite Hb' by done. by apply Hm, F6.
  - intros Hn. by apply Hm, F7.
  - intros bn bn' Hn Hn'. rewrite !Hb' by done. by apply F8.
  - intros bn Hn Hbn. rewrite Hb' by done. by apply F9.
  - intros bn Hn Hc. rewrite Hb by (done || lia). by apply F10.
  - done.
  - intros o Ho. unfold byte_at. assert (0 <= o / BSIZE < nb) by (unfold BSIZE in *; dlia).
    rewrite Hb' by done. rewrite Hs by (by apply F6). by apply F12.
Qed.

(** A file that has just been created. *)
Lemma filed_empty D own hi f : filed D own hi f (replicate 13 0) false 0 [].
Proof.
  assert (Hz : forall bn, zget (replicate 13 0) bn = 0).
  { intros bn. unfold zget. rewrite list_lookup_total_alt. destruct (replicate 13 0 !! _) eqn:E; [|done].
    by apply lookup_replicate in E as [-> _]. }
  split; [done|by repeat constructor|done|done|unfold NDIRECT; lia|lia|done|lia|done| |done|lia].
  intros bn Hbn [Hc|Hc]; [|done]. unfold block_at. by rewrite (proj2 (Z.ltb_lt _ _)) by done.
Qed.

(** * Allocating *)

Section fresh.
Context (D : Z -> list Z) (own : Z -> Z) (hi f : Z).
Hypothesis (Hown : own hi = f) (Hlo : nmeta <= hi < FSSIZE) (Hz : D hi = zeroes).

Lemma mine_up b : mine own hi f b -> mine own (hi + 1) f b.
Proof. intros []. split; [lia|done]. Qed.
Lemma mine_hi : mine own (hi + 1) f hi.
Proof. split; [lia|done]. Qed.
Lemma mine_ne b : mine own hi f b -> b <> hi.
Proof. intros []. lia. Qed.

Lemma zero_byte o : zget (D hi) o = 0.
Proof.
  rewrite Hz. unfold zget, zeroes. rewrite list_lookup_total_alt. destruct (replicate _ 0 !! _) eqn:E; [|done].
  by apply lookup_replicate in E as [-> _].
Qed.
Lemma zero_word o : get32 (D hi) o = 0.
Proof.
  pose proof (fun o => zero_byte (Z.of_nat o)) as Hb. unfold zget in Hb.
  unfold get32. setoid_rewrite Nat2Z.id in Hb. by rewrite !Hb.
Qed.
Lemma past_end s nb o : zlen s <= nb * BSIZE -> o / BSIZE = nb -> zget s o = 0.
Proof.
  intros Hs Ho. unfold zget. rewrite list_lookup_total_alt, lookup_ge_None_2; [done|].
  unfold zlen, BSIZE in *. dlia.
Qed.

(** A direct block. *)
Lemma direct_new a g nb s : filed D own hi f a g nb s -> nb < NDIRECT ->
  filed D own (hi + 1) f (zset a nb hi) g (nb + 1) s.
Proof.
  intros Hf Hnb. pose proof Hf as [F1 F2 F3 F4 F5 F6 F7 F8 F9 F10 F11 F12].
  assert (Hia : forall j, 0 <= j -> zget (zset a nb hi) j = if decide (j = nb) then hi else zget a j).
  { intros j Hj. case_decide as Hjn; [rewrite Hjn; apply zget_zset_eq|apply zget_zset_ne; lia]. unfold zlen, NDIRECT in *. lia. }
  assert (Hb : forall bn, 0 <= bn -> block_at D (zset a nb hi) bn = if decide (bn = nb) then hi else block_at D a bn).
  { intros bn Hbn. unfold block_at. rewrite !Hia by (unfold NDIRECT; lia).
    rewrite (decide_False (P := NDIRECT = nb)) by lia. destruct (Z.ltb_spec bn NDIRECT); [done|].
    by rewrite decide_False by lia. }
  assert (H12 : zget (zset a nb hi) NDIRECT = zget a NDIRECT) by (rewrite Hia, decide_False by (unfold NDIRECT in *; lia); done).
  split.
  - by rewrite length_zset.
  - unfold zset. apply Forall_insert; [done|]. unfold nmeta, FSSIZE in *. change (2 ^ 32) with 4294967296. split; [|lia].
    etrans; [|apply Hlo]. done.
  - unfold MAXFILE, NINDIRECT. unfold NDIRECT, BSIZE in *. change (512 / 4) with 128. lia.
  - unfold BSIZE in *. lia.
  - intros. apply F5. lia.
  - intros bn Hbn. rewrite Hb by lia. case_decide; [apply mine_hi|apply mine_up, F6; lia].
  - intros Hg. rewrite H12. by apply mine_up, F7.
  - intros bn bn' Hbn Hbn'. rewrite !Hb by lia. repeat case_decide; [lia| | |apply F8; lia].
    + intros E. destruct (mine_ne (block_at D a bn')); [apply F6; lia|done].
    + intros E. destruct (mine_ne (block_at D a bn)); [apply F6; lia|done].
  - intros bn Hg Hbn. rewrite Hb, H12 by lia. case_decide; [|apply F9; [done|lia]].
    intros E. destruct (mine_ne (zget a NDIRECT)); [by apply F7|done].
  - intros bn Hbn Hc. rewrite Hb, decide_False by lia. apply F10; [lia|done].
  - intros Hg. rewrite H12. by apply F11.
  - intros o Ho. unfold byte_at. rewrite Hb by (unfold BSIZE in *; dlia). case_decide as Hd.
    + rewrite zero_byte. symmetry. by apply (past_end _ nb).
    + apply F12. unfold BSIZE in *. dlia.
Qed.

(** The indirect block. *)
Lemma ind_new a nb s : filed D own hi f a false nb s -> filed D own (hi + 1) f (zset a NDIRECT hi) true nb s.
Proof.
  intros Hf. pose proof Hf as [F1 F2 F3 F4 F5 F6 F7 F8 F9 F10 F11 F12].
  assert (Hnb : nb <= NDIRECT) by (destruct (decide (NDIRECT < nb)) as [Hd|]; [by specialize (F5 Hd)|lia]).
  assert (H12 : zget (zset a NDIRECT hi) NDIRECT = hi) by (apply zget_zset_eq; unfold zlen, NDIRECT; lia).
  assert (Hb : forall bn, 0 <= bn < NDIRECT -> block_at D (zset a NDIRECT hi) bn = block_at D a bn).
  { intros bn Hbn. unfold block_at. rewrite (proj2 (Z.ltb_lt bn NDIRECT)) by lia. apply zget_zset_ne; lia. }
  split.
  - by rewrite length_zset.
  - unfold zset. apply Forall_insert; [done|]. unfold nmeta, FSSIZE in *. change (2 ^ 32) with 4294967296. split; [|lia].
    etrans; [|apply Hlo]. done.
  - done.
  - done.
  - done.
  - intros bn Hbn. rewrite Hb by lia. by apply mine_up, F6.
  - intros _. rewrite H12. apply mine_hi.
  - intros bn bn' Hbn Hbn'. rewrite !Hb by lia. by apply F8.
  - intros bn _ Hbn. rewrite Hb, H12 by lia. by apply mine_ne, F6.
  - intros bn Hbn _. destruct (decide (bn < NDIRECT)); [rewrite Hb by lia; apply F10; [lia|by left]|].
    unfold block_at. rewrite (proj2 (Z.ltb_ge bn NDIRECT)) by lia. rewrite H12. apply zero_word.
  - done.
  - intros o Ho. unfold byte_at. rewrite Hb by (unfold BSIZE in *; dlia). by apply F12.
Qed.

(** A block named by the indirect block. *)
Lemma entry_new D' a nb s : filed D own hi f a true nb s -> NDIRECT <= nb < MAXFILE ->
  (forall b, mine own hi f b -> length (D b) = 512%nat) ->
  D' (zget a NDIRECT) = put32 (D (zget a NDIRECT)) (Z.to_nat (4 * (nb - NDIRECT))) hi ->
  (forall b, b <> zget a NDIRECT -> D' b = D b) -> filed D' own (hi + 1) f a true (nb + 1) s.
Proof.
  intros Hf Hnb Hlen Hi Hs. pose proof Hf as [F1 F2 F3 F4 F5 F6 F7 F8 F9 F10 F11 F12].
  specialize (F7 eq_refl). pose proof (Hlen _ F7) as Hl. change MAXFILE with 140 in *.
  assert (Hhi : 0 <= hi < 2 ^ 32).
  { unfold FSSIZE in Hlo. change (2 ^ 32) with 4294967296. split; [|lia]. etrans; [|apply Hlo]. done. }
  assert (Hb : forall bn, 0 <= bn < 140 -> block_at D' a bn = if decide (bn = nb) then hi else block_at D a bn).
  { intros bn Hbn. unfold block_at, NDIRECT in *. destruct (Z.ltb_spec bn 12).
    { rewrite decide_False by lia. done. }
    rewrite Hi. case_decide.
    - replace bn with nb by lia. rewrite get32_put32_eq by lia. by apply u32_small.
    - apply get32_put32_ne; lia. }
  split; [done|done|change MAXFILE with 140; unfold NDIRECT in *; lia|unfold BSIZE in *; lia|done| | | | | |done|].
  - intros bn Hbn. rewrite Hb by lia. case_decide; [apply mine_hi|apply mine_up, F6; lia].
  - intros _. by apply mine_up.
  - intros bn bn' Hbn Hbn'. rewrite !Hb by lia. repeat case_decide; [lia| | |apply F8; lia].
    + intros E. destruct (mine_ne (block_at D a bn')); [apply F6; lia|done].
    + intros E. destruct (mine_ne (block_at D a bn)); [apply F6; lia|done].
  - intros bn _ Hbn. rewrite Hb by lia. case_decide; [|apply F9; [done|lia]].
    intros E. by destruct (mine_ne (zget a NDIRECT)).
  - intros bn Hbn Hc. change MAXFILE with 140 in Hbn. rewrite Hb, decide_False by lia. apply F10; [lia|done].
  - intros o Ho. unfold byte_at. assert (Hr : 0 <= o / BSIZE <= nb) by (unfold BSIZE in *; dlia).
    rewrite Hb by lia. case_decide as Hd.
    + rewrite Hs by (intros E; by destruct (mine_ne (zget a NDIRECT))). rewrite zero_byte. symmetry. by apply (past_end _ nb).
    + rewrite Hs by (apply F9; [done|lia]). apply F12. unfold BSIZE in *. dlia.
Qed.
End fresh.

(** * Writing *)

Lemma zget_app_l {A} `{Inhabited A} (s v : list A) o : 0 <= o < zlen s -> zget (s ++ v) o = zget s o.
Proof. intros Ho. unfold zget, zlen in *. apply lookup_total_app_l. lia. Qed.
Lemma zget_app_r {A} `{Inhabited A} (s v : list A) o : zlen s <= o -> zget (s ++ v) o = zget v (o - zlen s).
Proof.
  intros Ho. unfold zget, zlen in *. rewrite lookup_total_app_r by lia. f_equal. lia.
Qed.
Lemma zget_out s o : zlen s <= o -> zget s o = 0.
Proof. intros Ho. unfold zget, zlen in *. by rewrite list_lookup_total_alt, lookup_ge_None_2 by lia. Qed.

(** Bytes [v] stored behind the end, inside the last block. *)
Lemma filed_write D D' own hi f a g nb s v : filed D own hi f a g nb s ->
  let x := block_at D a (zlen s / BSIZE) in
  zlen s / BSIZE < nb -> zlen s mod BSIZE + zlen v <= BSIZE -> length (D x) = 512%nat ->
  D' x = put_bytes (D x) (Z.to_nat (zlen s mod BSIZE)) v -> (forall b, b <> x -> D' b = D b) ->
  filed D' own hi f a g nb (s ++ v).
Proof.
  intros Hf x Hfb Hv Hl Hx Hs. pose proof Hf as [F1 F2 F3 F4 F5 F6 F7 F8 F9 F10 F11 F12].
  assert (Hr : 0 <= zlen s / BSIZE < nb) by (unfold zlen, BSIZE in *; dlia).
  assert (Hb : forall bn, 0 <= bn < MAXFILE -> bn < NDIRECT \/ g = true -> block_at D' a bn = block_at D a bn).
  { intros bn Hbn Hc. unfold block_at. destruct (Z.ltb_spec bn NDIRECT); [done|]. destruct Hc as [|Hg]; [lia|].
    rewrite Hs; [done|]. intros E. by apply (F9 (zlen s / BSIZE)). }
  assert (Hb' : forall bn, 0 <= bn < nb -> block_at D' a bn = block_at D a bn)
    by (intros bn Hbn; apply Hb; [lia|by eapply filed_direct]).
  split; [done|done|done| |done| |done| | | |done|].
  - unfold zlen, BSIZE in *. rewrite length_app. dlia.
  - intros bn Hbn. rewrite Hb' by done. by apply F6.
  - intros bn bn' Hn Hn'. rewrite !Hb' by done. by apply F8.
  - intros bn Hn Hbn. rewrite Hb' by done. by apply F9.
  - intros bn Hn Hc. rewrite Hb by (done || lia). by apply F10.
  - intros o Ho. assert (Hor : 0 <= o / BSIZE < nb) by (unfold BSIZE in *; dlia).
    pose proof (F12 o Ho) as Hold. unfold byte_at in *. rewrite Hb' by done.
    destruct (decide (o / BSIZE = zlen s / BSIZE)) as [Heq|Hne].
    2:{ rewrite Hs by (intros E; apply Hne; by apply F8). rewrite Hold.
        destruct (decide (o < zlen s)); [by rewrite zget_app_l by lia|].
        rewrite zget_out, zget_app_r, zget_out by (unfold zlen, BSIZE in *; dlia). done. }
    rewrite Heq in *. fold x in Hold |- *. rewrite Hx. unfold zget at 1.
    destruct (decide (zlen s <= o < zlen s + zlen v)) as [Hin|Hout].
    + replace (Z.to_nat (o mod BSIZE)) with (Z.to_nat (zlen s mod BSIZE) + Z.to_nat (o - zlen s))%nat
        by (unfold zlen, BSIZE in *; dlia).
      rewrite put_bytes_in by (unfold zlen, BSIZE in *; dlia). by rewrite zget_app_r by lia.
    + rewrite put_bytes_out by (unfold zlen, BSIZE in *; dlia). unfold zget in Hold at 1. rewrite Hold.
      destruct (decide (o < zlen s)); [by rewrite zget_app_l by lia|].
      rewrite zget_app_r, !zget_out by lia. done.
Qed.

Lemma grows_refl own f h : img_ok h -> (forall n, h_freeblock h <= n < FSSIZE -> sector h n = zeroes) -> grows own f h h.
Proof. intros Hi Hz. split; done || lia. Qed.

Lemma grows_trans own f h1 h2 h3 :
  grows own f h1 h2 -> grows own f h2 h3 -> grows own f h1 h3.
Proof.
  intros [A1 A2 A3 A4 A5 A6] [B1 B2 B3 B4 B5 B6]. split; [done|lia|congruence|congruence| |done].
  intros n Hn Hc. rewrite B5 by (done || lia). by apply A5.
Qed.

(** * append_block *)

Section append.
Context (own : Z -> Z) (f : Z).

(** What appending to [f] finds: the blocks from freeblock on are empty, and
    will be those of [f]. *)
Record ready h : Prop := {
  re_ok : img_ok h;
  re_lo : nmeta <= h_freeblock h;
  re_fresh : forall n, h_freeblock h <= n < FSSIZE -> sector h n = zeroes;
  re_own : forall n, h_freeblock h <= n -> own n = f
}.

Lemma ready_grows h h' : ready h -> grows own f h h' -> ready h'.
Proof. intros [R1 R2 R3 R4] [G1 G2 _ _ _ G6]. split; [done|lia|done|]. intros n Hn. apply R4. lia. Qed.

Lemma nmeta_pos : 0 < nmeta.
Proof. done. Qed.

Lemma next_block_ok h e : ready h -> h_freeblock h < FSSIZE ->
  next_block h e = Ok (h_freeblock h) (h <| h_freeblock := h_freeblock h + 1 |>) e /\
  grows own f h (h <| h_freeblock := h_freeblock h + 1 |>).
Proof.
  intros [R1 R2 R3 R4] Hhi. pose proof nmeta_pos as Hp. unfold FSSIZE in *. split.
  - unfold next_block. step. unfold ret. f_equal. unfold over, over_h_freeblock. by rewrite u32_small by lia.
  - split; fields; [done|lia|done|done|done|]. intros n Hn. change (sector h n = zeroes). change (h_freeblock h + 1 <= n < FSSIZE) in Hn. unfold FSSIZE in Hn. apply R3. lia.
Qed.

Lemma fill_addr_ok din j h e : ready h -> h_freeblock h < FSSIZE -> zget (di_addrs din) j = 0 ->
  fill_addr din j h e = Ok (din <| di_addrs ::= fun a => zset a j (h_freeblock h) |>)
    (h <| h_freeblock := h_freeblock h + 1 |>) e.
Proof.
  intros Hr Hhi Hz. pose proof (re_lo _ Hr) as Hlo. pose proof nmeta_pos. unfold FSSIZE in Hhi. unfold fill_addr. rewrite Hz. change (xint 0 =? 0) with true. cbn iota.
  rewrite (bind_ok _ _ _ _ _ _ _ (proj1 (next_block_ok h e Hr Hhi))). unfold ret. by rewrite xint_small by lia.
Qed.

Lemma fill_addr_old din j h e : 0 < zget (di_addrs din) j < 2 ^ 32 -> fill_addr din j h e = Ok din h e.
Proof. intros Hz. unfold fill_addr. rewrite xint_small by lia. by rewrite (proj2 (Z.eqb_neq _ 0)) by lia. Qed.

Lemma mine_range hi b : mine own hi f b -> hi <= FSSIZE -> 0 < b < 2 ^ 32 /\ 0 <= b < FSSIZE.
Proof. intros [Hb _] Hhi. pose proof nmeta_pos. unfold FSSIZE in *. lia. Qed.

(** The word of a block that is there. *)
Lemma indirect_word_old ind o h e : ready h -> 0 <= ind < FSSIZE -> get32 (sector h ind) o <> 0 ->
  indirect_word ind o h e = Ok (get32 (sector h ind) o) h e.
Proof.
  intros Hr Hi Hz. unfold indirect_word. rewrite (bind_ok _ _ _ _ _ _ _ (rsect_ok ind h e (re_ok _ Hr) Hi)).
  rewrite (proj2 (Z.eqb_neq _ 0)) by done. step. unfold ret. rewrite xint_small; [done|]. apply get32_range.
Qed.

(** The word of a new one. *)
Lemma indirect_word_new ind o h e : ready h -> mine own (h_freeblock h) f ind -> h_freeblock h < FSSIZE ->
  (o + 4 <= 512)%nat -> get32 (sector h ind) o = 0 ->
  let h' := set_sector ind (put32 (sector h ind) o (h_freeblock h)) (h <| h_freeblock := h_freeblock h + 1 |>) in
  indirect_word ind o h e = Ok (h_freeblock h) h' e /\ grows own f h h'.
Proof.
  intros Hr Hm Hhi Ho Hz h'. destruct (mine_range _ _ Hm) as [_ Hi]; [lia|]. pose proof (re_lo _ Hr) as Hlo.
  pose proof nmeta_pos as Hpos. destruct (next_block_ok h e Hr Hhi) as [Hnb Hg].
  set (h1 := h <| h_freeblock := h_freeblock h + 1 |>) in *.
  pose proof (proj2 (re_ok _ Hr) ind Hi) as Hlen.
  assert (Hb : 0 <= h_freeblock h < 2 ^ 32) by (unfold FSSIZE in *; lia).
  split.
  - unfold indirect_word. rewrite (bind_ok _ _ _ _ _ _ _ (rsect_ok ind h e (re_ok _ Hr) Hi)). rewrite Hz. cbn [Z.eqb].
    rewrite bind_assoc, (bind_ok _ _ _ _ _ _ _ Hnb), xint_small by done. rewrite bind_assoc.
    rewrite (bind_ok _ _ _ _ _ _ _ (wsect_ok ind _ h1 e (gr_ok _ _ _ _ Hg) Hi)). step. unfold ret. f_equal.
    rewrite get32_put32_eq, u32_small by (done || lia). by apply xint_small.
  - destruct Hg as [G1 G2 G3 G4 G5 G6]. split.
    + apply set_sector_ok; [done|done|]. by rewrite length_put32 by lia.
    + done.
    + done.
    + done.
    + intros n Hn Hc. unfold h'. rewrite sector_set by (done || lia). rewrite decide_False; [by apply G5|].
      intros ->. destruct Hm as [Hm1 Hm2]. destruct Hc; [lia|done].
    + intros n Hn. unfold h'. rewrite sector_set by (done || change (h_freeblock h') with (h_freeblock h + 1) in Hn; lia).
      rewrite decide_False; [by apply G6|]. destruct Hm as [Hm1 _]. change (h_freeblock h') with (h_freeblock h + 1) in Hn. lia.
Qed.

(** The blocks the first [nb] blocks of a file occupy, its indirect block included. *)
Definition blocks (nb : Z) : Z := nb + b2z (NDIRECT <? nb).

Lemma append_old din g nb fbn s h e : ready h -> h_freeblock h <= FSSIZE ->
  filed (sector h) own (h_freeblock h) f (di_addrs din) g nb s -> 0 <= fbn < nb ->
  append_block din fbn h e = Ok (din, block_at (sector h) (di_addrs din) fbn) h e.
Proof.
  intros Hr Hhi Hf Hb. pose proof (fd_block _ _ _ _ _ _ _ _ Hf fbn Hb) as Hm.
  destruct (mine_range _ _ Hm Hhi) as [Hnz _]. unfold append_block, block_at in *.
  destruct (Z.ltb_spec fbn NDIRECT) as [Hlt|Hge].
  - rewrite (bind_ok _ _ _ _ _ _ _ (fill_addr_old din fbn h e Hnz)). unfold ret. by rewrite xint_small by lia.
  - destruct (mine_range _ _ (fd_ind _ _ _ _ _ _ _ _ Hf ltac:(apply (fd_flag _ _ _ _ _ _ _ _ Hf); lia)) Hhi) as [Hi Hi'].
    rewrite (bind_ok _ _ _ _ _ _ _ (fill_addr_old din NDIRECT h e Hi)). rewrite xint_small by lia.
    erewrite bind_ok; [|apply indirect_word_old; [done|done|lia]]. done.
Qed.

Lemma set_addrs_id (din : dinode) : din <| di_addrs := di_addrs din |> = din.
Proof. by destruct din. Qed.

(** A new block named by the indirect block. *)
Lemma append_entry din nb s h e : ready h -> h_freeblock h < FSSIZE ->
  filed (sector h) own (h_freeblock h) f (di_addrs din) true nb s -> NDIRECT <= nb < MAXFILE ->
  exists h', indirect_word (zget (di_addrs din) NDIRECT) (Z.to_nat (4 * (nb - NDIRECT))) h e =
      Ok (block_at (sector h') (di_addrs din) nb) h' e /\
    filed (sector h') own (h_freeblock h') f (di_addrs din) true (nb + 1) s /\ grows own f h h' /\
    h_freeblock h' = h_freeblock h + 1.
Proof.
  intros Hr Hhi Hf Hnb. set (a := di_addrs din) in *. pose proof (fd_ind _ _ _ _ _ _ _ _ Hf eq_refl) as Hm.
  destruct (mine_range _ _ Hm) as [_ Hi]; [lia|].
  assert (Hz : get32 (sector h (zget a NDIRECT)) (Z.to_nat (4 * (nb - NDIRECT))) = 0).
  { pose proof (fd_zero _ _ _ _ _ _ _ _ Hf nb) as Hz. unfold block_at in Hz.
    rewrite (proj2 (Z.ltb_ge nb NDIRECT)) in Hz by lia. apply Hz; [lia|by right]. }
  change MAXFILE with 140 in Hnb.
  destruct (indirect_word_new (zget a NDIRECT) (Z.to_nat (4 * (nb - NDIRECT))) h e Hr Hm Hhi) as [Hrun Hg];
    [unfold NDIRECT in *; lia|done|].
  set (h' := set_sector _ _ _) in *. exists h'. pose proof (re_ok _ Hr) as Hok.
  assert (Hs : forall m, 0 <= m -> sector h' m = if decide (zget a NDIRECT = m)
    then put32 (sector h (zget a NDIRECT)) (Z.to_nat (4 * (nb - NDIRECT))) (h_freeblock h) else sector h m).
  { intros m Hm0. unfold h'. by rewrite sector_set by (done || lia). }
  assert (Hf' : filed (sector h') own (h_freeblock h') f a true (nb + 1) s).
  { change (h_freeblock h') with (h_freeblock h + 1).
    apply (filed_frame (fun b => if decide (zget a NDIRECT = b) then
      put32 (sector h (zget a NDIRECT)) (Z.to_nat (4 * (nb - NDIRECT))) (h_freeblock h) else sector h b) _ _ (h_freeblock h + 1)); [|lia|].
    - apply (entry_new (sector h)); [apply (re_own _ Hr); lia|split; [apply (re_lo _ Hr)|done]|apply (re_fresh _ Hr); lia|done|done| | |].
      + intros b Hb. apply Hok. apply (mine_range _ _ Hb). lia.
      + by rewrite decide_True.
      + intros b Hb. by rewrite decide_False.
    - intros b [Hb _]. pose proof nmeta_pos. by rewrite Hs by lia. }
  split; [|done]. rewrite Hrun. f_equal. unfold block_at. rewrite (proj2 (Z.ltb_ge nb NDIRECT)) by lia.
  rewrite Hs, decide_True by (done || lia). pose proof (re_lo _ Hr). pose proof nmeta_pos.
  rewrite get32_put32_eq by (rewrite (proj2 Hok) by done; unfold NDIRECT in *; lia). rewrite u32_small; [done|].
  unfold FSSIZE in *. lia.
Qed.

Lemma append_block_ok din nb fbn s h e : let nb' := Z.max nb (fbn + 1) in
  ready h -> filed (sector h) own (h_freeblock h) f (di_addrs din) (NDIRECT <? nb) nb s ->
  0 <= fbn <= nb -> fbn < MAXFILE -> h_freeblock h + (blocks nb' - blocks nb) <= FSSIZE ->
  exists h' a', append_block din fbn h e = Ok (din <| di_addrs := a' |>, block_at (sector h') a' fbn) h' e /\
    filed (sector h') own (h_freeblock h') f a' (NDIRECT <? nb') nb' s /\ grows own f h h' /\
    h_freeblock h' = h_freeblock h + (blocks nb' - blocks nb).
Proof.
  intros nb' Hr Hf Hfb Hmax Hroom. pose proof nmeta_pos as Hpos. pose proof (re_lo _ Hr) as Hlo.
  assert (Hgr : grows own f h h) by (apply grows_refl; [apply (re_ok _ Hr)|apply (re_fresh _ Hr)]).
  destruct (decide (fbn < nb)) as [Hlt|Hge].
  { replace nb' with nb in * by lia. exists h, (di_addrs din). rewrite set_addrs_id.
    rewrite (append_old din (NDIRECT <? nb) nb fbn s) by (done || lia). split_and!; [done|done|done|lia]. }
  assert (fbn = nb) as -> by lia. replace nb' with (nb + 1) in * by lia. clear nb'. unfold blocks in *.
  assert (Hhi : h_freeblock h < FSSIZE).
  { destruct (Z.ltb_spec NDIRECT (nb + 1)), (Z.ltb_spec NDIRECT nb); simpl in Hroom; lia. }
  pose proof (re_own _ Hr (h_freeblock h) ltac:(lia)) as Hown. pose proof (re_fresh _ Hr (h_freeblock h) ltac:(lia)) as Hz.
  unfold append_block. destruct (Z.ltb_spec nb NDIRECT) as [Hd|Hd].
  - rewrite (proj2 (Z.ltb_ge NDIRECT nb)) in * by lia. rewrite (proj2 (Z.ltb_ge NDIRECT (nb + 1))) in * by lia.
    pose proof (fd_zero _ _ _ _ _ _ _ _ Hf nb ltac:(lia) ltac:(by left)) as Hza. unfold block_at in Hza.
    rewrite (proj2 (Z.ltb_lt nb NDIRECT)) in Hza by lia.
    rewrite (bind_ok _ _ _ _ _ _ _ (fill_addr_ok din nb h e Hr Hhi Hza)).
    set (h1 := h <| h_freeblock := h_freeblock h + 1 |>). set (a' := zset (di_addrs din) nb (h_freeblock h)).
    assert (Ha' : zget a' nb = h_freeblock h).
    { apply zget_zset_eq. pose proof (fd_len _ _ _ _ _ _ _ _ Hf). unfold zlen, NDIRECT in *. lia. }
    exists h1, a'. split_and!.
    + unfold ret. fields. fold a'. unfold block_at. rewrite (proj2 (Z.ltb_lt nb NDIRECT)) by lia.
      rewrite Ha', xint_small by (unfold FSSIZE in *; lia). done.
    + by apply (direct_new (sector h)).
    + by apply next_block_ok.
    + unfold h1. fields. simpl. lia.
  - rewrite (proj2 (Z.ltb_lt NDIRECT (nb + 1))) in * by lia. destruct (Z.ltb_spec NDIRECT nb) as [Hi|Hi].
    + pose proof (fd_ind _ _ _ _ _ _ _ _ Hf eq_refl) as Hm. destruct (mine_range _ _ Hm) as [Hm1 _]; [lia|].
      rewrite (bind_ok _ _ _ _ _ _ _ (fill_addr_old din NDIRECT h e Hm1)), xint_small by lia.
      destruct (append_entry din nb s h e Hr Hhi Hf ltac:(lia)) as (h' & Hrun & Hf' & Hg & Hh').
      rewrite (bind_ok _ _ _ _ _ _ _ Hrun). exists h', (di_addrs din). rewrite set_addrs_id.
      split_and!; [done|done|done|]. rewrite Hh'. simpl. lia.
    + assert (nb = NDIRECT) as -> by lia. simpl in Hroom.
      pose proof (fd_noind _ _ _ _ _ _ _ _ Hf eq_refl) as Hza.
      rewrite (bind_ok _ _ _ _ _ _ _ (fill_addr_ok din NDIRECT h e Hr Hhi Hza)).
      set (h1 := h <| h_freeblock := h_freeblock h + 1 |>). set (din1 := din <| di_addrs ::= _ |>).
      destruct (next_block_ok h e Hr Hhi) as [_ Hg1]. fold h1 in Hg1.
      assert (Hf1 : filed (sector h1) own (h_freeblock h1) f (di_addrs din1) true NDIRECT s) by (by apply (ind_new (sector h))).
      destruct (mine_range _ _ (fd_ind _ _ _ _ _ _ _ _ Hf1 eq_refl)) as [Hm1 _]; [unfold h1; fields; lia|].
      rewrite xint_small by lia.
      destruct (append_entry din1 NDIRECT s h1 e (ready_grows _ _ Hr Hg1)) as (h' & Hrun & Hf' & Hg & Hh');
        [unfold h1; fields; lia|done|lia|].
      rewrite (bind_ok _ _ _ _ _ _ _ Hrun). exists h', (di_addrs din1).
      split_and!; [done|done|by eapply grows_trans|]. rewrite Hh'. unfold h1. fields. simpl. lia.
Qed.

(** * iappend's loop *)

Definition nblk (z : Z) : Z := (z + BSIZE - 1) / BSIZE.

(** One chunk, inside the block [fbn]. *)
Lemma append_chunk din s v h e : let fbn := zlen s / BSIZE in let c := zlen s + zlen v in
  ready h -> filed (sector h) own (h_freeblock h) f (di_addrs din) (NDIRECT <? nblk (zlen s)) (nblk (zlen s)) s ->
  fbn < MAXFILE -> 0 < zlen v <= BSIZE - zlen s mod BSIZE ->
  h_freeblock h + (blocks (nblk c) - blocks (nblk (zlen s))) <= FSSIZE ->
  exists h' a' x h1, append_block din fbn h e = Ok (din <| di_addrs := a' |>, x) h1 e /\
    0 <= x < FSSIZE /\ img_ok h1 /\
    h' = set_sector x (put_bytes (sector h1 x) (Z.to_nat (zlen s - fbn * BSIZE)) v) h1 /\
    filed (sector h') own (h_freeblock h') f a' (NDIRECT <? nblk c) (nblk c) (s ++ v) /\ grows own f h h' /\
    h_freeblock h' = h_freeblock h + (blocks (nblk c) - blocks (nblk (zlen s))).
Proof.
  intros fbn c Hr Hf Hmax Hv Hroom. assert (Hs0 : 0 <= zlen s) by (unfold zlen; lia).
  assert (Hc : Z.max (nblk (zlen s)) (fbn + 1) = nblk c) by (unfold nblk, c, fbn, BSIZE in *; dlia).
  assert (Hfb : 0 <= fbn <= nblk (zlen s)) by (unfold nblk, fbn, BSIZE in *; dlia).
  destruct (append_block_ok din (nblk (zlen s)) fbn s h e Hr Hf Hfb Hmax) as (h1 & a' & Hrun & Hf1 & Hg & Hh1).
  { by rewrite Hc. }
  rewrite Hc in Hf1, Hh1. assert (Hlt : 0 <= fbn < nblk c) by lia.
  pose proof (fd_block _ _ _ _ _ _ _ _ Hf1 fbn Hlt) as Hm. set (x := block_at (sector h1) a' fbn) in *.
  destruct (mine_range _ _ Hm) as [_ Hx]; [lia|]. pose proof (gr_ok _ _ _ _ Hg) as Hok.
  pose proof (proj2 Hok x Hx) as Hlen. set (v' := put_bytes (sector h1 x) (Z.to_nat (zlen s - fbn * BSIZE)) v).
  exists (set_sector x v' h1), a', x, h1.
  assert (Hmod : zlen s - fbn * BSIZE = zlen s mod BSIZE) by (unfold fbn, BSIZE; dlia).
  assert (Hs : forall m, 0 <= m -> sector (set_sector x v' h1) m = if decide (x = m) then v' else sector h1 m)
    by (intros; by apply sector_set).
  assert (Hlv : length v' = 512%nat).
  { unfold v'. rewrite Hmod, length_put_bytes; [done|]. rewrite Hlen. unfold zlen, BSIZE in *. dlia. }
  split_and!; [done|lia|lia|done|done| | |done].
  - apply (filed_frame (fun b => if decide (x = b) then v' else sector h1 b) _ _ (h_freeblock h1)); [|done|].
    + apply (filed_write (sector h1)); [done|fold fbn; lia|lia|done| |].
      * fold fbn x. rewrite decide_True by done. unfold v'. by rewrite Hmod.
      * fold fbn x. intros b Hb. by rewrite decide_False.
    + intros b [Hb _]. pose proof nmeta_pos. by rewrite Hs by lia.
  - destruct Hg as [G1 G2 G3 G4 G5 G6]. destruct Hm as [Hm1 Hm2]. split; [by apply set_sector_ok|done|done|done| |].
    + intros n Hn Hcs. rewrite Hs by lia. rewrite decide_False; [by apply G5|]. intros <-. destruct Hcs; [lia|done].
    + intros n Hn. change (h_freeblock h1 <= n < FSSIZE) in Hn. rewrite Hs by lia. rewrite decide_False by lia. by apply G6.
Qed.
End append.
End image.
