(* ===== verification/ImageFacts.v ===== *)
(** The image mkfs builds: its inodes and files through ialloc and iappend,
    and all of it when main ends. *)
From S2P Require Import Prelude Kernel Mem Fsformat BlockFacts Str ReadFacts Mkfs MkfsFacts.

Section imagefacts.
Implicit Types (h : host) (own : Z -> Z) (a s p : list Z) (e : list (host -> host)) (fs : list (Z * list Z)).

Lemma set_addrs_twice (din : dinode) a1 a2 : din <| di_addrs := a1 |> <| di_addrs := a2 |> = din <| di_addrs := a2 |>.
Proof. done. Qed.

Lemma blocks_mono m n : m <= n -> blocks m <= blocks n.
Proof. intros Hm. unfold blocks. destruct (Z.ltb_spec NDIRECT m), (Z.ltb_spec NDIRECT n); simpl; lia. Qed.
Lemma nblk_mono m n : m <= n -> nblk m <= nblk n.
Proof. intros Hm. unfold nblk. apply Z.div_le_mono; unfold BSIZE; lia. Qed.

Lemma iappend_loop_ok own f e : forall fuel p s din h,
  ready own f h ->
  filed (sector h) own (h_freeblock h) f (di_addrs din) (NDIRECT <? nblk (zlen s)) (nblk (zlen s)) s ->
  zlen s + zlen p <= MAXFILE * BSIZE ->
  h_freeblock h + (blocks (nblk (zlen s + zlen p)) - blocks (nblk (zlen s))) <= FSSIZE -> (length p < fuel)%nat ->
  exists h' a', iappend_loop fuel p (zlen s) (zlen p) din h e = Ok (din <| di_addrs := a' |>, zlen s + zlen p) h' e /\
    filed (sector h') own (h_freeblock h') f a' (NDIRECT <? nblk (zlen (s ++ p))) (nblk (zlen (s ++ p))) (s ++ p) /\
    grows own f h h' /\ h_freeblock h' = h_freeblock h + (blocks (nblk (zlen s + zlen p)) - blocks (nblk (zlen s))).
Proof.
  induction fuel as [|fuel IH]; intros p s din h Hr Hf Hmax Hroom Hfuel; [lia|]. cbn [iappend_loop].
  pose proof (zlen_nonneg s) as Hs0. pose proof (zlen_nonneg p) as Hp0.
  destruct (Z.ltb_spec 0 (zlen p)) as [Hp|Hp].
  2:{ assert (p = []) as -> by (destruct p; [done|unfold zlen in Hp; simpl in Hp; lia]).
      exists h, (di_addrs din). rewrite set_addrs_id, (app_nil_r s). replace (zlen s + zlen []) with (zlen s) by (unfold zlen; simpl; lia).
      split_and!; [done|done|apply grows_refl; apply Hr|lia]. }
  change (MAXFILE * BSIZE) with 71680 in Hmax.
  assert (Hfb : zlen s / BSIZE < MAXFILE) by (change MAXFILE with 140; unfold BSIZE; dlia).
  rewrite (proj2 (Z.ltb_lt _ _) Hfb). unfold assert. step.
  rewrite (u32_small ((zlen s / BSIZE + 1) * BSIZE - zlen s)) by (unfold BSIZE; dlia).
  set (n1 := Z.min (zlen p) ((zlen s / BSIZE + 1) * BSIZE - zlen s)).
  set (v := take (Z.to_nat n1) p). set (p' := drop (Z.to_nat n1) p).
  assert (Hn1 : 0 < n1 <= zlen p /\ n1 <= BSIZE - zlen s mod BSIZE) by (unfold n1, BSIZE in *; dlia).
  assert (Hvp : v ++ p' = p) by apply take_drop.
  assert (Hv : zlen v = n1) by (unfold v, zlen in *; rewrite length_take; lia).
  assert (Hp' : zlen p' = zlen p - n1) by (pose proof (f_equal zlen Hvp) as E; rewrite zlen_app in E; lia).
  pose proof (blocks_mono _ _ (nblk_mono (zlen s) (zlen s + n1) ltac:(lia))) as Hm1.
  pose proof (blocks_mono _ _ (nblk_mono (zlen s + n1) (zlen s + zlen p) ltac:(lia))) as Hm2.
  destruct (append_chunk own f din s v h e Hr Hf Hfb) as (h1 & a1 & x & h0 & Hrun & Hx & Hok & Hh1 & Hf1 & Hg & Hfb1);
    [lia|rewrite Hv; lia|].
  rewrite (bind_ok _ _ _ _ _ _ _ Hrun), (bind_ok _ _ _ _ _ _ _ (rsect_ok x h0 e Hok Hx)).
  rewrite (bind_ok _ _ _ _ _ _ _ (wsect_ok x _ h0 e Hok Hx)), <- Hh1. rewrite u32_small by lia.
  assert (Hsv : zlen (s ++ v) = zlen s + n1) by (rewrite zlen_app; lia). rewrite Hv in Hf1, Hfb1.
  destruct (IH p' (s ++ v) (din <| di_addrs := a1 |>) h1) as (h2 & a2 & Hrun2 & Hf2 & Hg2 & Hfb2).
  { by eapply ready_grows. }
  { rewrite Hsv. exact Hf1. }
  { change (MAXFILE * BSIZE) with 71680. lia. }
  { rewrite Hsv, Hp'. replace (zlen s + n1 + (zlen p - n1)) with (zlen s + zlen p) by lia. lia. }
  { unfold p'. rewrite length_drop. unfold zlen in *. lia. }
  rewrite Hsv, Hp', set_addrs_twice in Hrun2. rewrite Hsv, Hp' in Hfb2. rewrite <- app_assoc, Hvp in Hf2.
  replace (zlen s + n1 + (zlen p - n1)) with (zlen s + zlen p) in * by lia.
  exists h2, a2. split_and!; [exact Hrun2|done|by eapply grows_trans|lia].
Qed.

(** * The inode table *)

(** The super block of the image. *)
Definition sb0 : superblock :=
  mkSb FSSIZE (FSSIZE - nmeta) NINODES nlog 2 (2 + nlog) (2 + nlog + ninodeblocks).

Definition inode_of h (inum : Z) : dinode := get_dinode (sector h (IBLOCK inum sb0)) (dinode_off inum).

Lemma iblock_range inum : 0 <= inum < NINODES -> 32 <= IBLOCK inum sb0 < nmeta - 1 /\ (dinode_off inum + 64 <= 512)%nat.
Proof.
  intros Hi. unfold IBLOCK, dinode_off. change (sb_inodestart sb0) with 32. change IPB with 8.
  change sizeof_dinode with 64. change nmeta with 59. unfold NINODES in Hi. rewrite u32_small by dlia. split; dlia.
Qed.
Lemma iblock_apart i j : 0 <= i < NINODES -> 0 <= j < NINODES -> i <> j -> IBLOCK i sb0 = IBLOCK j sb0 ->
  (dinode_off i + 64 <= dinode_off j \/ dinode_off j + 64 <= dinode_off i)%nat.
Proof.
  intros Hi Hj Hne. unfold IBLOCK, dinode_off. change (sb_inodestart sb0) with 32. change IPB with 8.
  change sizeof_dinode with 64. unfold NINODES in *. rewrite !u32_small by dlia. intros E. dlia.
Qed.

Lemma rinode_ok inum h e : img_ok h -> h_sb h = sb0 -> 0 <= inum < NINODES -> rinode inum h e = Ok (inode_of h inum) h e.
Proof.
  intros Hok Hsb Hi. unfold rinode. step. rewrite Hsb. destruct (iblock_range inum Hi) as [Hb _].
  erewrite bind_ok; [|apply rsect_ok; [done|]; change nmeta with 59 in Hb; unfold FSSIZE; lia]. done.
Qed.

(** winode changes one inode and no other block. *)
Lemma winode_ok inum di h e : img_ok h -> h_sb h = sb0 -> 0 <= inum < NINODES -> dinode_ok di ->
  exists h', winode inum di h e = Ok tt h' e /\ img_ok h' /\ h_sb h' = sb0 /\ h_freeblock h' = h_freeblock h /\
    h_freeinode h' = h_freeinode h /\
    (forall n, 0 <= n -> n < 32 \/ nmeta - 1 <= n -> sector h' n = sector h n) /\
    (forall j, 0 <= j < NINODES -> inode_of h' j = if decide (j = inum) then di else inode_of h j).
Proof.
  intros Hok Hsb Hi Hdi. unfold winode. step. rewrite Hsb. destruct (iblock_range inum Hi) as [Hb Ho].
  assert (Hb' : 0 <= IBLOCK inum sb0 < FSSIZE) by (change nmeta with 59 in Hb; unfold FSSIZE; lia).
  pose proof (proj2 Hok _ Hb') as Hlen. pose proof (length_dinode_bytes di Hdi) as Hdl.
  erewrite bind_ok; [|by apply rsect_ok]. rewrite wsect_ok by done.
  set (v := put_bytes _ _ _). exists (set_sector (IBLOCK inum sb0) v h).
  assert (Hs : forall n, 0 <= n -> sector (set_sector (IBLOCK inum sb0) v h) n = if decide (IBLOCK inum sb0 = n) then v else sector h n)
    by (intros; by apply sector_set).
  split; [done|]. split; [apply set_sector_ok; [done|done|unfold v; rewrite length_put_bytes; lia]|].
  split; [done|]. split; [done|]. split; [done|]. split.
  - intros n Hn Hc. rewrite Hs by done. rewrite decide_False by lia. done.
  - intros j Hj. unfold inode_of. destruct (iblock_range j Hj) as [Hbj Hoj]. rewrite Hs by lia. case_decide as Hd; case_decide as Hji.
    + rewrite Hji. apply get_dinode_put; [done|lia].
    + unfold v. rewrite Hd at 1. rewrite get_dinode_put_ne; [done|done|rewrite <- Hd; lia|].
      apply iblock_apart; done.
    + by rewrite Hji in Hd.
    + done.
Qed.

(** * The files of the image *)

(** The blocks that hold the files [fs], each a type and the contents. *)
Definition need (s : list Z) : Z := blocks (nblk (zlen s)).
Definition total fs : Z := foldr (fun x n => need x.2 + n) 0 fs.

Definition file_in own h (inum ty : Z) (s : list Z) : Prop := exists a,
  inode_of h inum = mkDinode ty 0 0 1 (zlen s) a /\
  filed (sector h) own (h_freeblock h) inum a (NDIRECT <? nblk (zlen s)) (nblk (zlen s)) s.

(** Inode 1 + j is the j-th of [fs]. *)
Record holds own h fs : Prop := {
  ho_ok : img_ok h;
  ho_sb : h_sb h = sb0;
  ho_super : sector h 1 = put_bytes zeroes 0 (sb_bytes sb0);
  ho_log : forall n, 2 <= n < 32 -> sector h n = zeroes;
  ho_ino : h_freeinode h = 1 + zlen fs;
  ho_hi : h_freeblock h = nmeta + total fs;
  ho_fresh : forall n, h_freeblock h <= n < FSSIZE -> sector h n = zeroes;
  ho_max : zlen fs < NINODES;
  ho_type : Forall (fun x => - 2 ^ 15 <= x.1 < 2 ^ 15) fs;
  ho_file : forall j x, fs !! j = Some x -> file_in own h (1 + Z.of_nat j) x.1 x.2
}.

Lemma need_nonneg s : 0 <= need s.
Proof.
  unfold need, blocks. assert (0 <= nblk (zlen s)) by (unfold nblk, zlen, BSIZE; dlia). destruct (_ <? _); simpl; lia.
Qed.
Lemma total_nonneg fs : 0 <= total fs.
Proof. induction fs as [|x fs IH]; simpl; [done|]. pose proof (need_nonneg x.2). lia. Qed.

Lemma total_insert fs j x y : fs !! j = Some x -> total (<[j := y]> fs) = total fs + (need y.2 - need x.2).
Proof.
  revert j. induction fs as [|z fs IH]; intros [|j] Hj; simplify_eq/=; [lia|]. rewrite (IH j) by done. lia.
Qed.
Lemma total_snoc fs x : total (fs ++ [x]) = total fs + need x.2.
Proof. induction fs as [|z fs IH]; simpl; [lia|]. lia. Qed.

(** The owner of a block that is not given out does not matter. *)
Lemma filed_own D own own' hi f a g nb s : filed D own hi f a g nb s -> (forall b, b < hi -> own' b = own b) ->
  filed D own' hi f a g nb s.
Proof.
  intros [F1 F2 F3 F4 F5 F6 F7 F8 F9 F10 F11 F12] Ho.
  assert (Hm : forall b, mine own hi f b -> mine own' hi f b) by (intros b [? <-]; split; [done|apply Ho; lia]).
  split; try done; [intros bn Hbn; by apply Hm, F6|intros Hg; by apply Hm, F7].
Qed.

Lemma file_size_small own h inum ty s : file_in own h inum ty s -> zlen s < 2 ^ 32.
Proof.
  intros (a & _ & Hf). pose proof (fd_size _ _ _ _ _ _ _ _ Hf). pose proof (fd_max _ _ _ _ _ _ _ _ Hf) as Hm.
  change MAXFILE with 140 in Hm. unfold BSIZE in *. lia.
Qed.

(** Another file after a change of [f]. *)
Lemma file_in_frame own h h1 h' f inum ty s : file_in own h inum ty s -> inum <> f -> grows own f h h1 ->
  h_freeblock h' = h_freeblock h1 -> (forall n, nmeta <= n -> sector h' n = sector h1 n) ->
  inode_of h' inum = inode_of h inum -> file_in own h' inum ty s.
Proof.
  intros (a & Hi & Hf) Hne Hg Hhi Hs Hin. exists a. split; [by rewrite Hin|]. rewrite Hhi.
  eapply filed_frame; [exact Hf|apply (gr_hi _ _ _ _ Hg)|]. intros b [Hb Ho]. rewrite Hs by lia.
  pose proof nmeta_pos. apply (gr_same _ _ _ _ Hg); [lia|]. right. by rewrite Ho.
Qed.

Lemma grows_inode own f h h' j : grows own f h h' -> nmeta <= h_freeblock h -> 0 <= j < NINODES -> inode_of h' j = inode_of h j.
Proof.
  intros Hg Hlo Hj. unfold inode_of. destruct (iblock_range j Hj) as [Hb _].
  rewrite (gr_same _ _ _ _ Hg); [done|lia|lia].
Qed.

Lemma iappend_ok own h fs j ty s p e : holds own h fs -> fs !! j = Some (ty, s) ->
  zlen s + zlen p <= MAXFILE * BSIZE -> h_freeblock h + (need (s ++ p) - need s) <= FSSIZE ->
  exists own' h', iappend (1 + Z.of_nat j) p (zlen p) h e = Ok tt h' e /\ holds own' h' (<[j := (ty, s ++ p)]> fs).
Proof.
  intros [Hok Hsb Hsup Hlog Hino Hhi Hfr Hmax Hty Hfile] Hj Hlen Hroom. set (f := 1 + Z.of_nat j).
  pose proof (lookup_lt_Some _ _ _ Hj) as Hjl. assert (Hf0 : 0 <= f < NINODES) by (unfold f, zlen in *; lia).
  assert (Hlo : nmeta <= h_freeblock h) by (rewrite Hhi; pose proof (total_nonneg fs); lia).
  set (own1 := fun n => if h_freeblock h <=? n then f else own n).
  assert (Hown1 : forall b, b < h_freeblock h -> own1 b = own b).
  { intros b Hb. unfold own1. by rewrite (proj2 (Z.leb_gt _ _)). }
  assert (Hfile1 : forall j x, fs !! j = Some x -> file_in own1 h (1 + Z.of_nat j) x.1 x.2).
  { intros j' x Hx. destruct (Hfile j' x Hx) as (a & Hi & Hf). exists a. split; [done|]. by eapply filed_own. }
  assert (Hr : ready own1 f h).
  { split; [done|done|done|]. intros n Hn. unfold own1. by rewrite (proj2 (Z.leb_le _ _)). }
  destruct (Hfile1 j _ Hj) as (a & Hi & Hf). cbn [fst snd] in *. fold f in Hi, Hf.
  unfold iappend. rewrite (bind_ok _ _ _ _ _ _ _ (rinode_ok f h e Hok Hsb Hf0)), Hi. cbn [di_size].
  pose proof (zlen_nonneg s) as Hs0. pose proof (zlen_nonneg p) as Hp0. change (MAXFILE * BSIZE) with 71680 in Hlen.
  rewrite xint_small by lia. unfold need in *. rewrite zlen_app in Hroom.
  destruct (iappend_loop_ok own1 f e (S (Z.to_nat (zlen p))) p s (mkDinode ty 0 0 1 (zlen s) a) h Hr Hf) as
    (h1 & a' & Hrun & Hf1 & Hg & Hh1); [done|done|unfold zlen; lia|].
  rewrite (bind_ok _ _ _ _ _ _ _ Hrun), xint_small by lia.
  set (di := _ <| di_size := _ |>). assert (Hdi : di = mkDinode ty 0 0 1 (zlen (s ++ p)) a') by (unfold di; by rewrite zlen_app).
  pose proof (proj1 (Forall_lookup _ _) Hty j _ Hj) as Htyj. cbn [fst] in Htyj.
  assert (Hdok : dinode_ok di).
  { rewrite Hdi. split; [cbn; repeat first [apply Forall_nil_2|apply Forall_cons_2; [lia|]]|]. split; [cbn; rewrite zlen_app; lia|].
    split; [apply (fd_len _ _ _ _ _ _ _ _ Hf1)|apply (fd_word _ _ _ _ _ _ _ _ Hf1)]. }
  destruct (winode_ok f di h1 e (gr_ok _ _ _ _ Hg)) as (h2 & Hrun2 & Hok2 & Hsb2 & Hfb2 & Hfi2 & Hs2 & Hin2);
    [by rewrite (gr_sb _ _ _ _ Hg)|done|done|].
  exists own1, h2. split; [done|]. change nmeta with 59 in *.
  assert (Hlow : forall n, 0 <= n < 32 -> sector h2 n = sector h n).
  { intros n Hn. rewrite Hs2 by lia. apply (gr_same _ _ _ _ Hg); [lia|left; change nmeta with 59; lia]. }
  assert (Htot : total (<[j := (ty, s ++ p)]> fs) = total fs + (need (s ++ p) - need s)) by (by apply (total_insert fs j (ty, s))).
  split; [done|done| | | | | | | |].
  - by rewrite Hlow.
  - intros n Hn. rewrite Hlow by lia. by apply Hlog.
  - rewrite Hfi2, (gr_freeinode _ _ _ _ Hg), Hino. unfold zlen. by rewrite length_insert.
  - rewrite Hfb2, Hh1, Htot, Hhi. unfold need. rewrite zlen_app. change nmeta with 59. lia.
  - intros n Hn. pose proof (gr_hi _ _ _ _ Hg). rewrite Hs2 by lia. apply (gr_fresh _ _ _ _ Hg). lia.
  - unfold zlen. by rewrite length_insert.
  - by apply Forall_insert.
  - intros j' x Hx. destruct (decide (j = j')) as [<-|Hne].
    + rewrite list_lookup_insert_eq in Hx by done. injection Hx as <-. cbn [fst snd]. fold f. exists a'. split.
      * rewrite Hin2, decide_True by done. exact Hdi.
      * rewrite Hfb2. eapply filed_frame; [exact Hf1|done|]. intros b [Hb _]. change nmeta with 59 in Hb. apply Hs2; lia.
    + rewrite list_lookup_insert_ne in Hx by done. pose proof (lookup_lt_Some _ _ _ Hx).
      apply (file_in_frame own1 h h1 h2 f); [by apply Hfile1|unfold f; lia|done|done| |].
      * intros n Hn. change nmeta with 59 in Hn. apply Hs2; lia.
      * assert (0 <= 1 + Z.of_nat j' < NINODES) by (unfold zlen in *; lia).
        rewrite Hin2, decide_False by (done || unfold f; lia). by apply (grows_inode own1 f).
Qed.
End imagefacts.

(** * The image that main leaves *)

Section spec.
Implicit Types (h : host) (own : Z -> Z) (a s p r : list Z) (e : list (host -> host)) (fs : list (Z * list Z)).

Lemma need_mono s p : need s <= need (s ++ p).
Proof. unfold need. apply blocks_mono, nblk_mono. rewrite zlen_app. pose proof (zlen_nonneg p). lia. Qed.

Lemma holds_room own h fs : holds own h fs -> 0 < nmeta <= h_freeblock h.
Proof. intros Hh. rewrite (ho_hi _ _ _ Hh). pose proof (total_nonneg fs). pose proof nmeta_pos. lia. Qed.

Lemma ialloc_ok own h fs ty e : holds own h fs -> zlen fs + 1 < NINODES -> 0 <= ty < 2 ^ 15 ->
  exists h', ialloc ty h e = Ok (1 + zlen fs) h' e /\ holds own h' (fs ++ [(ty, [])]).
Proof.
  intros Hh Hmax Hty. pose proof (holds_room _ _ _ Hh) as Hlo. pose proof Hh as [Hok Hsb Hsup Hlog Hino Hhi Hfr Hm Htys Hfile].
  pose proof (zlen_nonneg fs) as Hz. unfold ialloc. step. rewrite Hino. set (h1 := h <| h_freeinode ::= _ |>).
  change (xshort 1) with 1. change (xint 0) with 0.
  assert (Hxs : xshort ty = ty) by (unfold xshort, get16; cbn; unfold u8; dlia). rewrite Hxs.
  destruct (winode_ok (1 + zlen fs) (mkDinode ty 0 0 1 0 (replicate 13 0)) h1 e) as
    (h2 & Hrun & Hok2 & Hsb2 & Hfb2 & Hfi2 & Hs2 & Hin2); [done|done|lia| |].
  { split; [cbn; repeat first [apply Forall_nil_2|apply Forall_cons_2; [lia|]]|]. split; [done|]. split; [done|].
    by apply Forall_replicate. }
  rewrite (bind_ok _ _ _ _ _ _ _ Hrun). exists h2. split; [done|]. change (h_freeblock h1) with (h_freeblock h) in Hfb2.
  assert (Hs : forall n, 0 <= n -> n < 32 \/ nmeta - 1 <= n -> sector h2 n = sector h n) by exact Hs2. change nmeta with 59 in *.
  split; [done|done|by rewrite Hs by lia| | | | | | |].
  - intros n Hn. rewrite Hs by lia. by apply Hlog.
  - rewrite Hfi2. change (u32 (h_freeinode h + 1) = 1 + zlen (fs ++ [(ty, [])])). rewrite zlen_app, Hino.
    unfold NINODES in Hmax. rewrite u32_small by lia. unfold zlen. simpl. lia.
  - rewrite Hfb2, total_snoc, Hhi. change nmeta with 59. change (need (ty, []).2) with 0. lia.
  - intros n Hn. rewrite Hs by lia. apply Hfr. lia.
  - rewrite zlen_app. unfold zlen at 2. simpl. lia.
  - apply Forall_app. split; [done|]. apply Forall_cons_2; [cbn; lia|apply Forall_nil_2].
  - intros j x Hx. apply lookup_app_Some in Hx as [Hx|[Hj Hx]].
    + destruct (Hfile j x Hx) as (a & Hi & Hf). pose proof (lookup_lt_Some _ _ _ Hx). exists a. split.
      * rewrite Hin2, decide_False by (unfold zlen in *; lia). done.
      * rewrite Hfb2. eapply filed_frame; [exact Hf|done|]. intros b [Hb _]. change nmeta with 59 in Hb. apply Hs; lia.
    + destruct (j - length fs)%nat as [|?] eqn:Ej; [|done]. injection Hx as <-. cbn [fst snd].
      replace (1 + Z.of_nat j) with (1 + zlen fs) by (unfold zlen; lia). exists (replicate 13 0). split.
      * by rewrite Hin2, decide_True by (done || lia).
      * apply filed_empty.
Qed.

(** The chunks of a file, one after the other. *)
Lemma copy_file_ok j ty e : forall reads s own h fs, holds own h fs -> fs !! j = Some (ty, s) ->
  Forall (fun b => b <> []) reads -> zlen (s ++ mjoin reads) <= MAXFILE * BSIZE ->
  h_freeblock h + (need (s ++ mjoin reads) - need s) <= FSSIZE ->
  exists own' h', copy_file (1 + Z.of_nat j) reads h e = Ok tt h' e /\ holds own' h' (<[j := (ty, s ++ mjoin reads)]> fs).
Proof.
  induction reads as [|b reads IH]; intros s own h fs Hh Hj Hne Hlen Hroom; cbn [copy_file].
  { exists own, h. change (mjoin []) with (@nil Z). rewrite (app_nil_r s), list_insert_id by done. done. }
  apply Forall_cons_1 in Hne as [Hb Hne]. change (mjoin (b :: reads)) with (b ++ mjoin reads) in *. rewrite (app_assoc s b) in *.
  assert (Hb0 : 0 < zlen b) by (destruct b; [done|unfold zlen; simpl; lia]). rewrite (proj2 (Z.ltb_lt 0 (zlen b))) by done.
  pose proof (need_mono (s ++ b) (mjoin reads)) as Hn1. pose proof (need_mono s b) as Hn2.
  destruct (iappend_ok own h fs j ty s b e Hh Hj) as (own1 & h1 & Hrun & Hh1).
  { rewrite zlen_app in Hlen. pose proof (zlen_nonneg (mjoin reads)). rewrite zlen_app in Hlen. lia. }
  { lia. }
  rewrite (bind_ok _ _ _ _ _ _ _ Hrun). pose proof (lookup_lt_Some _ _ _ Hj) as Hjl.
  destruct (IH (s ++ b) own1 h1 _ Hh1) as (own2 & h2 & Hrun2 & Hh2).
  { by apply list_lookup_insert_eq. }
  { done. }
  { done. }
  { rewrite (ho_hi _ _ _ Hh1), (total_insert fs j (ty, s)), <- Z.add_assoc by done. rewrite (ho_hi _ _ _ Hh) in Hroom. cbn [snd]. lia. }
  exists own2, h2. split; [done|]. by rewrite list_insert_insert_eq in Hh2.
Qed.

(** * main *)

Context `{Host}.

(** The entry of a file, as mkfs pads its name. *)
Definition stored_name (arg : list Z) : list Z :=
  strncpy (replicate (Z.to_nat DIRSIZ) 0) (if zget arg 0 =? 95 then tail arg else arg) DIRSIZ.
Definition entry (inum : Z) (arg : list Z) : list Z := dirent_bytes inum (stored_name arg).

(** What the image is to contain: the root directory [r], the files [fs] so
    far, the arguments with their contents still to come. *)
Fixpoint plan r fs (args : list (list Z * list Z)) : list (Z * list Z) :=
  match args with
  | [] => (T_DIR, r) :: fs
  | (arg, s) :: args' => plan (r ++ entry (2 + zlen fs) arg) (fs ++ [(T_FILE, s)]) args'
  end.

Lemma plan_total args : forall r fs, total ((T_DIR, r) :: fs) <= total (plan r fs args).
Proof.
  induction args as [|[arg s] args IH]; intros r fs; cbn [plan]; [lia|]. etrans; [|apply IH].
  simpl. rewrite total_snoc. pose proof (need_mono r (entry (2 + zlen fs) arg)). pose proof (need_nonneg s). cbn [snd]. lia.
Qed.
Lemma plan_length args : forall r fs, zlen (plan r fs args) = 1 + zlen fs + zlen args.
Proof.
  induction args as [|[arg s] args IH]; intros r fs; cbn [plan]; [unfold zlen; simpl; lia|].
  rewrite IH, zlen_app. unfold zlen. simpl. lia.
Qed.

(** An argument mkfs accepts, and what its file contains. *)
Definition arg_ok (x : list Z * list Z) : Prop :=
  47 ∉ x.1 /\ zlen x.2 <= MAXFILE * BSIZE /\
  exists reads, host_file x.1 = Some reads /\ Forall (fun b => b <> []) reads /\ mjoin reads = x.2.

Lemma strncpy_length s t n : length (strncpy s t n) = length s.
Proof.
  unfold strncpy. assert (Hpad : forall m i s, length (strncpy_pad m i s) = length s).
  { induction m as [|m IH]; intros i s'; simpl; [done|]. by rewrite IH, length_zset. }
  generalize 0 as i. revert s. induction (Z.to_nat n) as [|m IH]; intros s i; simpl; [done|].
  destruct (nz _); [by rewrite IH, length_zset|by rewrite Hpad, length_zset].
Qed.

Lemma entry_length inum arg : zlen (entry inum arg) = sizeof_dirent.
Proof. unfold entry, dirent_bytes, zlen. rewrite length_app. unfold stored_name. by rewrite strncpy_length, length_replicate. Qed.

Lemma insert_last {A} (z x y : A) l : <[S (length l) := y]> (z :: l ++ [x]) = z :: l ++ [y].
Proof.
  change (z :: <[length l := y]> (l ++ [x]) = z :: l ++ [y]). rewrite insert_app_r_alt by lia. by rewrite Nat.sub_diag.
Qed.

Lemma add_files_ok e : forall args own h r fs, holds own h ((T_DIR, r) :: fs) -> Forall arg_ok args ->
  zlen r = 16 * (2 + zlen fs) -> 1 + zlen fs + zlen args < NINODES -> nmeta + total (plan r fs args) <= FSSIZE ->
  exists own' h', add_files 1 args.*1 h e = Ok tt h' e /\ holds own' h' (plan r fs args).
Proof.
  induction args as [|[arg s] args IH]; intros own h r fs Hh Hargs Hr Hmax Htot; cbn [add_files plan fmap list_fmap fst] in *.
  { by exists own, h. }
  apply Forall_cons_1 in Hargs as [(Hsl & Hsz & reads & Hfile & Hne & Hs) Hargs]. cbn [fst snd] in *.
  rewrite bool_decide_false by done. unfold assert. cbn [negb]. step. rewrite Hfile.
  pose proof (zlen_nonneg fs) as Hz. pose proof (zlen_nonneg args) as Hza. pose proof (plan_total args (r ++ entry (2 + zlen fs) arg) (fs ++ [(T_FILE, s)])) as Hpt.
  cbn [total foldr snd] in Hpt. fold (total (fs ++ [(T_FILE, s)])) in Hpt. rewrite total_snoc in Hpt. cbn [snd] in Hpt.
  assert (Hlc : zlen ((arg, s) :: args) = 1 + zlen args) by (unfold zlen; simpl; lia). rewrite Hlc in Hmax.
  destruct (ialloc_ok own h _ T_FILE e Hh) as (h1 & Hrun1 & Hh1); [unfold zlen in *; simpl; lia|done|].
  rewrite !bind_assoc, (bind_ok _ _ _ _ _ _ _ Hrun1).
  replace (1 + zlen ((T_DIR, r) :: fs)) with (2 + zlen fs) by (unfold zlen; simpl; lia).
  assert (Hxs : xshort (2 + zlen fs) = 2 + zlen fs) by (unfold xshort, get16, NINODES in *; cbn; unfold u8; dlia).
  unfold add_entry. rewrite Hxs. change (strncpy _ _ _) with (stored_name arg). change (dirent_bytes _ _) with (entry (2 + zlen fs) arg).
  pose proof (ho_hi _ _ _ Hh1) as Hhi1. rewrite total_snoc in Hhi1. cbn [total foldr snd] in Hhi1. fold (total fs) in Hhi1.
  change (need []) with 0 in Hhi1. pose proof (need_mono r (entry (2 + zlen fs) arg)) as Hnr. pose proof (need_nonneg s) as Hns.
  rewrite <- (entry_length (2 + zlen fs) arg).
  destruct (iappend_ok own h1 _ 0 T_DIR r (entry (2 + zlen fs) arg) e Hh1) as (own2 & h2 & Hrun2 & Hh2).
  { done. }
  { rewrite entry_length, Hr. change (MAXFILE * BSIZE) with 71680. unfold sizeof_dirent, NINODES in *. lia. }
  { lia. }
  change (1 + Z.of_nat 0) with 1 in Hrun2. rewrite !bind_assoc, (bind_ok _ _ _ _ _ _ _ Hrun2).
  cbn [app insert list_insert] in Hh2. pose proof (ho_hi _ _ _ Hh2) as Hhi2. cbn [total foldr snd] in Hhi2. fold (total (fs ++ [(T_FILE, [])])) in Hhi2.
  rewrite total_snoc in Hhi2. change (need (T_FILE, []).2) with 0 in Hhi2.
  destruct (copy_file_ok (S (length fs)) T_FILE e reads [] own2 h2 _ Hh2) as (own3 & h3 & Hrun3 & Hh3).
  { change ((fs ++ [(T_FILE, [])]) !! length fs = Some (T_FILE, [])). rewrite lookup_app_r by lia. by rewrite Nat.sub_diag. }
  { done. }
  { cbn [app]. by rewrite Hs. }
  { cbn [app]. rewrite Hs. change (need []) with 0. lia. }
  replace (1 + Z.of_nat (S (length fs))) with (2 + zlen fs) in Hrun3 by (unfold zlen; lia).
  rewrite (bind_ok _ _ _ _ _ _ _ Hrun3). rewrite insert_last in Hh3. cbn [app] in Hh3. rewrite Hs in Hh3.
  apply (IH own3 h3); [done|done| | |lia].
  - rewrite !zlen_app, entry_length, Hr. unfold sizeof_dirent. unfold zlen. simpl. lia.
  - rewrite zlen_app. unfold zlen in *. simpl. lia.
Qed.

Lemma format_ok e : forall n i h, h_img h = replicate (Z.to_nat i) zeroes -> 0 <= i -> i + Z.of_nat n <= FSSIZE ->
  for_ n i (fun i => wsect i zeroes) h e = Ok tt (h <| h_img := replicate (Z.to_nat (i + Z.of_nat n)) zeroes |>) e.
Proof.
  induction n as [|n IH]; intros i h Hi Hi0 Hn; cbn [for_].
  { rewrite Z.add_0_r, <- Hi. unfold ret. f_equal. by destruct h. }
  set (h1 := h <| h_img := replicate (Z.to_nat (i + 1)) zeroes |>).
  assert (Hw : wsect i zeroes h e = Ok tt h1 e).
  { unfold wsect, modify. rewrite sec_index by lia. f_equal. destruct h as [img fi fb sb out]. unfold h1.
    cbv [over over_h_img h_img h_freeinode h_freeblock h_sb h_out] in *. subst img. f_equal.
    rewrite length_replicate, <- replicate_add. replace (Z.to_nat i + (S (Z.to_nat i) - Z.to_nat i))%nat with (Z.to_nat (i + 1)) by lia.
    apply list_insert_id. apply lookup_replicate. split; [done|lia]. }
  rewrite (bind_ok _ _ _ _ _ _ _ Hw), IH by (done || lia). unfold h1.
  replace (i + 1 + Z.of_nat n) with (i + Z.of_nat (S n)) by lia. done.
Qed.

(** The entries of the directory, for inodes [n], [n + 1], ... *)
Fixpoint listing (n : Z) (args : list (list Z)) : list Z :=
  match args with
  | [] => []
  | arg :: args' => entry n arg ++ listing (n + 1) args'
  end.
Definition dots : list Z := entry 1 [46] ++ entry 1 [46; 46].

Lemma plan_eq args : forall r fs,
  plan r fs args = (T_DIR, r ++ listing (2 + zlen fs) args.*1) :: fs ++ (pair T_FILE <$> args.*2).
Proof.
  induction args as [|[arg s] args IH]; intros r fs; cbn [plan listing fmap list_fmap fst snd].
  { by rewrite !app_nil_r. }
  rewrite IH, <- !app_assoc.
  replace (2 + zlen (fs ++ [(T_FILE, s)])) with (2 + zlen fs + 1) by (rewrite zlen_app; unfold zlen; simpl; lia). done.
Qed.

(** The finished image: the super block, the empty log, the root directory
    [r], the files [cs] and the bitmap of the blocks given out. *)
Record built own h r (cs : list (list Z)) : Prop := {
  bu_ok : img_ok h;
  bu_super : sector h 1 = put_bytes zeroes 0 (sb_bytes sb0);
  bu_log : forall n, 2 <= n < 32 -> sector h n = zeroes;
  bu_hi : nmeta <= h_freeblock h <= FSSIZE;
  bu_root : exists a, inode_of h 1 = mkDinode T_DIR 0 0 1 ((zlen r / BSIZE + 1) * BSIZE) a /\
    filed (sector h) own (h_freeblock h) 1 a (NDIRECT <? nblk (zlen r)) (nblk (zlen r)) r;
  bu_count : 1 + zlen cs < NINODES;
  bu_file : forall j s, cs !! j = Some s -> file_in own h (2 + Z.of_nat j) T_FILE s;
  bu_bitmap : sector h (nmeta - 1) = bitmap_loop (Z.to_nat (h_freeblock h)) 0 zeroes;
  bu_fresh : forall n, h_freeblock h <= n < FSSIZE -> sector h n = zeroes
}.

(** Before the first inode. *)
Lemma blank_holds own h : h_img h = <[1%nat := put_bytes zeroes 0 (sb_bytes sb0)]> (replicate (Z.to_nat FSSIZE) zeroes) ->
  h_sb h = sb0 -> h_freeinode h = 1 -> h_freeblock h = nmeta -> holds own h [].
Proof.
  intros Hi Hsb Hn Hb.
  assert (Hs : forall n, 0 <= n < FSSIZE -> n <> 1 -> sector h n = zeroes).
  { intros n Hn0 Hn1. unfold sector. rewrite Hi, list_lookup_total_insert_ne by lia.
    apply lookup_total_replicate_2. lia. }
  assert (H1 : sector h 1 = put_bytes zeroes 0 (sb_bytes sb0)) by (unfold sector; rewrite Hi; done).
  split; [|done|done| |by rewrite Hn|by rewrite Hb| |done|apply Forall_nil_2|done].
  - split; [by rewrite Hi, length_insert, length_replicate|]. intros n Hn0.
    destruct (decide (n = 1)) as [->|]; [by rewrite H1|]. by rewrite Hs.
  - intros n Hn0. apply Hs; [unfold FSSIZE; lia|lia].
  - intros n Hn0. rewrite Hb in Hn0. change nmeta with 59 in Hn0. apply Hs; lia.
Qed.

(** The last steps: the size of the root directory and the bitmap. *)
Lemma finish_ok own h r (cs : list (list Z)) e : holds own h ((T_DIR, r) :: (pair T_FILE <$> cs)) -> h_freeblock h <= FSSIZE -> zlen r < 2 ^ 20 ->
  exists h', (din <- rinode 1 ;;
    let off := xint (di_size din) in
    let off := u32 ((off / BSIZE + 1) * BSIZE) in
    winode 1 (din <| di_size := xint off |>) ;;
    b <- gets h_freeblock ;;
    Mkfs.balloc b) h e = Ok tt h' e /\ built own h' r cs.
Proof.
  intros Hh Hfs Hr. pose proof (holds_room _ _ _ Hh) as Hlo. pose proof Hh as [Hok Hsb Hsup Hlog Hino Hhi Hfr Hm Htys Hfile].
  destruct (Hfile 0%nat _ eq_refl) as (a & Hi & Hf). cbn [fst snd] in Hi, Hf. change (1 + Z.of_nat 0) with 1 in *.
  rewrite (bind_ok _ _ _ _ _ _ _ (rinode_ok 1 h e Hok Hsb ltac:(done))), Hi. cbn [di_size].
  pose proof (zlen_nonneg r) as Hz. rewrite (xint_small (zlen r)) by lia.
  rewrite u32_small, xint_small by (unfold BSIZE; dlia).
  destruct (winode_ok 1 (mkDinode T_DIR 0 0 1 ((zlen r / BSIZE + 1) * BSIZE) a) h e Hok Hsb) as
    (h1 & Hrun1 & Hok1 & Hsb1 & Hfb1 & _ & Hs1 & Hin1); [done| |].
  { split; [cbn; unfold T_DIR; repeat first [apply Forall_nil_2|apply Forall_cons_2; [lia|]]|].
    split; [unfold BSIZE; cbn; dlia|]. split; [apply (fd_len _ _ _ _ _ _ _ _ Hf)|apply (fd_word _ _ _ _ _ _ _ _ Hf)]. }
  rewrite (bind_ok _ _ _ _ _ _ _ Hrun1). unfold balloc, hprintf, assert. step.
  rewrite (proj2 (Z.ltb_lt (h_freeblock h1) (BSIZE * 8))) by (rewrite Hfb1; unfold FSSIZE, BSIZE in *; lia). step.
  set (h2 := h1 <| h_out ::= _ |> <| h_out ::= _ |>). change (h_sb (h1 <| h_out ::= _ |>)) with (h_sb h1). rewrite Hsb1.
  rewrite wsect_ok by done. set (bits := bitmap_loop _ _ _). change (sb_bmapstart sb0) with (nmeta - 1).
  assert (Hbl : forall n i l, length (bitmap_loop n i l) = length l).
  { induction n as [|n IH]; intros i l; cbn [bitmap_loop]; [done|]. by rewrite IH, length_zset. }
  assert (Hs : forall n, 0 <= n -> sector (set_sector (nmeta - 1) bits h2) n = if decide (nmeta - 1 = n) then bits else sector h1 n)
    by (intros n Hn0; exact (sector_set h2 (nmeta - 1) n bits Hok1 ltac:(done) Hn0)).
  assert (Hin : forall j, 0 <= j < NINODES -> inode_of (set_sector (nmeta - 1) bits h2) j = inode_of h1 j).
  { intros j Hj. unfold inode_of. destruct (iblock_range j Hj) as [Hb _]. rewrite Hs by lia. by rewrite decide_False by lia. }
  assert (Hd : forall b f, mine own (h_freeblock h) f b -> sector (set_sector (nmeta - 1) bits h2) b = sector h b).
  { intros b f [Hb _]. change nmeta with 59 in *. rewrite Hs, decide_False by lia. apply Hs1; lia. }
  exists (set_sector (nmeta - 1) bits h2). split; [done|]. split.
  - apply (set_sector_ok h2); [done|done|unfold bits; by rewrite Hbl].
  - rewrite Hs, decide_False by done. by rewrite Hs1 by lia.
  - intros n Hn. rewrite Hs, decide_False by (change nmeta with 59; lia). rewrite Hs1 by lia. by apply Hlog.
  - change (nmeta <= h_freeblock h1 <= FSSIZE). lia.
  - exists a. split; [by rewrite Hin, Hin1|]. change (h_freeblock (set_sector _ _ _)) with (h_freeblock h1). rewrite Hfb1.
    eapply filed_frame; [exact Hf|done|]. intros b. apply Hd.
  - unfold zlen in *. simpl in Hm. rewrite length_fmap in Hm. lia.
  - intros j s Hj. pose proof (lookup_lt_Some _ _ _ Hj) as Hjl.
    destruct (Hfile (S j) (T_FILE, s)) as (a' & Hi' & Hf'); [change ((pair T_FILE <$> cs) !! j = Some (T_FILE, s)); by rewrite list_lookup_fmap, Hj|]. cbn [fst snd] in *.
    replace (1 + Z.of_nat (S j)) with (2 + Z.of_nat j) in * by lia. exists a'. split.
    + unfold zlen in Hm. simpl in Hm. rewrite length_fmap in Hm. rewrite Hin, Hin1, decide_False by lia. done.
    + change (h_freeblock (set_sector _ _ _)) with (h_freeblock h1). rewrite Hfb1.
      eapply filed_frame; [exact Hf'|done|]. intros b. apply Hd.
  - rewrite Hs, decide_True by done. done.
  - intros n Hn. change (h_freeblock h1 <= n < FSSIZE) in Hn. change nmeta with 59 in *.
    rewrite Hs, decide_False by (change nmeta with 59; lia). rewrite Hs1 by (change nmeta with 59; lia). apply Hfr. lia.
Qed.

(** The blocks of the root directory and of the files. *)
Definition room (args : list (list Z * list Z)) : Prop :=
  1 + zlen args < NINODES /\
  nmeta + need (dots ++ listing 2 args.*1) + total (pair T_FILE <$> args.*2) <= FSSIZE.

Lemma listing_length args : forall n, zlen (listing n args) = 16 * zlen args.
Proof.
  induction args as [|arg args IH]; intros n; [done|]. cbn [listing]. rewrite zlen_app, entry_length, IH.
  unfold zlen, sizeof_dirent. simpl. lia.
Qed.

Lemma populate_ok args h e : img_ok h -> h_sb h = sb0 -> h_freeinode h = 1 -> h_freeblock h = nmeta ->
  h_img h = replicate (Z.to_nat FSSIZE) zeroes -> Forall arg_ok args -> room args ->
  exists own h', populate args.*1 h e = Ok tt h' e /\ built own h' (dots ++ listing 2 args.*1) args.*2.
Proof.
  intros Hok Hsb Hino Hfb Himg Hargs [Hmax Hroom]. unfold populate. step. rewrite Hsb.
  rewrite (bind_ok _ _ _ _ _ _ _ (wsect_ok 1 _ h e Hok ltac:(done))). set (h3 := set_sector 1 _ h).
  assert (Hh3 : holds (fun _ => 0) h3 []).
  { apply blank_holds; [|done..]. unfold h3, set_sector. fields. by rewrite Himg. }
  destruct (ialloc_ok _ h3 [] T_DIR e Hh3) as (h4 & Hrun4 & Hh4); [done|done|]. clearbody h3.
  change (1 + zlen []) with 1 in Hrun4. rewrite (bind_ok _ _ _ _ _ _ _ Hrun4). change (1 =? ROOTINO) with true.
  unfold assert. cbn iota. step.
  unfold add_entry. change (dirent_bytes (xshort 1) (put_bytes (replicate (Z.to_nat DIRSIZ) 0) 0 [46; 0])) with (entry 1 [46]).
  change (dirent_bytes (xshort 1) (put_bytes (replicate (Z.to_nat DIRSIZ) 0) 0 [46; 46; 0])) with (entry 1 [46; 46]).
  cbn [app] in Hh4.
  destruct (iappend_ok _ h4 _ 0 T_DIR [] (entry 1 [46]) e Hh4 eq_refl) as (own5 & h5 & Hrun5 & Hh5);
    [done|by rewrite (ho_hi _ _ _ Hh4)|].
  change (1 + Z.of_nat 0) with 1 in Hrun5. change (zlen (entry 1 [46])) with sizeof_dirent in Hrun5.
  rewrite (bind_ok _ _ _ _ _ _ _ Hrun5). cbn [insert list_insert app] in Hh5.
  destruct (iappend_ok _ h5 _ 0 T_DIR (entry 1 [46]) (entry 1 [46; 46]) e Hh5 eq_refl) as (own6 & h6 & Hrun6 & Hh6);
    [done|by rewrite (ho_hi _ _ _ Hh5)|].
  change (1 + Z.of_nat 0) with 1 in Hrun6. change (zlen (entry 1 [46; 46])) with sizeof_dirent in Hrun6.
  rewrite (bind_ok _ _ _ _ _ _ _ Hrun6). cbn [insert list_insert] in Hh6. change (entry 1 [46] ++ entry 1 [46; 46]) with dots in Hh6.
  destruct (add_files_ok e args own6 h6 dots [] Hh6 Hargs) as (own7 & h7 & Hrun7 & Hh7); [done|done| |].
  { rewrite plan_eq. change (2 + zlen []) with 2. cbn [total foldr snd app]. fold (total (pair T_FILE <$> args.*2)). lia. }
  rewrite (bind_ok _ _ _ _ _ _ _ Hrun7). rewrite plan_eq in Hh7. change (2 + zlen []) with 2 in Hh7. cbn [app] in Hh7.
  destruct (finish_ok own7 h7 _ _ e Hh7) as (h8 & Hrun8 & Hb).
  { rewrite (ho_hi _ _ _ Hh7). cbn [total foldr snd]. fold (total (pair T_FILE <$> args.*2)). lia. }
  { rewrite zlen_app, listing_length. change (zlen dots) with 32. unfold NINODES in Hmax. unfold zlen in *. rewrite length_fmap. lia. }
  exists own7, h8. split; [exact Hrun8|done].
Qed.

Lemma layout_ok h e : exists h', layout h e = Ok tt h' e /\ h_img h' = h_img h /\ h_sb h' = sb0 /\
  h_freeinode h' = h_freeinode h /\ h_freeblock h' = nmeta.
Proof. eexists. split; [unfold layout, hprintf; step; reflexivity|]. done. Qed.

Lemma main_ok img args e : open_image img = true -> Forall arg_ok args -> room args ->
  exists own h, main (img :: args.*1) host0 e = Ok tt h e /\ built own h (dots ++ listing 2 args.*1) args.*2.
Proof.
  intros Himg Hargs Hroom. unfold main. rewrite Himg. cbn [negb]. unfold assert.
  change (BSIZE mod sizeof_dinode =? 0) with true. change (BSIZE mod sizeof_dirent =? 0) with true. cbn iota.
  do 2 rewrite (bind_ok (ret tt) _ _ _ tt host0 e eq_refl).
  rewrite (bind_ok (modify _) _ _ _ tt (host0 <| h_img := [] |>) e eq_refl).
  destruct (layout_ok (host0 <| h_img := [] |>) e) as (h1 & Hrun1 & Hi1 & Hsb1 & Hino1 & Hfb1).
  rewrite (bind_ok _ _ _ _ _ _ _ Hrun1), (bind_ok _ _ _ _ _ _ _ (format_ok e (Z.to_nat FSSIZE) 0 h1 Hi1 ltac:(lia) ltac:(done))).
  apply populate_ok; [|done..]. split; [done|]. intros n Hn. unfold sector. fields.
  by rewrite lookup_total_replicate_2 by (change (0 + Z.of_nat (Z.to_nat FSSIZE)) with FSSIZE; lia).
Qed.
End spec.
