(* ===== verification/PathFacts.v ===== *)
(** In-memory inodes and directories: iget, ilock, iunlock and iput of an inode
    that stays, and the search of a directory. *)
From S2P Require Import Prelude Kernel Mem Fsformat BlockFacts Spinlock Locks Str Console Vm Sched Sleeplock SleepFacts.
From S2P Require Import Ide Bio LruFacts BioFacts Log LogFacts CommitFacts TxnFacts Fs ReadFacts.

Section path.
Context `{HD : DiskDriver} (dev : Z) {HOK : DiskOk dev} (i p : nat) (pid : Z) `{Devices}.
Implicit Types (k : kernel) (e : env) (b j : nat) (m n : Z) (t : list inode).

Local Notation thread := (thread i p pid).
Local Notation cache := (cache dev pid).
Local Notation view := (view dev).
Local Notation pinned := (pinned dev).
Local Notation reader := (reader dev i p pid).
Local Notation looked := (looked dev i p pid).
Local Notation allocated := (allocated dev).

(** What the inode layer changes while it only reads: the cached blocks and
    the inode table. *)
Record moved k k' : Prop := {
  mv_reader : reader k';
  mv_rest : quiet k' = quiet (k <| k_bcache := k_bcache k' |> <| k_icache := k_icache k' |>);
  mv_view : forall m, view k' m = view k m;
  mv_pinned : forall m, pinned k' m <-> pinned k m
}.

Lemma moved_trans k1 k2 k3 : moved k1 k2 -> moved k2 k3 -> moved k1 k3.
Proof.
  intros [_ Q1 V1 P1] [R2 Q2 V2 P2]. split; [done| | |].
  - rewrite Q2. change (quiet k2 <| k_bcache := k_bcache k3 |> <| k_icache := k_icache k3 |> =
      quiet (k1 <| k_bcache := k_bcache k3 |> <| k_icache := k_icache k3 |>)). by rewrite Q1.
  - intros m. by rewrite V2.
  - intros m. by rewrite P2.
Qed.

Lemma looked_moved k t k' : looked (k <| k_icache := t |>) k' -> moved k k' /\ k_icache k' = t /\
  forall s, slock_of k' (S_inode s) = slock_of k (S_inode s).
Proof.
  intros [R Q V P I]. assert (Ht : k_icache k' = t) by exact (f_equal k_icache Q). split; [|by split].
  split; [done| |done|done]. by rewrite Ht, Q.
Qed.
Lemma looked_moved_same k k' : looked k k' -> moved k k' /\ k_icache k' = k_icache k /\
  forall s, slock_of k' (S_inode s) = slock_of k (S_inode s).
Proof. intros Hl. apply looked_moved. by rewrite set_icache_id. Qed.

Lemma moved_sb k k' : moved k k' -> k_sb k' = k_sb k /\ k_ide k' = k_ide k.
Proof. intros Hm. pose proof (mv_rest _ _ Hm) as Hq. split; [exact (f_equal k_sb Hq)|exact (f_equal k_ide Hq)]. Qed.
Lemma moved_has k k' n : moved k k' -> disk_has k n -> disk_has k' n.
Proof. intros Hm. apply disk_has_ide. apply (moved_sb _ _ Hm). Qed.

Lemma allocated_moved k k' a c : moved k k' -> allocated (view k) k a c -> allocated (view k') k' a c.
Proof.
  intros Hl [H1 H2 H3]. split; [done| |].
  - intros bn Hbn. rewrite (block_at_ext (view k)) by apply (mv_view _ _ Hl). destruct (H2 bn Hbn).
    split; [done|]. by apply (moved_has k).
  - intros Hc. destruct (H3 Hc). split; [done|]. by apply (moved_has k).
Qed.

(** A step that changes the inode table and sleep locks of inodes only. *)
Lemma moved_table k t k' : reader k -> thread k' -> quiet k' = quiet (k <| k_icache := t |>) ->
  (forall s, slock_of k' (S_buf s) = slock_of k (S_buf s)) -> moved k k'.
Proof.
  intros [Ht Hca Hsp] Ht' Hq Hs. assert (Hb : k_bcache k' = k_bcache k) by exact (f_equal k_bcache Hq).
  assert (Hd : k_disk k' = k_disk k) by exact (f_equal k_disk Hq).
  assert (Hi : k_icache k' = t) by exact (f_equal k_icache Hq).
  assert (Hca' : cache [] k').
  { destruct Hca as [H1 [I1 I2 I3 I4 I5 I6 I7 I8 I9 I10 I11]]. split; [by rewrite Hb|].
    split; try done; try (by rewrite Hb); unfold disk_sector in *; rewrite ?Hb, ?Hd; try done.
    - intros x Hx. rewrite Hs. by apply I3.
    - intros x Hx. by apply elem_of_nil in Hx. }
  split; [split; [done|done|]| | |].
  - destruct Hsp as (x & Hx). exists x. unfold reusable. by rewrite Hb.
  - rewrite Hb, Hi, Hq. change (quiet (k <| k_icache := t |>) = quiet (k <| k_bcache := k_bcache k |> <| k_icache := t |>)).
    by rewrite set_bcache_id.
  - intros m. unfold view, disk_sector. by rewrite Hb, Hd.
  - intros m. unfold LogFacts.pinned, BioFacts.cached. by rewrite Hb.
Qed.

(** * iget *)

(** A critical section on icache.lock that sets the table to [t]. *)
Lemma icache_section k e : reader k ->
  exists k1, acquire L_icache k e = Ok tt k1 e /\ k_icache k1 = k_icache k /\
    forall t, exists k', release L_icache (k1 <| k_icache := t |>) e = Ok tt k' e /\ moved k k' /\ k_icache k' = t /\
      k_slocks k' = k_slocks k.
Proof.
  intros Hr. pose proof (rd_thread _ _ _ _ _ Hr) as Ht. pose proof Ht as [Tc _ _ Tf].
  destruct (acquire_enter i L_icache k e Tc (Tf _)) as [Hacq He].
  exists (locked_by i L_icache k). split; [done|]. split; [done|]. intros t. set (k2 := _ <| k_icache := t |>).
  assert (He2 : entered i L_icache k k2) by (eapply entered_same; [|exact He]; done).
  destruct (entered_leave i L_icache k k2 e Tc He2) as (Hrel & Hfr & _).
  exists (unlocked_by i L_icache k2). split; [done|].
  assert (Ht' : thread (unlocked_by i L_icache k2)) by (eapply thread_frame; [exact Hfr|by left|exact Ht]).
  split; [|done]. by apply (moved_table k t).
Qed.

Lemma upd_inode_eq j (f : inode -> inode) k e : upd_inode j f k e = Ok tt (k <| k_icache := alter f j (k_icache k) |>) e.
Proof. done. Qed.

(** The entry iget gives, and the table after it. *)
Definition iget_slot (inum : Z) t : option (nat * list inode) :=
  match findi (Fs.cached dev inum) t with
  | Some j => Some (j, alter (fun ip => ip <| i_ref ::= fun n => i32 (n + 1) |>) j t)
  | None =>
      match findi (fun ip => i_ref ip =? 0) t with
      | Some j => Some (j, alter (fun ip => ip <| i_dev := dev |> <| i_inum := inum |> <| i_ref := 1 |> <| i_valid := 0 |>) j t)
      | None => None
      end
  end.

Lemma iget_ok inum j t k e : reader k -> iget_slot inum (k_icache k) = Some (j, t) ->
  exists k', iget dev inum k e = Ok j k' e /\ moved k k' /\ k_icache k' = t /\ k_slocks k' = k_slocks k.
Proof.
  intros Hr Hs. destruct (icache_section k e Hr) as (k1 & Hacq & Hi1 & Hrel). destruct (Hrel t) as (k' & Hr' & Hm).
  exists k'. split; [|done]. unfold iget. rewrite (bind_ok _ _ _ _ _ _ _ Hacq). step. rewrite Hi1.
  unfold iget_slot in Hs. destruct (findi (Fs.cached dev inum) (k_icache k)) as [j'|].
  - injection Hs as <- Ht. rewrite (bind_ok _ _ _ _ _ _ _ (upd_inode_eq _ _ k1 e)), Hi1, Ht.
    by rewrite (bind_ok _ _ _ _ _ _ _ Hr').
  - destruct (findi _ _) as [j'|]; [|done].
    injection Hs as <- Ht. rewrite (bind_ok _ _ _ _ _ _ _ (upd_inode_eq _ _ k1 e)), Hi1, Ht.
    by rewrite (bind_ok _ _ _ _ _ _ _ Hr').
Qed.

(** * Locking an inode *)

(** The inode read from the disk. *)
Definition loaded (di : dinode) (ip : inode) : inode :=
  ip <| i_type := di_type di |> <| i_major := di_major di |> <| i_minor := di_minor di |> <| i_nlink := di_nlink di |>
     <| i_size := di_size di |> <| i_addrs := di_addrs di |> <| i_valid := 1 |>.

Definition unlocked k j : Prop := sl_locked (slock_of k (S_inode j)) = 0.
Definition locked_me k j : Prop := sl_locked (slock_of k (S_inode j)) = 1 /\ sl_pid (slock_of k (S_inode j)) = pid.

(** Taking or giving back the lock of an inode. *)
Lemma moved_slock j k k' v : reader k -> thread k' -> quiet k' = quiet k ->
  (forall s, slock_of k' s = if decide (S_inode j = s) then v else slock_of k s) ->
  moved k k' /\ k_icache k' = k_icache k /\ slock_of k' (S_inode j) = v /\
  (forall s, s <> j -> slock_of k' (S_inode s) = slock_of k (S_inode s)).
Proof.
  intros Hr Ht Hq Hs. split; [|split; [exact (f_equal k_icache Hq)|split]].
  - apply (moved_table k (k_icache k)); [done|done|by rewrite set_icache_id|]. intros s. by rewrite Hs, decide_False.
  - by rewrite Hs, decide_True.
  - intros s Hne. by rewrite Hs, decide_False by congruence.
Qed.

Lemma ilock_ok j k e : let ip := k_icache k !!! j in (j < length (k_icache k))%nat ->
  let di := get_dinode (view k (IBLOCK (i_inum ip) (k_sb k))) (dinode_off (i_inum ip)) in
  reader k -> 1 <= i_ref ip -> unlocked k j ->
  (i_valid ip = 0 -> i_dev ip = dev /\ disk_has k (IBLOCK (i_inum ip) (k_sb k)) /\ di_type di <> 0) ->
  exists k', ilock (Some j) k e = Ok tt k' e /\ moved k k' /\ locked_me k' j /\
    k_icache k' = (if i_valid ip =? 0 then alter (loaded di) j (k_icache k) else k_icache k) /\
    (forall s, s <> j -> slock_of k' (S_inode s) = slock_of k (S_inode s)).
Proof.
  intros ip Hj di Hr Href Hun Hdisk. unfold ilock, get_inode. step. fold ip.
  rewrite (proj2 (Z.ltb_ge (i_ref ip) 1)) by lia.
  destruct (acquiresleep_ok i p pid (S_inode j) k e (rd_thread _ _ _ _ _ Hr) Hun) as (k1 & v & Hrun1 & Ht1 & Hq1 & Hv1 & Hv2 & Hs1).
  rewrite (bind_ok _ _ _ _ _ _ _ Hrun1). destruct (moved_slock j k k1 v Hr Ht1 Hq1 Hs1) as (Hm1 & Hi1 & Hsj & Hso).
  step. rewrite Hi1. fold ip. destruct (Z.eqb_spec (i_valid ip) 0) as [Hv0|Hv0].
  2:{ exists k1. split; [done|]. split; [done|]. split; [by unfold locked_me; rewrite Hsj|]. by split. }
  destruct (Hdisk Hv0) as (Hdev & Hhas & Hty). step. destruct (moved_sb _ _ Hm1) as [Hsb1 _]. rewrite Hsb1, Hdev.
  destruct (look_ok dev i p pid (IBLOCK (i_inum ip) (k_sb k)) k1 e (mv_reader _ _ Hm1) (moved_has _ _ _ Hm1 Hhas)) as
    (b & k2 & Hrun2 & Hd & Hi2 & _ & Hrel).
  rewrite (bind_ok _ _ _ _ _ _ _ Hrun2). unfold get_buf. step. rewrite Hd, (mv_view _ _ Hm1). fold di.
  rewrite (bind_ok _ _ _ _ _ _ _ (upd_inode_eq _ _ k2 e)), Hi2, Hi1.
  set (t1 := alter _ j (k_icache k)). destruct (Hrel t1) as (k3 & Hrun3 & Hl3). rewrite (bind_ok _ _ _ _ _ _ _ Hrun3).
  destruct (looked_moved _ _ _ Hl3) as (Hm3 & Hi3 & Hs3).
  rewrite (bind_ok _ _ _ _ _ _ _ (upd_inode_eq _ _ k3 e)), Hi3. rewrite (proj2 (Z.eqb_neq _ 0)) by done.
  set (k4 := k3 <| k_icache := _ |>). exists k4. split; [done|].
  assert (Hm4 : moved k3 k4).
  { apply (moved_table k3 (k_icache k4)); [apply (mv_reader _ _ Hm3)| |done|done].
    eapply thread_same; [..|apply (rd_thread _ _ _ _ _ (mv_reader _ _ Hm3))]; done. }
  split; [eapply moved_trans; [exact Hm1|]; by eapply moved_trans|]. split; [|split].
  - unfold locked_me. change (slock_of k4 (S_inode j)) with (slock_of k3 (S_inode j)). by rewrite Hs3, Hsj.
  - change (k_icache k4) with (alter (fun ip => ip <| i_valid := 1 |>) j t1). exact (list_alter_alter_eq _ _ _ j).
  - intros s Hne. change (slock_of k4 (S_inode s)) with (slock_of k3 (S_inode s)). by rewrite Hs3, Hso.
Qed.

Lemma iunlock_ok j k e : reader k -> locked_me k j -> 1 <= i_ref (k_icache k !!! j) ->
  exists k', iunlock (Some j) k e = Ok tt k' e /\ moved k k' /\ unlocked k' j /\ k_icache k' = k_icache k /\
    (forall s, s <> j -> slock_of k' (S_inode s) = slock_of k (S_inode s)).
Proof.
  intros Hr [Hl Hp] Href. unfold iunlock.
  destruct (holdingsleep_ok i p pid (S_inode j) k e (rd_thread _ _ _ _ _ Hr)) as (k1 & Hrun1 & Ht1 & Hq1 & Hs1).
  rewrite (bind_ok _ _ _ _ _ _ _ Hrun1). unfold get_inode. step. rewrite Hl, Hp, Z.eqb_refl. cbn [nz Z.eqb negb andb orb].
  assert (Hi1 : k_icache k1 = k_icache k) by exact (f_equal k_icache Hq1). rewrite Hi1.
  rewrite (proj2 (Z.ltb_ge (i_ref _) 1)) by lia. assert (Hsl1 : forall s, slock_of k1 s = slock_of k s) by (intros; unfold slock_of; by rewrite Hs1).
  assert (Hm1 : moved k k1) by (apply (moved_table k (k_icache k)); [done|done|by rewrite set_icache_id|done]).
  destruct (releasesleep_ok i p pid (S_inode j) k1 e Ht1) as (k2 & v & Hrun2 & Ht2 & Hq2 & Hv & Hs2).
  destruct (moved_slock j k1 k2 v (mv_reader _ _ Hm1) Ht2 Hq2 Hs2) as (Hm2 & Hi2 & Hsj & Hso).
  exists k2. split; [done|]. split; [by eapply moved_trans|]. split; [by unfold unlocked; rewrite Hsj|].
  split; [by rewrite Hi2|]. intros s Hne. by rewrite Hso, Hsl1.
Qed.

(** Giving up a reference to an inode that has links, or is used by others. *)
Lemma iput_ok j k e : let ip := k_icache k !!! j in (j < length (k_icache k))%nat -> reader k -> unlocked k j -> i_nlink ip <> 0 ->
  exists k', iput j k e = Ok tt k' e /\ moved k k' /\ unlocked k' j /\
    k_icache k' = alter (fun ip => ip <| i_ref ::= fun n => i32 (n - 1) |>) j (k_icache k) /\
    (forall s, s <> j -> slock_of k' (S_inode s) = slock_of k (S_inode s)).
Proof.
  intros ip Hj Hr Hun Hnl. unfold iput.
  destruct (acquiresleep_ok i p pid (S_inode j) k e (rd_thread _ _ _ _ _ Hr) Hun) as (k1 & v & Hrun1 & Ht1 & Hq1 & _ & _ & Hs1).
  rewrite (bind_ok _ _ _ _ _ _ _ Hrun1). destruct (moved_slock j k k1 v Hr Ht1 Hq1 Hs1) as (Hm1 & Hi1 & _ & Hso1).
  unfold get_inode. step. rewrite Hi1. fold ip. rewrite (proj2 (Z.eqb_neq (i_nlink ip) 0)) by done.
  rewrite andb_false_r. unfold when. step.
  destruct (releasesleep_ok i p pid (S_inode j) k1 e Ht1) as (k2 & v2 & Hrun2 & Ht2 & Hq2 & Hv2 & Hs2).
  rewrite (bind_ok _ _ _ _ _ _ _ Hrun2). destruct (moved_slock j k1 k2 v2 (mv_reader _ _ Hm1) Ht2 Hq2 Hs2) as (Hm2 & Hi2 & Hsj2 & Hso2).
  destruct (icache_section k2 e (mv_reader _ _ Hm2)) as (k3 & Hacq & Hi3 & Hrel).
  rewrite (bind_ok _ _ _ _ _ _ _ Hacq), (bind_ok _ _ _ _ _ _ _ (upd_inode_eq _ _ k3 e)), Hi3, Hi2, Hi1.
  destruct (Hrel (alter (fun ip => ip <| i_ref ::= fun n => i32 (n - 1) |>) j (k_icache k))) as (k4 & Hrun4 & Hm4 & Hi4 & Hs4).
  exists k4. split; [done|]. split; [eapply moved_trans; [exact Hm1|]; by eapply moved_trans|].
  assert (Hsl4 : forall s, slock_of k4 s = slock_of k2 s) by (intros; unfold slock_of; by rewrite Hs4).
  split; [by unfold unlocked; rewrite Hsl4, Hsj2|]. split; [done|]. intros s Hne. by rewrite Hsl4, Hso2, Hso1.
Qed.

(** * Searching a directory *)

(** The entry at [off] is passed over. *)
Definition skipped (name de : list Z) : Prop := de_inum de = 0 \/ namecmp name (de_name de) <> 0.

(** A directory that can be searched. *)
Record dir_ok k (ip : inode) (c : Z) : Prop := {
  di_dev : i_dev ip = dev;
  di_dir : i_type ip <> T_DEV;
  di_alloc : allocated (view k) k (i_addrs ip) c;
  di_bytes : 0 <= i_size ip <= c * BSIZE
}.

Lemma dirent_read j off c k e : let ip := k_icache k !!! j in reader k -> dir_ok k ip c ->
  0 <= off -> off + 16 <= i_size ip ->
  exists k', looked k k' /\ dir_ok k' ip c /\ k_icache k' !!! j = ip /\
    readi j off sizeof_dirent k e = Ok (16, bytes_at (view k) (i_addrs ip) off 16) k' e.
Proof.
  intros ip Hr [Hdev Hty Hal Hsz] Hoff Hend.
  assert (Hmax : i_size ip < 2 ^ 31).
  { pose proof (al_max _ _ _ _ _ Hal) as Hm. change (NDIRECT + NINDIRECT) with 140 in Hm. unfold BSIZE in *. lia. }
  destruct (readi_ok dev i p pid j off 16 c k e Hr Hdev Hty Hal Hsz) as (k1 & Hl & Hrun); [lia|lia|].
  fold ip in Hrun. rewrite (proj2 (Z.ltb_ge (i_size ip) off)) in Hrun by lia. cbv zeta in Hrun.
  rewrite (Z.min_l 16) in Hrun by lia. exists k1. split; [done|]. split; [|split; [|done]].
  - split; [done|done| |done]. exact (allocated_looked dev i p pid k k1 _ c Hl Hal).
  - by rewrite (looked_icache _ _ _ _ _ _ Hl).
Qed.

Lemma dirlookup_loop_ok j name c inum e : forall (m : nat) fuel off k, let ip := k_icache k !!! j in
  let at_ q := bytes_at (view k) (i_addrs ip) (off + 16 * Z.of_nat q) 16 in
  reader k -> dir_ok k ip c -> 0 <= off -> off + 16 * (Z.of_nat m + 1) <= i_size ip -> (m < fuel)%nat ->
  (forall q, (q < m)%nat -> skipped name (at_ q)) ->
  de_inum (at_ m) = inum -> inum <> 0 -> namecmp name (de_name (at_ m)) = 0 ->
  exists k', looked k k' /\ dirlookup_loop fuel j name off k e =
    (x <- iget dev inum ;; ret (Some (x, off + 16 * Z.of_nat m))) k' e.
Proof.
  induction m as [|m IH]; intros fuel off k ip at_ Hr Hdir Hoff Hend Hfuel Hskip Hin Hnz Hcmp;
    (destruct fuel as [|fuel]; [lia|]); cbn [dirlookup_loop]; unfold get_inode; step; fold ip;
    rewrite (proj2 (Z.ltb_lt off (i_size ip))) by lia; cbn [negb];
    destruct (dirent_read j off c k e Hr Hdir Hoff) as (k1 & Hl & Hdir1 & Hip & Hrun); [fold ip; lia| |fold ip; lia|];
    fold ip in Hrun, Hip, Hdir1; rewrite (bind_ok _ _ _ _ _ _ _ Hrun); change (16 =? sizeof_dirent) with true; cbn [negb].
  - unfold at_ in *. replace (off + 16 * Z.of_nat 0) with off in * by lia.
    rewrite Hin, (proj2 (Z.eqb_neq inum 0)), Hcmp by done. cbn [Z.eqb]. exists k1. by rewrite (di_dev _ _ _ Hdir).
  - pose proof (Hskip 0%nat ltac:(lia)) as Hsk. unfold at_ in Hsk. replace (off + 16 * Z.of_nat 0) with off in Hsk by lia.
    assert (Hat : forall q, bytes_at (view k1) (i_addrs ip) (off + 16 + 16 * Z.of_nat q) 16 = at_ (S q)).
    { intros q. unfold at_. rewrite (bytes_at_ext (view k) (view k1)) by apply (lo_view _ _ _ _ _ _ Hl). f_equal. lia. }
    destruct (IH fuel (off + sizeof_dirent) k1) as (k2 & Hl2 & Hrun2); rewrite ?Hip; change sizeof_dirent with 16; try done; try lia.
    { apply (lo_reader _ _ _ _ _ _ Hl). }
    { intros q Hq. rewrite Hat. apply Hskip. lia. }
    { by rewrite Hat. }
    { by rewrite Hat. }
    exists k2. split; [by eapply looked_trans|].
    replace (off + 16 * Z.of_nat (S m)) with (off + sizeof_dirent + 16 * Z.of_nat m) by (change sizeof_dirent with 16; lia).
    rewrite <- Hrun2. destruct (Z.eqb_spec (de_inum (bytes_at (view k) (i_addrs ip) off 16)) 0) as [|Hd0]; [done|].
    destruct Hsk as [|Hne]; [done|]. by rewrite (proj2 (Z.eqb_neq (namecmp _ _) 0)) by done.
Qed.
End path.

(** * Names *)

Section names.
Implicit Types (s q : list Z) (n : nat).

(** A name in the [n] bytes of a directory entry. *)
Definition padded n s : list Z := take n s ++ replicate (n - length s) 0.

Lemma length_padded n s : length (padded n s) = n.
Proof. unfold padded. rewrite length_app, length_take, length_replicate. lia. Qed.

Lemma padded_cons n c s : padded (S n) (c :: s) = c :: padded n s.
Proof. done. Qed.
Lemma padded_nil n : padded (S n) [] = 0 :: padded n [].
Proof. unfold padded. simpl. by rewrite take_nil, Nat.sub_0_r. Qed.

Lemma strncmp_padded s q n : strncmp (padded n s) (padded n q) n = strncmp s q n.
Proof.
  revert s q. induction n as [|n IH]; intros s q; [done|].
  destruct s as [|a s], q as [|b q]; rewrite ?padded_cons, ?padded_nil; cbn [strncmp head tail default from_option id].
  - done.
  - done.
  - destruct (Z.eqb_spec a 0) as [->|Ha]; [done|]. unfold nz. rewrite (proj2 (Z.eqb_neq a 0)) by done. done.
  - destruct (nz a && (a =? b)); [apply IH|done].
Qed.

Lemma zget_padded n s x : 0 <= x < Z.of_nat n -> zget (padded n s) x = zget s x.
Proof.
  intros Hx. unfold padded, zget. destruct (decide (Z.to_nat x < length s)%nat) as [Hlt|Hge].
  - rewrite lookup_total_app_l by (rewrite length_take; lia). rewrite !list_lookup_total_alt. by rewrite lookup_take_lt by lia.
  - rewrite lookup_total_app_r by (rewrite length_take; lia).
    rewrite (list_lookup_total_alt s), lookup_ge_None_2 by lia. apply lookup_total_replicate_2. rewrite length_take. lia.
Qed.

Lemma list_eq_zget s q n : length s = n -> length q = n -> (forall x, 0 <= x < Z.of_nat n -> zget s x = zget q x) -> s = q.
Proof.
  intros Hs Hq Hx. apply (list_eq_same_length _ _ n); [lia|lia|]. intros x a b Hn Ha Hb.
  specialize (Hx (Z.of_nat x) ltac:(lia)). unfold zget in Hx. rewrite Nat2Z.id in Hx.
  by rewrite (list_lookup_total_correct _ _ _ Ha), (list_lookup_total_correct _ _ _ Hb) in Hx.
Qed.

(** The name of a one-element path. *)
Lemma take_elem_plain s : SLASH ∉ s -> take_elem s = (s, []).
Proof.
  induction s as [|c s IH]; intros Hs; [done|]. cbn [take_elem]. rewrite not_elem_of_cons in Hs. destruct Hs as [Hc Hs].
  rewrite (proj2 (Z.eqb_neq c SLASH)) by done. by rewrite IH.
Qed.

Lemma skipelem_root s : s <> [] -> SLASH ∉ s ->
  skipelem (SLASH :: s) (replicate (Z.to_nat DIRSIZ) 0) = Some ([], padded 14 s).
Proof.
  intros Hne Hs. unfold skipelem. cbn [skip_slashes]. rewrite Z.eqb_refl.
  destruct s as [|c s]; [done|]. assert (Hsk : skip_slashes (c :: s) = c :: s).
  { cbn [skip_slashes]. rewrite not_elem_of_cons in Hs. by rewrite (proj2 (Z.eqb_neq c SLASH)) by (destruct Hs; done). }
  rewrite Hsk, take_elem_plain by done. set (s' := c :: s) in *. cbn [skip_slashes]. do 3 f_equal.
  assert (Hput : forall v, put_bytes (replicate 14 0) 0 v = v ++ replicate (14 - length v) 0).
  { intros v. unfold put_bytes. by rewrite drop_replicate. }
  change (Z.to_nat DIRSIZ) with 14%nat. rewrite !Hput. change DIRSIZ with 14. unfold padded, zlen, zset.
  destruct (Z.leb_spec 14 (Z.of_nat (length s'))) as [Hl|Hl].
  - do 2 f_equal. rewrite length_take. lia.
  - rewrite take_ge by lia. rewrite Nat2Z.id, insert_app_r_alt, Nat.sub_diag by lia.
    destruct (14 - length s')%nat as [|d] eqn:Ed; [lia|]. done.
Qed.
End names.

(** * A file of the root directory *)

Section root.
Context `{HD : DiskDriver} {HOK : DiskOk ROOTDEV} (i p : nat) (pid : Z) `{Devices}.
Implicit Types (k : kernel) (e : env) (j : nat) (t : list inode).

Local Notation view := (view ROOTDEV).
Local Notation reader := (reader ROOTDEV i p pid).
Local Notation moved := (moved ROOTDEV i p pid).

(** The entry iget recycles for inode [inum]. *)
Definition taken (inum : Z) (ip : inode) : inode :=
  ip <| i_dev := ROOTDEV |> <| i_inum := inum |> <| i_ref := 1 |> <| i_valid := 0 |>.

Lemma free_slot inum t : Forall (fun ip => i_ref ip = 0) t -> findi (Fs.cached ROOTDEV inum) t = None.
Proof. intros Ht. apply findi_None. eapply list.Forall_impl; [exact Ht|]. intros ip Hi. unfold Fs.cached. by rewrite Hi. Qed.

(** The table while the root directory is in use. *)
Lemma second_slot inum x0 x1 t : i_inum x0 <> inum -> i_ref x0 = 1 -> Forall (fun ip => i_ref ip = 0) (x1 :: t) ->
  iget_slot ROOTDEV inum (x0 :: x1 :: t) = Some (1%nat, x0 :: taken inum x1 :: t).
Proof.
  intros Hi H0 Ht. unfold iget_slot. cbn [findi]. assert (Hc : Fs.cached ROOTDEV inum x0 = false).
  { unfold Fs.cached. by rewrite (proj2 (Z.eqb_neq (i_inum x0) inum)), andb_false_r. }
  pose proof (free_slot inum (x1 :: t) Ht) as Hn. cbn [findi] in Hn. rewrite Hc, Hn. cbn [fmap option_fmap option_map].
  apply Forall_cons_1 in Ht as [H1 _]. rewrite H0, H1. done.
Qed.

Lemma dirlookup_found rt x1 t (q : nat) c inum name k e :
  let de z := bytes_at (view k) (i_addrs rt) (16 * Z.of_nat z) 16 in
  reader k -> k_icache k = rt :: x1 :: t -> i_inum rt <> inum -> i_ref rt = 1 -> Forall (fun ip => i_ref ip = 0) (x1 :: t) ->
  i_dev rt = ROOTDEV -> i_type rt = T_DIR -> allocated ROOTDEV (view k) k (i_addrs rt) c -> 0 <= i_size rt <= c * BSIZE ->
  16 * (Z.of_nat q + 1) <= i_size rt -> (forall z, (z < q)%nat -> skipped name (de z)) -> de_inum (de q) = inum -> inum <> 0 ->
  namecmp name (de_name (de q)) = 0 ->
  exists k' o, dirlookup 0 name k e = Ok (Some (1%nat, o)) k' e /\ moved k k' /\ k_icache k' = rt :: taken inum x1 :: t /\
    forall j, slock_of k' (S_inode j) = slock_of k (S_inode j).
Proof.
  intros de Hr Htab Hne Hone Hfree Hdev Hty Hal Hsz Hq Hskip Hin Hnz Hcmp.
  unfold dirlookup, get_inode. step. rewrite Htab. change ((rt :: x1 :: t) !!! 0%nat) with rt.
  rewrite Hty. change (T_DIR =? T_DIR) with true. cbn [negb].
  destruct (dirlookup_loop_ok ROOTDEV i p pid 0 name c inum e q (S (Z.to_nat (i_size rt / sizeof_dirent + 1))) 0 k)
    as (k3 & Hl3 & Hrun3); rewrite ?Htab; change ((rt :: x1 :: t) !!! 0%nat) with rt; rewrite ?Z.add_0_l; try done.
  { split; [done|by rewrite Hty|done|done]. }
  { change sizeof_dirent with 16. dlia. }
  rewrite Hrun3. destruct (looked_moved_same _ _ _ _ _ _ Hl3) as (Hm3 & Hi3 & Hs3).
  destruct (iget_ok ROOTDEV i p pid inum 1 (rt :: taken inum x1 :: t) k3 e (mv_reader _ _ _ _ _ _ Hm3)) as (k4 & Hrun4 & Hm4 & Hi4 & Hs4).
  { rewrite Hi3, Htab. by apply second_slot. }
  rewrite (bind_ok _ _ _ _ _ _ _ Hrun4). eexists k4, _. split; [done|]. split; [by eapply moved_trans|]. split; [done|].
  intros j. rewrite <- Hs3. unfold slock_of. by rewrite Hs4.
Qed.

Lemma namei_root_ok s (q : nat) c inum k e x0 x1 t :
  let di := get_dinode (view k (IBLOCK ROOTINO (k_sb k))) (dinode_off ROOTINO) in
  let de z := bytes_at (view k) (di_addrs di) (16 * Z.of_nat z) 16 in
  reader k -> k_icache k = x0 :: x1 :: t -> Forall (fun ip => i_ref ip = 0) (x0 :: x1 :: t) -> (forall j, unlocked k j) ->
  s <> [] -> SLASH ∉ s -> disk_has k (IBLOCK ROOTINO (k_sb k)) -> di_type di = T_DIR -> di_nlink di <> 0 ->
  allocated ROOTDEV (view k) k (di_addrs di) c -> 0 <= di_size di <= c * BSIZE -> 16 * (Z.of_nat q + 1) <= di_size di ->
  (forall z, (z < q)%nat -> skipped (padded 14 s) (de z)) -> de_inum (de q) = inum -> inum <> 0 -> inum <> ROOTINO ->
  namecmp (padded 14 s) (de_name (de q)) = 0 ->
  exists k' x0', namei (SLASH :: s) k e = Ok (Some 1%nat) k' e /\ moved k k' /\
    k_icache k' = x0' :: taken inum x1 :: t /\ (forall j, unlocked k' j).
Proof.
  intros di de Hr Htab Hfree Hun Hs0 Hs Hhas Hty Hnl Hal Hsz Hq Hskip Hin Hnz Hnr Hcmp.
  pose proof Hfree as Hf. apply Forall_cons_1 in Hf as [Hx0 Hf].
  unfold namei, namex. rewrite bool_decide_true by done. rewrite !bind_assoc.
  destruct (iget_ok ROOTDEV i p pid ROOTINO 0 (taken ROOTINO x0 :: x1 :: t) k e Hr) as (k1 & Hrun1 & Hm1 & Hi1 & Hs1).
  { rewrite Htab. unfold iget_slot. rewrite free_slot by done. cbn [findi]. by rewrite Hx0. }
  rewrite (bind_ok _ _ _ _ _ _ _ Hrun1). destruct (moved_sb _ _ _ _ _ _ Hm1) as [Hsb1 _].
  assert (Hun1 : forall j, unlocked k1 j) by (intros j; unfold unlocked, slock_of; rewrite Hs1; apply Hun).
  cbn [namex_loop]. rewrite skipelem_root by done. rewrite !bind_assoc.
  destruct (ilock_ok ROOTDEV i p pid 0 k1 e) as (k2 & Hrun2 & Hm2 & Hl2 & Hi2 & Hso2).
  { rewrite Hi1. simpl. lia. }
  { apply (mv_reader _ _ _ _ _ _ Hm1). }
  { by rewrite Hi1. }
  { apply Hun1. }
  { intros _. rewrite Hi1, Hsb1, (mv_view _ _ _ _ _ _ Hm1). change (i_inum _) with ROOTINO. fold di.
    split; [done|]. split; [by apply (moved_has ROOTDEV i p pid k)|]. by rewrite Hty. }
  rewrite (bind_ok _ _ _ _ _ _ _ Hrun2). rewrite Hi1, Hsb1, (mv_view _ _ _ _ _ _ Hm1) in Hi2.
  change (i_inum _) with ROOTINO in Hi2. fold di in Hi2. change (i_valid _ =? 0) with true in Hi2.
  set (rt := loaded di (taken ROOTINO x0)). change (k_icache k2 = rt :: x1 :: t) in Hi2.
  unfold get_inode. step. rewrite Hi2. change (i_type ((rt :: x1 :: t) !!! 0%nat)) with (di_type di).
  rewrite Hty. change (T_DIR =? T_DIR) with true. cbn [negb andb]. step.
  pose proof (moved_trans _ _ _ _ _ _ _ Hm1 Hm2) as Hm12. pose proof (mv_reader _ _ _ _ _ _ Hm2) as Hr2.
  assert (Hdir : exists k3 o, dirlookup 0 (padded 14 s) k2 e = Ok (Some (1%nat, o)) k3 e /\ moved k2 k3 /\
    k_icache k3 = rt :: taken inum x1 :: t /\ forall j, slock_of k3 (S_inode j) = slock_of k2 (S_inode j)).
  { apply (dirlookup_found (rt) x1 t q c inum); try done.
    - by apply (allocated_moved ROOTDEV i p pid k).
    - intros z Hz. rewrite (bytes_at_ext (view k)) by apply (mv_view _ _ _ _ _ _ Hm12). by apply Hskip.
    - rewrite (bytes_at_ext (view k)) by apply (mv_view _ _ _ _ _ _ Hm12). exact Hin.
    - rewrite (bytes_at_ext (view k)) by apply (mv_view _ _ _ _ _ _ Hm12). exact Hcmp. }
  destruct Hdir as (k3 & o & Hrun3 & Hm3 & Hi3 & Hs3). rewrite (bind_ok _ _ _ _ _ _ _ Hrun3).
  unfold iunlockput. step.
  destruct (iunlock_ok ROOTDEV i p pid 0 k3 e (mv_reader _ _ _ _ _ _ Hm3)) as (k4 & Hrun4 & Hm4 & Hu4 & Hi4 & Hs4).
  { unfold locked_me in *. by rewrite Hs3. }
  { by rewrite Hi3. }
  rewrite (bind_ok _ _ _ _ _ _ _ Hrun4). rewrite Hi3 in Hi4.
  destruct (iput_ok ROOTDEV i p pid 0 k4 e) as (k5 & Hrun5 & Hm5 & Hu5 & Hi5 & Hs5).
  { rewrite Hi4. simpl. lia. }
  { apply (mv_reader _ _ _ _ _ _ Hm4). }
  { done. }
  { by rewrite Hi4. }
  rewrite (bind_ok _ _ _ _ _ _ _ Hrun5). rewrite Hi4 in Hi5. cbn [length namex_loop]. change (skipelem [] _) with (@None (list Z * list Z)).
  eexists k5, _. split; [done|]. split; [eapply moved_trans; [exact Hm12|]; eapply moved_trans; [exact Hm3|]; by eapply moved_trans|].
  split; [exact Hi5|]. intros j. unfold unlocked in *. destruct j as [|j]; [done|].
  rewrite Hs5, Hs4, Hs3, Hso2 by done. apply Hun1.
Qed.
End root.
