(* ===== verification/AllocFacts.v ===== *)
(** Allocating blocks inside a transaction: the bitmap, balloc, and bmap of a block
    the file does not have yet. *)
From S2P Require Import Prelude Kernel Mem Fsformat BlockFacts Spinlock Locks Console Vm Sched Sleeplock SleepFacts.
From S2P Require Import Ide Bio LruFacts BioFacts Log LogFacts CommitFacts CrashFacts TxnFacts Fs ReadFacts PathFacts.

(** * The bitmap *)

Definition bit (d : list Z) (b : Z) : bool := Z.testbit (zget d (b / 8)) (b mod 8).
Definition set_bit (d : list Z) (b : Z) : list Z := zset d (b / 8) (Z.lor (zget d (b / 8)) (Z.shiftl 1 (b mod 8))).

Lemma land_bit x n : 0 <= n -> (Z.land x (Z.shiftl 1 n) =? 0) = negb (Z.testbit x n).
Proof.
  intros Hn. rewrite Z.shiftl_mul_pow2, Z.mul_1_l by done. rewrite <- (bit_set_pow x n Hn). unfold bit_set, nz.
  by rewrite negb_involutive.
Qed.

Lemma length_set_bit d b : length (set_bit d b) = length d.
Proof. apply length_zset. Qed.

Lemma bit_set_bit d b c : 0 <= b < 8 * zlen d -> 0 <= c -> bit (set_bit d b) c = bool_decide (c = b) || bit d c.
Proof.
  intros Hb Hc. unfold bit, set_bit. assert (Hr : 0 <= b / 8 < zlen d) by dlia. assert (Hbm : 0 <= b mod 8 < 8) by dlia.
  destruct (decide (c / 8 = b / 8)) as [E|E].
  - rewrite E, zget_zset_eq by done. rewrite Z.lor_spec, Z.shiftl_1_l, Z.pow2_bits_eqb by lia.
    rewrite orb_comm. f_equal. case_bool_decide; [subst; apply Z.eqb_refl|]. apply Z.eqb_neq. dlia.
  - rewrite zget_zset_ne by dlia. rewrite (bool_decide_eq_false_2 (c = b)) by (intros ->; done). done.
Qed.

(** The scan finds the first clear bit. *)
Lemma free_bit_spec size d x : 0 <= size <= BPB -> forall n bi, 0 <= bi <= x -> x < size -> bit d x = false -> x < bi + Z.of_nat n ->
  exists r, free_bit n bi 0 size d = Some r /\ bi <= r < size /\ bit d r = false.
Proof.
  unfold BPB, BSIZE. intros Hs. induction n as [|n IH]; intros bi Hbi Hx Hd Hn; [lia|]. cbn [free_bit].
  rewrite u32_small by lia. rewrite (proj2 (Z.ltb_lt bi _)) by (unfold BPB, BSIZE; lia). rewrite (proj2 (Z.ltb_lt _ size)) by lia. cbn [andb].
  rewrite land_bit by dlia. fold (bit d bi). destruct (bit d bi) eqn:E; cbn [negb].
  - destruct (IH (bi + 1)) as (r & Hr & Hrr & Hb); [destruct (decide (bi = x)); [congruence|lia]|done|done|lia|].
    exists r. split; [done|]. split; [lia|done].
  - exists bi. split; [done|]. split; [lia|done].
Qed.

(** * The blocks of a file *)

Section filemap.
Implicit Types (P : Z -> Prop) (V : Z -> list Z) (a : list Z) (g : bool) (nb bn x r : Z).

(** A file with [nb] blocks, all of them in [P]; [g]: does it have its indirect
    block? *)
Record file_map P V a g nb : Prop := {
  fm_len : length a = 13%nat;
  fm_word : Forall (fun z => 0 <= z < 2 ^ 32) a;
  fm_max : 0 <= nb <= MAXFILE;
  fm_flag : NDIRECT < nb -> g = true;
  fm_block : forall bn, 0 <= bn < nb -> P (block_at V a bn);
  fm_ind : g = true -> P (zget a NDIRECT);
  fm_inj : forall bn bn', 0 <= bn < nb -> 0 <= bn' < nb -> block_at V a bn = block_at V a bn' -> bn = bn';
  fm_apart : forall bn, g = true -> 0 <= bn < nb -> block_at V a bn <> zget a NDIRECT;
  fm_zero : forall bn, nb <= bn < MAXFILE -> bn < NDIRECT \/ g = true -> block_at V a bn = 0;
  fm_noind : g = false -> zget a NDIRECT = 0
}.

Lemma block_at_kept V V' a bn : bn < NDIRECT \/ V' (zget a NDIRECT) = V (zget a NDIRECT) -> block_at V' a bn = block_at V a bn.
Proof. intros Hb. unfold block_at. destruct (Z.ltb_spec bn NDIRECT); [done|]. destruct Hb as [|Hb]; [lia|by rewrite Hb]. Qed.

Lemma file_direct P V a g nb bn : file_map P V a g nb -> 0 <= bn < nb -> bn < NDIRECT \/ g = true.
Proof. intros Hf Hb. destruct (Z.ltb_spec bn NDIRECT); [by left|right]. apply (fm_flag _ _ _ _ _ Hf). lia. Qed.

(** Changes elsewhere. *)
Lemma file_map_frame P P' V V' a g nb : file_map P V a g nb -> (g = true -> V' (zget a NDIRECT) = V (zget a NDIRECT)) ->
  (forall x, P x -> P' x) -> file_map P' V' a g nb.
Proof.
  intros Hf Hi HP. assert (Hb : forall bn, bn < NDIRECT \/ g = true -> block_at V' a bn = block_at V a bn).
  { intros bn Hbn. apply block_at_kept. destruct Hbn; auto. }
  pose proof (fun bn => file_direct P V a g nb bn Hf) as Hdir. destruct Hf as [H1 H2 H3 H4 H5 H6 H7 H8 H9 H10]. split; try done.
  - intros bn Hbn. rewrite Hb by auto. auto.
  - auto.
  - intros bn bn' Hbn Hbn'. rewrite !Hb by auto. auto.
  - intros bn Hg Hbn. rewrite Hb by auto. auto.
  - intros bn Hbn Hg. rewrite Hb by auto. auto.
Qed.

Lemma zero_bytes o : get32 (replicate 512 0) o = 0.
Proof.
  assert (Hb : forall j, (replicate 512 0 : list Z) !!! j = 0); [|unfold get32; by rewrite !Hb].
  intros j. rewrite list_lookup_total_alt. destruct (decide (j < 512)%nat); [by rewrite lookup_replicate_2|].
  by rewrite lookup_ge_None_2 by (rewrite length_replicate; lia).
Qed.

(** A new block [r], full of zeroes. *)
Section step.
Context (P P' : Z -> Prop) (V V' : Z -> list Z) (r : Z).
Hypothesis (HP : forall x, P x -> P' x /\ x <> r /\ V' x = V x) (Hr : P' r) (Hw : 0 < r < 2 ^ 32) (Hz : V' r = replicate 512 0).

Lemma step_frame a g nb : file_map P V a g nb -> file_map P' V' a g nb /\ (forall bn, 0 <= bn < nb -> block_at V' a bn <> r) /\
  (g = true -> zget a NDIRECT <> r).
Proof.
  intros Hf. assert (Hf' : file_map P V' a g nb).
  { apply (file_map_frame P P V); [done| |done]. intros Hg. by apply HP, (fm_ind _ _ _ _ _ Hf). }
  split; [|split].
  - apply (file_map_frame P P' V'); [done|done|]. intros x Hx. by apply HP.
  - intros bn Hbn. by apply HP, (fm_block _ _ _ _ _ Hf').
  - intros Hg. by apply HP, (fm_ind _ _ _ _ _ Hf').
Qed.

Lemma step_direct a g nb : file_map P V a g nb -> nb < NDIRECT -> file_map P' V' (zset a nb r) g (nb + 1) /\
  forall bn, 0 <= bn -> block_at V' (zset a nb r) bn = if decide (bn = nb) then r else block_at V' a bn.
Proof.
  intros Hf0 Hnb. destruct (step_frame a g nb Hf0) as (Hf & Hrb & Hri). pose proof Hf as [F1 F2 F3 F4 F5 F6 F7 F8 F9 F10].
  assert (Hia : forall j, 0 <= j -> zget (zset a nb r) j = if decide (j = nb) then r else zget a j).
  { intros j Hj. case_decide as Hjn; [rewrite Hjn; apply zget_zset_eq|apply zget_zset_ne; lia]. unfold zlen, NDIRECT in *. lia. }
  assert (Hb : forall bn, 0 <= bn -> block_at V' (zset a nb r) bn = if decide (bn = nb) then r else block_at V' a bn).
  { intros bn Hbn. unfold block_at. rewrite !Hia by (unfold NDIRECT; lia).
    rewrite (decide_False (P := NDIRECT = nb)) by lia. destruct (Z.ltb_spec bn NDIRECT); [done|]. by rewrite decide_False by lia. }
  assert (H12 : zget (zset a nb r) NDIRECT = zget a NDIRECT) by (rewrite Hia, decide_False by (unfold NDIRECT in *; lia); done).
  change MAXFILE with 140 in *. unfold NDIRECT in Hnb. split; [|exact Hb]. split; rewrite ?H12; try done.
  - by rewrite length_zset.
  - apply Forall_insert; [done|lia].
  - change MAXFILE with 140. lia.
  - intros. apply F4. unfold NDIRECT in *. lia.
  - intros bn Hbn. rewrite Hb by lia. case_decide; [done|apply F5; lia].
  - intros bn bn' Hbn Hbn'. rewrite !Hb by lia. repeat case_decide; [lia| | |apply F7; lia].
    + intros E. destruct (Hrb bn'); [lia|done].
    + intros E. destruct (Hrb bn); [lia|done].
  - intros bn Hg Hbn. rewrite Hb by lia. case_decide; [|apply F8; [done|lia]]. intros E. by destruct (Hri Hg).
  - intros bn Hbn Hc. change MAXFILE with 140 in Hbn. rewrite Hb, decide_False by lia. apply F9; [lia|done].
Qed.

Lemma step_ind a nb : file_map P V a false nb -> file_map P' V' (zset a NDIRECT r) true nb /\
  (forall bn, 0 <= bn < NDIRECT -> block_at V' (zset a NDIRECT r) bn = block_at V' a bn) /\ zget (zset a NDIRECT r) NDIRECT = r.
Proof.
  intros Hf0. destruct (step_frame a false nb Hf0) as (Hf & Hrb & _). pose proof Hf as [F1 F2 F3 F4 F5 F6 F7 F8 F9 F10].
  assert (Hnb : nb <= NDIRECT) by (destruct (decide (NDIRECT < nb)) as [Hd|]; [by specialize (F4 Hd)|lia]).
  assert (H12 : zget (zset a NDIRECT r) NDIRECT = r) by (apply zget_zset_eq; unfold zlen, NDIRECT; lia).
  assert (Hb : forall bn, 0 <= bn < NDIRECT -> block_at V' (zset a NDIRECT r) bn = block_at V' a bn).
  { intros bn Hbn. unfold block_at. rewrite (proj2 (Z.ltb_lt bn NDIRECT)) by lia. apply zget_zset_ne; lia. }
  split; [|done]. split; rewrite ?H12; try done.
  - by rewrite length_zset.
  - apply Forall_insert; [done|lia].
  - intros bn Hbn. rewrite Hb by lia. by apply F5.
  - intros bn bn' Hbn Hbn'. rewrite !Hb by lia. by apply F7.
  - intros bn _ Hbn. rewrite Hb by lia. by apply Hrb.
  - intros bn Hbn _. destruct (decide (bn < NDIRECT)); [rewrite Hb by lia; apply F9; [lia|by left]|].
    unfold block_at. rewrite (proj2 (Z.ltb_ge bn NDIRECT)) by lia. rewrite H12, Hz. apply zero_bytes.
Qed.

Lemma step_entry V2 a nb : file_map P V a true nb -> NDIRECT <= nb < MAXFILE -> length (V (zget a NDIRECT)) = 512%nat ->
  (forall x, V2 x = if decide (x = zget a NDIRECT) then put32 (V' (zget a NDIRECT)) (Z.to_nat (4 * (nb - NDIRECT))) r else V' x) ->
  file_map P' V2 a true (nb + 1) /\ (forall bn, 0 <= bn < MAXFILE -> block_at V2 a bn = if decide (bn = nb) then r else block_at V' a bn).
Proof.
  intros Hf0 Hnb Hlen HV2. destruct (step_frame a true nb Hf0) as (Hf & Hrb & Hri). pose proof Hf as [F1 F2 F3 F4 F5 F6 F7 F8 F9 F10].
  destruct (HP _ (fm_ind _ _ _ _ _ Hf0 eq_refl)) as (_ & _ & Hsame). rewrite <- Hsame in Hlen. change MAXFILE with 140 in *.
  assert (Hb : forall bn, 0 <= bn < 140 -> block_at V2 a bn = if decide (bn = nb) then r else block_at V' a bn).
  { intros bn Hbn. unfold block_at, NDIRECT in *. destruct (Z.ltb_spec bn 12); [by rewrite decide_False by lia|].
    rewrite HV2, (decide_True (P := zget a 12 = _)) by done. case_decide.
    - replace bn with nb by lia. rewrite get32_put32_eq by lia. apply u32_small. lia.
    - apply get32_put32_ne; lia. }
  split; [|exact Hb]. unfold NDIRECT in Hnb. split; try done.
  - change MAXFILE with 140. lia.
  - intros bn Hbn. rewrite Hb by lia. case_decide; [done|apply F5; lia].
  - intros bn bn' Hbn Hbn'. rewrite !Hb by lia. repeat case_decide; [lia| | |apply F7; lia].
    + intros E. destruct (Hrb bn'); [lia|done].
    + intros E. destruct (Hrb bn); [lia|done].
  - intros bn _ Hbn. rewrite Hb by lia. case_decide; [|apply F8; [done|lia]]. intros E. by destruct Hri.
  - intros bn Hbn Hc. change MAXFILE with 140 in Hbn. rewrite Hb, decide_False by lia. apply F9; [lia|done].
Qed.
End step.
End filemap.

Section alloc.
Context `{HD : DiskDriver} (dev : Z) {HOK : DiskOk dev} (i p : nat) (pid : Z).
Implicit Types (k : kernel) (e : env) (b j : nat) (m n r x : Z) (t : list inode) (V : Z -> list Z) (held : list nat).
(** The superblock, the first block of the log and an inode block. *)
Context (sb : superblock) (start ib : Z).

Local Notation view := (view dev).
Local Notation cached := (BioFacts.cached dev).
Local Notation in_txn := (in_txn dev i p pid).

Definition bm : Z := BBLOCK 0 sb.
Definition free V x : Prop := 0 <= x < sb_size sb /\ bit (V bm) x = false.

(** One bitmap block, and the blocks it calls free are data blocks. *)
Record volume V k : Prop := {
  vo_sb : k_sb k = sb;
  vo_size : 0 < sb_size sb <= BPB;
  vo_has : forall x, 0 <= x < sb_size sb -> disk_has k x;
  vo_free : forall x, free V x -> ~ in_log start x /\ x <> 0 /\ x <> bm /\ x <> ib;
  vo_bm : 0 <= bm < sb_size sb /\ ~ in_log start bm;
  vo_len : forall x, length (V x) = 512%nat
}.

(** [r] has been taken from the free blocks. *)
Definition took V r V' : Prop :=
  free V r /\ forall x, V' x = if decide (x = r) then replicate 512 0 else if decide (x = bm) then set_bit (V bm) r else V x.

Lemma took_free V r V' k x : volume V k -> took V r V' -> free V' x <-> free V x /\ x <> r.
Proof.
  intros Hvo [Hr HV]. destruct (vo_free _ _ Hvo r Hr) as (_ & _ & Hrb & _). unfold free. rewrite HV, decide_False, decide_True by done.
  destruct (decide (0 <= x < sb_size sb)) as [Hx|Hx]; [|tauto].
  pose proof (vo_size _ _ Hvo) as Hs. unfold BPB, BSIZE in Hs. destruct Hr as [Hr _].
  assert (Hl : zlen (V bm) = 512) by (unfold zlen; by rewrite (vo_len _ _ Hvo)).
  rewrite bit_set_bit, orb_false_iff, bool_decide_eq_false by lia. tauto.
Qed.

Lemma took_volume V r V' k k' : volume V k -> took V r V' -> k_sb k' = k_sb k -> k_ide k' = k_ide k -> volume V' k'.
Proof.
  intros Hvo Ht Hsb Hide. pose proof Hvo as [H1 H2 H3 H4 H5 H6]. split; [congruence|done| | |done|].
  - intros x Hx. by apply (disk_has_ide k), H3.
  - intros x Hx. apply (took_free _ _ _ _ _ Hvo Ht) in Hx as [Hx _]. by apply H4.
  - intros x. destruct Ht as [_ ->]. case_decide; [done|]. case_decide; [|done]. by rewrite length_set_bit.
Qed.

Lemma update_bind n (f : list Z -> list Z) {A} (c : K A) k e :
  (b <- bread dev n ;; upd_buf b (fun y => y <| b_data ::= f |>) ;; log_write b ;; brelse b ;; c) k e = (update dev n f ;; c) k e.
Proof.
  unfold update, bind, upd_buf, modify. destruct (bread dev n k e) as [b k1 e1| | |]; [|done..].
  by destruct (log_write b _ e1).
Qed.

(** balloc: a free block, now marked and zeroed. *)
Lemma balloc_ok held bs k e x0 : in_txn held start bs k -> volume (view k) k -> free (view k) x0 ->
  zlen bs < MAXOPBLOCKS -> (length held <= 1)%nat ->
  (forall c m, c ∈ held -> cached k m c -> m <> bm /\ ~ free (view k) m) ->
  exists r k' bs', balloc dev k e = Ok r k' e /\ in_txn held start bs' k' /\ worked k k' /\ took (view k) r (view k') /\
    (forall x, x ∈ bs' <-> x ∈ bs \/ x = bm \/ x = r) /\ (forall c m, c ∈ held -> cached k' m c <-> cached k m c).
Proof.
  intros Htx Hvo [Hx0 Hf0] Hbs Hlen Hheld. pose proof (vo_size _ _ Hvo) as Hsz. pose proof (vo_bm _ _ Hvo) as [Hbmr _].
  assert (Hbmh : disk_has k bm) by (by apply (vo_has _ _ Hvo)).
  unfold balloc. step. rewrite (vo_sb _ _ Hvo). cbn [balloc_loop]. rewrite (proj2 (Z.ltb_lt 0 _)) by lia. cbn [negb]. fold bm.
  destruct (hold_ok dev i p pid held start bs bm k e Htx Hbmh) as (b & k1 & Hrun1 & Htx1 & Hw1 & Hc1 & Hd1 & Hv1 & Hk1);
    [lia|done|intros c Hc Hcm; by destruct (Hheld c bm Hc Hcm)|].
  rewrite (bind_ok _ _ _ _ _ _ _ Hrun1). unfold get_buf. step. rewrite Hd1.
  destruct (free_bit_spec (sb_size sb) (view k bm) x0 ltac:(lia) (Z.to_nat BPB) 0) as (r & Hr & Hrr & Hrb); [lia|lia|done|unfold BPB, BSIZE in *; lia|].
  rewrite Hr. assert (Hfr : free (view k) r) by (split; [lia|done]). unfold upd_buf. step.
  destruct (put_ok dev i p pid held start bs bm b (fun d => set_bit d r) k1 e Htx1 Hc1) as (k2 & Hrun2 & Htx2 & Hw2 & Hc2 & Hv2 & Hk2);
    [lia|intros d Hd; by rewrite length_set_bit|]. rewrite (bind_ok _ _ _ _ _ _ _ Hrun2).
  destruct (drop_ok dev i p pid held start _ bm b k2 e Htx2 Hc2) as (k3 & Hrun3 & Htx3 & Hw3 & Hv3 & Hk3). rewrite (bind_ok _ _ _ _ _ _ _ Hrun3).
  pose proof (worked_trans _ _ _ (worked_trans _ _ _ Hw1 Hw2) Hw3) as Hw13. replace (0 + r) with r by lia.
  set (bs1 := if decide (bm ∈ bs) then bs else bs ++ [bm]) in *.
  assert (Hbs1 : zlen bs1 <= MAXOPBLOCKS) by (unfold bs1, zlen in *; case_decide; rewrite ?length_app; simpl; lia).
  destruct (update_ok dev i p pid held start bs1 r (fun _ => replicate (Z.to_nat BSIZE) 0) k3 e Htx3) as (k4 & Hrun4 & Htx4 & Hw4 & Hv4 & Hk4).
  { apply (worked_has dev k k3 r Hw13). apply (vo_has _ _ Hvo). lia. }
  { done. } { done. }
  { intros c Hc Hcm. assert (Hc3 : cached k r c) by (by rewrite <- Hk1, <- Hk2, <- Hk3). by destruct (Hheld c r Hc Hc3). }
  { done. }
  exists r, k4, (if decide (r ∈ bs1) then bs1 else bs1 ++ [r]). split.
  { change (bzero dev r) with (update dev r (fun _ => replicate (Z.to_nat BSIZE) 0)). by rewrite (bind_ok _ _ _ _ _ _ _ Hrun4). }
  split; [done|]. split; [by eapply worked_trans|]. split; [|split].
  - split; [done|]. intros x. rewrite Hv4, !Hv3, !Hv2, !Hv1. destruct (vo_free _ _ Hvo r Hfr) as (_ & _ & Hne & _). done.
  - intros x. rewrite elem_of_logged. unfold bs1. rewrite elem_of_logged. tauto.
  - intros c m Hc. by rewrite Hk4, Hk3, Hk2, Hk1.
Qed.

(** The free blocks. *)
Definition frees V : list Z := filter (fun x => bit (V bm) x = false) (seqZ 0 (sb_size sb)).

Lemma elem_of_frees V x : x ∈ frees V <-> free V x.
Proof. unfold frees, free. rewrite list_elem_of_filter, elem_of_seqZ. rewrite Z.add_0_l. tauto. Qed.

Lemma took_frees V r V' k : volume V k -> took V r V' -> (length (frees V) <= S (length (frees V')))%nat.
Proof.
  intros Hvo Ht. change (S (length (frees V'))) with (length (r :: frees V')). apply submseteq_length, NoDup_submseteq.
  - apply list.NoDup_filter, NoDup_seqZ.
  - intros x Hx. rewrite elem_of_cons, elem_of_frees, (took_free _ _ _ _ _ Hvo Ht). apply elem_of_frees in Hx.
    destruct (decide (x = r)); [by left|by right].
Qed.

(** A block that is in use for data. *)
Definition data V x : Prop := 0 <= x < sb_size sb /\ ~ free V x /\ ~ in_log start x /\ x <> 0 /\ x <> bm /\ x <> ib.


Lemma took_step V r V' k : volume V k -> took V r V' ->
  (forall x, data V x -> data V' x /\ x <> r /\ V' x = V x) /\ data V' r /\ 0 < r < 2 ^ 32 /\ V' r = replicate 512 0.
Proof.
  intros Hvo Ht. pose proof Ht as [Hr HV]. destruct (vo_free _ _ Hvo r Hr) as (H1 & H2 & H3 & H4).
  pose proof (vo_size _ _ Hvo) as Hsz. unfold BPB, BSIZE in Hsz. split; [|split; [|split]].
  - intros x (D1 & D2 & D3 & D4 & D5 & D6). assert (Hxr : x <> r) by (intros ->; done). split; [|split; [done|]].
    + split; [done|]. split; [|done]. rewrite (took_free _ _ _ _ _ Hvo Ht). tauto.
    + rewrite HV, decide_False by done. by rewrite decide_False.
  - split; [by destruct Hr|]. split; [|done]. rewrite (took_free _ _ _ _ _ Hvo Ht). tauto.
  - destruct Hr. lia.
  - by rewrite HV, decide_True.
Qed.

(** The file with addresses [a] and [nb] blocks has got block [r] as its next,
    and has addresses [a'] now. *)
Record grown V (a : list Z) (nb : Z) V' (a' : list Z) r : Prop := {
  gw_map : file_map (data V') V' a' (NDIRECT <? nb + 1) (nb + 1);
  gw_new : block_at V' a' nb = r;
  gw_free : free V r;
  gw_zero : V' r = replicate 512 0;
  gw_old : forall bn, 0 <= bn < nb -> block_at V' a' bn = block_at V a bn;
  gw_frees : forall x, free V' x -> free V x;
  gw_count : (length (frees V) <= length (frees V') + 2)%nat;
  gw_ind : NDIRECT <= nb -> if NDIRECT <? nb then zget a' NDIRECT = zget a NDIRECT else free V (zget a' NDIRECT);
  gw_same : forall x, ~ free V x -> x <> bm -> ((NDIRECT <? nb) = true -> x <> zget a NDIRECT) -> V' x = V x
}.

Lemma grow_direct V a nb V' r k : volume V k -> took V r V' -> file_map (data V) V a (NDIRECT <? nb) nb -> nb < NDIRECT ->
  grown V a nb V' (zset a nb r) r.
Proof.
  intros Hvo Ht Hf Hnb. destruct (took_step V r V' k Hvo Ht) as (S1 & S2 & S3 & S4).
  destruct (step_direct (data V) (data V') V V' r S1 S2 S3 a _ nb Hf Hnb) as [Hm Hb].
  pose proof (fm_max _ _ _ _ _ Hf) as Hmx. rewrite (proj2 (Z.ltb_ge NDIRECT nb)) in Hm by lia. split.
  - by rewrite (proj2 (Z.ltb_ge NDIRECT (nb + 1))) by lia.
  - rewrite Hb by lia. by rewrite decide_True.
  - apply Ht.
  - done.
  - intros bn Hbn. rewrite Hb, decide_False by lia. apply block_at_kept. left. lia.
  - intros x Hx. by apply (took_free _ _ _ _ _ Hvo Ht) in Hx as [Hx _].
  - pose proof (took_frees _ _ _ _ Hvo Ht). lia.
  - lia.
  - intros x Hx Hxb _. destruct Ht as [Hr ->]. rewrite decide_False by (intros ->; done). by rewrite decide_False.
Qed.

(** The word of the indirect block that names [r] has been written. *)
Definition linked V ind nb r V' : Prop := exists V1, took V r V1 /\
  forall x, V' x = if decide (x = ind) then put32 (V1 ind) (Z.to_nat (4 * (nb - NDIRECT))) r else V1 x.

Lemma linked_free V ind nb r V' k x : volume V k -> data V ind -> linked V ind nb r V' -> free V' x <-> free V x /\ x <> r.
Proof.
  intros Hvo (_ & _ & _ & _ & Hib & _) (V1 & Ht & HV'). rewrite <- (took_free _ _ _ _ _ Hvo Ht). unfold free.
  by rewrite HV', decide_False by done.
Qed.

(** The indirect block exists. *)
Lemma grow_linked V a nb V' r k : volume V k -> file_map (data V) V a true nb -> NDIRECT <= nb < MAXFILE ->
  linked V (zget a NDIRECT) nb r V' ->
  file_map (data V') V' a true (nb + 1) /\ block_at V' a nb = r /\ (forall bn, 0 <= bn < nb -> block_at V' a bn = block_at V a bn) /\
  V' r = replicate 512 0 /\ (length (frees V) <= S (length (frees V')))%nat /\
  (forall x, ~ free V x -> x <> bm -> x <> zget a NDIRECT -> V' x = V x).
Proof.
  intros Hvo Hf Hnb Hl. pose proof (fm_ind _ _ _ _ _ Hf eq_refl) as Hind. pose proof (fun x => linked_free _ _ _ _ _ _ x Hvo Hind Hl) as Hfree.
  destruct Hl as (V1 & Ht & HV'). destruct (took_step V r V1 k Hvo Ht) as (S1 & S2 & S3 & S4).
  assert (Hd : forall x, data V1 x -> data V' x).
  { intros x (D1 & D2 & D3). split; [done|]. split; [|done]. by rewrite Hfree, <- (took_free _ _ _ _ _ Hvo Ht). }
  destruct (step_entry (data V) (data V1) V V1 r S1 S2 S3 V' a nb Hf Hnb (vo_len _ _ Hvo _) HV') as [Hm Hb].
  change MAXFILE with 140 in *. unfold NDIRECT in Hnb. assert (Hri : r <> zget a NDIRECT) by (intros E; by destruct (S1 _ Hind) as (_ & ? & _)).
  split; [by apply (file_map_frame (data V1) _ V')|]. split; [rewrite Hb by lia; by rewrite decide_True|]. split; [|split; [|split]].
  - intros bn Hbn. rewrite Hb, decide_False by lia. apply block_at_kept. right. by apply S1.
  - by rewrite HV', decide_False.
  - assert (He : frees V' = frees V1); [|rewrite He; exact (took_frees _ _ _ _ Hvo Ht)].
    unfold frees. rewrite HV', decide_False; [done|]. by destruct Hind as (_ & _ & _ & _ & ? & _).
  - intros x Hx Hxb Hxi. rewrite HV', decide_False by done. destruct Ht as [Hr ->]. rewrite decide_False by (intros ->; done). by rewrite decide_False.
Qed.

(** * bmap of a new block *)

Lemma txn_len held bs l k : in_txn held start bs k -> (forall x, x ∈ bs -> x ∈ l) -> zlen bs <= zlen l.
Proof.
  intros Htx Hin. unfold zlen. apply inj_le. apply submseteq_length, NoDup_submseteq; [|done].
  apply (li_nodup _ _ _ (it_lists _ _ _ _ _ _ _ _ Htx)).
Qed.

(** The inode table can change. *)
Lemma txn_icache held bs k t : in_txn held start bs k -> in_txn held start bs (k <| k_icache := t |>).
Proof.
  intros [H1 H2 H3 H4 H5 H6 H7 H8 H9]. split; try done; [|by destruct H2]. eapply thread_same; [..|exact H1]; done.
Qed.
Lemma volume_icache V k t : volume V k -> volume V (k <| k_icache := t |>).
Proof. intros [H1 H2 H3 H4 H5 H6]. split; try done. intros x Hx. apply (disk_has_ide k); [done|]. by apply H3. Qed.

(** The part of bmap that works on the indirect block. *)
Definition link_block (ind bn : Z) : K Z :=
  bp <- bread dev ind ;;
  d <- get_buf bp ;;
  let addr := get32 (b_data d) (Z.to_nat (4 * bn)) in
  addr <- (if addr =? 0 then
             addr <- balloc dev ;;
             upd_buf bp (fun y => y <| b_data ::= fun d => put32 d (Z.to_nat (4 * bn)) addr |>) ;;
             log_write bp ;;
             ret addr
           else ret addr) ;;
  brelse bp ;;
  ret addr.

Lemma link_block_ok bs ind nb k e x0 : in_txn [] start bs k -> volume (view k) k -> free (view k) x0 -> data (view k) ind ->
  zlen bs + 2 <= MAXOPBLOCKS -> NDIRECT <= nb < MAXFILE -> get32 (view k ind) (Z.to_nat (4 * (nb - NDIRECT))) = 0 ->
  exists r k' bs', link_block ind (nb - NDIRECT) k e = Ok r k' e /\ in_txn [] start bs' k' /\ worked k k' /\ linked (view k) ind nb r (view k') /\
    (forall x, x ∈ bs' <-> x ∈ bs \/ x = bm \/ x = r \/ x = ind).
Proof.
  intros Htx Hvo Hx0 Hind Hbs Hnb H0. pose proof Hind as (Hir & Hif & _ & _ & Hib & _). unfold link_block.
  destruct (hold_ok dev i p pid [] start bs ind k e Htx) as (b & k1 & Hrun1 & Htx1 & Hw1 & Hc1 & Hd1 & Hv1 & _);
    [by apply (vo_has _ _ Hvo)|lia|simpl; lia|set_solver|].
  rewrite (bind_ok _ _ _ _ _ _ _ Hrun1). unfold get_buf. step. rewrite Hd1, H0, Z.eqb_refl.
  destruct (worked_disk _ _ Hw1) as (_ & _ & Hi1). assert (Hsb1 : k_sb k1 = k_sb k) by exact (f_equal k_sb (wk_rest _ _ Hw1)).
  assert (Hbm1 : forall x, free (view k1) x <-> free (view k) x) by (intros x; unfold free; by rewrite Hv1).
  assert (Hvo1 : volume (view k1) k1).
  { destruct Hvo as [H1 H2 H3 H4 H5 H6]. split; [congruence|done| | |done|intros x; by rewrite Hv1].
    - intros x Hx. by apply (disk_has_ide k), H3.
    - intros x Hx. by apply H4, Hbm1. }
  destruct (balloc_ok [b] bs k1 e x0 Htx1 Hvo1) as (r & k2 & bs2 & Hrun2 & Htx2 & Hw2 & Ht2 & Hbs2 & Hk2); [by apply Hbm1|lia|simpl; lia| |].
  { intros c m Hc Hcm. apply list_elem_of_singleton in Hc as ->. rewrite Hbm1.
    replace m with ind by (destruct Hcm as (_ & _ & <-), Hc1 as (_ & _ & <-); done). done. }
  unfold bind at 1. unfold bind at 1. rewrite Hrun2. unfold upd_buf. step.
  assert (Hc2 : BioFacts.cached dev k2 ind b) by (apply Hk2; [set_solver|done]).
  destruct (put_ok dev i p pid [] start bs2 ind b (fun d => put32 d (Z.to_nat (4 * (nb - NDIRECT))) r) k2 e Htx2 Hc2) as
    (k3 & Hrun3 & Htx3 & Hw3 & Hc3 & Hv3 & _).
  { assert (zlen bs2 <= zlen (bs ++ [bm; r])); [|unfold zlen in *; rewrite length_app in *; simpl in *; lia].
    apply (txn_len [b] bs2 _ k2 Htx2). intros x Hx. apply Hbs2 in Hx. rewrite elem_of_app, !elem_of_cons. tauto. }
  { intros d Hd. change MAXFILE with 140 in Hnb. unfold NDIRECT in *. by rewrite length_put32 by lia. }
  unfold bind. rewrite Hrun3. unfold ret.
  destruct (drop_ok dev i p pid [] start _ ind b k3 e Htx3 Hc3) as (k4 & Hrun4 & Htx4 & Hw4 & Hv4 & _).
  rewrite Hrun4. exists r, k4, (if decide (ind ∈ bs2) then bs2 else bs2 ++ [ind]).
  split; [done|]. split; [done|]. split; [eapply worked_trans; [exact Hw1|]; eapply worked_trans; [exact Hw2|]; by eapply worked_trans|].
  split; [|intros x; rewrite elem_of_logged, Hbs2; tauto]. exists (view k2). split; [|intros x; by rewrite Hv4, Hv3].
  destruct Ht2 as [Hr Ht2]. split; [by apply Hbm1|]. intros x. by rewrite Ht2, !Hv1.
Qed.

Lemma free_exists V (n : nat) : (n < length (frees V))%nat -> exists x, free V x.
Proof. intros Hn. destruct (lookup_lt_is_Some_2 (frees V) n Hn) as [x Hx]. exists x. apply elem_of_frees. by eapply list_elem_of_lookup_2. Qed.

(** The indirect block and then a block named by it. *)
Lemma grow_both V a V1 r1 V' r k : volume V k -> took V r1 V1 -> file_map (data V) V a false NDIRECT ->
  linked V1 r1 NDIRECT r V' -> grown V a NDIRECT V' (zset a NDIRECT r1) r.
Proof.
  intros Hvo Ht Hf Hl. destruct (took_step V r1 V1 k Hvo Ht) as (S1 & S2 & S3 & S4).
  pose proof (took_volume _ _ _ _ k Hvo Ht eq_refl eq_refl) as Hvo1.
  destruct (step_ind (data V) (data V1) V V1 r1 S1 S2 S3 S4 a NDIRECT Hf) as (Hf1 & Hb1 & Hi1). set (a' := zset a NDIRECT r1) in *.
  rewrite <- Hi1 in Hl. pose proof (fm_ind _ _ _ _ _ Hf1 eq_refl) as Hd1. pose proof (fun x => linked_free _ _ _ _ _ _ x Hvo1 Hd1 Hl) as Hfree.
  destruct (grow_linked V1 a' NDIRECT V' r k Hvo1 Hf1) as (G1 & G2 & G3 & G4 & G5 & G6); [done|done|].
  destruct Hl as (V2 & [Hr1 _] & _). pose proof (fun x => took_free _ _ _ _ x Hvo Ht) as Hfr1. split; try done.
  - by apply Hfr1 in Hr1 as [Hr1 _].
  - intros bn Hbn. rewrite G3, Hb1 by done. apply block_at_kept. left. lia.
  - intros x Hx. apply Hfree in Hx as [Hx _]. by apply Hfr1 in Hx as [Hx _].
  - pose proof (took_frees _ _ _ _ Hvo Ht). lia.
  - intros _. change (NDIRECT <? NDIRECT) with false. cbv iota. rewrite Hi1. apply Ht.
  - intros x Hx Hxb _. destruct Ht as [Hr HV1]. assert (Hxr : x <> r1) by (intros ->; done).
    rewrite G6; [rewrite HV1, decide_False by done; by rewrite decide_False|rewrite Hfr1; tauto|done|congruence].
Qed.

Lemma grow_entry V a nb V' r k : volume V k -> file_map (data V) V a true nb -> NDIRECT < nb < MAXFILE ->
  linked V (zget a NDIRECT) nb r V' -> grown V a nb V' a r.
Proof.
  intros Hvo Hf Hnb Hl. pose proof (fm_ind _ _ _ _ _ Hf eq_refl) as Hd. pose proof (fun x => linked_free _ _ _ _ _ _ x Hvo Hd Hl) as Hfree.
  destruct (grow_linked V a nb V' r k Hvo Hf ltac:(lia) Hl) as (G1 & G2 & G3 & G4 & G5 & G6). split; try done.
  - by rewrite (proj2 (Z.ltb_lt NDIRECT (nb + 1))) by lia.
  - destruct Hl as (V2 & [Hr1 _] & _). done.
  - intros x Hx. by apply Hfree in Hx as [Hx _].
  - lia.
  - intros _. by rewrite (proj2 (Z.ltb_lt NDIRECT nb)) by lia.
  - intros x Hx Hxb Hi. apply G6; [done|done|]. apply Hi. apply Z.ltb_lt. lia.
Qed.

Lemma worked_icache k k' t : worked k k' -> worked (k <| k_icache := t |>) (k' <| k_icache := t |>).
Proof. intros [Q I]. split; [|done]. exact (f_equal (fun q => q <| k_icache := t |>) Q). Qed.

Lemma alter_addrs t j (f : list Z -> list Z) :
  alter (fun ip => ip <| i_addrs ::= f |>) j t = alter (fun ip => ip <| i_addrs := f (i_addrs (t !!! j)) |>) j t.
Proof. apply list_alter_ext; [|done]. intros ip Hip. by rewrite (list_lookup_total_correct _ _ _ Hip). Qed.

Lemma bmap_grow_ok j bs nb k e : let a := i_addrs (k_icache k !!! j) in
  in_txn [] start bs k -> volume (view k) k -> (2 <= length (frees (view k)))%nat ->
  i_dev (k_icache k !!! j) = dev ->
  file_map (data (view k)) (view k) a (NDIRECT <? nb) nb -> nb < MAXFILE -> zlen bs + 4 <= MAXOPBLOCKS ->
  exists r a' k' bs', bmap j nb k e = Ok r k' e /\ in_txn [] start bs' k' /\
    k_icache k' = alter (fun ip => ip <| i_addrs := a' |>) j (k_icache k) /\ worked (k <| k_icache := k_icache k' |>) k' /\
    grown (view k) a nb (view k') a' r /\
    (forall x, x ∈ bs' -> x ∈ bs \/ x = bm \/ x = r \/ (NDIRECT <= nb /\ x = zget a' NDIRECT)).
Proof.
  intros a Htx Hvo Hcnt Hdev Hf Hmax Hbs. pose proof (fm_max _ _ _ _ _ Hf) as Hnb0.
  destruct (free_exists (view k) 0 ltac:(lia)) as [x0 Hx0]. unfold bmap, get_inode. step. rewrite Hdev. fold a.
  destruct (Z.ltb_spec nb NDIRECT) as [Hd|Hd].
  - pose proof (fm_zero _ _ _ _ _ Hf nb ltac:(lia) ltac:(by left)) as H0. unfold block_at in H0. rewrite (proj2 (Z.ltb_lt nb NDIRECT)) in H0 by done.
    rewrite H0, Z.eqb_refl.
    destruct (balloc_ok [] bs k e x0 Htx Hvo Hx0) as (r & k1 & bs1 & Hrun & Htx1 & Hw1 & Ht & Hbs1 & _); [lia|simpl; lia|set_solver|].
    assert (Hi1 : k_icache k1 = k_icache k) by exact (f_equal k_icache (wk_rest _ _ Hw1)).
    rewrite (bind_ok _ _ _ _ _ _ _ Hrun), (bind_ok _ _ _ _ _ _ _ (upd_inode_eq _ _ k1 e)), Hi1.
    rewrite (alter_addrs (k_icache k) j (fun l => zset l nb r)). set (t := alter _ j (k_icache k)).
    exists r, (zset a nb r), (k1 <| k_icache := t |>), bs1. split; [done|]. split; [by apply txn_icache|]. split; [done|].
    split; [by apply worked_icache|]. split; [by apply (grow_direct _ _ _ _ _ k)|]. intros x Hx. apply Hbs1 in Hx. tauto.
  - rewrite (proj2 (Z.ltb_lt (nb - NDIRECT) NINDIRECT)) by (change MAXFILE with 140 in Hmax; change NINDIRECT with 128; unfold NDIRECT; lia).
    fold (link_block). destruct (decide (nb = NDIRECT)) as [->|Hne].
    + rewrite (fm_noind _ _ _ _ _ Hf) by done. change (0 =? 0) with true. cbv iota.
      destruct (balloc_ok [] bs k e x0 Htx Hvo Hx0) as (r1 & k1 & bs1 & Hrun & Htx1 & Hw1 & Ht & Hbs1 & _); [lia|simpl; lia|set_solver|].
      assert (Hi1 : k_icache k1 = k_icache k) by exact (f_equal k_icache (wk_rest _ _ Hw1)).
      unfold bind at 1. rewrite (bind_ok _ _ _ _ _ _ _ Hrun), (bind_ok _ _ _ _ _ _ _ (upd_inode_eq _ _ k1 e)), Hi1. unfold ret at 1.
      rewrite (alter_addrs (k_icache k) j (fun l => zset l NDIRECT r1)). fold a. set (t := alter _ j (k_icache k)). set (k1' := k1 <| k_icache := t |>).
      destruct (took_step _ _ _ _ Hvo Ht) as (_ & S2 & _ & S4). pose proof (took_frees _ _ _ _ Hvo Ht) as Hc1.
      destruct (free_exists (view k1') 0 ltac:(change (view k1') with (view k1); lia)) as [x1 Hx1].
      destruct (link_block_ok bs1 r1 NDIRECT k1' e x1) as (r & k2 & bs2 & Hrun2 & Htx2 & Hw2 & Hl2 & Hbs2); [by apply txn_icache| |done|done| |done| |].
      { apply volume_icache. eapply (took_volume _ _ _ k k1 Hvo Ht); [exact (f_equal k_sb (wk_rest _ _ Hw1))|apply (worked_disk _ _ Hw1)]. }
      { assert (zlen bs1 <= zlen (bs ++ [bm; r1])); [|unfold zlen in *; rewrite length_app in *; simpl in *; lia].
        apply (txn_len [] bs1 _ k1 Htx1). intros x Hx. apply Hbs1 in Hx. rewrite elem_of_app, !elem_of_cons. tauto. }
      { change (view k1') with (view k1). rewrite S4. apply zero_bytes. }
      assert (Hi2 : k_icache k2 = t) by exact (f_equal k_icache (wk_rest _ _ Hw2)).
      exists r, (zset a NDIRECT r1), k2, bs2. split; [exact Hrun2|]. split; [done|]. split; [done|]. split; [|split].
      * rewrite Hi2. eapply worked_trans; [|exact Hw2]. by apply worked_icache.
      * by apply (grow_both _ _ (view k1) r1 _ _ k).
      * intros x Hx. apply Hbs2 in Hx. rewrite Hbs1 in Hx. rewrite zget_zset_eq; [pose proof (Z.le_refl NDIRECT); tauto|]. unfold zlen. rewrite (fm_len _ _ _ _ _ Hf). unfold NDIRECT. lia.
    + rewrite (proj2 (Z.ltb_lt NDIRECT nb)) in Hf by lia. pose proof (fm_ind _ _ _ _ _ Hf eq_refl) as Hind.
      rewrite (proj2 (Z.eqb_neq (zget a NDIRECT) 0)) by apply Hind. unfold bind at 1, ret at 1.
      destruct (link_block_ok bs (zget a NDIRECT) nb k e x0) as (r & k2 & bs2 & Hrun2 & Htx2 & Hw2 & Hl2 & Hbs2); [done|done|done|done|lia|lia| |].
      { pose proof (fm_zero _ _ _ _ _ Hf nb ltac:(lia) ltac:(by right)) as H0. unfold block_at in H0. by rewrite (proj2 (Z.ltb_ge nb NDIRECT)) in H0 by lia. }
      exists r, a, k2, bs2. split; [exact Hrun2|]. split; [done|].
      assert (Hi2 : k_icache k2 = k_icache k) by exact (f_equal k_icache (wk_rest _ _ Hw2)).
      split; [|split; [by rewrite Hi2, set_icache_id|split; [apply (grow_entry _ _ _ _ _ k); [done|done|lia|done]|intros x Hx; apply Hbs2 in Hx; tauto]]].
      rewrite Hi2. etrans; [symmetry; by apply (list_alter_id (fun ip => ip) _ j)|]. apply list_alter_ext; [|done].
      intros ip Hip. apply list_lookup_total_correct in Hip. unfold a. rewrite Hip. by destruct ip.
Qed.
End alloc.
