(* ===== verification/WriteFacts.v ===== *)
(** Writing a file inside a transaction: the rounds of writei against the bytes
    of the file, and what they make of a file on the volume. *)
From S2P Require Import Prelude Kernel Mem Fsformat BlockFacts Spinlock Locks Console Vm Sched Sleeplock SleepFacts.
From S2P Require Import Ide Bio LruFacts BioFacts Log LogFacts CommitFacts CrashFacts TxnFacts Fs ReadFacts PathFacts AllocFacts.

Section write.
Context `{HD : DiskDriver} (dev : Z) {HOK : DiskOk dev} (i p : nat) (pid : Z).
Context (sb : superblock) (start ib : Z).
Implicit Types (k : kernel) (e : env) (b j : nat) (m n r x o off : Z) (V : Z -> list Z) (a s : list Z) (nb bn : Z).

Local Notation view := (view dev).
Local Notation in_txn := (in_txn dev i p pid).
Local Notation bm := (bm sb).
Local Notation free := (free sb).
Local Notation frees := (frees sb).
Local Notation data := (data sb start ib).
Local Notation volume := (volume dev sb start ib).
Local Notation grown := (grown sb start ib).

(** * What a write does to the blocks *)

(** The file with addresses [a] and [nb] blocks has got the bytes [s] at [off];
    it has addresses [a'] and [nb'] blocks now. *)
Record edited V a nb off s V' a' nb' : Prop := {
  ed_map : file_map (data V') V' a' (NDIRECT <? nb') nb';
  ed_le : nb <= nb';
  ed_fit : off + zlen s <= nb' * BSIZE;
  ed_bytes : forall o, 0 <= o < nb' * BSIZE ->
    byte_at V' a' o = if decide (off <= o < off + zlen s) then zget s (o - off) else if o <? nb * BSIZE then byte_at V a o else 0;
  ed_old : forall bn, 0 <= bn < nb -> block_at V' a' bn = block_at V a bn;
  ed_new : forall bn, nb <= bn < nb' -> free V (block_at V' a' bn);
  ed_ind : NDIRECT < nb' -> if NDIRECT <? nb then zget a' NDIRECT = zget a NDIRECT else free V (zget a' NDIRECT);
  ed_free : forall x, free V' x -> free V x;
  ed_count : (length (frees V) <= length (frees V') + 2 * Z.to_nat (nb' - nb))%nat;
  ed_same : forall x, ~ free V x -> x <> bm -> (forall bn, 0 <= bn < nb -> x <> block_at V a bn) ->
    (NDIRECT < nb -> x <> zget a NDIRECT) -> V' x = V x
}.

Lemma byte_at_ext V V' a o : (forall x, V' x = V x) -> byte_at V' a o = byte_at V a o.
Proof. intros Hv. unfold byte_at. by rewrite (block_at_ext V V'), Hv. Qed.

Lemma edited_refl V V' a nb off : off <= nb * BSIZE -> file_map (data V) V a (NDIRECT <? nb) nb -> (forall x, V' x = V x) -> edited V a nb off [] V' a nb.
Proof.
  intros Hoff Hf Hv. assert (Hfr : forall x, free V' x <-> free V x) by (intros x; unfold AllocFacts.free; by rewrite Hv).
  split.
  - apply (file_map_frame (data V) _ V); [done|done|]. intros x (D1 & D2 & D3). split; [done|]. split; [by rewrite Hfr|done].
  - lia.
  - rewrite zlen_nil. lia.
  - intros o Ho. rewrite zlen_nil, decide_False by lia. rewrite (proj2 (Z.ltb_lt o _)) by lia. by apply byte_at_ext.
  - intros bn _. by apply block_at_ext.
  - lia.
  - intros Hn. by rewrite (proj2 (Z.ltb_lt NDIRECT nb)).
  - intros x. apply Hfr.
  - unfold AllocFacts.frees. rewrite Hv. lia.
  - intros x _ _ _ _. apply Hv.
Qed.

(** A block of the file is data, and not touched when another is allocated. *)
Lemma grown_edited V a nb V' a' r off : off <= nb * BSIZE -> file_map (data V) V a (NDIRECT <? nb) nb -> grown V a nb V' a' r -> edited V a nb off [] V' a' (nb + 1).
Proof.
  intros Hoff Hf Hg. pose proof Hg as [G1 G2 G3 G4 G5 G6 G7 G8 G9]. pose proof (fm_max _ _ _ _ _ Hf) as Hmx.
  assert (Hblk : forall bn, 0 <= bn < nb -> V' (block_at V a bn) = V (block_at V a bn)).
  { intros bn Hbn. destruct (fm_block _ _ _ _ _ Hf bn Hbn) as (_ & D2 & _ & _ & D5 & _). apply G9; [done|done|].
    intros Hi. by apply (fm_apart _ _ _ _ _ Hf). }
  split; try done.
  - lia.
  - rewrite zlen_nil. unfold BSIZE in *. lia.
  - intros o Ho. rewrite zlen_nil, decide_False by lia. unfold byte_at, BSIZE in *. destruct (Z.ltb_spec o (nb * 512)) as [Hlt|Hge].
    + rewrite G5 by dlia. by rewrite Hblk by dlia.
    + replace (o / 512) with nb by dlia. rewrite G2, G4. unfold zget. rewrite list_lookup_total_alt, lookup_replicate_2 by dlia. done.
  - intros bn Hbn. replace bn with nb by lia. by rewrite G2.
  - intros Hn. apply G8. lia.
  - replace (Z.to_nat (nb + 1 - nb)) with 1%nat by lia. lia.
  - intros x Hx Hxb _ Hi. apply G9; [done|done|]. intros Hlt. apply Hi. by apply Z.ltb_lt.
Qed.

Lemma edited_trans V a nb off s V1 a1 nb1 s2 V2 a2 nb2 : 0 <= nb -> 0 <= off -> edited V a nb off s V1 a1 nb1 ->
  edited V1 a1 nb1 (off + zlen s) s2 V2 a2 nb2 -> edited V a nb off (s ++ s2) V2 a2 nb2.
Proof.
  intros Hnb Hoff [A1 A2 A0 A3 A4 A5 A6 A7 A8 A9] [B1 B2 B0 B3 B4 B5 B6 B7 B8 B9].
  pose proof (zlen_app s s2) as Hz.
  pose proof (zlen_nonneg s) as H0. pose proof (zlen_nonneg s2) as H2.
  split; [done|lia|lia| | | | | | |].
  - intros o Ho. rewrite B3 by done. rewrite Hz. destruct (Z.ltb_spec o (nb1 * BSIZE)) as [Hlt|Hge].
    + rewrite A3 by lia. repeat case_decide; try lia; try done.
      * unfold zget. rewrite lookup_total_app_r by (unfold zlen in *; lia). f_equal. unfold zlen in *. lia.
      * unfold zget. rewrite lookup_total_app_l by (unfold zlen in *; lia). done.
    + destruct (Z.ltb_spec o (nb * BSIZE)); [unfold BSIZE in *; lia|]. repeat case_decide; try lia; try done.
      * unfold zget. rewrite lookup_total_app_r by (unfold zlen in *; lia). f_equal. unfold zlen in *. lia.
  - intros bn Hbn. rewrite B4 by lia. by apply A4.
  - intros bn Hbn. destruct (decide (bn < nb1)); [rewrite B4 by lia; apply A5; lia|]. apply A7, B5. lia.
  - intros Hn. specialize (B6 Hn). destruct (Z.ltb_spec NDIRECT nb1) as [H1|H1].
    + rewrite B6. by apply A6.
    + rewrite (proj2 (Z.ltb_ge NDIRECT nb)) by lia. by apply A7.
  - auto.
  - lia.
  - intros x Hx Hxb Hblk Hi. rewrite B9; [by apply A9|by intros H; apply Hx, A7|done| |].
    + intros bn Hbn. destruct (decide (bn < nb)); [rewrite A4 by lia; apply Hblk; lia|]. intros ->. apply Hx, A5. lia.
    + intros Hn. specialize (A6 Hn). destruct (Z.ltb_spec NDIRECT nb) as [H1|H1]; [rewrite A6; by apply Hi|]. intros ->. by apply Hx.
Qed.

(** A run of bytes inside one block of the file. *)
Lemma write_edited V a nb off s V' : let blk := block_at V a (off / BSIZE) in
  file_map (data V) V a (NDIRECT <? nb) nb -> 0 <= off -> off / BSIZE < nb -> off mod BSIZE + zlen s <= BSIZE -> length (V blk) = 512%nat ->
  (forall x, V' x = if decide (x = blk) then put_bytes (V blk) (Z.to_nat (off mod BSIZE)) s else V x) ->
  edited V a nb off s V' a nb.
Proof.
  intros blk Hf Hoff Hbn Hfit Hlen HV. pose proof (fm_max _ _ _ _ _ Hf) as Hmx. pose proof (zlen_nonneg s) as H0.
  assert (Hb0 : 0 <= off / BSIZE) by (unfold BSIZE; dlia). destruct (fm_block _ _ _ _ _ Hf (off / BSIZE)) as (_ & D2 & _ & _ & D5 & _); [lia|]. fold blk in D2, D5.
  assert (Hfr : forall x, free V' x <-> free V x) by (intros x; unfold AllocFacts.free; by rewrite HV, decide_False by done).
  assert (Hind : (NDIRECT <? nb) = true -> V' (zget a NDIRECT) = V (zget a NDIRECT)).
  { intros Hg. rewrite HV, decide_False; [done|]. intros E. symmetry in E. revert E. apply (fm_apart _ _ _ _ _ Hf); [done|lia]. }
  assert (Hba : forall bn, 0 <= bn < nb -> block_at V' a bn = block_at V a bn).
  { intros bn Hb. apply block_at_kept. destruct (file_direct _ _ _ _ _ bn Hf Hb) as [|Hg]; [by left|right; auto]. }
  split.
  - apply (file_map_frame (data V) _ V); [done|done|]. intros x (E1 & E2 & E3). split; [done|]. split; [by rewrite Hfr|done].
  - lia.
  - unfold BSIZE in *. dlia.
  - intros o Ho. rewrite (proj2 (Z.ltb_lt o _)) by lia. unfold byte_at. assert (Hob : 0 <= o / BSIZE < nb) by (unfold BSIZE in *; dlia).
    rewrite Hba, HV by done. assert (Hl : (Z.to_nat (off mod BSIZE) + length s <= length (V blk))%nat) by (rewrite Hlen; unfold zlen, BSIZE in *; dlia).
    destruct (decide (o / BSIZE = off / BSIZE)) as [E|E].
    + rewrite decide_True by (by rewrite E). rewrite E. fold blk. case_decide as Hin.
      * unfold zget. replace (Z.to_nat (o mod BSIZE)) with (Z.to_nat (off mod BSIZE) + Z.to_nat (o - off))%nat by (unfold BSIZE in *; dlia).
        apply put_bytes_in; [done|]. unfold zlen in *. lia.
      * unfold zget. apply put_bytes_out; [done|]. unfold zlen, BSIZE in *. dlia.
    + rewrite decide_False by (intros E'; apply E, (fm_inj _ _ _ _ _ Hf); [done|lia|done]).
      rewrite decide_False by (unfold BSIZE in *; dlia). done.
  - done.
  - lia.
  - intros Hn. by rewrite (proj2 (Z.ltb_lt NDIRECT nb)).
  - intros x. apply Hfr.
  - unfold AllocFacts.frees. rewrite HV, decide_False by done. lia.
  - intros x _ _ Hx _. rewrite HV, decide_False; [done|]. apply Hx. lia.
Qed.

(** * The program *)

Lemma txn_reader bs k : in_txn [] start bs k -> zlen bs <= MAXOPBLOCKS + 1 -> reader dev i p pid k.
Proof.
  intros Htx Hbs. split; [apply (it_thread _ _ _ _ _ _ _ _ Htx)|apply (it_cache _ _ _ _ _ _ _ _ Htx)|].
  destruct (txn_room _ _ _ _ _ _ _ _ Htx Hbs) as [y Hy]; [simpl; lia|]. by exists y.
Qed.

Lemma txn_looked bs k k' : in_txn [] start bs k -> looked dev i p pid k k' -> in_txn [] start bs k' /\ worked k k'.
Proof.
  intros [H1 H2 H3 H4 H5 H6 H7 H8 H9] [[R1 R2 _] Q Vw Pn I]. assert (Hl : k_log k' = k_log k) by exact (f_equal k_log Q).
  split; [|by apply worked_bcache]. split; rewrite ?Hl; try done; [|set_solver]. intros x. by rewrite Pn.
Qed.

Lemma volume_next V V' k k' : volume V k -> (forall x, free V' x -> free V x) -> k_sb k' = k_sb k -> k_ide k' = k_ide k ->
  (forall x, length (V' x) = 512%nat) -> volume V' k'.
Proof.
  intros [H1 H2 H3 H4 H5 H6] Hf Hs Hi Hl. split; [congruence|done| |auto|done|done]. intros x Hx. by apply (disk_has_ide k), H3.
Qed.

Lemma file_allocated nb k a : volume (view k) k -> file_map (data (view k)) (view k) a (NDIRECT <? nb) nb -> allocated dev (view k) k a nb.
Proof.
  intros Hvo Hf. split.
  - apply (fm_max _ _ _ _ _ Hf).
  - intros bn Hbn. destruct (fm_block _ _ _ _ _ Hf bn Hbn) as (D1 & _ & _ & D4 & _). split; [done|]. by apply (vo_has _ _ _ _ _ _ Hvo).
  - intros Hn. destruct (fm_ind _ _ _ _ _ Hf) as (D1 & _ & _ & D4 & _); [by apply Z.ltb_lt|]. split; [done|]. by apply (vo_has _ _ _ _ _ _ Hvo).
Qed.

Lemma alter_addrs_id (t : list inode) j : alter (fun ip => ip <| i_addrs := i_addrs (t !!! j) |>) j t = t.
Proof.
  etrans; [|by apply (list_alter_id (fun ip => ip) t j)]. apply list_alter_ext; [|done].
  intros ip Hip. rewrite (list_lookup_total_correct _ _ _ Hip). by destruct ip.
Qed.

(** bmap, whether or not the file has the block. *)
Lemma bmap_any_ok j bs nb off k e : let a := i_addrs (k_icache k !!! j) in
  in_txn [] start bs k -> volume (view k) k -> (2 * Z.to_nat (off / BSIZE + 1 - nb) <= length (frees (view k)))%nat ->
  i_dev (k_icache k !!! j) = dev -> file_map (data (view k)) (view k) a (NDIRECT <? nb) nb -> 0 <= off <= nb * BSIZE ->
  off < MAXFILE * BSIZE -> zlen bs + 4 <= MAXOPBLOCKS ->
  exists k' bs' a' nb', let blk := block_at (view k') a' (off / BSIZE) in
    bmap j (off / BSIZE) k e = Ok blk k' e /\ in_txn [] start bs' k' /\
    k_icache k' = alter (fun ip => ip <| i_addrs := a' |>) j (k_icache k) /\ worked (k <| k_icache := k_icache k' |>) k' /\
    edited (view k) a nb off [] (view k') a' nb' /\ off / BSIZE < nb' <= Z.max nb (off / BSIZE + 1) /\
    (forall x, x ∈ bs' -> x ∈ bs \/ x = bm \/ x = blk \/ (NDIRECT < nb' /\ x = zget a' NDIRECT)).
Proof.
  intros a Htx Hvo Hcnt Hdev Hf Hoff Hmax Hbs. destruct (decide (off / BSIZE < nb)) as [Hlt|Hge].
  - destruct (bmap_ok dev i p pid j (off / BSIZE) nb k e) as (k' & Hrun & Hl); fold a; [apply (txn_reader bs); [done|lia]|done|by apply file_allocated|unfold BSIZE in *; dlia|].
    destruct (txn_looked bs k k' Htx Hl) as [Htx' Hw]. fold a in Hrun. pose proof (looked_icache _ _ _ _ _ _ Hl) as Hi.
    pose proof (lo_view _ _ _ _ _ _ Hl) as Hv. exists k', bs, a, nb.
    rewrite (block_at_ext (view k)) by done. split; [done|]. split; [done|]. split; [rewrite Hi; symmetry; apply alter_addrs_id|].
    split; [by rewrite Hi, set_icache_id|]. split; [apply edited_refl; [lia|done|done]|]. split; [lia|]. intros x Hx. by left.
  - assert (Hnb : off / BSIZE = nb) by (unfold BSIZE in *; dlia). rewrite Hnb in *. replace (nb + 1 - nb) with 1 in Hcnt by lia.
    destruct (bmap_grow_ok dev i p pid sb start ib j bs nb k e Htx Hvo) as (r & a' & k' & bs' & Hrun & Htx' & Hi & Hw & Hg & Hbs');
      [lia|done|done|change MAXFILE with 140 in *; unfold BSIZE in *; dlia|done|].
    fold a in Hg. pose proof (gw_new _ _ _ _ _ _ _ _ _ Hg) as Hnew. exists k', bs', a', (nb + 1). cbv zeta. rewrite Hnew.
    split; [done|]. split; [done|]. split; [done|]. split; [done|]. split; [apply (grown_edited _ _ _ _ _ r); [lia|done|done]|]. split; [lia|].
    intros x Hx. apply Hbs' in Hx as [Hx|[Hx|[Hx|[Hn Hx]]]]; [by left|by right; left|by right; right; left|]. right. right. right. split; [lia|done].
Qed.

(** The blocks in the log so far: the bitmap, the indirect block, and [L]. *)
Record logging V a nb (bs L : list Z) : Prop := {
  lg_in : forall x, x ∈ bs -> x = bm \/ (NDIRECT < nb /\ x = zget a NDIRECT) \/ x ∈ L;
  lg_blocks : forall x, x ∈ L -> exists bn, 0 <= bn < nb /\ x = block_at V a bn
}.

Lemma logging_len V a nb bs L k : logging V a nb bs L -> in_txn [] start bs k -> zlen bs <= zlen L + 2.
Proof.
  intros [Hin _] Htx. assert (zlen bs <= zlen ([bm; zget a NDIRECT] ++ L)); [|unfold zlen in *; simpl in *; lia].
  apply (txn_len dev i p pid start [] bs _ k Htx). intros x Hx. rewrite elem_of_app, !elem_of_cons. destruct (Hin x Hx) as [|[[_ ?]|]]; tauto.
Qed.

Lemma logging_next V a nb bs L off s V' a' nb' bs' blk : logging V a nb bs L -> edited V a nb off s V' a' nb' ->
  (forall x, x ∈ bs' -> x ∈ bs \/ x = bm \/ x = blk \/ (NDIRECT < nb' /\ x = zget a' NDIRECT)) ->
  (exists bn, 0 <= bn < nb' /\ blk = block_at V' a' bn) -> logging V' a' nb' bs' (L ++ [blk]).
Proof.
  intros [Hin HL] He Hbs Hblk. pose proof (ed_le _ _ _ _ _ _ _ _ He) as Hle. split.
  - intros x Hx. rewrite elem_of_app, list_elem_of_singleton. apply Hbs in Hx as [Hx|[Hx|[Hx|Hx]]]; try tauto.
    apply Hin in Hx as [Hx|[[Hn Hx]|Hx]]; try tauto. right. left. split; [lia|].
    pose proof (ed_ind _ _ _ _ _ _ _ _ He ltac:(lia)) as E. rewrite (proj2 (Z.ltb_lt NDIRECT nb)) in E by done. congruence.
  - intros x. rewrite elem_of_app, list_elem_of_singleton. intros [Hx| ->]; [|done]. apply HL in Hx as (bn & Hbn & ->).
    exists bn. split; [lia|]. symmetry. by apply (ed_old _ _ _ _ _ _ _ _ He).
Qed.

Lemma alter_keeps (t : list inode) j a' (f : inode -> Z) : (forall ip : inode, f (ip <| i_addrs := a' |>) = f ip) ->
  f (alter (fun ip => ip <| i_addrs := a' |>) j t !!! j) = f (t !!! j).
Proof.
  intros Hf. rewrite !list_lookup_total_alt, list_lookup_alter_eq. destruct (t !! j); [apply Hf|done].
Qed.

(** One round of the loop: the bytes [s] into one block. *)
Lemma round_ok j bs L nb off s k e : let a := i_addrs (k_icache k !!! j) in (j < length (k_icache k))%nat ->
  in_txn [] start bs k -> volume (view k) k -> (2 * Z.to_nat (off / BSIZE + 1 - nb) <= length (frees (view k)))%nat ->
  i_dev (k_icache k !!! j) = dev -> file_map (data (view k)) (view k) a (NDIRECT <? nb) nb -> 0 <= off <= nb * BSIZE ->
  off + zlen s <= MAXFILE * BSIZE -> 0 < zlen s <= BSIZE - off mod BSIZE -> logging (view k) a nb bs L -> zlen L <= 3 ->
  exists k' bs' a' nb', (forall A (rest : K A),
      (ip <- get_inode j ;; bn <- bmap j (off / BSIZE) ;; bp <- bread (i_dev ip) bn ;;
       upd_buf bp (fun y => y <| b_data ::= fun d => put_bytes d (Z.to_nat (off mod BSIZE)) s |>) ;; log_write bp ;; brelse bp ;; rest) k e = rest k' e) /\
    in_txn [] start bs' k' /\ volume (view k') k' /\ k_icache k' = alter (fun ip => ip <| i_addrs := a' |>) j (k_icache k) /\
    worked (k <| k_icache := k_icache k' |>) k' /\ edited (view k) a nb off s (view k') a' nb' /\ off / BSIZE < nb' <= Z.max nb (off / BSIZE + 1) /\
    logging (view k') a' nb' bs' (L ++ [block_at (view k') a' (off / BSIZE)]).
Proof.
  intros a Hj Htx Hvo Hcnt Hdev Hf Hoff Hmax Hs Hlg HL. pose proof (logging_len _ _ _ _ _ _ Hlg Htx) as Hlen.
  destruct (bmap_any_ok j bs nb off k e Htx Hvo Hcnt Hdev Hf Hoff) as (k1 & bs1 & a1 & nb1 & Hrun1 & Htx1 & Hi1 & Hw1 & He1 & Hnb1 & Hbs1);
    [lia|unfold MAXOPBLOCKS; lia|]. fold a in He1. set (blk := block_at (view k1) a1 (off / BSIZE)) in *.
  pose proof (ed_map _ _ _ _ _ _ _ _ He1) as Hf1. assert (Hb0 : 0 <= off / BSIZE) by (unfold BSIZE; dlia).
  destruct (fm_block _ _ _ _ _ Hf1 (off / BSIZE)) as (D1 & _); [lia|]. fold blk in D1.
  assert (Hi2 : k_ide k1 = k_ide k) by apply (worked_disk _ _ Hw1). assert (Hs1 : k_sb k1 = k_sb k) by exact (f_equal k_sb (wk_rest _ _ Hw1)).
  assert (Hl1 : forall x, length (view k1 x) = 512%nat) by (intros x; eapply view_length, (it_cache _ _ _ _ _ _ _ _ Htx1)).
  destruct (update_ok dev i p pid [] start bs1 blk (fun d => put_bytes d (Z.to_nat (off mod BSIZE)) s) k1 e Htx1) as (k2 & Hrun2 & Htx2 & Hw2 & Hv2 & _).
  { apply (disk_has_ide k); [done|]. by apply (vo_has _ _ _ _ _ _ Hvo). }
  { assert (zlen bs1 <= zlen (bs ++ [bm; blk; zget a1 NDIRECT])); [|unfold zlen, MAXOPBLOCKS in *; rewrite length_app in *; simpl in *; lia].
    apply (txn_len dev i p pid start [] bs1 _ k1 Htx1). intros x Hx. rewrite elem_of_app, !elem_of_cons. apply Hbs1 in Hx. tauto. }
  { simpl. lia. } { set_solver. }
  { intros d Hd. rewrite length_put_bytes; [done|]. unfold zlen, BSIZE in *. dlia. }
  assert (Hi3 : k_icache k2 = k_icache k1) by exact (f_equal k_icache (wk_rest _ _ Hw2)).
  assert (He2 : edited (view k1) a1 nb1 off s (view k2) a1 nb1) by (apply write_edited; [done|lia|lia|lia|apply Hl1|exact Hv2]).
  assert (He : edited (view k) a nb off s (view k2) a1 nb1).
  { apply (edited_trans _ _ _ _ [] (view k1) a1 nb1 s); [apply (fm_max _ _ _ _ _ Hf)|lia|done|]. by rewrite zlen_nil, Z.add_0_r. }
  exists k2, (if decide (blk ∈ bs1) then bs1 else bs1 ++ [blk]), a1, nb1. split; [|split; [done|split; [|split; [|split; [|split; [done|split; [done|]]]]]]].
  - intros A rest. unfold get_inode. step. rewrite (bind_ok _ _ _ _ _ _ _ Hrun1), Hdev, update_bind. by rewrite (bind_ok _ _ _ _ _ _ _ Hrun2).
  - apply (volume_next (view k) _ k); [done|apply (ed_free _ _ _ _ _ _ _ _ He)| | |].
    + rewrite <- Hs1. exact (f_equal k_sb (wk_rest _ _ Hw2)).
    + rewrite <- Hi2. apply (worked_disk _ _ Hw2).
    + intros x. eapply view_length, (it_cache _ _ _ _ _ _ _ _ Htx2).
  - by rewrite Hi3.
  - rewrite Hi3. by eapply worked_trans.
  - apply (logging_next _ _ _ _ _ _ _ _ _ _ _ _ Hlg He).
    + intros x. rewrite elem_of_logged. rewrite (block_at_kept (view k1)).
      * fold blk. intros [Hx| ->]; [by apply Hbs1|tauto].
      * destruct (file_direct _ _ _ _ _ (off / BSIZE) Hf1) as [|Hg]; [lia|by left|right]. rewrite Hv2, decide_False; [done|].
        intros E. symmetry in E. revert E. apply (fm_apart _ _ _ _ _ Hf1); [done|lia].
    + exists (off / BSIZE). split; [lia|done].
Qed.

(** The blocks [z] bytes take. *)
Definition blocks_to (z : Z) : Z := (z + BSIZE - 1) / BSIZE.

(** What the loop has to work with, [n] bytes at [off] still to be written. *)
Record writable j bs L nb off n k : Prop := {
  wr_slot : (j < length (k_icache k))%nat;
  wr_txn : in_txn [] start bs k;
  wr_volume : volume (view k) k;
  wr_dev : i_dev (k_icache k !!! j) = dev;
  wr_map : file_map (data (view k)) (view k) (i_addrs (k_icache k !!! j)) (NDIRECT <? nb) nb;
  wr_off : 0 <= off <= nb * BSIZE;
  wr_max : off + n <= MAXFILE * BSIZE;
  wr_supply : (2 * Z.to_nat (blocks_to (off + n) - nb) <= length (frees (view k)))%nat;
  wr_logging : logging (view k) (i_addrs (k_icache k !!! j)) nb bs L;
  wr_room : zlen L <= 4 /\ (0 < n -> zlen L + blocks_to (off + n) - off / BSIZE <= 4)
}.

(** What it leaves. *)
Record written j nb off s k k' bs' L' a' nb' : Prop := {
  wn_txn : in_txn [] start bs' k';
  wn_volume : volume (view k') k';
  wn_icache : k_icache k' = alter (fun ip => ip <| i_addrs := a' |>) j (k_icache k);
  wn_worked : worked (k <| k_icache := k_icache k' |>) k';
  wn_edited : edited (view k) (i_addrs (k_icache k !!! j)) nb off s (view k') a' nb';
  wn_nb : nb' <= Z.max nb (blocks_to (off + zlen s));
  wn_logging : logging (view k') a' nb' bs' L';
  wn_room : zlen L' <= 4
}.

Lemma alter_at {A} `{Inhabited A} (t : list A) (f : A -> A) j : (j < length t)%nat -> alter f j t !!! j = f (t !!! j).
Proof.
  intros Hj. destruct (lookup_lt_is_Some_2 t j Hj) as [ip Hip].
  by rewrite !list_lookup_total_alt, list_lookup_alter_eq, Hip.
Qed.

Lemma written_trans j nb off s k k1 bs1 L1 a1 nb1 s2 k2 bs2 L2 a2 nb2 : (j < length (k_icache k))%nat -> 0 <= nb -> 0 <= off ->
  written j nb off s k k1 bs1 L1 a1 nb1 -> written j nb1 (off + zlen s) s2 k1 k2 bs2 L2 a2 nb2 -> written j nb off (s ++ s2) k k2 bs2 L2 a2 nb2.
Proof.
  intros Hj Hnb Hoff [_ _ A3 A4 A5 A6 _ _] [B1 B2 B3 B4 B5 B6 B7 B8].
  pose proof (zlen_app s s2) as Hz. pose proof (zlen_nonneg s2) as H2.
  rewrite A3, alter_at in B5 by done. cbn [i_addrs] in B5. split; try done.
  - rewrite B3, A3. exact (list_alter_alter_eq _ _ _ j).
  - eapply worked_trans; [|exact B4]. by apply (worked_icache _ _ (k_icache k2)) in A4.
  - by eapply edited_trans.
  - rewrite Hz. etrans; [exact B6|]. rewrite Z.add_assoc. assert (blocks_to (off + zlen s) <= blocks_to (off + zlen s + zlen s2)); [|lia].
    unfold blocks_to, BSIZE. dlia.
Qed.

Lemma writei_loop_ok j e : forall fuel tot off n src bs L nb k, writable j bs L nb off (n - tot) k ->
  0 <= tot <= n -> n - tot <= zlen src -> (Z.to_nat (n - tot) < fuel)%nat ->
  exists k' bs' L' a' nb', writei_loop fuel j tot off n src k e = Ok (off + (n - tot)) k' e /\
    written j nb off (take (Z.to_nat (n - tot)) src) k k' bs' L' a' nb'.
Proof.
  induction fuel as [|fuel IH]; intros tot off n src bs L nb k Hw Ht Hsrc Hf; [lia|]. cbn [writei_loop].
  pose proof Hw as [W1 W2 W3 W4 W5 W6 W7 W8 W9 [W10 W11]]. pose proof (fm_max _ _ _ _ _ W5) as Hmx.
  destruct (Z.ltb_spec tot n) as [Hlt|Hge]; cbn [negb].
  2:{ replace (n - tot) with 0 in * by lia. exists k, bs, L, (i_addrs (k_icache k !!! j)), nb. rewrite Z.add_0_r. split; [done|].
      split; try done; [symmetry; apply alter_addrs_id|apply edited_refl; [lia|done|done]|lia]. }
  set (m := Z.min (n - tot) (BSIZE - off mod BSIZE)). assert (Hm : 0 < m <= n - tot) by (unfold m, BSIZE; dlia).
  set (c := take (Z.to_nat m) src). assert (Hc : zlen c = m) by (unfold c, zlen in *; rewrite length_take; lia).
  specialize (W11 ltac:(lia)). assert (Hob : off / BSIZE < blocks_to (off + (n - tot))) by (unfold blocks_to, BSIZE in *; dlia).
  destruct (round_ok j bs L nb off c k e) as (k1 & bs1 & a1 & nb1 & Hrun & R2 & R3 & R4 & R5 & R6 & R7 & R8); try done; try lia.
  rewrite Hrun. clear Hrun. set (blk := block_at _ a1 _) in R8. assert (HLl : zlen (L ++ [blk]) = zlen L + 1) by (unfold zlen; rewrite length_app; simpl; lia).
  rewrite (u32_small (off + m)) by (change MAXFILE with 140 in *; unfold BSIZE in *; lia).
  assert (Hw1 : written j nb off c k k1 bs1 (L ++ [blk]) a1 nb1).
  { split; try done; [|lia]. rewrite Hc. unfold blocks_to, BSIZE in *. dlia. }
  assert (Ha1 : i_addrs (k_icache k1 !!! j) = a1) by (by rewrite R4, alter_at).
  assert (Hnext : n - (tot + m) = 0 \/ (off + m) / BSIZE = off / BSIZE + 1) 
    by (unfold m; destruct (Z.le_gt_cases (n - tot) (BSIZE - off mod BSIZE)); [left; lia|right; rewrite Z.min_r by lia; unfold BSIZE; dlia]).
  assert (Hend : off + m + (n - (tot + m)) = off + (n - tot)) by lia.
  destruct (IH (tot + m) (off + m) n (drop (Z.to_nat m) src) bs1 (L ++ [blk]) nb1 k1) as (k2 & bs2 & L2 & a2 & nb2 & Hrun2 & Hw2).
  { split; rewrite ?Ha1, ?Hend; try done.
    - rewrite R4. by rewrite length_alter.
    - by rewrite R4, (alter_keeps _ _ _ i_dev).
    - apply (ed_map _ _ _ _ _ _ _ _ R6).
    - pose proof (ed_fit _ _ _ _ _ _ _ _ R6). lia.
    - pose proof (ed_count _ _ _ _ _ _ _ _ R6). pose proof (ed_le _ _ _ _ _ _ _ _ R6). lia.
    - lia. }
  { lia. }
  { unfold zlen in *. rewrite length_drop. lia. }
  { lia. }
  exists k2, bs2, L2, a2, nb2. rewrite Hend in Hrun2. split; [done|]. rewrite <- Hc in Hw2.
  replace (take (Z.to_nat (n - tot)) src) with (c ++ take (Z.to_nat (n - (tot + zlen c))) (drop (Z.to_nat (zlen c)) src));
    [eapply written_trans; [done|lia|lia|exact Hw1|exact Hw2]|].
  rewrite Hc. unfold c. rewrite take_drop_commute. replace (Z.to_nat m + Z.to_nat (n - (tot + m)))%nat with (Z.to_nat (n - tot)) by lia.
  rewrite <- (take_drop (Z.to_nat m) (take (Z.to_nat (n - tot)) src)) at 2. f_equal. rewrite take_take. f_equal. lia.
Qed.
End write.

(** * Files on a volume *)

Section file.
Context (sb : superblock) (start ib : Z).
Implicit Types (m n r x o off inum : Z) (V : Z -> list Z) (a s : list Z) (nb bn : Z).

Local Notation bm := (bm sb).
Local Notation free := (free sb).
Local Notation frees := (frees sb).
Local Notation data := (data sb start ib).
Local Notation edited := (edited sb start ib).

Definition dinode_at V inum : dinode := get_dinode (V (IBLOCK inum sb)) (dinode_off inum).
Definition contents V inum : list Z := let di := dinode_at V inum in bytes_at V (di_addrs di) 0 (di_size di).

(** [x] belongs to the file: a block of data or the indirect block. *)
Definition of_file V inum x : Prop := let di := dinode_at V inum in let nb := blocks_to (di_size di) in
  (exists bn, 0 <= bn < nb /\ x = block_at V (di_addrs di) bn) \/ (NDIRECT < nb /\ x = zget (di_addrs di) NDIRECT).

(** The inode, in block [ib], and the blocks of its file. *)
Record file_ok V inum : Prop := {
  fo_num : 0 <= inum < 2 ^ 32 /\ IBLOCK inum sb = ib /\ 0 <= ib < sb_size sb;
  fo_block : ~ in_log start ib /\ ib <> bm /\ ~ free V ib;
  fo_bm : ~ in_log start bm;
  fo_dinode : dinode_ok (dinode_at V inum);
  fo_map : let di := dinode_at V inum in let nb := blocks_to (di_size di) in
    file_map (data V) V (di_addrs di) (NDIRECT <? nb) nb
}.

(** The bytes [s] have been written at [off], and nothing else has changed. *)
Record rewritten V inum off s V' : Prop := {
  rw_ok : file_ok V' inum;
  rw_contents : contents V' inum = put_bytes (contents V inum) (Z.to_nat off) s;
  rw_size : di_size (dinode_at V' inum) = Z.max (di_size (dinode_at V inum)) (off + zlen s);
  rw_type : di_type (dinode_at V' inum) = di_type (dinode_at V inum);
  rw_inodes : forall inum', 0 <= inum' < 2 ^ 32 -> inum' <> inum -> IBLOCK inum' sb = ib -> dinode_at V' inum' = dinode_at V inum';
  rw_blocks : forall x, of_file V' inum x -> of_file V inum x \/ free V x;
  rw_free : forall x, free V' x -> free V x;
  rw_count : (length (frees V) <= length (frees V') +
    2 * Z.to_nat (blocks_to (di_size (dinode_at V' inum)) - blocks_to (di_size (dinode_at V inum))))%nat;
  rw_other : forall x, ~ in_log start x -> ~ free V x -> x <> bm -> x <> ib -> ~ of_file V inum x -> V' x = V x
}.

Lemma bytes_at_eq V V' a a' o n : (forall x, o <= x < o + n -> byte_at V' a' x = byte_at V a x) -> bytes_at V' a' o n = bytes_at V a o n.
Proof. intros Hb. apply list_fmap_ext. intros t x Hx. apply Hb. apply lookup_seqZ in Hx as [-> Hx]. lia. Qed.

Lemma length_bytes_at V a o n : length (bytes_at V a o n) = Z.to_nat n.
Proof. unfold bytes_at. by rewrite length_fmap, length_seqZ. Qed.

Lemma bytes_at_slice V a o r n : 0 <= o -> 0 <= r -> o + r <= n -> take (Z.to_nat r) (drop (Z.to_nat o) (bytes_at V a 0 n)) = bytes_at V a o r.
Proof.
  intros Ho Hr Hn. replace n with (o + (r + (n - o - r))) by lia. rewrite !bytes_at_app by lia.
  rewrite drop_app_length' by (by rewrite length_bytes_at). by rewrite take_app_length' by (by rewrite length_bytes_at).
Qed.

(** * Volumes that differ in the log only *)

Section same.
Context (V V' : Z -> list Z) (Hout : forall x, ~ in_log start x -> V' x = V x).
Context (inum : Z) (Hok : file_ok V inum).

Lemma dinode_same inum' : IBLOCK inum' sb = ib -> dinode_at V' inum' = dinode_at V inum'.
Proof. intros Hi. unfold dinode_at. rewrite Hi, Hout; [done|]. apply (fo_block _ _ Hok). Qed.

Lemma free_same x : free V' x <-> free V x.
Proof. unfold AllocFacts.free. rewrite Hout; [done|]. apply (fo_bm _ _ Hok). Qed.
Lemma frees_same : frees V' = frees V.
Proof. unfold AllocFacts.frees. rewrite Hout; [done|]. apply (fo_bm _ _ Hok). Qed.

Lemma ind_same a nb : file_map (data V) V a (NDIRECT <? nb) nb -> (NDIRECT <? nb) = true -> V' (zget a NDIRECT) = V (zget a NDIRECT).
Proof. intros Hf Hg. apply Hout. by destruct (fm_ind _ _ _ _ _ Hf Hg) as (_ & _ & ? & _). Qed.

Lemma block_same a nb bn : file_map (data V) V a (NDIRECT <? nb) nb -> 0 <= bn < nb -> block_at V' a bn = block_at V a bn.
Proof. intros Hf Hb. apply block_at_kept. destruct (file_direct _ _ _ _ _ bn Hf Hb); [by left|right]. by eapply ind_same. Qed.

Lemma file_ok_same : file_ok V' inum.
Proof.
  pose proof Hok as [H1 H2 H3 H4 H5]. assert (Hd : dinode_at V' inum = dinode_at V inum) by (apply dinode_same; tauto).
  split; rewrite ?Hd, ?free_same; try done.
  eapply file_map_frame; [exact H5|by apply ind_same|]. intros x (D1 & D2 & D3). split; [done|]. by rewrite free_same.
Qed.

Lemma byte_same a nb o : file_map (data V) V a (NDIRECT <? nb) nb -> 0 <= o < nb * BSIZE -> byte_at V' a o = byte_at V a o.
Proof.
  intros Hf Ho. assert (Hb : 0 <= o / BSIZE < nb) by (unfold BSIZE in *; dlia). unfold byte_at. rewrite (block_same _ nb) by done.
  rewrite Hout; [done|]. by destruct (fm_block _ _ _ _ _ Hf _ Hb) as (_ & _ & ? & _).
Qed.

Lemma contents_same : contents V' inum = contents V inum.
Proof.
  unfold contents. rewrite dinode_same by apply (fo_num _ _ Hok). apply bytes_at_eq. intros x Hx.
  eapply byte_same; [apply (fo_map _ _ Hok)|]. unfold blocks_to, BSIZE. dlia.
Qed.

Lemma of_file_same x : of_file V' inum x <-> of_file V inum x.
Proof.
  unfold of_file. rewrite dinode_same by apply (fo_num _ _ Hok). cbv zeta. split; (intros [(bn & Hb & ->)|Hx]; [left; exists bn|by right]);
    (split; [done|]); [|symmetry]; (eapply block_same; [apply (fo_map _ _ Hok)|done]).
Qed.
End same.

Lemma rewritten_same V inum off s V' V1 V1' : file_ok V inum -> rewritten V inum off s V' -> (forall x, ~ in_log start x -> V1 x = V x) ->
  (forall x, ~ in_log start x -> V1' x = V' x) -> rewritten V1 inum off s V1'.
Proof.
  intros Hok [R1 R2 R3 R4 R5 R6 R7 R8 R9] H1 H2. destruct (fo_num _ _ Hok) as (_ & Hib & _).
  pose proof (dinode_same V V1 H1 inum Hok) as E1. pose proof (dinode_same V' V1' H2 inum R1) as E2.
  split; rewrite ?E1, ?E2 by done; try done.
  - by apply (file_ok_same V').
  - rewrite (contents_same V' V1') by done. rewrite R2. by rewrite (contents_same V V1).
  - intros inum' Ha Hb Hc. rewrite E1, E2 by done. by apply R5.
  - intros x. rewrite (of_file_same V' V1'), (of_file_same V V1), (free_same V V1 H1 inum) by done. apply R6.
  - intros x. rewrite (free_same V' V1' H2 inum), (free_same V V1 H1 inum) by done. apply R7.
  - by rewrite (frees_same V V1 H1 inum Hok), (frees_same V' V1' H2 inum R1).
  - intros x Hx. rewrite (free_same V V1 H1 inum), (of_file_same V V1) by done. intros. by rewrite H1, H2, R9.
Qed.

Lemma put_bytes_nil s (o : nat) : put_bytes s o [] = s.
Proof. unfold put_bytes. cbn [length app]. rewrite Nat.add_0_r. apply take_drop. Qed.

Lemma rewritten_none V inum off : file_ok V inum -> 0 <= off <= di_size (dinode_at V inum) -> rewritten V inum off [] V.
Proof.
  intros Hok Hoff. split; try done; [by rewrite put_bytes_nil|rewrite zlen_nil; lia|by left|lia].
Qed.

Lemma put_bytes_app s (o : nat) s1 s2 : (o <= length s)%nat -> put_bytes (put_bytes s o s1) (o + length s1) s2 = put_bytes s o (s1 ++ s2).
Proof.
  intros Ho. unfold put_bytes. rewrite take_app_ge, length_take by (rewrite length_take; lia).
  replace (o + length s1 - o `min` length s)%nat with (length s1) by lia. rewrite take_app_length.
  rewrite length_app, <- !app_assoc. do 2 f_equal. f_equal.
  rewrite drop_app_ge, length_take by (rewrite length_take; lia). rewrite drop_app_ge by lia. rewrite drop_drop. f_equal. lia.
Qed.

Lemma rewritten_trans V inum off s V1 s2 V2 : file_ok V inum -> 0 <= off <= di_size (dinode_at V inum) ->
  rewritten V inum off s V1 -> rewritten V1 inum (off + zlen s) s2 V2 -> rewritten V inum off (s ++ s2) V2.
Proof.
  intros Hok Hoff [A1 A2 A3 A4 A5 A6 A7 A8 A9] [B1 B2 B3 B4 B5 B6 B7 B8 B9].
  pose proof (zlen_app s s2) as Hz.
  pose proof (zlen_nonneg s2) as H2. split; try done.
  - rewrite B2, A2. rewrite <- put_bytes_app by (unfold contents; rewrite length_bytes_at; lia).
    f_equal. unfold zlen in *. lia.
  - lia.
  - congruence.
  - intros inum' Ha Hb Hc. by rewrite B5, A5.
  - intros x Hx. apply B6 in Hx as [Hx|Hx]; auto.
  - auto.
  - assert (blocks_to (di_size (dinode_at V inum)) <= blocks_to (di_size (dinode_at V1 inum))) by (rewrite A3; unfold blocks_to, BSIZE; dlia).
    assert (blocks_to (di_size (dinode_at V1 inum)) <= blocks_to (di_size (dinode_at V2 inum))) by (rewrite B3; unfold blocks_to, BSIZE; dlia).
    lia.
  - intros x Hl Hf Hb Hi Ho. rewrite B9; [by apply A9|done|by intros H; apply Hf, A7|done|done|]. intros H. apply A6 in H as [H|H]; auto.
Qed.

(** * From the blocks to the file *)

Lemma edited_addrs V a nb off s V' a' : file_map (data V) V a (NDIRECT <? nb) nb -> edited V a nb off s V' a' nb -> a' = a.
Proof.
  intros Hf He. pose proof (ed_map _ _ _ _ _ _ _ _ _ _ _ He) as Hf'. pose proof (fm_len _ _ _ _ _ Hf) as L1. pose proof (fm_len _ _ _ _ _ Hf') as L2.
  assert (Hz : forall x, 0 <= x < 13 -> zget a' x = zget a x).
  { intros x Hx. destruct (decide (x = NDIRECT)) as [->|Hn].
    - destruct (Z.ltb_spec NDIRECT nb) as [Hlt|Hge].
      + pose proof (ed_ind _ _ _ _ _ _ _ _ _ _ _ He Hlt) as E. by rewrite (proj2 (Z.ltb_lt NDIRECT nb)) in E.
      + by rewrite (fm_noind _ _ _ _ _ Hf), (fm_noind _ _ _ _ _ Hf').
    - change NDIRECT with 12 in *. assert (Hx2 : (x <? NDIRECT) = true) by (apply Z.ltb_lt; change NDIRECT with 12; lia).
      destruct (decide (x < nb)) as [Hlt|Hge].
      + pose proof (ed_old _ _ _ _ _ _ _ _ _ _ _ He x ltac:(lia)) as E. unfold block_at in E. by rewrite Hx2 in E.
      + pose proof (fm_zero _ _ _ _ _ Hf x) as E. pose proof (fm_zero _ _ _ _ _ Hf' x) as E'. unfold block_at in *. rewrite Hx2 in *.
        change MAXFILE with 140 in *. change NDIRECT with 12 in *. rewrite E, E'; [done|lia|left; lia|lia|left; lia]. }
  apply list_eq_same_length with 13%nat; [done|done|]. intros t x y Ht Hx Hy. specialize (Hz (Z.of_nat t) ltac:(lia)). unfold zget in Hz.
  rewrite Nat2Z.id, (list_lookup_total_correct _ _ _ Hx), (list_lookup_total_correct _ _ _ Hy) in Hz. done.
Qed.

Lemma edited_contents V a nb off s V' a' nb' n : edited V a nb off s V' a' nb' -> 0 <= off <= n -> n <= nb * BSIZE ->
  bytes_at V' a' 0 (Z.max n (off + zlen s)) = put_bytes (bytes_at V a 0 n) (Z.to_nat off) s.
Proof.
  intros [_ E1 E2 E3 _ _ _ _ _ _] Hoff Hn. pose proof (zlen_nonneg s) as H0. set (q := Z.max n (off + zlen s)).
  replace q with (off + (zlen s + (q - off - zlen s))) by lia. rewrite !bytes_at_app by lia.
  unfold put_bytes. f_equal; [|f_equal].
  - replace n with (off + (n - off)) by lia. rewrite bytes_at_app by lia. rewrite take_app_length' by (by rewrite length_bytes_at).
    apply bytes_at_eq. intros x Hx. rewrite E3, decide_False, (proj2 (Z.ltb_lt _ _)) by (unfold BSIZE in *; lia). done.
  - apply list_eq_same_length with (length s); [done|rewrite length_bytes_at; unfold zlen; lia|]. intros t x y Ht Hx Hy.
    unfold bytes_at in Hx. apply list_lookup_fmap_Some in Hx as (z & -> & Hz). apply lookup_seqZ in Hz as [-> Hz].
    rewrite E3, decide_True by (unfold BSIZE, zlen in *; lia). unfold zget. replace (Z.to_nat (0 + off + Z.of_nat t - off)) with t by lia.
    by apply list_lookup_total_correct.
  - destruct (decide (off + zlen s <= n)) as [Hle|Hgt].
    + replace (q - off - zlen s) with (n - (off + zlen s)) by lia. replace n with (off + zlen s + (n - (off + zlen s))) at 2 by lia.
      rewrite bytes_at_app by lia. rewrite drop_app_length' by (rewrite length_bytes_at; unfold zlen; lia).
      rewrite Z.add_0_l. apply bytes_at_eq. intros x Hx. rewrite E3, decide_False, (proj2 (Z.ltb_lt _ _)) by (unfold BSIZE in *; lia). done.
    + replace (q - off - zlen s) with 0 by lia. rewrite drop_ge by (rewrite length_bytes_at; unfold zlen in *; lia). done.
Qed.

(** The dinode of a file that has [n] bytes at the addresses [a]. *)
Definition sized (di : dinode) a n : dinode := mkDinode (di_type di) (di_major di) (di_minor di) (di_nlink di) n a.

Section step.
Context (V V1 V' : Z -> list Z) (inum off : Z) (s a' : list Z) (nb' : Z).
Let di := dinode_at V inum.
Let nb := blocks_to (di_size di).
Let sz' := Z.max (di_size di) (off + zlen s).
Context (Hok : file_ok V inum) (Hoff : 0 <= off <= di_size di).
Context (He : edited V (di_addrs di) nb off s V1 a' nb') (Hnb : nb' <= Z.max nb (blocks_to (off + zlen s))).
Context (Hx : forall x, x <> ib -> V' x = V1 x) (Hd : dinode_at V' inum = sized di a' sz').
Context (Hi : forall inum', 0 <= inum' < 2 ^ 32 -> inum' <> inum -> IBLOCK inum' sb = ib -> dinode_at V' inum' = dinode_at V inum').

Lemma step_blocks : nb' = blocks_to sz'.
Proof.
  pose proof (ed_le _ _ _ _ _ _ _ _ _ _ _ He) as H1. pose proof (ed_fit _ _ _ _ _ _ _ _ _ _ _ He) as H2.
  assert (blocks_to (off + zlen s) <= nb') by (unfold blocks_to, BSIZE in *; dlia).
  assert (blocks_to sz' = Z.max nb (blocks_to (off + zlen s))); [|lia].
  unfold sz', nb. destruct (Z.max_spec (di_size di) (off + zlen s)) as [[Hl ->]|[Hl ->]]; unfold blocks_to, BSIZE; dlia.
Qed.

Lemma step_free x : free V' x <-> free V1 x.
Proof. unfold AllocFacts.free. rewrite Hx; [done|]. by destruct (fo_block _ _ Hok) as (_ & H & _); intros E; apply H. Qed.
Lemma step_frees : frees V' = frees V1.
Proof. unfold AllocFacts.frees. rewrite Hx; [done|]. by destruct (fo_block _ _ Hok) as (_ & H & _); intros E; apply H. Qed.

Lemma step_ind_same : (NDIRECT <? nb') = true -> V' (zget a' NDIRECT) = V1 (zget a' NDIRECT).
Proof. intros Hg. apply Hx. by destruct (fm_ind _ _ _ _ _ (ed_map _ _ _ _ _ _ _ _ _ _ _ He) Hg) as (_ & _ & _ & _ & _ & ?). Qed.

Lemma step_block bn : 0 <= bn < nb' -> block_at V' a' bn = block_at V1 a' bn.
Proof.
  intros Hb. apply block_at_kept. destruct (file_direct _ _ _ _ _ bn (ed_map _ _ _ _ _ _ _ _ _ _ _ He) Hb); [by left|right]. by apply step_ind_same.
Qed.

Lemma step_bytes n : n <= nb' * BSIZE -> bytes_at V' a' 0 n = bytes_at V1 a' 0 n.
Proof.
  intros Hn. apply bytes_at_eq. intros o Ho. assert (Hb : 0 <= o / BSIZE < nb') by (unfold BSIZE in *; dlia).
  unfold byte_at. rewrite step_block, Hx; [done| |done].
  by destruct (fm_block _ _ _ _ _ (ed_map _ _ _ _ _ _ _ _ _ _ _ He) _ Hb) as (_ & _ & _ & _ & _ & ?).
Qed.

Lemma step_file_ok : file_ok V' inum.
Proof.
  pose proof Hok as [H1 (H2 & H2' & H2'') H3 (D1 & D2 & D3 & D4) H5]. pose proof (ed_map _ _ _ _ _ _ _ _ _ _ _ He) as Hf.
  pose proof (fm_max _ _ _ _ _ Hf) as Hm. split; [done| |done| |].
  - split; [done|]. split; [done|]. rewrite step_free. intros H. by apply H2'', (ed_free _ _ _ _ _ _ _ _ _ _ _ He).
  - rewrite Hd. split; [done|]. split; [|split; [apply (fm_len _ _ _ _ _ Hf)|apply (fm_word _ _ _ _ _ Hf)]].
    cbn [sized di_size]. rewrite step_blocks in Hm. change MAXFILE with 140 in Hm. unfold sz', blocks_to, BSIZE in *. dlia.
  - rewrite Hd. cbn [sized di_size di_addrs]. rewrite <- step_blocks. cbv zeta.
    eapply file_map_frame; [exact Hf|by apply step_ind_same|]. intros x (E1 & E2 & E3). split; [done|]. by rewrite step_free.
Qed.

Lemma step_of_file x : of_file V' inum x -> of_file V inum x \/ free V x.
Proof.
  unfold of_file. rewrite Hd. cbn [sized di_size di_addrs]. rewrite <- step_blocks. fold di nb. cbv zeta.
  intros [(bn & Hb & ->)|[Hn ->]].
  - rewrite step_block by done. destruct (decide (bn < nb)).
    + left. left. exists bn. split; [lia|]. apply (ed_old _ _ _ _ _ _ _ _ _ _ _ He). lia.
    + right. apply (ed_new _ _ _ _ _ _ _ _ _ _ _ He). lia.
  - pose proof (ed_ind _ _ _ _ _ _ _ _ _ _ _ He Hn) as E. destruct (Z.ltb_spec NDIRECT nb); [left; right|right; done]. done.
Qed.

Lemma rewritten_step : rewritten V inum off s V'.
Proof.
  pose proof (fo_map _ _ Hok) as Hf. assert (Hsz : sz' <= nb' * BSIZE) by (rewrite step_blocks; unfold blocks_to, BSIZE; dlia).
  split.
  - apply step_file_ok.
  - unfold contents. rewrite Hd. cbn [sized di_size di_addrs]. rewrite step_bytes by done.
    change (dinode_at V inum) with di. eapply edited_contents; [exact He|done|]. unfold nb, blocks_to, BSIZE. dlia.
  - by rewrite Hd.
  - by rewrite Hd.
  - done.
  - apply step_of_file.
  - intros x. rewrite step_free. apply (ed_free _ _ _ _ _ _ _ _ _ _ _ He).
  - rewrite step_frees, Hd. cbn [sized di_size]. rewrite <- step_blocks. apply (ed_count _ _ _ _ _ _ _ _ _ _ _ He).
  - intros x Hl Hfr Hb Hxi Hof. rewrite Hx by done. apply (ed_same _ _ _ _ _ _ _ _ _ _ _ He); [done|done| |].
    + intros bn Hbn ->. apply Hof. left. by exists bn.
    + intros Hn ->. apply Hof. by right.
Qed.
End step.
End file.
