(* ===== verification/FileSpec.v ===== *)
(** Writing an open file: its bytes on the disk after filewrite, and after a
    crash at any moment of it. *)
From S2P Require Import Prelude Kernel Mem Fsformat BlockFacts Spinlock Locks Console Vm Sched Sleeplock SleepFacts.
From S2P Require Import Ide Bio LruFacts BioFacts Log LogFacts CommitFacts CrashFacts TxnFacts Sample SampleFs LogSpec.
From S2P Require Import Fs File ConsoleIo ReadFacts PathFacts AllocFacts WriteFacts.

(** * The program *)

Section program.
Context `{HD : DiskDriver} (dev : Z) {HOK : DiskOk dev} (i p : nat) (pid : Z) `{HDv : Devices}.
Context (sb : superblock) (start ib : Z).
Implicit Types (k : kernel) (e : env) (b j f : nat) (m n r x o off inum : Z) (V : Z -> list Z) (a s src : list Z) (nb bn : Z).

Local Notation view := (view dev).
Local Notation in_txn := (in_txn dev i p pid).
Local Notation free := (free sb).
Local Notation frees := (frees sb).
Local Notation volume := (volume dev sb start ib).
Local Notation file_ok := (file_ok sb start ib).
Local Notation rewritten := (rewritten sb start ib).
Local Notation dinode_at := (dinode_at sb).
Local Notation written := (written dev i p pid sb start ib).

Definition of_inode (ip : inode) : dinode := mkDinode (i_type ip) (i_major ip) (i_minor ip) (i_nlink ip) (i_size ip) (i_addrs ip).

Lemma iupdate_ok j bs k e : let ip := k_icache k !!! j in let n := IBLOCK (i_inum ip) (k_sb k) in
  in_txn [] start bs k -> i_dev ip = dev -> disk_has k n -> zlen bs <= MAXOPBLOCKS -> dinode_ok (of_inode ip) ->
  exists k', iupdate j k e = Ok tt k' e /\ in_txn [] start (if decide (n ∈ bs) then bs else bs ++ [n]) k' /\ worked k k' /\
    (forall x, view k' x = if decide (x = n) then put_bytes (view k n) (dinode_off (i_inum ip)) (dinode_bytes (of_inode ip)) else view k x).
Proof.
  intros ip n Htx Hdev Hn Hbs Hok. set (g := fun d => put_bytes d (dinode_off (i_inum ip)) (dinode_bytes (of_inode ip))).
  assert (Hin : (dinode_off (i_inum ip) + 64 <= 512)%nat) by (unfold dinode_off; change IPB with 8; change sizeof_dinode with 64; dlia).
  destruct (update_ok dev i p pid [] start bs n g k e Htx Hn Hbs) as (k' & Hrun & Htx' & Hw & Hv & _); [simpl; lia|set_solver| |].
  { intros d Hd. unfold g. rewrite length_put_bytes; [done|]. rewrite length_dinode_bytes by done. lia. }
  exists k'. split; [|done]. rewrite <- Hrun. unfold iupdate, get_inode, update. do 2 step. fold ip. rewrite Hdev. fold n.
  destruct (hold_ok dev i p pid [] start bs n k e Htx Hn) as (b & k1 & Hrun1 & _ & Hw1 & _); [lia|simpl; lia|set_solver|].
  rewrite !(bind_ok _ _ _ _ _ _ _ Hrun1). step.
  assert (Hi1 : k_icache k1 = k_icache k) by exact (f_equal k_icache (wk_rest _ _ Hw1)). by rewrite Hi1.
Qed.

(** A write of [n] bytes at [off], in a transaction that has done nothing yet,
    of a locked inode, within the sizes filewrite keeps to. *)
Record writes j inum off n k : Prop := {
  ws_slot : (j < length (k_icache k))%nat;
  ws_txn : in_txn [] start [] k;
  ws_volume : volume (view k) k;
  ws_file : file_ok (view k) inum;
  ws_dev : i_dev (k_icache k !!! j) = dev;
  ws_inum : i_inum (k_icache k !!! j) = inum;
  ws_loaded : k_icache k !!! j = loaded (dinode_at (view k) inum) (k_icache k !!! j);
  ws_type : di_type (dinode_at (view k) inum) <> T_DEV;
  ws_off : 0 <= off <= di_size (dinode_at (view k) inum);
  ws_n : 0 < n <= write_max;
  ws_max : off + n <= MAXFILE * BSIZE;
  ws_supply : (2 * Z.to_nat (blocks_to (off + n) - blocks_to (di_size (dinode_at (view k) inum))) <= length (frees (view k)))%nat
}.

Lemma writes_fields j inum off n k : writes j inum off n k -> let ip := k_icache k !!! j in let di := dinode_at (view k) inum in
  i_type ip = di_type di /\ i_size ip = di_size di /\ i_addrs ip = di_addrs di.
Proof. intros Hw. pose proof (ws_loaded _ _ _ _ _ Hw) as E. cbv zeta. by rewrite E. Qed.

Lemma writes_writable j inum off n k : writes j inum off n k ->
  writable dev i p pid sb start ib j [] [] (blocks_to (di_size (dinode_at (view k) inum))) off n k.
Proof.
  intros Hw. destruct (writes_fields _ _ _ _ _ Hw) as (_ & _ & Ha). pose proof Hw as [W1 W2 W3 W4 W5 W6 W7 W8 W9 W10 W11 W12].
  split; rewrite ?Ha; try done.
  - apply (fo_map _ _ _ _ _ W4).
  - unfold blocks_to, BSIZE. dlia.
  - split; set_solver.
  - change write_max with 1536 in W10. change (zlen (@nil Z)) with 0. split; [lia|]. intros _. unfold blocks_to, BSIZE. dlia.
Qed.

(** The rounds of writei, and what is left to do then. *)
Lemma writei_rounds j inum off n src k e : writes j inum off n k -> n <= zlen src -> let sz := di_size (dinode_at (view k) inum) in
  exists k1 bs L a' nb', written j (blocks_to sz) off (take (Z.to_nat n) src) k k1 bs L a' nb' /\
    writei j src off n k e = (when (sz <? off + n) (upd_inode j (fun ip => ip <| i_size := off + n |>) ;; iupdate j) ;; ret n) k1 e.
Proof.
  intros Hw Hsrc sz. destruct (writes_fields _ _ _ _ _ Hw) as (Hty & Hsz & Ha). pose proof Hw as [W1 W2 W3 W4 W5 W6 W7 W8 W9 W10 W11 W12].
  change write_max with 1536 in W10. change MAXFILE with 140 in *. unfold BSIZE in W11.
  destruct (writei_loop_ok dev i p pid sb start ib j e (S (Z.to_nat n)) 0 off n src [] [] (blocks_to sz) k) as
    (k1 & bs & L & a' & nb' & Hrun & Hwn); [rewrite Z.sub_0_r; by apply writes_writable|lia|lia|lia|].
  rewrite Z.sub_0_r in Hrun, Hwn. exists k1, bs, L, a', nb'. split; [done|].
  unfold writei, get_inode. step. rewrite Hty, Hsz, (proj2 (Z.eqb_neq _ _)) by done. fold sz.
  rewrite (u32_small (off + n)) by lia. rewrite (proj2 (Z.ltb_ge sz off)), (proj2 (Z.ltb_ge (off + n) off)) by lia.
  change (MAXFILE * BSIZE) with 71680. rewrite (proj2 (Z.ltb_ge 71680 _)) by lia. cbn [orb].
  rewrite (bind_ok _ _ _ _ _ _ _ Hrun). step. rewrite (proj2 (Z.ltb_lt 0 n)) by lia. cbn [andb].
  assert (Hs1 : i_size (k_icache k1 !!! j) = sz) by (by rewrite (wn_icache _ _ _ _ _ _ _ _ _ _ _ _ _ _ _ _ _ Hwn), (alter_keeps _ _ _ i_size)).
  by rewrite Hs1.
Qed.

(** The write is done, inside its transaction. *)
Record file_written j inum off s k k' bs : Prop := {
  fi_txn : in_txn [] start bs k';
  fi_volume : volume (view k') k';
  fi_icache : k_icache k' = alter (loaded (dinode_at (view k') inum)) j (k_icache k);
  fi_worked : worked (k <| k_icache := k_icache k' |>) k';
  fi_rewritten : rewritten (view k) inum off s (view k');
  fi_len : zlen bs <= MAXOPBLOCKS + 1;
  fi_blocks : forall x, x ∈ bs -> ~ in_log start x /\ 0 <= x < sb_size sb
}.

Lemma inode_kept V inum a nb off s V' a' nb' : file_ok V inum -> file_map (data sb start ib V) V a (NDIRECT <? nb) nb ->
  edited sb start ib V a nb off s V' a' nb' -> V' ib = V ib.
Proof.
  intros Hok Hf He. destruct (fo_block _ _ _ _ _ Hok) as (_ & H1 & H2). apply (ed_same _ _ _ _ _ _ _ _ _ _ _ He); [done|done| |].
  - intros bn Hb E. destruct (fm_block _ _ _ _ _ Hf bn Hb) as (_ & _ & _ & _ & _ & H). by apply H.
  - intros Hn E. destruct (fm_ind _ _ _ _ _ Hf) as (_ & _ & _ & _ & _ & H); [by apply Z.ltb_lt|]. by apply H.
Qed.

Lemma logging_blocks k bs L a nb : volume (view k) k -> file_map (data sb start ib (view k)) (view k) a (NDIRECT <? nb) nb ->
  logging sb (view k) a nb bs L -> forall x, x ∈ bs -> ~ in_log start x /\ 0 <= x < sb_size sb.
Proof.
  intros Hvo Hf [Hin HL] x Hx. apply Hin in Hx as [->|[[Hn ->]|Hx]].
  - split; apply (vo_bm _ _ _ _ _ _ Hvo).
  - destruct (fm_ind _ _ _ _ _ Hf) as (? & _ & ? & _); [by apply Z.ltb_lt|]. done.
  - apply HL in Hx as (bn & Hb & ->). by destruct (fm_block _ _ _ _ _ Hf bn Hb) as (? & _ & ? & _).
Qed.

Lemma alter_loaded (t : list inode) j (g : inode -> inode) di : g (t !!! j) = loaded di (t !!! j) -> alter g j t = alter (loaded di) j t.
Proof. intros Hg. apply list_alter_ext; [|done]. intros ip Hip. by rewrite <- (list_lookup_total_correct _ _ _ Hip). Qed.

Lemma loaded_loaded di di' ip : loaded di (loaded di' ip) = loaded di ip.
Proof. done. Qed.

(** Inside the file: the inode stays as it is. *)
Lemma written_inside j inum off n s k k1 bs L a' nb' : let sz := di_size (dinode_at (view k) inum) in
  writes j inum off n k -> zlen s = n -> written j (blocks_to sz) off s k k1 bs L a' nb' -> off + n <= sz ->
  file_written j inum off s k k1 bs.
Proof.
  intros sz Hw Hs Hwn Hle. destruct (writes_fields _ _ _ _ _ Hw) as (_ & _ & Ha). pose proof Hw as [_ _ _ Hok _ _ Hld _ Hoff _ _ _].
  pose proof Hwn as [N1 N2 N3 N4 N5 N6 N7 N8]. set (di := dinode_at (view k) inum) in *. rewrite Ha in N5. pose proof (fo_map _ _ _ _ _ Hok) as Hf.
  fold di sz in Hf. cbv zeta in Hf.
  assert (Hnb : nb' = blocks_to sz) by (pose proof (ed_le _ _ _ _ _ _ _ _ _ _ _ N5); rewrite Hs in N6; unfold blocks_to, BSIZE in *; dlia).
  subst nb'. assert (Haa : a' = di_addrs di) by (by eapply edited_addrs). subst a'.
  assert (Hib : view k1 ib = view k ib) by (by eapply inode_kept).
  assert (Hd : forall inum', IBLOCK inum' sb = ib -> dinode_at (view k1) inum' = dinode_at (view k) inum')
    by (intros inum' Hi; unfold WriteFacts.dinode_at; by rewrite Hi, Hib).
  destruct (fo_num _ _ _ _ _ Hok) as (_ & Hnum & _). split; try done.
  - rewrite N3. apply alter_loaded. rewrite Hd by done. fold di. rewrite <- Hld. rewrite <- Ha. by destruct (k_icache k !!! j).
  - eapply (rewritten_step sb start ib (view k) (view k1) (view k1)); [done|done|exact N5|done|done| |].
    + rewrite Hd by done. fold di sz. rewrite Z.max_l by lia. by destruct di.
    + intros inum' _ _ Hi. by apply Hd.
  - pose proof (logging_len _ _ _ _ _ _ _ _ _ _ _ _ N7 N1). unfold MAXOPBLOCKS. lia.
  - by apply (logging_blocks k1 bs L (di_addrs di) (blocks_to sz)); [|apply (ed_map _ _ _ _ _ _ _ _ _ _ _ N5)|].
Qed.

Lemma inode_rewritten V inum off s V1 a' nb' V' : let di := dinode_at V inum in let di' := sized di a' (off + zlen s) in
  file_ok V inum -> 0 <= off <= di_size di -> length (V ib) = 512%nat ->
  edited sb start ib V (di_addrs di) (blocks_to (di_size di)) off s V1 a' nb' -> nb' <= Z.max (blocks_to (di_size di)) (blocks_to (off + zlen s)) ->
  di_size di < off + zlen s -> dinode_ok di' ->
  (forall x, V' x = if decide (x = ib) then put_bytes (V1 ib) (dinode_off inum) (dinode_bytes di') else V1 x) ->
  rewritten V inum off s V' /\ dinode_at V' inum = di'.
Proof.
  intros di di' Hok Hoff Hlen He Hnb Hlt Hdi Hv. destruct (fo_num _ _ _ _ _ Hok) as (Hn0 & Hnum & _).
  pose proof (inode_kept _ _ _ _ _ _ _ _ _ Hok (fo_map _ _ _ _ _ Hok) He) as Hib. rewrite Hib in Hv.
  assert (Hin : forall q, (dinode_off q + 64 <= 512)%nat) by (intros q; unfold dinode_off; change IPB with 8; change sizeof_dinode with 64; dlia).
  assert (Hd : dinode_at V' inum = di').
  { unfold WriteFacts.dinode_at. rewrite Hnum, Hv, decide_True by done. apply get_dinode_put; [done|]. by rewrite Hlen. }
  split; [|done]. eapply (rewritten_step sb start ib V V1 V'); [done|done|exact He|done| | |].
  - intros x Hx. by rewrite Hv, decide_False.
  - fold di. by rewrite Z.max_r by lia.
  - intros q Hq Hne Hqi. unfold WriteFacts.dinode_at. rewrite Hqi, Hv, decide_True by done. apply get_dinode_put_ne; [done|by rewrite Hlen|].
    rewrite <- Hnum in Hqi. unfold IBLOCK, dinode_off, u32 in *. change IPB with 8 in *. change sizeof_dinode with 64.
    assert (inum / 8 = q / 8) by dlia. assert (inum mod 8 <> q mod 8) by dlia. dlia.
Qed.

(** Beyond its end: the inode gets the new size and addresses. *)
Lemma written_beyond j inum off n s k k1 bs L a' nb' e : let sz := di_size (dinode_at (view k) inum) in
  writes j inum off n k -> zlen s = n -> written j (blocks_to sz) off s k k1 bs L a' nb' -> sz < off + n ->
  exists k' bs', (upd_inode j (fun ip => ip <| i_size := off + n |>) ;; iupdate j) k1 e = Ok tt k' e /\ file_written j inum off s k k' bs'.
Proof.
  intros sz Hw Hs Hwn Hlt. destruct (writes_fields _ _ _ _ _ Hw) as (_ & _ & Ha). pose proof Hw as [Hj _ _ Hok Hdev Hinum Hld _ Hoff _ _ _].
  pose proof Hwn as [N1 N2 N3 N4 N5 N6 N7 N8]. set (di := dinode_at (view k) inum) in *. rewrite Ha in N5.
  set (di' := sized di a' (off + n)). set (t := alter (loaded di') j (k_icache k)). set (kA := k1 <| k_icache := t |>).
  assert (Ht : alter (fun ip => ip <| i_size := off + n |>) j (k_icache k1) = t).
  { rewrite N3. etrans; [exact (list_alter_alter_eq _ _ _ j)|]. apply alter_loaded. cbn beta. rewrite Hld. by destruct (k_icache k !!! j). }
  assert (HtA : k_icache kA !!! j = loaded di' (k_icache k !!! j)) by (by apply alter_at).
  destruct (fo_num _ _ _ _ _ Hok) as (Hn0 & Hnum & Hibr). pose proof (ed_map _ _ _ _ _ _ _ _ _ _ _ N5) as Hf'.
  assert (Hsb : k_sb kA = sb) by apply (vo_sb _ _ _ _ _ _ N2). assert (HnA : i_inum (k_icache kA !!! j) = inum) by (by rewrite HtA).
  pose proof (logging_len _ _ _ _ _ _ _ _ _ _ _ _ N7 N1) as Hlen. pose proof (fm_max _ _ _ _ _ Hf') as Hm.
  assert (Hdi : dinode_ok di').
  { destruct (fo_dinode _ _ _ _ _ Hok) as (D1 & _). split; [done|]. split; [|split; [apply (fm_len _ _ _ _ _ Hf')|apply (fm_word _ _ _ _ _ Hf')]].
    pose proof (ed_fit _ _ _ _ _ _ _ _ _ _ _ N5). change MAXFILE with 140 in Hm. cbn [di' sized di_size]. unfold BSIZE in *. lia. }
  destruct (iupdate_ok j bs kA e) as (k' & Hrun & Htx' & Hwk & Hv); rewrite ?HnA, ?Hsb, ?Hnum in *.
  { by apply txn_icache. } { by rewrite HtA. } { apply (disk_has_ide k1); [done|]. by apply (vo_has _ _ _ _ _ _ N2). }
  { unfold MAXOPBLOCKS. lia. } { by rewrite HtA. }
  change (forall x, view k' x = if decide (x = ib) then put_bytes (view k1 ib) (dinode_off inum) (dinode_bytes (of_inode (k_icache kA !!! j))) else view k1 x) in Hv.
  rewrite HtA in Hv. change (of_inode (loaded di' _)) with di' in Hv.
  assert (Hi' : k_icache k' = t) by exact (f_equal k_icache (wk_rest _ _ Hwk)).
  assert (Hwk' : worked (k <| k_icache := t |>) k') by (eapply worked_trans; [|exact Hwk]; by apply (worked_icache _ _ t) in N4).
  assert (HR : rewritten (view k) inum off s (view k') /\ dinode_at (view k') inum = di').
  { unfold di' in *. rewrite <- Hs in *. eapply inode_rewritten; [done|done|apply (vo_len _ _ _ _ _ _ (ws_volume _ _ _ _ _ Hw))|exact N5|done|done|done|done]. }
  destruct HR as [HR HD']. eexists k', _. split; [|split; [exact Htx'| | | |done| |]].
  - rewrite (bind_ok _ _ _ _ _ _ _ (upd_inode_eq _ _ k1 e)), Ht. exact Hrun.
  - apply (volume_next dev sb start ib (view k) _ k); [apply (ws_volume _ _ _ _ _ Hw)|apply (rw_free _ _ _ _ _ _ _ _ HR)| | |].
    + exact (f_equal k_sb (wk_rest _ _ Hwk')).
    + apply (worked_disk _ _ Hwk').
    + intros x. eapply view_length, (it_cache _ _ _ _ _ _ _ _ Htx').
  - by rewrite Hi', HD'.
  - by rewrite Hi'.
  - case_decide; [unfold MAXOPBLOCKS; lia|]. unfold MAXOPBLOCKS, zlen in *. rewrite length_app. simpl. lia.
  - intros x Hx. assert (Hx' : x ∈ bs \/ x = ib) by (case_decide; set_solver). destruct Hx' as [Hx'| ->].
    + by eapply logging_blocks.
    + split; [apply (fo_block _ _ _ _ _ Hok)|done].
Qed.

(** writei. *)
Lemma writei_ok j inum off n src k e : writes j inum off n k -> n <= zlen src ->
  exists k' bs, writei j src off n k e = Ok n k' e /\ file_written j inum off (take (Z.to_nat n) src) k k' bs.
Proof.
  intros Hw Hsrc. destruct (writei_rounds j inum off n src k e Hw Hsrc) as (k1 & bs & L & a' & nb' & Hwn & Hrun).
  pose proof (ws_n _ _ _ _ _ Hw) as Hn. assert (Hs : zlen (take (Z.to_nat n) src) = n) by (unfold zlen in *; rewrite length_take; lia).
  rewrite Hrun. set (sz := di_size _) in *. destruct (Z.ltb_spec sz (off + n)) as [Hlt|Hle]; cbn [when].
  - destruct (written_beyond _ _ _ _ _ _ _ _ _ _ _ e Hw Hs Hwn Hlt) as (k' & bs' & Hrun' & Hfw). exists k', bs'. split; [|done].
    by rewrite (bind_ok _ _ _ _ _ _ _ Hrun').
  - exists k1, bs. split; [done|]. by eapply written_inside.
Qed.

(** * Locks, tables and the disk around it *)

(** What a transaction leaves alone until it ends. *)
Definition world k : gmap (Z * Z) (list Z) * list dwrite * ide * superblock * list file :=
  (k_disk k, k_dwrites k, k_ide k, k_sb k, k_ftable k).

Lemma worked_world k k' : worked k k' -> world k' = world k.
Proof. intros Hw. exact (f_equal world (wk_rest _ _ Hw)). Qed.
Lemma moved_world k k' : moved dev i p pid k k' -> world k' = world k.
Proof. intros Hm. exact (f_equal world (mv_rest _ _ _ _ _ _ Hm)). Qed.

Lemma txn_moved bs k k' : in_txn [] start bs k -> moved dev i p pid k k' -> in_txn [] start bs k'.
Proof.
  intros [H1 H2 H3 H4 H5 H6 H7 H8 H9] [[R1 R2 _] Q Vw Pn]. assert (Hl : k_log k' = k_log k) by exact (f_equal k_log Q).
  split; rewrite ?Hl; try done; [|set_solver]. intros x. by rewrite Pn.
Qed.

Lemma txn_ftable bs k t : in_txn [] start bs k -> in_txn [] start bs (k <| k_ftable := t |>).
Proof.
  intros [H1 H2 H3 H4 H5 H6 H7 H8 H9]. split; try done; [|by destruct H2]. eapply thread_same; [..|exact H1]; done.
Qed.

(** The same blocks, the same devices. *)
Lemma volume_view V V' k k' : volume V k -> k_ide k' = k_ide k -> k_sb k' = k_sb k -> (forall x, V' x = V x) -> volume V' k'.
Proof.
  intros Hvo Hi Hs Hv. apply (volume_next dev sb start ib V _ k); [done| |done|done|].
  - intros x. unfold AllocFacts.free. by rewrite Hv.
  - intros x. rewrite Hv. apply (vo_len _ _ _ _ _ _ Hvo).
Qed.

(** * An open file *)

(** Entry [f] of the table is open on the file [inum], and nobody is in the
    middle of anything. *)
Record opened f inum k : Prop := {
  op_rest : at_rest dev i p pid start k;
  op_slot : (f < length (k_ftable k))%nat /\ (f_ip (k_ftable k !!! f) < length (k_icache k))%nat;
  op_kind : f_type (k_ftable k !!! f) = FD_INODE;
  op_ref : 1 <= i_ref (k_icache k !!! f_ip (k_ftable k !!! f));
  op_unlocked : unlocked k (f_ip (k_ftable k !!! f));
  op_inode : i_dev (k_icache k !!! f_ip (k_ftable k !!! f)) = dev /\ i_inum (k_icache k !!! f_ip (k_ftable k !!! f)) = inum;
  op_valid : i_valid (k_icache k !!! f_ip (k_ftable k !!! f)) <> 0 ->
    k_icache k !!! f_ip (k_ftable k !!! f) = loaded (dinode_at (view k) inum) (k_icache k !!! f_ip (k_ftable k !!! f));
  op_volume : volume (view k) k;
  op_ok : file_ok (view k) inum;
  op_type : di_type (dinode_at (view k) inum) <> 0 /\ di_type (dinode_at (view k) inum) <> T_DEV;
  op_off : 0 <= f_off (k_ftable k !!! f) <= di_size (dinode_at (view k) inum)
}.

(** Room for [n] more bytes at the offset: in the file and on the disk. *)
Definition fits f inum n k : Prop := let off := f_off (k_ftable k !!! f) in
  off + n <= MAXFILE * BSIZE /\
  (2 * Z.to_nat (blocks_to (off + n) - blocks_to (di_size (dinode_at (view k) inum))) <= length (frees (view k)))%nat.

(** Locking its inode, with nothing changed since. *)
Lemma opened_ilock f inum k k1 e : let j := f_ip (k_ftable k !!! f) in let di := dinode_at (view k) inum in
  opened f inum k -> reader dev i p pid k1 -> k_icache k1 = k_icache k -> world k1 = world k -> ilocks_kept k k1 -> (forall x, view k1 x = view k x) ->
  exists k2, ilock (Some j) k1 e = Ok tt k2 e /\ moved dev i p pid k1 k2 /\ locked_me pid k2 j /\ k_icache k2 = alter (loaded di) j (k_icache k).
Proof.
  intros j di [O1 [O2 O2'] O3 O4 O5 [O6 O6'] O7 O8 O9 [O10 O10'] O11] Hr Hi1 HW1 Hlk Hv1.
  destruct (fo_num _ _ _ _ _ O9) as (Hn0 & Hnum & Hibr). fold di in O7, O10, O10', O11. fold j in O2', O4, O5, O6, O6', O7.
  injection HW1 as _ _ Hide1 Hsb1 _. rewrite (vo_sb _ _ _ _ _ _ O8) in Hsb1.
  assert (Hdi : get_dinode (view k1 ib) (dinode_off inum) = di) by (unfold di, WriteFacts.dinode_at; by rewrite Hnum, Hv1).
  destruct (ilock_ok dev i p pid j k1 e) as (k2 & Hrun2 & Hm & Hlk2 & Hi2 & _); rewrite ?Hi1, ?Hsb1, ?O6', ?Hnum, ?Hdi in *; try done.
  { unfold unlocked. rewrite Hlk. exact O5. }
  { intros _. split; [done|]. split; [|done]. apply (disk_has_ide k); [done|]. by apply (vo_has _ _ _ _ _ _ O8). }
  exists k2. split; [done|]. split; [done|]. split; [done|].
  rewrite Hi2. destruct (Z.eqb_spec (i_valid (k_icache k !!! j)) 0) as [|Hv]; [done|].
  symmetry. etrans; [|by apply (list_alter_id (fun ip => ip) (k_icache k) j)]. apply list_alter_ext; [|done]. intros ip Hip.
  specialize (O7 Hv). by rewrite (list_lookup_total_correct _ _ _ Hip) in O7.
Qed.

Lemma opened_lock f inum n k e : let j := f_ip (k_ftable k !!! f) in let off := f_off (k_ftable k !!! f) in
  opened f inum k -> fits f inum n k -> 0 < n <= write_max ->
  exists k1 k2, begin_op k e = Ok tt k1 e /\ ilock (Some j) k1 e = Ok tt k2 e /\ writes j inum off n k2 /\ locked_me pid k2 j /\
    world k2 = world k /\ k_icache k2 = alter (loaded (dinode_at (view k) inum)) j (k_icache k) /\ (forall x, view k2 x = view k x).
Proof.
  intros j off Hop [F1 F2] Hn. destruct (begin_op_ok dev i p pid start k e (op_rest _ _ _ Hop)) as (k1 & Hrun1 & Htx1 & Hw1 & Hv1).
  assert (Hi1 : k_icache k1 = k_icache k) by exact (f_equal k_icache (wk_rest _ _ Hw1)). pose proof (worked_world _ _ Hw1) as HW1.
  destruct (opened_ilock f inum k k1 e Hop) as (k2 & Hrun2 & Hm & Hlk & Ht); try done.
  { by apply (txn_reader dev i p pid start [] k1). } { exact (wk_inode _ _ Hw1). }
  pose proof Hop as [O1 [O2 O2'] O3 O4 O5 [O6 O6'] O7 O8 O9 [O10 O10'] O11]. set (di := dinode_at (view k) inum) in *. fold j in Ht, O2', O6, O6'.
  assert (Hv2 : forall x, view k2 x = view k x) by (intros x; by rewrite (mv_view _ _ _ _ _ _ Hm)).
  assert (HW2 : world k2 = world k) by (rewrite <- HW1; by apply moved_world).
  exists k1, k2. split; [done|]. split; [done|]. split; [|done].
  assert (Hd2 : dinode_at (view k2) inum = di) by (unfold WriteFacts.dinode_at; by rewrite Hv2).
  assert (Hip : k_icache k2 !!! j = loaded di (k_icache k !!! j)) by (rewrite Ht; by apply alter_at).
  assert (Hf2 : frees (view k2) = frees (view k)) by (unfold AllocFacts.frees; by rewrite Hv2).
  split; rewrite ?Hd2, ?Hip, ?Hf2.
  - by rewrite Ht, length_alter.
  - by apply (txn_moved [] k1).
  - apply (volume_view (view k) _ k); [done|by injection HW2|by injection HW2|done].
  - by apply (file_ok_same sb start ib (view k)).
  - exact O6.
  - exact O6'.
  - symmetry. apply loaded_loaded.
  - exact O10'.
  - exact O11.
  - exact Hn.
  - exact F1.
  - exact F2.
Qed.

(** After the write: the offset, the lock. *)
Lemma opened_unlock f j inum off s k k3 bs n e : file_written j inum off s k k3 bs -> locked_me pid k j -> (j < length (k_icache k))%nat ->
  1 <= i_ref (k_icache k !!! j) -> let t := alter (fun fl => fl <| f_off ::= fun o => u32 (o + n) |>) f (k_ftable k3) in
  exists k5, iunlock (Some j) (k3 <| k_ftable := t |>) e = Ok tt k5 e /\ in_txn [] start bs k5 /\ unlocked k5 j /\
    k_icache k5 = k_icache k3 /\ world k5 = world (k3 <| k_ftable := t |>) /\ (forall x, view k5 x = view k3 x).
Proof.
  intros [F1 F2 F3 F4 F5 F6 F7] Hlk Hj Href t. set (k4 := k3 <| k_ftable := t |>).
  assert (Htx4 : in_txn [] start bs k4) by (by apply txn_ftable).
  destruct (iunlock_ok dev i p pid j k4 e) as (k5 & Hrun & Hm & Hun & Hi5 & _).
  { by apply (txn_reader dev i p pid start bs k4). }
  { unfold locked_me. change (slock_of k4 (S_inode j)) with (slock_of k3 (S_inode j)). rewrite (wk_inode _ _ F4). exact Hlk. }
  { change (k_icache k4) with (k_icache k3). rewrite F3. by rewrite (alter_at _ (loaded _)). }
  exists k5. split; [done|]. split; [by apply (txn_moved bs k4)|]. split; [done|]. split; [done|].
  split; [by apply moved_world|]. intros x. apply (mv_view _ _ _ _ _ _ Hm).
Qed.

(** What recovery finds on the disk when the machine stops after some of the
    writes [ws]. *)
Definition recovers k (ws : list dwrite) (P : (Z -> list Z) -> Prop) : Prop :=
  forall ws1, ws1 `prefix_of` ws ->
  forall i' p' pid' kb eb, booted dev i' p' pid' start kb -> k_ide kb = k_ide k -> k_disk kb = replay ws1 (k_disk k) ->
    exists kb', recover_from_log kb eb = Ok tt kb' eb /\ P (disk_sector kb' dev).

Lemma recovers_app k ws k1 ws1 (P : (Z -> list Z) -> Prop) : k_ide k1 = k_ide k -> k_disk k1 = replay ws (k_disk k) ->
  recovers k ws P -> recovers k1 ws1 P -> recovers k (ws ++ ws1) P.
Proof.
  intros Hi Hd H0 H1 l [c Hc] i' p' pid' kb eb Hb Hib Hdb. apply app_eq_inv in Hc as [(l' & -> & ->)|(l' & -> & ->)].
  - apply (H0 l) with i' p' pid'; [by exists l'|done|done|done].
  - apply (H1 l') with i' p' pid'; [by exists c|done|congruence|]. rewrite Hdb, Hd. unfold replay. apply foldl_app.
Qed.

(** The other entries of the table, and the inode of this one. *)
Definition others_kept f k k' : Prop := length (k_ftable k') = length (k_ftable k) /\ f_ip (k_ftable k' !!! f) = f_ip (k_ftable k !!! f) /\
  forall g, g <> f -> k_ftable k' !!! g = k_ftable k !!! g.

Lemma others_trans f k1 k2 k3 : others_kept f k1 k2 -> others_kept f k2 k3 -> others_kept f k1 k3.
Proof. intros (A1 & A2 & A3) (B1 & B2 & B3). split; [congruence|]. split; [congruence|]. intros g Hg. by rewrite B3, A3. Qed.

(** One transaction of filewrite: [n] bytes, after which the file is open as
    before, the bytes written and the offset past them. *)
Record chunk f inum n s k ws k' : Prop := {
  ch_opened : opened f inum k';
  ch_others : others_kept f k k';
  ch_off : f_off (k_ftable k' !!! f) = f_off (k_ftable k !!! f) + n;
  ch_rewritten : rewritten (view k) inum (f_off (k_ftable k !!! f)) s (view k');
  ch_dwrites : k_dwrites k' = k_dwrites k ++ ws;
  ch_disk : k_disk k' = replay ws (k_disk k);
  ch_ide : k_ide k' = k_ide k;
  ch_recovers : recovers k ws (fun D => rewritten (view k) inum (f_off (k_ftable k !!! f)) [] D \/
                                        rewritten (view k) inum (f_off (k_ftable k !!! f)) s D)
}.

(** The file is open as before, at another offset. *)
Lemma opened_after f inum k k5 off' : let fl := k_ftable k !!! f in let di := dinode_at (view k5) inum in
  opened f inum k -> at_rest dev i p pid start k5 -> unlocked k5 (f_ip fl) -> k_icache k5 = alter (loaded di) (f_ip fl) (k_icache k) ->
  length (k_ftable k5) = length (k_ftable k) -> k_ftable k5 !!! f = fl <| f_off := off' |> -> volume (view k5) k5 -> file_ok (view k5) inum ->
  di_type di = di_type (dinode_at (view k) inum) -> 0 <= off' <= di_size di -> opened f inum k5.
Proof.
  intros fl di [O1 [O2 O2'] O3 O4 O5 [O6 O6'] O7 O8 O9 [O10 O10'] O11] Hr Hun Hic Hlen Hfl Hvo Hok Hty Hoff. fold fl in O2', O3, O4, O6, O6'.
  assert (Hip : k_icache k5 !!! f_ip fl = loaded di (k_icache k !!! f_ip fl)) by (rewrite Hic; by apply alter_at).
  assert (Hfi : f_ip (k_ftable k5 !!! f) = f_ip fl) by (by rewrite Hfl). assert (Hfo : f_off (k_ftable k5 !!! f) = off') by (by rewrite Hfl).
  split; rewrite ?Hfi, ?Hfo, ?Hip; [done| |by rewrite Hfl|done|done|done| |done|done|fold di; by rewrite Hty|done].
  - by rewrite Hlen, Hic, length_alter.
  - intros _. symmetry. apply loaded_loaded.
Qed.

Lemma reopened f inum n s k k2 k3 k6 bs : let fl := k_ftable k !!! f in let j := f_ip fl in let off := f_off fl in
  opened f inum k -> zlen s = n -> 0 < n -> off + n < 2 ^ 32 -> k_icache k2 = alter (loaded (dinode_at (view k) inum)) j (k_icache k) ->
  file_written j inum off s k2 k3 bs -> rewritten (view k) inum off s (view k6) -> (forall x, ~ in_log start x -> view k6 x = view k3 x) ->
  at_rest dev i p pid start k6 -> unlocked k6 j -> k_icache k6 = k_icache k3 ->
  k_ftable k6 = alter (fun y => y <| f_off ::= fun o => u32 (o + n) |>) f (k_ftable k) -> k_sb k6 = k_sb k3 -> k_ide k6 = k_ide k3 ->
  opened f inum k6 /\ k_ftable k6 !!! f = fl <| f_off := off + n |>.
Proof.
  intros fl j off Hop Hs Hn Hmax Hi2 [F1 F2 F3 F4 F5 F6 F7] HR HV Hr Hun Hi6 Hft Hsb Hide.
  pose proof (rw_ok _ _ _ _ _ _ _ _ HR) as Hok6. destruct (fo_num _ _ _ _ _ Hok6) as (_ & Hnum & _). pose proof (op_off _ _ _ Hop) as Hoff.
  fold fl off in Hoff. assert (Hfl : k_ftable k6 !!! f = fl <| f_off := off + n |>).
  { rewrite Hft, alter_at by apply (op_slot _ _ _ Hop). fold fl. rewrite <- (u32_small (off + n)) by lia. reflexivity. }
  assert (Hd : dinode_at (view k6) inum = dinode_at (view k3) inum).
  { unfold WriteFacts.dinode_at. rewrite HV; [done|]. rewrite Hnum. apply (fo_block _ _ _ _ _ Hok6). }
  split; [|done]. apply (opened_after f inum k k6 (off + n)); try done.
  - rewrite Hi6, F3, Hi2, Hd. exact (list_alter_alter_eq _ _ _ j).
  - by rewrite Hft, length_alter.
  - apply (volume_next dev sb start ib (view k3) _ k3); [done| |done|done|].
    + intros x. unfold AllocFacts.free. rewrite HV; [done|]. apply (fo_bm _ _ _ _ _ Hok6).
    + intros x. eapply view_length, (ar_cache _ _ _ _ _ _ Hr).
  - apply (rw_type _ _ _ _ _ _ _ _ HR).
  - rewrite (rw_size _ _ _ _ _ _ _ _ HR). lia.
Qed.

Lemma chunk_ok f inum src n k e : opened f inum k -> fits f inum n k -> 0 < n <= write_max -> n <= zlen src ->
  exists k' ws, (forall A (rest : Z -> K A),
    (begin_op ;; ilock (Some (f_ip (k_ftable k !!! f))) ;; fl <- get_file f ;; r <- writei (f_ip fl) src (f_off fl) n ;;
     when (0 <? i32 r) (upd_file f (fun y => y <| f_off ::= fun o => u32 (o + i32 r) |>)) ;;
     iunlock (Some (f_ip fl)) ;; end_op ;; rest (i32 r)) k e = rest n k' e) /\ chunk f inum n (take (Z.to_nat n) src) k ws k'.
Proof.
  intros Hop Hfit Hn Hsrc. set (s := take (Z.to_nat n) src). assert (Hs : zlen s = n) by (unfold s, zlen in *; rewrite length_take; lia).
  destruct (opened_lock f inum n k e Hop Hfit Hn) as (k1 & k2 & Hrun1 & Hrun2 & Hw & Hlk & HW2 & Hi2 & Hv2).
  set (fl := k_ftable k !!! f) in *. set (j := f_ip fl) in *. set (off := f_off fl) in *.
  destruct (writei_ok j inum off n src k2 e Hw Hsrc) as (k3 & bs & Hrun3 & Hfw). pose proof Hfw as [F1 F2 F3 F4 F5 F6 F7]. fold s in Hfw, F5.
  destruct (opened_unlock f j inum off s k2 k3 bs n e Hfw Hlk (ws_slot _ _ _ _ _ Hw)) as (k5 & Hrun5 & Htx5 & Hun5 & Hi5 & HW5 & Hv5).
  { rewrite Hi2, (alter_at _ (loaded _)) by apply (op_slot _ _ _ Hop). apply (op_ref _ _ _ Hop). }
  assert (HW3 : world k3 = world k) by (rewrite (worked_world _ _ F4); exact HW2).
  injection HW2 as _ _ _ _ T2. injection HW3 as A3 B3 C3 D3 T3. injection HW5 as A5 B5 C5 D5 T5.
  pose proof (op_volume _ _ _ Hop) as Hvo. pose proof (op_rest _ _ _ Hop) as Hr. pose proof (op_ok _ _ _ Hop) as Hok.
  destruct (commit_atomic dev i p pid start bs k k5 e Hr Htx5) as (k6 & ws & Hrun6 & Hr6 & [Htb Hil] & Hid6 & Hso & Hdw & Hdk & Ha);
    [congruence|congruence|congruence|done| | |].
  { intros x Hx. destruct (F7 x Hx) as [G1 G2]. split; [done|]. pose proof (vo_size _ _ _ _ _ _ Hvo) as G3. change BPB with 4096 in G3.
    split; [lia|]. by apply (vo_has _ _ _ _ _ _ Hvo). }
  { intros x Hx. rewrite (view_unpinned dev pid k5); [unfold disk_sector; congruence|apply (it_cache _ _ _ _ _ _ _ _ Htx5)|].
    intros Hp. by apply (it_pinned _ _ _ _ _ _ _ _ Htx5) in Hp. }
  injection Htb as T6 I6 D6.
  assert (HV6 : forall x, ~ in_log start x -> view k6 x = view k3 x) by (intros x Hx; by rewrite (rest_view dev i p pid start k6), Hso, Hv5).
  assert (HR : forall V', (forall x, ~ in_log start x -> V' x = view k3 x) -> rewritten (view k) inum off s V').
  { intros V' HV'. apply (rewritten_same sb start ib (view k2) inum off s (view k3)); [apply (ws_file _ _ _ _ _ Hw)|done| |done]. intros x _. by rewrite Hv2. }
  pose proof Hfit as [Hmx _]. change (MAXFILE * BSIZE) with 71680 in Hmx. fold fl off in Hmx.
  destruct (reopened f inum n s k k2 k3 k6 bs Hop Hs) as [Hop6 Hfl6]; fold fl off j; try done; [lia|lia|by apply HR|by unfold unlocked; rewrite Hil|congruence|congruence|congruence|congruence|].
  exists k6, ws. split; [intros A rest|split]; fold fl off; try done.
  - rewrite (bind_ok _ _ _ _ _ _ _ Hrun1), (bind_ok _ _ _ _ _ _ _ Hrun2). unfold get_file. step. rewrite T2. fold fl j off.
    rewrite (bind_ok _ _ _ _ _ _ _ Hrun3). rewrite (i32_small n) by (change write_max with 1536 in Hn; lia). rewrite (proj2 (Z.ltb_lt 0 n)) by lia.
    cbn [when]. unfold upd_file. step. rewrite (bind_ok _ _ _ _ _ _ _ Hrun5). by rewrite (bind_ok _ _ _ _ _ _ _ Hrun6).
  - split; [by rewrite T6, T5, T3, length_alter|]. split; [by rewrite Hfl6|]. intros g Hg. rewrite T6, T5, T3.
    by rewrite !list_lookup_total_alt, list_lookup_alter_ne.
  - by rewrite Hfl6.
  - by apply HR.
  - intros ws1 Hpre i' p' pid' kb eb Hb Hib Hdb. destruct (Ha ws1 Hpre i' p' pid' kb eb Hb Hib Hdb) as (kb' & Hrunb & [Ho|Hn']);
      exists kb'; (split; [done|]); [left|right].
    + apply (rewritten_same sb start ib (view k) inum off [] (view k)); [done| |done|].
      * apply rewritten_none; [done|apply (op_off _ _ _ Hop)].
      * intros x Hx. by rewrite Ho, (rest_view dev i p pid start k).
    + apply HR. intros x Hx. by rewrite Hn', Hv5.
Qed.

(** * filewrite *)

Lemma recovers_mono k ws (P Q : (Z -> list Z) -> Prop) : (forall D, P D -> Q D) -> recovers k ws P -> recovers k ws Q.
Proof.
  intros HPQ Hr ws1 Hpre i' p' pid' kb eb Hb Hib Hdb. destruct (Hr ws1 Hpre i' p' pid' kb eb Hb Hib Hdb) as (kb' & Hrun & HP).
  exists kb'. split; [done|]. by apply HPQ.
Qed.

(** The part of [s] that a crash leaves in the file: whole transactions of it. *)
Definition some_of V inum off s (D : Z -> list Z) : Prop :=
  exists q, 0 <= q <= zlen s /\ (q = zlen s \/ q mod write_max = 0) /\ rewritten V inum off (take (Z.to_nat q) s) D.

(** All of a write. *)
Record wrote_all f inum s k ws k' : Prop := {
  wa_opened : opened f inum k';
  wa_others : others_kept f k k';
  wa_off : f_off (k_ftable k' !!! f) = f_off (k_ftable k !!! f) + zlen s;
  wa_rewritten : rewritten (view k) inum (f_off (k_ftable k !!! f)) s (view k');
  wa_dwrites : k_dwrites k' = k_dwrites k ++ ws;
  wa_disk : k_disk k' = replay ws (k_disk k);
  wa_ide : k_ide k' = k_ide k;
  wa_recovers : recovers k ws (some_of (view k) inum (f_off (k_ftable k !!! f)) s)
}.

Lemma chunk_all f inum n s k ws k' : zlen s = n -> chunk f inum n s k ws k' -> wrote_all f inum s k ws k'.
Proof.
  intros Hs [C1 C2 C3 C4 C5 C6 C7 C8]. pose proof (zlen_nonneg s) as H0. split; try done; [by rewrite Hs|].
  eapply recovers_mono; [|exact C8]. intros D [HR|HR]; [exists 0|exists (zlen s)].
  - by split; [lia|split; [right|]].
  - split; [lia|]. split; [by left|]. rewrite take_ge by (unfold zlen; lia). done.
Qed.

Lemma chunk_then f inum s1 s2 k ws1 k1 ws2 k2 : opened f inum k -> zlen s1 = write_max -> chunk f inum (zlen s1) s1 k ws1 k1 ->
  wrote_all f inum s2 k1 ws2 k2 -> wrote_all f inum (s1 ++ s2) k (ws1 ++ ws2) k2.
Proof.
  intros Hop Hs [C1 C2 C3 C4 C5 C6 C7 C8] [W1 WO W2 W3 W4 W5 W6 W7]. set (off := f_off (k_ftable k !!! f)) in *. rewrite C3 in *.
  pose proof (zlen_app s1 s2) as Hz.
  pose proof (zlen_nonneg s2) as H2. pose proof (op_ok _ _ _ Hop) as Hok. pose proof (op_off _ _ _ Hop) as Hoff. fold off in Hoff.
  split; fold off.
  - done.
  - by eapply others_trans.
  - rewrite W2, Hz. lia.
  - by eapply rewritten_trans.
  - by rewrite W4, C5, app_assoc.
  - rewrite W5, C6. unfold replay. by rewrite foldl_app.
  - congruence.
  - apply (recovers_app k ws1 k1 ws2); [done|done| |].
    + eapply recovers_mono; [|exact C8]. change write_max with 1536 in *. intros D [HR|HR]; [exists 0|exists (zlen s1)].
      * split; [lia|]. by split; [right|].
      * split; [lia|]. split; [right; by rewrite Hs|]. rewrite take_app_le, take_ge by (unfold zlen; lia). done.
    + eapply recovers_mono; [|exact W7]. intros D (q & Hq & Hqs & HR). exists (zlen s1 + q). change write_max with 1536 in *. split; [lia|].
      split; [destruct Hqs; [left; lia|right; rewrite Hs; dlia]|]. rewrite take_app_ge by (unfold zlen; lia).
      replace (Z.to_nat (zlen s1 + q) - length s1)%nat with (Z.to_nat q) by (unfold zlen; lia). by eapply rewritten_trans.
Qed.

Lemma blocks_to_le x y : x <= y -> blocks_to x <= blocks_to y.
Proof. intros Hxy. unfold blocks_to. apply Z.div_le_mono; unfold BSIZE; lia. Qed.

Lemma chunk_fits f inum n n1 s k ws k1 : zlen s = n1 -> 0 < n1 <= n -> fits f inum n k -> chunk f inum n1 s k ws k1 -> fits f inum (n - n1) k1.
Proof.
  intros Hs Hn [F1 F2] [C1 C2 C3 C4 C5 C6 C7 C8]. unfold fits. rewrite C3. set (off := f_off (k_ftable k !!! f)) in *.
  replace (off + n1 + (n - n1)) with (off + n) by lia. split; [done|].
  pose proof (rw_count _ _ _ _ _ _ _ _ C4) as Hc. rewrite (rw_size _ _ _ _ _ _ _ _ C4), Hs in *. set (sz := di_size (dinode_at (view k) inum)) in *.
  assert (blocks_to sz <= blocks_to (Z.max sz (off + n1))) by (apply blocks_to_le; lia). lia.
Qed.

Lemma filewrite_loop_ok f inum addr n e : n <= zlen addr -> forall fuel m k, opened f inum k -> fits f inum (n - m) k ->
  0 <= m < n -> (Z.to_nat (n - m) < fuel)%nat ->
  exists k' ws, filewrite_loop fuel f addr m n k e = Ok n k' e /\ wrote_all f inum (take (Z.to_nat (n - m)) (drop (Z.to_nat m) addr)) k ws k'.
Proof.
  intros Hlen. induction fuel as [|fuel IH]; intros m k Hop Hfit Hm Hfuel; [lia|]. cbn [filewrite_loop].
  rewrite (proj2 (Z.ltb_lt m n)) by lia. cbn [negb]. change write_max with 1536. set (n1 := Z.min (n - m) 1536).
  assert (Hsrc : n - m <= zlen (drop (Z.to_nat m) addr)) by (unfold zlen in *; rewrite length_drop; lia).
  assert (Hf1 : fits f inum n1 k).
  { destruct Hfit as [F1 F2]. split; [lia|]. set (off := f_off (k_ftable k !!! f)) in *.
    assert (blocks_to (off + n1) <= blocks_to (off + (n - m))) by (apply blocks_to_le; lia). lia. }
  destruct (chunk_ok f inum (drop (Z.to_nat m) addr) n1 k e Hop Hf1) as (k1 & ws1 & Hrun & Hch); [change write_max with 1536; lia|lia|].
  set (s1 := take (Z.to_nat n1) _) in Hch. assert (Hs1 : zlen s1 = n1) by (unfold s1, zlen in *; rewrite length_take; lia).
  unfold get_file at 1. step. cbv zeta.
  rewrite (Hrun Z (fun r => if r <? 0 then ret m else if negb (r =? n1) then panic "short filewrite" else filewrite_loop fuel f addr (m + r) n)).
  rewrite (proj2 (Z.ltb_ge n1 0)), Z.eqb_refl by lia. cbn [negb].
  destruct (decide (m + n1 = n)) as [He|He].
  - exists k1, ws1. split.
    + destruct fuel as [|fuel]; [lia|]. cbn [filewrite_loop]. rewrite He, Z.ltb_irrefl. done.
    + replace (n - m) with n1 by lia. by eapply chunk_all.
  - assert (Hn1 : n1 = 1536) by lia. pose proof (chunk_fits f inum (n - m) n1 s1 k ws1 k1 Hs1 ltac:(lia) Hfit Hch) as Hf2.
    replace (n - m - n1) with (n - (m + n1)) in Hf2 by lia.
    destruct (IH (m + n1) k1 (ch_opened _ _ _ _ _ _ _ Hch) Hf2) as (k2 & ws2 & Hrun2 & Hall); [lia|lia|].
    exists k2, (ws1 ++ ws2). split; [done|].
    replace (take (Z.to_nat (n - m)) (drop (Z.to_nat m) addr)) with (s1 ++ take (Z.to_nat (n - (m + n1))) (drop (Z.to_nat (m + n1)) addr)).
    + eapply chunk_then; [done|change write_max with 1536; lia|by rewrite Hs1|done].
    + unfold s1. replace (Z.to_nat (m + n1)) with (Z.to_nat m + Z.to_nat n1)%nat by lia. rewrite <- drop_drop.
      replace (Z.to_nat (n - m)) with (Z.to_nat n1 + Z.to_nat (n - (m + n1)))%nat by lia. by rewrite take_take_drop.
Qed.

Lemma filewrite_ok f inum addr n k e : opened f inum k -> f_writable (k_ftable k !!! f) <> 0 -> fits f inum n k -> 0 < n <= zlen addr ->
  exists k' ws, filewrite f addr n k e = Ok n k' e /\ wrote_all f inum (take (Z.to_nat n) addr) k ws k'.
Proof.
  intros Hop Hwr Hfit Hn. destruct (filewrite_loop_ok f inum addr n e ltac:(lia) (S (Z.to_nat n)) 0 k Hop) as (k' & ws & Hrun & Hall);
    [by rewrite Z.sub_0_r|lia|lia|].
  rewrite Z.sub_0_r in Hall. exists k', ws. split; [|done].
  unfold filewrite, get_file. step. rewrite (proj2 (Z.eqb_neq _ 0)), (op_kind _ _ _ Hop) by done. rewrite (bind_ok _ _ _ _ _ _ _ Hrun). by rewrite Z.eqb_refl.
Qed.


(** * fileread *)

Lemma rest_moved k k' : at_rest dev i p pid start k -> moved dev i p pid k k' -> at_rest dev i p pid start k'.
Proof.
  intros [H1 H2 H3 H4 H5 H6 H7 H8 H9 (P1 & P2 & P3)] [[R1 R2 _] Q Vw Pn]. assert (Hl : k_log k' = k_log k) by exact (f_equal k_log Q).
  assert (Hd : k_disk k' = k_disk k) by exact (f_equal k_disk Q). split; rewrite ?Hl; try done.
  - intros x. by rewrite Pn.
  - unfold disk_sector in *. by rewrite Hd.
  - split; [done|]. split; [done|]. intros t Ht. apply (disk_has_ide k); [exact (f_equal k_ide Q)|by apply P3].
Qed.

Lemma rest_ftable k t : at_rest dev i p pid start k -> at_rest dev i p pid start (k <| k_ftable := t |>).
Proof.
  intros [H1 H2 H3 H4 H5 H6 H7 H8 H9 (P1 & P2 & P3)]. split; try done; [by eapply thread_same; [..|exact H1]|by destruct H2|].
  split; [done|]. split; [done|]. intros q Hq. by apply (disk_has_ide k), P3.
Qed.

Lemma rest_reader k : at_rest dev i p pid start k -> reader dev i p pid k.
Proof.
  intros Hr. split; [apply (ar_thread _ _ _ _ _ _ Hr)|apply (ar_cache _ _ _ _ _ _ Hr)|].
  apply (spare_of dev pid k []); [apply (ar_cache _ _ _ _ _ _ Hr)| |change HEAD with 30%nat; simpl; lia].
  intros x Hx. by apply (ar_clean _ _ _ _ _ _ Hr) in Hx.
Qed.

(** ilock and readi: the bytes at the offset, as many as there are. *)
Lemma fileread_bytes f inum n k e : let fl := k_ftable k !!! f in let j := f_ip fl in let off := f_off fl in let s := contents sb (view k) inum in
  let r := Z.min n (zlen s - off) in opened f inum k -> 0 <= n < 2 ^ 31 ->
  exists k1 k2, ilock (Some j) k e = Ok tt k1 e /\ k_ftable k1 = k_ftable k /\
    readi j off n k1 e = Ok (r, take (Z.to_nat r) (drop (Z.to_nat off) s)) k2 e /\ moved dev i p pid k k2 /\ locked_me pid k2 j /\
    k_icache k2 = alter (loaded (dinode_at (view k) inum)) j (k_icache k) /\ 0 <= r /\ off + r <= di_size (dinode_at (view k) inum) < 2 ^ 31.
Proof.
  intros fl j off s r Hop Hn. pose proof Hop as [O1 [O2 O2'] O3 O4 O5 [O6 O6'] O7 O8 O9 [O10 O10'] O11]. fold fl off in O3, O11.
  set (di := dinode_at (view k) inum) in *.
  destruct (opened_ilock f inum k k e Hop (rest_reader k O1)) as (k1 & Hrun1 & Hm1 & Hlk1 & Hi1); try done. fold fl j di in Hrun1, Hlk1, Hi1.
  assert (Hv1 : forall x, view k1 x = view k x) by apply (mv_view _ _ _ _ _ _ Hm1). pose proof (moved_world _ _ Hm1) as HW1.
  assert (Hip : k_icache k1 !!! j = loaded di (k_icache k !!! j)) by (rewrite Hi1; by apply alter_at).
  pose proof (fo_map _ _ _ _ _ O9) as Hf. fold di in Hf. cbv zeta in Hf.
  assert (Hsz : 0 <= di_size di <= blocks_to (di_size di) * BSIZE) by (unfold blocks_to, BSIZE; dlia).
  assert (Hmx : di_size di < 2 ^ 31) by (pose proof (fm_max _ _ _ _ _ Hf) as Hm; change MAXFILE with 140 in Hm; unfold BSIZE in *; lia).
  destruct (readi_ok dev i p pid j off n (blocks_to (di_size di)) k1 e) as (k2 & Hl & Hrun2); rewrite ?Hip; try done; [apply (mv_reader _ _ _ _ _ _ Hm1)| |lia|].
  { apply (file_allocated dev sb start ib); [apply (volume_view (view k) _ k); [done|by injection HW1|by injection HW1|done]|].
    pose proof (fo_map _ _ _ _ _ (file_ok_same sb start ib (view k) (view k1) (fun x _ => Hv1 x) inum O9)) as Hf1.
    by rewrite (dinode_same sb start ib (view k) (view k1) (fun x _ => Hv1 x) inum O9) in Hf1 by apply (fo_num _ _ _ _ _ O9). }
  rewrite Hip in Hrun2. change (i_size (loaded di _)) with (di_size di) in Hrun2.
  change (i_addrs (loaded di _)) with (di_addrs di) in Hrun2. rewrite (proj2 (Z.ltb_ge (di_size di) off)) in Hrun2 by lia. cbv zeta in Hrun2.
  assert (Hs : zlen s = di_size di) by (unfold s, contents, zlen; rewrite length_bytes_at; fold di; lia).
  unfold r. rewrite Hs. rewrite (bytes_at_ext (view k) (view k1)) in Hrun2 by done. rewrite <- (bytes_at_slice _ _ off _ (di_size di)) in Hrun2 by lia.
  change (bytes_at (view k) (di_addrs di) 0 (di_size di)) with s in Hrun2. destruct (looked_moved_same _ _ _ _ _ _ Hl) as (Hm2 & Hi2 & Hsl2).
  exists k1, k2. split; [done|]. split; [by injection HW1|]. split; [done|]. split; [by eapply moved_trans|].
  split; [unfold locked_me; by rewrite Hsl2|]. split; [by rewrite Hi2|]. lia.
Qed.

(** fileread gives these bytes, and moves the offset on. *)
Lemma fileread_ok f inum n k e : let fl := k_ftable k !!! f in let off := f_off fl in let s := contents sb (view k) inum in
  let r := Z.min n (zlen s - off) in opened f inum k -> f_readable fl <> 0 -> 0 <= n < 2 ^ 31 ->
  exists k', fileread f n k e = Ok (r, take (Z.to_nat r) (drop (Z.to_nat off) s)) k' e /\ opened f inum k' /\
    f_off (k_ftable k' !!! f) = off + r /\ (forall x, view k' x = view k x) /\ k_dwrites k' = k_dwrites k.
Proof.
  intros fl off s r Hop Hrd Hn. set (j := f_ip fl).
  destruct (fileread_bytes f inum n k e Hop Hn) as (k1 & k2 & Hrun1 & Hft1 & Hrun2 & Hm & Hlk & Hi2 & Hr). fold fl off s r j in Hrun1, Hrun2, Hlk, Hi2, Hr.
  pose proof (moved_world _ _ Hm) as HW2. injection HW2 as Ad Aw Ai As At. pose proof (op_off _ _ _ Hop) as Hoff. fold fl off in Hoff.
  set (t := if 0 <? r then alter (fun y => y <| f_off ::= fun o => u32 (o + r) |>) f (k_ftable k2) else k_ftable k2). set (k3 := k2 <| k_ftable := t |>).
  assert (Hr3 : at_rest dev i p pid start k3) by (apply rest_ftable; apply (rest_moved k); [apply (op_rest _ _ _ Hop)|done]).
  destruct (iunlock_ok dev i p pid j k3 e (rest_reader k3 Hr3)) as (k4 & Hrun4 & Hm4 & Hun4 & Hi4 & _); [done| |].
  { change (k_icache k3) with (k_icache k2). rewrite Hi2, (alter_at _ (loaded _)) by apply (op_slot _ _ _ Hop). apply (op_ref _ _ _ Hop). }
  pose proof (moved_world _ _ Hm4) as HW4. injection HW4 as Bd Bw Bi Bs Bt.
  assert (Hv : forall x, view k4 x = view k x) by (intros x; rewrite (mv_view _ _ _ _ _ _ Hm4); apply (mv_view _ _ _ _ _ _ Hm)).
  assert (Hfl : t !!! f = fl <| f_off := off + r |> /\ length t = length (k_ftable k)).
  { unfold t. destruct (Z.ltb_spec 0 r); rewrite At.
    - rewrite alter_at, length_alter by apply (op_slot _ _ _ Hop). fold fl. rewrite <- (u32_small (off + r)) by lia. done.
    - replace r with 0 by lia. rewrite Z.add_0_r. fold fl. unfold off. by destruct fl. }
  assert (Hwhen : when (0 <? r) (upd_file f (fun y => y <| f_off ::= fun o => u32 (o + r) |>)) k2 e = Ok tt k3 e)
    by (unfold k3, t; destruct (0 <? r); [done|by destruct k2]).
  assert (Hd : dinode_at (view k4) inum = dinode_at (view k) inum) by (unfold WriteFacts.dinode_at; by rewrite Hv).
  destruct Hfl as [Hfl Htl]. exists k4. split; [|split; [|split; [|split; [done|congruence]]]].
  - unfold fileread, get_file. step. rewrite (proj2 (Z.eqb_neq _ 0)), (op_kind _ _ _ Hop) by done. fold fl j.
    rewrite (bind_ok _ _ _ _ _ _ _ Hrun1). step. rewrite Hft1. fold fl j off. rewrite (u32_small n) by lia. rewrite (bind_ok _ _ _ _ _ _ _ Hrun2).
    cbv iota beta. rewrite (i32_small r) by lia. rewrite (bind_ok _ _ _ _ _ _ _ Hwhen). by rewrite (bind_ok _ _ _ _ _ _ _ Hrun4).
  - apply (opened_after f inum k k4 (off + r)); fold fl j; [done|by apply (rest_moved k3)|done| |congruence|congruence| | | |].
    + rewrite Hi4, Hd. exact Hi2.
    + apply (volume_view (view k) _ k); [apply (op_volume _ _ _ Hop)|congruence|congruence|done].
    + apply (file_ok_same sb start ib (view k)); [done|apply (op_ok _ _ _ Hop)].
    + by rewrite Hd.
    + rewrite Hd. lia.
  - by rewrite Bt, Hfl.
Qed.

(** * One file through two descriptors *)

Lemma opened_other f g inum k k' : g <> f -> opened g inum k -> f_ip (k_ftable k !!! g) = f_ip (k_ftable k !!! f) -> opened f inum k' ->
  others_kept f k k' -> di_size (dinode_at (view k) inum) <= di_size (dinode_at (view k') inum) -> opened g inum k'.
Proof.
  intros Hne [_ [G2 _] G3 _ _ _ _ _ _ _ G11] Hip [O1 [O2 O2'] O3 O4 O5 O6 O7 O8 O9 O10 O11] (K1 & K2 & K3) Hsz.
  assert (Hg : f_ip (k_ftable k' !!! g) = f_ip (k_ftable k' !!! f)) by (rewrite K3, K2 by done; done).
  split; rewrite ?Hg, ?K3 by done; try done.
  - split; [lia|done].
  - lia.
Qed.

Lemma put_bytes_slice s (o : nat) v : (o <= length s)%nat -> take (length v) (drop o (put_bytes s o v)) = v.
Proof.
  intros Ho. unfold put_bytes. rewrite drop_app_length' by (rewrite length_take; lia). by rewrite take_app_length.
Qed.

(** C4. What is written through one descriptor of a file is what another one,
    at the same offset, reads: filewrite of [n] bytes and then fileread of as
    many gives these bytes, and the read writes nothing to the disk. *)
Theorem filewrite_fileread f g inum addr n k e : let off := f_off (k_ftable k !!! f) in
  f <> g -> opened f inum k -> opened g inum k -> f_ip (k_ftable k !!! g) = f_ip (k_ftable k !!! f) ->
  f_off (k_ftable k !!! g) = off -> f_writable (k_ftable k !!! f) <> 0 -> f_readable (k_ftable k !!! g) <> 0 ->
  fits f inum n k -> 0 < n <= zlen addr ->
  exists k1 k2, filewrite f addr n k e = Ok n k1 e /\ fileread g n k1 e = Ok (n, take (Z.to_nat n) addr) k2 e /\
    opened f inum k1 /\ opened g inum k2 /\ f_off (k_ftable k2 !!! g) = off + n /\ k_dwrites k2 = k_dwrites k1.
Proof.
  intros off Hne Hf Hg Hip Hoff Hwr Hrd Hfit Hn. destruct (filewrite_ok f inum addr n k e Hf Hwr Hfit Hn) as (k1 & ws & Hrun & [W1 WO W2 W3 W4 W5 W6 W7]).
  set (s := take (Z.to_nat n) addr) in *. assert (Hs : zlen s = n) by (unfold s, zlen in *; rewrite length_take; lia). fold off in W2, W3.
  pose proof (rw_size _ _ _ _ _ _ _ _ W3) as Hsz. pose proof (op_off _ _ _ Hf) as Ho. fold off in Ho.
  assert (Hg1 : opened g inum k1) by (apply (opened_other f g inum k); [done|done|done|done|done|lia]).
  destruct WO as (_ & _ & WO). assert (Hgk : k_ftable k1 !!! g = k_ftable k !!! g) by (by apply WO).
  destruct Hfit as [Hmx _]. change (MAXFILE * BSIZE) with 71680 in Hmx. fold off in Hmx.
  destruct (fileread_ok g inum n k1 e Hg1) as (k2 & Hrun2 & Hg2 & Hoff2 & _ & Hdw); rewrite ?Hgk in *; [done|lia|].
  assert (Hc : zlen (contents sb (view k1) inum) = di_size (dinode_at (view k1) inum)) by (unfold contents, zlen; rewrite length_bytes_at; lia).
  rewrite Hoff, Hc, Hsz, Hs, (Z.min_l n) in * by lia.
  exists k1, k2. split; [done|]. split; [|done]. rewrite Hrun2. do 2 f_equal. rewrite (rw_contents _ _ _ _ _ _ _ _ W3).
  replace (Z.to_nat n) with (length s) by (unfold zlen in Hs; lia). apply put_bytes_slice. unfold contents. rewrite length_bytes_at. lia.
Qed.
End program.

(** * A machine with an empty file *)

(** 1000 blocks: the inodes in block 40, the bitmap in block 41, the blocks from
    64 on free.  Inode 1 is an empty file, open twice. *)
Definition sample_sb : superblock := mkSb 1000 936 8 30 2 40 41.
Definition sample_inodes : list Z := put_bytes (replicate 512 0) (dinode_off 1) (dinode_bytes (mkDinode T_FILE 0 0 1 0 (replicate 13 0))).
Definition sample_bitmap : list Z := replicate 8 255 ++ replicate 504 0.
Definition sample_file : kernel := fresh <| k_disk := {[(1, 40) := sample_inodes; (1, 41) := sample_bitmap]} |> <| k_sb := sample_sb |>
  <| k_ftable ::= fun t => <[0%nat := mkFile FD_INODE 1 1 1 0 0 0]> (<[1%nat := mkFile FD_INODE 1 1 1 0 0 0]> t) |> <| k_icache ::= <[0%nat := mkInode 1 1 1 0 0 0 0 0 0 (replicate 13 0)]> |>.

Lemma sample_sector k n : k_disk k = {[(1, 40) := sample_inodes; (1, 41) := sample_bitmap]} ->
  disk_sector k 1 n = if decide (n = 40) then sample_inodes else if decide (n = 41) then sample_bitmap else replicate 512 0.
Proof.
  intros Hd. unfold disk_sector. rewrite Hd. repeat case_decide; subst; [by rewrite lookup_insert_eq|..].
  - rewrite lookup_insert_ne by congruence. by rewrite lookup_singleton_eq.
  - rewrite lookup_insert_ne by congruence. by rewrite lookup_singleton_ne by congruence.
Qed.

Lemma sample_used x : 0 <= x -> bit sample_bitmap x = false -> 64 <= x.
Proof.
  intros Hx Hb. destruct (decide (x < 64)); [|lia]. assert (Ha : forallb (bit sample_bitmap) (seqZ 0 64) = true) by (by vm_compute).
  rewrite forallb_forall in Ha. rewrite (Ha x) in Hb; [done|]. apply list_elem_of_In, elem_of_seqZ. lia.
Qed.

Lemma sample_opened f k : (f < 100)%nat -> @at_rest (memide_driver 512000) 1 _ 0 0 1 2 k -> k_disk k = {[(1, 40) := sample_inodes; (1, 41) := sample_bitmap]} ->
  k_sb k = sample_sb -> k_ftable k !!! f = mkFile FD_INODE 1 1 1 0 0 0 -> k_icache k !!! 0%nat = mkInode 1 1 1 0 0 0 0 0 0 (replicate 13 0) ->
  length (k_ftable k) = 100%nat -> length (k_icache k) = 50%nat -> k_slocks k = empty -> disksize (k_ide k) = 1000 ->
  @opened (memide_driver 512000) 1 _ 0 0 1 sample_sb 2 40 f 1 k /\ fits 1 sample_sb f 1 2000 k.
Proof.
  intros Hf Hr Hd Hsb Hft Hic Hl1 Hl2 Hsl Hsz.
  assert (Hv : forall n, view 1 k n = if decide (n = 40) then sample_inodes else if decide (n = 41) then sample_bitmap else replicate 512 0).
  { intros n. rewrite (@rest_view (memide_driver 512000) 1 _ 0 0 1 2 k) by done. by apply sample_sector. }
  assert (Hdi : dinode_at sample_sb (view 1 k) 1 = mkDinode T_FILE 0 0 1 0 (replicate 13 0)).
  { unfold dinode_at. change (IBLOCK 1 sample_sb) with 40. rewrite Hv, decide_True by done. by vm_compute. }
  assert (Hbit : forall x, free sample_sb (view 1 k) x -> 64 <= x).
  { intros x [Hx Hb]. change (bm sample_sb) with 41 in Hb. rewrite Hv in Hb. apply sample_used; [lia|done]. }
  assert (Hlog : forall x, 32 < x -> ~ in_log 2 x) by (intros x; unfold in_log, LOGSIZE, MAXOPBLOCKS; lia).
  assert (Hlen : forall x, length (view 1 k x) = 512%nat) by (intros x; rewrite Hv; repeat case_decide; by vm_compute).
  split.
  - split; rewrite ?Hft; cbn [f_ip f_type f_writable f_off]; rewrite ?Hic, ?Hdi; cbn [i_ref i_dev i_inum i_valid di_type di_size]; try done.
    + rewrite Hl1, Hl2. lia.
    + unfold unlocked, slock_of. by rewrite Hsl, lookup_empty.
    + split; [done|by vm_compute| | |split; [by vm_compute|by apply Hlog; vm_compute]|done].
      * intros x Hx. change (x < disksize (k_ide k)). rewrite Hsz. exact (proj2 Hx).
      * intros x Hx. apply Hbit in Hx. change (bm sample_sb) with 41. split; [apply Hlog|]; lia.
    + split; [by vm_compute| |by apply Hlog; vm_compute| |].
      * split; [by apply Hlog|]. split; [by vm_compute|]. intros H. apply Hbit in H. lia.
      * rewrite Hdi. split; [by repeat constructor|]. split; [done|]. split; [done|]. by repeat constructor.
      * rewrite Hdi. cbn [di_size di_addrs]. change (blocks_to 0) with 0. split; try done; try lia.
        -- by repeat constructor.
        -- intros bn Hb [Hn|Hn]; [|discriminate Hn]. unfold block_at. rewrite (proj2 (Z.ltb_lt bn NDIRECT)) by done.
           unfold zget. rewrite list_lookup_total_alt, lookup_replicate_2; [done|]. unfold NDIRECT in Hn. lia.
  - unfold fits. rewrite Hft, Hdi. cbn [f_off di_size]. split; [by vm_compute|].
    unfold frees. change (bm sample_sb) with 41. rewrite Hv. vm_compute. lia.
Qed.

Lemma sample_file_thread k d b t1 t2 : thread 0 0 1 k ->
  thread 0 0 1 (k <| k_disk := d |> <| k_sb := b |> <| k_ftable ::= t1 |> <| k_icache ::= t2 |>).
Proof. by apply thread_same. Qed.

Lemma sample_file_rest : @at_rest (memide_driver 512000) 1 _ 0 0 1 2 sample_file.
Proof.
  apply (fresh_rest _ fresh_cache); [exact fresh_lru|exact fresh_buf|reflexivity|reflexivity| | |reflexivity|reflexivity|].
  - intros n. rewrite sample_sector by reflexivity. repeat case_decide; reflexivity.
  - apply sample_file_thread. exact (thread_with _ _ _ _ _ _ _ sample_thread).
  - by rewrite sample_sector.
Qed.


(** They come back through the other descriptor. *)
Lemma filewrite_fileread_witness : exists k1 k2,
  @filewrite (memide_driver 512000) (@console_devices (memide_driver 512000)) 0 (replicate 2000 7) 2000 sample_file [] = Ok 2000 k1 [] /\
  @fileread (memide_driver 512000) (@console_devices (memide_driver 512000)) 1 2000 k1 [] = Ok (2000, replicate 2000 7) k2 [].
Proof.
  destruct (sample_opened 0 sample_file) as [Hop Hfit]; [lia|exact sample_file_rest|reflexivity..|].
  destruct (sample_opened 1 sample_file) as [Hop1 _]; [lia|exact sample_file_rest|reflexivity..|].
  destruct (@filewrite_fileread (memide_driver 512000) 1 _ 0 0 1 (@console_devices (memide_driver 512000)) sample_sb 2 40 0 1 1
    (replicate 2000 7) 2000 sample_file [] ltac:(done) Hop Hop1) as (k1 & k2 & Hrun1 & Hrun2 & _); [done|done|done|done|exact Hfit| |].
  { unfold zlen. rewrite length_replicate. lia. }
  exists k1, k2. split; [exact Hrun1|]. etrans; [exact Hrun2|]. by rewrite take_ge by (rewrite length_replicate; lia).
Defined.
