(* ===== verification/MkfsSpec.v ===== *)
(** The kernel reads what mkfs wrote: a file of the image, looked up by name
    in the root directory and read through the inode layer and the cache. *)
From S2P Require Import Prelude Kernel Mem Fsformat BlockFacts Spinlock Locks Str Console Vm Sched Sleeplock SleepFacts.
From S2P Require Import Ide Bio LruFacts BioFacts Log LogFacts CommitFacts TxnFacts Fs ReadFacts PathFacts.
From S2P Require Import Mkfs MkfsFacts ImageFacts Sample SampleFs ConsoleIo.

(** * Entries of the directory *)

Section entries.
Implicit Types (s nm : list Z) (L : list (list Z)).

(** The name a file gets: without the leading underscore. *)
Definition file_name (arg : list Z) : list Z := if zget arg 0 =? 95 then tail arg else arg.

Lemma stored_padded arg : nulfree (file_name arg) -> stored_name arg = padded 14 (file_name arg).
Proof.
  intros Hn. unfold stored_name. change (if zget arg 0 =? 95 then tail arg else arg) with (file_name arg).
  apply (list_eq_zget _ _ 14); [by rewrite strncpy_length|apply length_padded|]. intros x Hx.
  rewrite strncpy_get by (done || change (zlen (replicate (Z.to_nat DIRSIZ) 0)) with 14; unfold DIRSIZ; lia).
  rewrite decide_True by (unfold DIRSIZ; lia). by rewrite zget_padded.
Qed.

Lemma entry_inum n arg : 0 <= n < 2 ^ 16 -> de_inum (entry n arg) = n.
Proof.
  intros Hn. unfold de_inum, entry, dirent_bytes. pose proof (get16_le16 n [] (stored_name arg)) as E. cbn [app length] in E.
  rewrite E. unfold u16. by apply Z.mod_small.
Qed.
Lemma entry_name n arg : de_name (entry n arg) = stored_name arg.
Proof. done. Qed.

(** Comparing the kernel's name with a stored one. *)
Lemma namecmp_stored nm arg : nulfree nm -> isbytes nm -> nulfree (file_name arg) -> isbytes (file_name arg) ->
  namecmp (padded 14 nm) (stored_name arg) = 0 <-> take 14 nm = take 14 (file_name arg).
Proof.
  intros H1 H2 H3 H4. rewrite stored_padded by done. unfold namecmp. change (Z.to_nat DIRSIZ) with 14%nat.
  rewrite strncmp_padded. by apply strncmp_zero.
Qed.

Lemma join_nth L x (q : nat) : Forall (fun v => length v = 16%nat) L -> L !! q = Some x ->
  take 16 (drop (16 * q) (mjoin L)) = x.
Proof.
  intros HL. revert q. induction HL as [|v L Hv HL IH]; intros q Hq; [done|].
  change (mjoin (v :: L)) with (v ++ mjoin L). destruct q as [|q].
  - injection Hq as <-. rewrite Nat.mul_0_r, drop_0, take_app_le by lia. by rewrite take_ge by lia.
  - replace (16 * S q)%nat with (length v + 16 * q)%nat by lia. rewrite drop_app_add by done. by apply IH.
Qed.

(** The root directory as a list of entries. *)
Definition entries (args : list (list Z)) : list (list Z) :=
  entry 1 [46] :: entry 1 [46; 46] :: imap (fun q arg => entry (2 + Z.of_nat q) arg) args.

Lemma listing_join args : forall n, listing n args = mjoin (imap (fun q arg => entry (n + Z.of_nat q) arg) args).
Proof.
  induction args as [|arg args IH]; intros n; [done|]. cbn [listing imap]. rewrite IH. rewrite Z.add_0_r.
  match goal with |- _ = mjoin (?x :: ?l) => change (mjoin (x :: l)) with (x ++ mjoin l) end. do 2 f_equal.
  apply imap_ext. intros q x _. unfold compose. f_equal. lia.
Qed.
Lemma root_join args : dots ++ listing 2 args = mjoin (entries args).
Proof. rewrite listing_join. unfold entries, dots. rewrite <- app_assoc. done. Qed.

Lemma entries_length args : Forall (fun v => length v = 16%nat) (entries args).
Proof.
  assert (He : forall n arg, length (entry n arg) = 16%nat).
  { intros n arg. pose proof (entry_length n arg) as E. unfold zlen, sizeof_dirent in E. lia. }
  repeat (apply Forall_cons_2; [apply He|]). apply Forall_lookup. intros q x Hx.
  rewrite list_lookup_imap in Hx. apply fmap_Some in Hx as (arg & _ & ->). apply He.
Qed.

(** Entry [q] is that of [arg q]. *)
Lemma entries_nth args q : (q < 2 + length args)%nat -> exists n arg,
  ([46] :: [46; 46] :: args) !! q = Some arg /\ entries args !! q = Some (entry n arg) /\
  (n = 1 \/ n = Z.of_nat q) /\ (2 <= q -> n = Z.of_nat q)%nat.
Proof.
  intros Hq. destruct q as [|[|q]].
  - exists 1, [46]. split_and!; [done|done|by left|lia].
  - exists 1, [46; 46]. split_and!; [done|done|by left|lia].
  - destruct (lookup_lt_is_Some_2 args q) as [arg Ha]; [lia|]. exists (2 + Z.of_nat q), arg.
    split_and!; [done| |right; lia|lia]. change (imap (fun q arg => entry (2 + Z.of_nat q) arg) args !! q = Some (entry (2 + Z.of_nat q) arg)).
    by rewrite list_lookup_imap, Ha.
Qed.

(** The bytes of a file, from what its blocks hold. *)
Lemma filed_bytes D own hi f a g nb s o n : filed D own hi f a g nb s -> 0 <= o -> 0 <= n -> o + n <= zlen s ->
  bytes_at D a o n = take (Z.to_nat n) (drop (Z.to_nat o) s).
Proof.
  intros Hf Ho Hn Hon. apply list_eq. intros x. unfold bytes_at. rewrite list_lookup_fmap.
  pose proof (fd_size _ _ _ _ _ _ _ _ Hf) as Hsz.
  destruct (decide (x < Z.to_nat n)%nat) as [Hx|Hx].
  - rewrite lookup_seqZ_lt by lia. simpl. rewrite lookup_take_lt, lookup_drop by lia.
    rewrite (fd_bytes _ _ _ _ _ _ _ _ Hf) by lia. unfold zget.
    replace (Z.to_nat (o + Z.of_nat x)) with (Z.to_nat o + x)%nat by lia. symmetry. apply list_lookup_lookup_total_lt.
    unfold zlen in *. lia.
  - rewrite lookup_seqZ_ge by lia. by rewrite lookup_take_ge by lia.
Qed.
End entries.

Section readable.
Context `{HD : DiskDriver} {HOK : DiskOk ROOTDEV} (i p : nat) (pid : Z) `{HV : Devices} `{HH : Host}.
Implicit Types (k : kernel) (e : env) (h : host) (own : Z -> Z) (args : list (list Z * list Z)).

Local Notation view := (view ROOTDEV).
Local Notation reader := (reader ROOTDEV i p pid).
Local Notation moved := (moved ROOTDEV i p pid).

(** A machine whose root disk is the image, with nothing cached or open yet. *)
Record boots h k : Prop := {
  bt_reader : reader k;
  bt_disk : forall n, 0 <= n < FSSIZE -> disk_sector k ROOTDEV n = sector h n;
  bt_clean : forall n, ~ pinned ROOTDEV k n;
  bt_has : forall n, 0 <= n < FSSIZE -> disk_has k n;
  bt_table : exists x0 x1 t, k_icache k = x0 :: x1 :: t /\ Forall (fun ip => i_ref ip = 0) (x0 :: x1 :: t);
  bt_locks : forall j, unlocked k j
}.

(** The super block, then the file by its path, then [n] of its bytes. *)
Definition load_file (path : list Z) (n : Z) : K (Z * list Z) :=
  sb <- readsb ROOTDEV ;;
  modify (fun k => k <| k_sb := sb |>) ;;
  o <- namei path ;;
  match o with
  | Some j => ilock (Some j) ;; readi j 0 n
  | None => ret (-1, [])
  end.

(** The names tell the files apart, from "." and ".." too. *)
Definition names_ok (args : list (list Z)) : Prop :=
  Forall (fun arg => nulfree (file_name arg) /\ isbytes (file_name arg) /\ file_name arg <> []) args /\
  NoDup ([46] :: [46; 46] :: ((fun arg => take 14 (file_name arg)) <$> args)).

Lemma filed_alloc h own f a g nb s k : (forall n, 0 <= n < FSSIZE -> view k n = sector h n) ->
  (forall n, 0 <= n < FSSIZE -> disk_has k n) -> h_freeblock h <= FSSIZE ->
  filed (sector h) own (h_freeblock h) f a g nb s ->
  filed (view k) own (h_freeblock h) f a g nb s /\ allocated ROOTDEV (view k) k a nb.
Proof.
  intros Hv Hh Hhi Hf. assert (Hm : forall b, mine own (h_freeblock h) f b -> 0 <= b < FSSIZE /\ b <> 0).
  { intros b [Hb _]. pose proof nmeta_pos. lia. }
  assert (Hf' : filed (view k) own (h_freeblock h) f a g nb s).
  { eapply filed_frame; [exact Hf|done|]. intros b Hb. apply Hv. by apply Hm. }
  split; [done|]. split; [apply (fd_max _ _ _ _ _ _ _ _ Hf')| |].
  - intros bn Hbn. destruct (Hm _ (fd_block _ _ _ _ _ _ _ _ Hf' bn Hbn)). split; [done|by apply Hh].
  - intros Hc. destruct (Hm _ (fd_ind _ _ _ _ _ _ _ _ Hf' ltac:(by apply (fd_flag _ _ _ _ _ _ _ _ Hf')))).
    split; [done|by apply Hh].
Qed.

Lemma inode_view h k inum : (forall n, 0 <= n < FSSIZE -> view k n = sector h n) -> 0 <= inum < NINODES ->
  get_dinode (view k (IBLOCK inum sb0)) (dinode_off inum) = inode_of h inum /\ 0 <= IBLOCK inum sb0 < FSSIZE.
Proof.
  intros Hv Hi. destruct (iblock_range inum Hi) as [Hb _]. change nmeta with 59 in Hb.
  assert (Hr : 0 <= IBLOCK inum sb0 < FSSIZE) by (unfold FSSIZE; lia). split; [|done]. by rewrite Hv.
Qed.

(** The search of the root directory ends at the file's own entry. *)
Lemma root_entries own h a g nb args j arg s D : let r := dots ++ listing 2 args.*1 in
  filed D own (h_freeblock h) 1 a g nb r -> names_ok args.*1 -> args !! j = Some (arg, s) -> 2 + zlen args < 2 ^ 16 ->
  let de z := bytes_at D a (16 * Z.of_nat z) 16 in
  (forall z, (z < 2 + j)%nat -> skipped (padded 14 (file_name arg)) (de z)) /\
  de_inum (de (2 + j)%nat) = 2 + Z.of_nat j /\ namecmp (padded 14 (file_name arg)) (de_name (de (2 + j)%nat)) = 0.
Proof.
  intros r Hf [Hnames Hnd] Hj Hlen de. pose proof (lookup_lt_Some _ _ _ Hj) as Hjl.
  assert (Harg : args.*1 !! j = Some arg) by (by rewrite list_lookup_fmap, Hj).
  assert (Hde : forall z n x, (z < 2 + length args)%nat -> entries args.*1 !! z = Some (entry n x) -> de z = entry n x).
  { intros z n x Hz Hx. unfold de. rewrite (filed_bytes D own (h_freeblock h) 1 a g nb r) by
      (done || lia || (unfold r; rewrite zlen_app, listing_length; change (zlen dots) with 32; unfold zlen; rewrite length_fmap; lia)).
    change (Z.to_nat 16) with 16%nat. replace (Z.to_nat (16 * Z.of_nat z)) with (16 * z)%nat by lia.
    unfold r. rewrite root_join. apply join_nth; [apply entries_length|done]. }
  assert (Hall : forall z x, ([46] :: [46; 46] :: args.*1) !! z = Some x -> nulfree (file_name x) /\ isbytes (file_name x) /\
    ([46] :: [46; 46] :: ((fun arg => take 14 (file_name arg)) <$> args.*1)) !! z = Some (take 14 (file_name x))).
  { intros [|[|z]] x Hx; [injection Hx as <-; by repeat constructor|injection Hx as <-; by repeat constructor|].
    change (args.*1 !! z = Some x) in Hx. destruct (proj1 (Forall_lookup _ _) Hnames z x Hx) as (? & ? & _).
    split; [done|]. split; [done|]. change (((fun arg => take 14 (file_name arg)) <$> args.*1) !! z = Some (take 14 (file_name x))).
    by rewrite list_lookup_fmap, Hx. }
  destruct (Hall (2 + j)%nat arg Harg) as (Hn & Hb & Hnth).
  split; [|].
  - intros z Hz. destruct (entries_nth args.*1 z) as (n & x & Hx & Hent & _); [rewrite length_fmap; lia|].
    rewrite (Hde z n x) by (done || lia). right. rewrite entry_name. destruct (Hall z x Hx) as (Hnx & Hbx & Hnthx).
    rewrite namecmp_stored by done. intros E. rewrite <- E in Hnthx.
    pose proof (NoDup_lookup _ _ _ _ Hnd Hnth Hnthx). lia.
  - destruct (entries_nth args.*1 (2 + j)) as (n & x & Hx & Hent & _ & Hn2); [rewrite length_fmap; lia|].
    change (args.*1 !! j = Some x) in Hx. rewrite Harg in Hx. injection Hx as <-. specialize (Hn2 ltac:(lia)). subst n.
    rewrite (Hde (2 + j)%nat _ _ ltac:(lia) Hent). split.
    + rewrite entry_inum; [lia|]. unfold zlen in *. lia.
    + rewrite entry_name. by apply namecmp_stored.
Qed.

Lemma super_read own h r cs k e : built own h r cs -> boots h k ->
  exists k', readsb ROOTDEV k e = Ok sb0 k' e /\ looked ROOTDEV i p pid k k'.
Proof.
  intros Hb [Hr Hd Hc Hh _ _]. assert (Hv : view k 1 = sector h 1).
  { rewrite (view_unpinned ROOTDEV pid); [by apply Hd|apply (rd_cache _ _ _ _ _ Hr)|apply Hc]. }
  destruct (look_same ROOTDEV i p pid 1 k e Hr (Hh 1 ltac:(done))) as (b & k1 & k2 & Hrun1 & Hdata & _ & Hrun2 & Hl).
  exists k2. split; [|done]. unfold readsb. rewrite (bind_ok _ _ _ _ _ _ _ Hrun1). unfold get_buf. step.
  rewrite (bind_ok _ _ _ _ _ _ _ Hrun2). rewrite Hdata, Hv, (bu_super _ _ _ _ Hb). reflexivity.
Qed.

Lemma reader_sb k sb : reader k -> reader (k <| k_sb := sb |>).
Proof.
  intros [Ht Hca Hsp]. split; [by eapply thread_same; [..|exact Ht]| |done]. by destruct Hca.
Qed.

(** The inode of file [j] in a running kernel, and the root directory's. *)
Lemma built_inodes own h r cs k : built own h r cs -> (forall n, 0 <= n < FSSIZE -> view k n = sector h n) ->
  (forall n, 0 <= n < FSSIZE -> disk_has k n) ->
  (exists a nb, get_dinode (view k (IBLOCK 1 sb0)) (dinode_off 1) = mkDinode T_DIR 0 0 1 ((zlen r / BSIZE + 1) * BSIZE) a /\
    filed (view k) own (h_freeblock h) 1 a (NDIRECT <? nb) nb r /\ nb = nblk (zlen r) /\ allocated ROOTDEV (view k) k a nb) /\
  forall j s, cs !! j = Some s ->
    exists a nb, get_dinode (view k (IBLOCK (2 + Z.of_nat j) sb0)) (dinode_off (2 + Z.of_nat j)) = mkDinode T_FILE 0 0 1 (zlen s) a /\
      filed (view k) own (h_freeblock h) (2 + Z.of_nat j) a (NDIRECT <? nb) nb s /\ allocated ROOTDEV (view k) k a nb /\
      disk_has k (IBLOCK (2 + Z.of_nat j) sb0).
Proof.
  intros Hb Hv Hh. pose proof Hb as [_ _ _ Hhi (a & Hi & Hf) Hcount Hfile _ _]. split.
  - destruct (filed_alloc h own 1 a _ _ r k Hv Hh ltac:(lia) Hf) as [Hf' Hal]. exists a, (nblk (zlen r)).
    rewrite (proj1 (inode_view h k 1 Hv ltac:(done))). done.
  - intros j s Hj. destruct (Hfile j s Hj) as (a' & Hi' & Hf1). pose proof (lookup_lt_Some _ _ _ Hj).
    assert (Hr : 0 <= 2 + Z.of_nat j < NINODES) by (unfold zlen in *; lia). destruct (inode_view h k _ Hv Hr) as [Hg Hb'].
    destruct (filed_alloc h own _ a' _ _ s k Hv Hh ltac:(lia) Hf1) as [Hf' Hal].
    exists a', (nblk (zlen s)). rewrite Hg. split; [done|]. split; [done|]. split; [done|]. by apply Hh.
Qed.

(** Reading the inode namei gave. *)
Lemma read_taken own hi inum a g nb s n k e x0 x1 t :
  reader k -> k_sb k = sb0 -> k_icache k = x0 :: taken inum x1 :: t -> unlocked k 1 ->
  get_dinode (view k (IBLOCK inum sb0)) (dinode_off inum) = mkDinode T_FILE 0 0 1 (zlen s) a ->
  filed (view k) own hi inum a g nb s -> allocated ROOTDEV (view k) k a nb -> disk_has k (IBLOCK inum sb0) -> 0 <= n < 2 ^ 31 ->
  exists k', (ilock (Some 1%nat) ;; readi 1 0 n) k e = Ok (Z.min n (zlen s), take (Z.to_nat n) s) k' e.
Proof.
  intros Hr Hsb Htab Hun Hdi Hf Hal Hhas Hn.
  destruct (ilock_ok ROOTDEV i p pid 1 k e) as (k1 & Hrun1 & Hm1 & _ & Hi1 & _).
  { rewrite Htab. simpl. lia. }
  { done. }
  { by rewrite Htab. }
  { done. }
  { intros _. rewrite Htab, Hsb. change (i_inum _) with inum. rewrite Hdi. done. }
  rewrite (bind_ok _ _ _ _ _ _ _ Hrun1). rewrite Htab, Hsb in Hi1. change (i_inum _) with inum in Hi1. rewrite Hdi in Hi1.
  set (ip := loaded (mkDinode T_FILE 0 0 1 (zlen s) a) (taken inum x1)).
  assert (Hip : k_icache k1 !!! 1%nat = ip) by (by rewrite Hi1). pose proof (zlen_nonneg s) as Hs0.
  destruct (readi_ok ROOTDEV i p pid 1 0 n nb k1 e) as (k2 & _ & Hrun2); rewrite ?Hip; try done.
  { apply (mv_reader _ _ _ _ _ _ Hm1). }
  { by apply (allocated_moved ROOTDEV i p pid k). }
  { change (i_size ip) with (zlen s). split; [done|]. apply (fd_size _ _ _ _ _ _ _ _ Hf). }
  exists k2. rewrite Hrun2, Hip. change (i_size ip) with (zlen s). rewrite (proj2 (Z.ltb_ge (zlen s) 0)) by lia.
  cbv zeta. rewrite Z.sub_0_r. do 2 f_equal. change (i_addrs ip) with a.
  rewrite (bytes_at_ext (view k)) by apply (mv_view _ _ _ _ _ _ Hm1).
  rewrite (filed_bytes _ _ _ _ _ _ _ s 0 (Z.min n (zlen s)) Hf) by lia. rewrite drop_0.
  destruct (Z.min_spec n (zlen s)) as [[_ ->]|[Hle ->]]; [done|]. rewrite !take_ge by (unfold zlen in *; lia). done.
Qed.

Lemma load_file_ok own h args j arg s n k e :
  built own h (dots ++ listing 2 args.*1) args.*2 -> names_ok args.*1 -> SLASH ∉ file_name arg ->
  (2 + zlen args) mod 32 <> 0 -> args !! j = Some (arg, s) -> 0 <= n < 2 ^ 31 -> boots h k ->
  exists k', load_file (SLASH :: file_name arg) n k e = Ok (Z.min n (zlen s), take (Z.to_nat n) s) k' e.
Proof.
  intros Hb Hnames Hsl Hmod Hj Hn Hboot. unfold load_file.
  destruct (super_read own h _ _ k e Hb Hboot) as (k1 & Hrun1 & Hl1). rewrite (bind_ok _ _ _ _ _ _ _ Hrun1). step.
  destruct Hboot as [Hr Hd Hc Hh (x0 & x1 & t & Htab & Hfree) Hun].
  set (k2 := k1 <| k_sb := sb0 |>). pose proof (reader_sb k1 sb0 (lo_reader _ _ _ _ _ _ Hl1)) as Hr2. fold k2 in Hr2.
  assert (Hv2 : forall n, 0 <= n < FSSIZE -> view k2 n = sector h n).
  { intros m Hm. change (view k1 m = sector h m). rewrite (lo_view _ _ _ _ _ _ Hl1).
    rewrite (view_unpinned ROOTDEV pid); [by apply Hd|apply (rd_cache _ _ _ _ _ Hr)|apply Hc]. }
  assert (Hh2 : forall n, 0 <= n < FSSIZE -> disk_has k2 n).
  { intros m Hm. apply (disk_has_ide k1); [done|]. apply (looked_has _ _ _ _ k _ m Hl1). by apply Hh. }
  destruct (built_inodes own h _ _ k2 Hb Hv2 Hh2) as [(ar & nbr & Hir & Hfr & Hnbr & Halr) Hfiles].
  pose proof (lookup_lt_Some _ _ _ Hj) as Hjl. pose proof (bu_count _ _ _ _ Hb) as Hcount.
  assert (Hla : zlen args.*2 = zlen args) by (unfold zlen; by rewrite length_fmap). rewrite Hla in Hcount. unfold NINODES in Hcount.
  assert (Hlr : zlen (dots ++ listing 2 args.*1) = 16 * (2 + zlen args)).
  { rewrite zlen_app, listing_length. change (zlen dots) with 32. unfold zlen. rewrite length_fmap. lia. }
  rewrite Hlr in Hnbr, Hir. destruct (root_entries own h ar _ nbr args j arg s (view k2) Hfr Hnames Hj ltac:(lia)) as (Hskip & Hin & Hcmp).
  assert (Hsize : 16 * (2 + Z.of_nat j + 1) <= (16 * (2 + zlen args) / BSIZE + 1) * BSIZE) by (unfold zlen, BSIZE in *; dlia).
  pose proof (proj1 (Forall_lookup _ _) (proj1 Hnames) j arg ltac:(by rewrite list_lookup_fmap, Hj)) as (_ & _ & Hne).
  destruct (namei_root_ok i p pid (file_name arg) (2 + j) nbr (2 + Z.of_nat j) k2 e x0 x1 t) as (k3 & x0' & Hrun3 & Hm3 & Hi3 & Hun3);
    change (k_sb k2) with sb0; change ROOTINO with 1; rewrite ?Hir; cbn [di_addrs di_type di_nlink di_size]; try done; try lia.
  { unfold k2. fields. by rewrite (looked_icache _ _ _ _ _ _ Hl1). }
  { intros z. unfold unlocked. change (slock_of k2 (S_inode z)) with (slock_of k1 (S_inode z)).
    rewrite (lo_inode _ _ _ _ _ _ Hl1). apply Hun. }
  { apply Hh2. apply (inode_view h k2 1 Hv2). done. }
  { unfold nblk in Hnbr. split; [unfold zlen, BSIZE; dlia|]. rewrite Hnbr. unfold zlen, BSIZE in *. dlia. }
  rewrite (bind_ok _ _ _ _ _ _ _ Hrun3).
  destruct (Hfiles j s) as (a & nb & Hdi & Hf & Hal & Hib); [by rewrite list_lookup_fmap, Hj|].
  apply (read_taken own (h_freeblock h) (2 + Z.of_nat j) a (NDIRECT <? nb) nb s n k3 e x0' x1 t).
  - apply (mv_reader _ _ _ _ _ _ Hm3).
  - apply (moved_sb _ _ _ _ _ _ Hm3).
  - done.
  - apply Hun3.
  - by rewrite (mv_view _ _ _ _ _ _ Hm3).
  - eapply filed_frame; [exact Hf|done|]. intros b _. apply (mv_view _ _ _ _ _ _ Hm3).
  - by apply (allocated_moved ROOTDEV i p pid k2).
  - by apply (moved_has ROOTDEV i p pid k2).
  - done.
Qed.

(** C3. The kernel finds and reads what mkfs wrote.  mkfs, given files that
    fit the disk, builds an image; on a machine started with that image as its
    root disk, the super block read, the name of a file looked up in the root
    directory and its inode locked and read give the first [n] bytes of that
    file.  (The number of entries must not fill the last block of the root
    directory: then mkfs records a block the directory does not have.) *)
Theorem mkfs_file_readable img args j arg s n eh :
  open_image img = true -> Forall arg_ok args -> room args -> names_ok args.*1 -> (2 + zlen args) mod 32 <> 0 ->
  args !! j = Some (arg, s) -> 0 <= n < 2 ^ 31 ->
  exists h, Mkfs.main (img :: args.*1) host0 eh = Ok tt h eh /\ img_ok h /\
    forall k e, boots h k ->
      exists k', load_file (SLASH :: file_name arg) n k e = Ok (Z.min n (zlen s), take (Z.to_nat n) s) k' e.
Proof.
  intros Himg Hargs Hroom Hnames Hmod Hj Hn. destruct (main_ok img args eh Himg Hargs Hroom) as (own & h & Hrun & Hb).
  exists h. split; [done|]. split; [apply (bu_ok _ _ _ _ Hb)|]. intros k e Hboot. apply (load_file_ok own h args j); try done.
  pose proof (proj1 (Forall_lookup _ _) Hargs j _ Hj) as (Hsl & _). cbn [fst] in Hsl. unfold file_name.
  destruct (zget arg 0 =? 95); [|done]. destruct arg as [|c arg]; [done|]. by apply not_elem_of_cons in Hsl as [_ Hsl].
Qed.
End readable.

(** * A machine with the image *)

(** The image as the sectors of the root disk. *)
Definition disk_of (img : list (list Z)) : gmap (Z * Z) (list Z) := fin_maps.kmap (pair ROOTDEV) (map_seqZ 0 img : gmap Z (list Z)).

Lemma disk_of_sector k h n : k_disk k = disk_of (h_img h) -> img_ok h ->
  disk_sector k ROOTDEV n = if decide (0 <= n < FSSIZE) then sector h n else replicate 512 0.
Proof.
  intros Hd [Hl _]. unfold disk_sector. rewrite Hd. unfold disk_of. rewrite lookup_kmap by apply _. case_decide as Hn.
  - rewrite lookup_map_seqZ_0 by lia. unfold sector. by rewrite list_lookup_lookup_total_lt by lia.
  - rewrite (proj2 (lookup_map_seqZ_None _ _ _)); [done|]. rewrite Hl. lia.
Qed.

Lemma boots_of k h bs x0 x1 t : lru bs (rev (seq 0 HEAD)) ->
  (forall b, (b < HEAD)%nat -> b_flags (bs !!! b) = 0 /\ b_dev (bs !!! b) = 0 /\ b_refcnt (bs !!! b) = 0) ->
  k_bcache k = bs -> k_slocks k = empty -> img_ok h -> k_disk k = disk_of (h_img h) -> thread 0 0 1 k ->
  disksize (k_ide k) = FSSIZE -> k_icache k = x0 :: x1 :: t -> Forall (fun ip => i_ref ip = 0) (x0 :: x1 :: t) ->
  @boots (memide_driver 512000) _ 0 0 1 h k.
Proof.
  intros Hlru Hbuf Hbc Hsl Hok Hd Ht Hsz Htab Hfree.
  assert (Hlen : forall n, length (disk_sector k 1 n) = 512%nat).
  { intros n. change 1 with ROOTDEV. rewrite (disk_of_sector k h n Hd Hok). case_decide; [by apply Hok|apply length_replicate]. }
  split.
  - split; [done|by apply (fresh_inv k bs)|]. exists 0%nat. split; [change HEAD with 30%nat; lia|]. split; [apply not_elem_of_nil|].
    unfold dirty. rewrite Hbc. destruct (Hbuf 0%nat) as (E & _); [change HEAD with 30%nat; lia|]. by rewrite E.
  - intros n Hn. rewrite (disk_of_sector k h n Hd Hok). by rewrite decide_True.
  - apply (fresh_clean k bs Hbuf Hbc).
  - intros n Hn. change (n < disksize (k_ide k)). lia.
  - by exists x0, x1, t.
  - intros j. unfold unlocked, slock_of. by rewrite Hsl, lookup_empty.
Qed.

Lemma thread_disk i p pid k d : thread i p pid k -> thread i p pid (k <| k_disk := d |>).
Proof. by apply thread_same. Qed.

Lemma boots_machine k bs d l h x0 x1 t : lru bs (rev (seq 0 HEAD)) ->
  (forall b, (b < HEAD)%nat -> b_flags (bs !!! b) = 0 /\ b_dev (bs !!! b) = 0 /\ b_refcnt (bs !!! b) = 0) ->
  k_slocks k = empty -> img_ok h -> thread 0 0 1 k -> disksize d = FSSIZE -> k_icache k = x0 :: x1 :: t ->
  Forall (fun ip => i_ref ip = 0) (x0 :: x1 :: t) ->
  @boots (memide_driver 512000) _ 0 0 1 h
    (k <| k_bcache := bs |> <| k_ide := d |> <| k_log := l |> <| k_disk := disk_of (h_img h) |>).
Proof. intros. apply (boots_of _ h bs x0 x1 t); try done. by apply thread_disk, thread_with. Qed.

(** The host of the example: "a" with 600 bytes in two reads, "_b" with three. *)
#[local] Instance sample_host : Host := {|
  open_image := fun _ => true;
  host_file := fun arg => if bool_decide (arg = [97]) then Some [replicate 512 7; replicate 88 8] else Some [[1; 2; 3]]
|}.
Definition sample_args : list (list Z * list Z) :=
  [([97], replicate 512 7 ++ replicate 88 8); ([95; 98], [1; 2; 3])].

(** Two bytes of "b". *)
Lemma mkfs_file_readable_witness : exists h k k',
  Mkfs.main ([102] :: sample_args.*1) host0 [] = Ok tt h [] /\ @boots (memide_driver 512000) _ 0 0 1 h k /\
  @load_file (memide_driver 512000) (@console_devices (memide_driver 512000)) [47; 98] 2 k [] = Ok (2, [1; 2]) k' [].
Proof.
  destruct (@mkfs_file_readable (memide_driver 512000) _ 0 0 1 (@console_devices (memide_driver 512000)) _ [102] sample_args 1 [95; 98] [1; 2; 3] 2 []) as (h & Hrun & Hok & Hread).
  - reflexivity.
  - apply Forall_cons_2; [|apply Forall_cons_2; [|apply Forall_nil_2]].
    + split; [apply (bool_decide_unpack _); by vm_compute|]. split; [by vm_compute|].
      exists [replicate 512 7; replicate 88 8]. split; [reflexivity|]. split; [by repeat constructor|reflexivity].
    + split; [apply (bool_decide_unpack _); by vm_compute|]. split; [by vm_compute|].
      exists [[1; 2; 3]]. split; [reflexivity|]. split; [by repeat constructor|reflexivity].
  - split; by vm_compute.
  - split; [repeat constructor; done|]. apply (bool_decide_unpack _). by vm_compute.
  - by vm_compute.
  - reflexivity.
  - lia.
  - set (k := Sample.k <| k_bcache := fresh_cache |> <| k_ide := mkIde false None 0 1000 |>
      <| k_log := mkLog 2 30 0 0 1 0 (replicate 30 0) |> <| k_disk := disk_of (h_img h) |>).
    assert (Hb : @boots (memide_driver 512000) _ 0 0 1 h k).
    { destruct (k_icache Sample.k) as [|x0 [|x1 t]] eqn:E; [discriminate E|discriminate E|].
      apply (boots_machine Sample.k fresh_cache _ _ h x0 x1 t);
        [exact fresh_lru|exact fresh_buf|reflexivity|exact Hok|exact sample_thread|reflexivity|exact E|].
      rewrite <- E. vm_compute. repeat constructor. }
    destruct (Hread k [] Hb) as (k' & Hk). exists h, k, k'. split; [exact Hrun|]. split; [exact Hb|exact Hk].
Defined.

(** C26. When the entries of the root directory fill its blocks exactly (30
    files, 62 files, ...), mkfs gives the directory a size one block larger than
    the blocks it has: the address of the block in which the size ends is 0. *)
Theorem mkfs_root_unbacked `{Host} img args eh :
  open_image img = true -> Forall arg_ok args -> room args -> (2 + zlen args) mod 32 = 0 ->
  exists h, Mkfs.main (img :: args.*1) host0 eh = Ok tt h eh /\
    let di := inode_of h ROOTINO in let last := (di_size di - 1) / BSIZE in
    di_type di = T_DIR /\ last = (2 + zlen args) / 32 /\ block_at (sector h) (di_addrs di) last = 0.
Proof.
  intros Himg Hargs Hroom Hmod. destruct (main_ok img args eh Himg Hargs Hroom) as (own & h & Hrun & Hb).
  exists h. split; [done|]. destruct (bu_root _ _ _ _ Hb) as (a & Hi & Hf). change ROOTINO with 1. rewrite Hi. cbn [di_type di_size di_addrs].
  assert (Hlr : zlen (dots ++ listing 2 args.*1) = 16 * (2 + zlen args)).
  { rewrite zlen_app, listing_length. change (zlen dots) with 32. unfold zlen. rewrite length_fmap. lia. }
  rewrite Hlr in *. pose proof (proj1 Hroom) as Hn. unfold NINODES in Hn. pose proof (zlen_nonneg args).
  assert (Hlast : ((16 * (2 + zlen args) / BSIZE + 1) * BSIZE - 1) / BSIZE = (2 + zlen args) / 32) by (unfold BSIZE; dlia).
  split; [done|]. rewrite Hlast. split; [done|].
  apply (fd_zero _ _ _ _ _ _ _ _ Hf); [change MAXFILE with 140; unfold nblk, BSIZE; dlia|left; unfold NDIRECT; dlia].
Qed.

(** Thirty times the three-byte file. *)
Lemma mkfs_root_unbacked_witness : exists h,
  Mkfs.main ([102] :: (replicate 30 ([98], [1; 2; 3])).*1) host0 [] = Ok tt h [] /\
  block_at (sector h) (di_addrs (inode_of h ROOTINO)) 1 = 0.
Proof.
  destruct (mkfs_root_unbacked [102] (replicate 30 ([98], [1; 2; 3])) []) as (h & Hrun & _ & Hl & Hz).
  - reflexivity.
  - apply Forall_replicate. split; [apply (bool_decide_unpack _); by vm_compute|]. split; [by vm_compute|].
    exists [[1; 2; 3]]. split; [reflexivity|]. split; [by repeat constructor|reflexivity].
  - split; by vm_compute.
  - reflexivity.
  - exists h. split; [exact Hrun|]. rewrite Hl in Hz. exact Hz.
Defined.
