(* ===== verification/Hw.v ===== *)
(** Port and memory-mapped I/O: the instructions of x86.h that talk to devices,
    and the machine that boot and start-up code runs on. *)
From S2P Require Import Prelude Kernel Mem.

(** An access to a device and the value that was moved. *)
Inductive access :=
| In (port v : Z)
| Out (port v : Z)
| Load (addr v : Z)
| Store (addr v : Z).

(** The devices: what a port or a register reads as, given all accesses so
    far, oldest first. *)
Class Bus := {
  answer_in : list access -> Z -> Z;
  answer_load : list access -> Z -> Z
}.

(** Memory, the accesses so far, and the variables the start-up code sets:
    lapic (lapic.c), the apicid fields of cpus[NCPU], ncpu and ioapicid (mp.c),
    and ioapic (ioapic.c); and the messages given to cprintf. *)
Record mach := mkMach {
  m_mem : gmap Z Z;
  m_io : list access;
  m_lapic : Z;
  m_apicids : list Z;
  m_ncpu : Z;
  m_ioapicid : Z;
  m_ioapic : Z;
  m_msgs : list (list Z)
}.
#[export] Instance eta_mach : Eta mach := fun m =>
  mkMach (m_mem m) (m_io m) (m_lapic m) (m_apicids m) (m_ncpu m) (m_ioapicid m) (m_ioapic m) (m_msgs m).
#[export] Instance over_m_mem : Updater m_mem := ltac:(derive_updater).
#[export] Instance over_m_io : Updater m_io := ltac:(derive_updater).
#[export] Instance over_m_lapic : Updater m_lapic := ltac:(derive_updater).
#[export] Instance over_m_apicids : Updater m_apicids := ltac:(derive_updater).
#[export] Instance over_m_ncpu : Updater m_ncpu := ltac:(derive_updater).
#[export] Instance over_m_ioapicid : Updater m_ioapicid := ltac:(derive_updater).
#[export] Instance over_m_ioapic : Updater m_ioapic := ltac:(derive_updater).
#[export] Instance over_m_msgs : Updater m_msgs := ltac:(derive_updater).

Definition W := M mach.

Definition traced (a : access) : W unit := modify (fun m => m <| m_io ::= fun l => l ++ [a] |>).

(** A loop that is left when [body] gives a value; out of fuel it still runs. *)
Definition spin_on {A} (fuel : nat) (body : W (option A)) : W A := loop fuel body.

Section access.
Context `{Bus}.

Definition inb (port : Z) : W Z :=
  h <- gets m_io ;;
  let v := u8 (answer_in h port) in
  traced (In port v) ;;
  ret v.
Definition outb (port data : Z) : W unit := traced (Out port (u8 data)).

(** rep insl: [cnt] words from the port to [addr]. *)
Fixpoint insl (port addr : Z) (cnt : nat) : W unit :=
  match cnt with
  | O => ret tt
  | S cnt' =>
      h <- gets m_io ;;
      let v := u32 (answer_in h port) in
      traced (In port v) ;;
      modify (fun m => m <| m_mem ::= fun mem => wr32 mem addr v |>) ;;
      insl port (addr + 4) cnt'
  end.

(** A volatile word. *)
Definition vload (addr : Z) : W Z :=
  h <- gets m_io ;;
  let v := u32 (answer_load h addr) in
  traced (Load addr v) ;;
  ret v.
Definition vstore (addr v : Z) : W unit := traced (Store addr (u32 v)).
End access.
