(* ===== verification/Mp.v ===== *)
(** mp.c: the search for the MultiProcessor tables and the CPUs they list, and what
    mpinit makes of the table it finds. *)
From S2P Require Import Prelude Kernel Mem Console Hw.

(** struct mp and struct mpconf, by the offsets of their fields; sizes of the
    entries that follow the configuration header. *)
Definition sizeof_mp : Z := 16.
Definition mp_physaddr (m : gmap Z Z) (p : Z) : Z := rd32 m (p + 4).
Definition mp_imcrp (m : gmap Z Z) (p : Z) : Z := rd8 m (p + 12).
Definition sizeof_mpconf : Z := 44.
Definition conf_length (m : gmap Z Z) (c : Z) : Z := rd8 m (c + 4) + 2 ^ 8 * rd8 m (c + 5).
Definition conf_version (m : gmap Z Z) (c : Z) : Z := rd8 m (c + 6).
Definition conf_lapicaddr (m : gmap Z Z) (c : Z) : Z := rd32 m (c + 36).
Definition sizeof_mpproc : Z := 20.
Definition sizeof_mpioapic : Z := 8.

Definition MPPROC : Z := 0x00.
Definition MPBUS : Z := 0x01.
Definition MPIOAPIC : Z := 0x02.
Definition MPIOINTR : Z := 0x03.
Definition MPLINTR : Z := 0x04.

(** The bytes added up, as a uchar. *)
Fixpoint sum_loop (m : gmap Z Z) (addr : Z) (len : nat) (acc : Z) : Z :=
  match len with
  | O => acc
  | S len' => sum_loop m (addr + 1) len' (acc + rd8 m addr)
  end.
Definition sum (m : gmap Z Z) (addr len : Z) : Z := u8 (sum_loop m addr (Z.to_nat len) 0).

(** memcmp of memory with a string constant. *)
Definition signature (m : gmap Z Z) (p : Z) (s : string) : bool := bool_decide (load m p 4 = bytes s).

Fixpoint mpsearch_loop (n : nat) (m : gmap Z Z) (p e : Z) : option Z :=
  match n with
  | O => None
  | S n' =>
      if p <? e then
        if signature m p "_MP_" && (sum m p sizeof_mp =? 0) then Some p
        else mpsearch_loop n' m (p + sizeof_mp) e
      else None
  end.
(** Look for an MP structure in the len bytes at addr. *)
Definition mpsearch1 (m : gmap Z Z) (a len : Z) : option Z :=
  let addr := P2V a in
  mpsearch_loop (S (Z.to_nat (len / sizeof_mp))) m addr (addr + len).

(** Search the extended BIOS data area or the last KB of base memory, then the
    BIOS ROM. *)
Definition mpsearch (m : gmap Z Z) : option Z :=
  let bda := P2V 0x400 in
  let p := u32 (Z.shiftl (Z.lor (Z.shiftl (rd8 m (bda + 0x0F)) 8) (rd8 m (bda + 0x0E))) 4) in
  let o := if nz p then mpsearch1 m p 1024
           else mpsearch1 m (u32 (Z.lor (Z.shiftl (rd8 m (bda + 0x14)) 8) (rd8 m (bda + 0x13)) * 1024 - 1024)) 1024 in
  match o with
  | Some mp => Some mp
  | None => mpsearch1 m 0xF0000 0x10000
  end.

(** The MP structure and the configuration table. *)
Definition mpconfig (m : gmap Z Z) : option (Z * Z) :=
  match mpsearch m with
  | None => None
  | Some mp =>
      if mp_physaddr m mp =? 0 then None
      else
        let conf := P2V (mp_physaddr m mp) in
        if negb (signature m conf "PCMP") then None
        else if negb (conf_version m conf =? 1) && negb (conf_version m conf =? 4) then None
        else if negb (sum m conf (conf_length m conf) =? 0) then None
        else Some (mp, conf)
  end.

(** for(p = ..., e = ...; p < e; ): the break of the default case leaves the
    switch, not the loop. *)
Fixpoint mpinit_loop (fuel : nat) (p e : Z) (ismp : bool) : W bool :=
  match fuel with
  | O => fun s _ => Blocked s
  | S fuel' =>
      if p <? e then
        mem <- gets m_mem ;;
        let ty := rd8 mem p in
        if ty =? MPPROC then
          n <- gets m_ncpu ;;
          when (n <? NCPU)
            (modify (fun m => m <| m_apicids ::= fun l => zset l n (rd8 mem (p + 1)) |>
                                <| m_ncpu ::= fun n => n + 1 |>)) ;;
          mpinit_loop fuel' (p + sizeof_mpproc) e ismp
        else if ty =? MPIOAPIC then
          modify (fun m => m <| m_ioapicid := rd8 mem (p + 1) |>) ;;
          mpinit_loop fuel' (p + sizeof_mpioapic) e ismp
        else if (ty =? MPBUS) || (ty =? MPIOINTR) || (ty =? MPLINTR) then
          mpinit_loop fuel' (p + 8) e ismp
        else mpinit_loop fuel' p e false
      else ret ismp
  end.

Definition mpinit `{Bus} (fuel : nat) : W unit :=
  mem <- gets m_mem ;;
  match mpconfig mem with
  | None => panic "Expect to run on an SMP"
  | Some (mp, conf) =>
      modify (fun m => m <| m_lapic := conf_lapicaddr mem conf |>) ;;
      ismp <- mpinit_loop fuel (conf + sizeof_mpconf) (conf + conf_length mem conf) true ;;
      if negb ismp then panic "Didn't find a suitable machine"
      else
        when (nz (mp_imcrp mem mp))
          (outb 0x22 0x70 ;; (* Select IMCR *)
           v <- inb 0x23 ;;
           outb 0x23 (Z.lor v 1)) (* Mask external interrupts. *)
  end.

Section mpspec.
Implicit Types (st : mach) (x : list Z) (xs : list (list Z)) (e : list (mach -> mach)) (p : Z) (mem : gmap Z Z).

(** An entry of the table: its type, and a length that goes with it. *)
Definition entry_ok x : Prop :=
  match x with
  | [] => False
  | ty :: _ => (ty = MPPROC /\ length x = 20%nat) \/
               (ty ∈ [MPIOAPIC; MPBUS; MPIOINTR; MPLINTR] /\ length x = 8%nat)
  end.
(** The second byte of the entries of type [ty]. *)
Definition ids (ty : Z) xs : list Z :=
  omap (fun x => if zget x 0 =? ty then Some (zget x 1) else None) xs.

(** The CPUs found so far are [procs]; all of cpus[] if there are more. *)
Record found (procs : list Z) st : Prop := {
  fo_len : length (m_apicids st) = Z.to_nat NCPU;
  fo_ncpu : m_ncpu st = Z.min NCPU (zlen procs);
  fo_ids : take (Z.to_nat (m_ncpu st)) (m_apicids st) = take (Z.to_nat NCPU) procs
}.

(** The table from [p] on is [x] and then [rest]. *)
Lemma load_entry mem p x rest : load mem p (length (x ++ rest)) = x ++ rest ->
  (forall j, (j < length x)%nat -> rd8 mem (p + Z.of_nat j) = zget x (Z.of_nat j)) /\
  load mem (p + zlen x) (length rest) = rest.
Proof.
  rewrite length_app, load_app. intros E.
  assert (Hll : length (load mem p (length x)) = length x) by (apply length_load).
  apply app_inj_1 in E as [E1 E2]; [|done]. split; [|done]. intros j Hj. pose proof (lookup_load mem p _ j Hj) as Hr.
  rewrite E1 in Hr. unfold zget. rewrite Nat2Z.id. symmetry. by apply list_lookup_total_correct.
Qed.

Lemma found_proc procs st v : found procs st ->
  found (procs ++ [v]) (if m_ncpu st <? NCPU then st <| m_apicids ::= fun l => zset l (m_ncpu st) v |> <| m_ncpu ::= fun n => n + 1 |> else st).
Proof.
  intros [Hl Hn Hi]. unfold NCPU in *. assert (Hz : zlen (procs ++ [v]) = zlen procs + 1) by (unfold zlen; rewrite length_app; simpl; lia).
  assert (H0 : 0 <= zlen procs) by (unfold zlen; lia).
  destruct (Z.ltb_spec (m_ncpu st) 8) as [Hlt|Hge].
  - assert (Hnp : m_ncpu st = zlen procs) by lia. split; fields.
    + by rewrite length_zset.
    + unfold NCPU. lia.
    + change NCPU with 8. rewrite Hnp in *. unfold zset, zlen in *. rewrite Nat2Z.id in *. rewrite (take_ge (procs ++ [v])) by (rewrite length_app; simpl; lia).
      replace (Z.to_nat (Z.of_nat (length procs) + 1)) with (S (length procs)) by lia.
      rewrite (take_S_r _ _ v) by (apply list_lookup_insert_eq; lia). rewrite take_insert_ge by lia.
      rewrite Hi. by rewrite take_ge by lia.
  - split; [done|unfold NCPU; lia|]. change NCPU with 8. rewrite Hi. rewrite take_app_le; [done|]. unfold zlen in *. lia.
Qed.

(** What one entry changes. *)
Definition enter x st : mach :=
  if zget x 0 =? MPPROC then
    if m_ncpu st <? NCPU then st <| m_apicids ::= fun l => zset l (m_ncpu st) (zget x 1) |> <| m_ncpu ::= fun n => n + 1 |> else st
  else if zget x 0 =? MPIOAPIC then st <| m_ioapicid := zget x 1 |> else st.

Lemma entry_step x rest fuel p en b st e : entry_ok x -> load (m_mem st) p (length (x ++ rest)) = x ++ rest -> p + zlen x <= en ->
  mpinit_loop (S fuel) p en b st e = mpinit_loop fuel (p + zlen x) en b (enter x st) e.
Proof.
  intros Hx Hload Hen. destruct (load_entry _ _ _ _ Hload) as [Hrd _].
  assert (Hxp : 8 <= zlen x) by (destruct x; [done|]; destruct Hx as [[_ E]|[_ E]]; unfold zlen; rewrite E; lia).
  assert (H0 : rd8 (m_mem st) p = zget x 0) by (rewrite <- (Z.add_0_r p); apply (Hrd 0%nat); unfold zlen in *; lia).
  assert (H1 : rd8 (m_mem st) (p + 1) = zget x 1) by (apply (Hrd 1%nat); unfold zlen in *; lia).
  cbn [mpinit_loop]. rewrite (proj2 (Z.ltb_lt p en)) by lia. step. rewrite H0, H1. unfold enter.
  destruct x as [|ty x']; [done|]. change (zget (ty :: x') 0) with ty. destruct Hx as [[-> Hl]|[Hty Hl]].
  - change (MPPROC =? MPPROC) with true. cbn iota. step. unfold zlen. rewrite Hl. by destruct (m_ncpu st <? NCPU).
  - unfold zlen. rewrite Hl. rewrite !elem_of_cons in Hty. destruct Hty as [->|[->|[->|[->|Hn]]]]; try done. by apply elem_of_nil in Hn.
Qed.

Lemma enter_found procs x xs st : entry_ok x -> found procs st ->
  ids MPPROC (x :: xs) = ids MPPROC [x] ++ ids MPPROC xs /\ found (procs ++ ids MPPROC [x]) (enter x st) /\
  m_ioapicid (enter x st) = default (m_ioapicid st) (list.last (ids MPIOAPIC [x])) /\
  ids MPIOAPIC (x :: xs) = ids MPIOAPIC [x] ++ ids MPIOAPIC xs /\
  m_mem (enter x st) = m_mem st /\ m_io (enter x st) = m_io st /\ m_lapic (enter x st) = m_lapic st.
Proof.
  intros Hx Hf. assert (Hids : forall t, ids t (x :: xs) = ids t [x] ++ ids t xs).
  { intros t. unfold ids. cbn [omap list_omap]. by destruct (zget x 0 =? t). }
  assert (H1 : forall t, ids t [x] = if zget x 0 =? t then [zget x 1] else []) by (intros t; unfold ids; cbn [omap list_omap]; by destruct (zget x 0 =? t)).
  split; [apply Hids|]. rewrite (H1 MPPROC). unfold enter. destruct (Z.eqb_spec (zget x 0) MPPROC) as [Hp|Hp].
  - split; [by apply found_proc|]. rewrite Hids, H1, Hp. by destruct (m_ncpu st <? NCPU).
  - rewrite app_nil_r, Hids, H1. destruct (zget x 0 =? MPIOAPIC); split; try done. by destruct Hf.
Qed.

Lemma mpinit_loop_ok e b : forall xs fuel p en procs st rest, Forall entry_ok xs ->
  load (m_mem st) p (length (mjoin xs ++ rest)) = mjoin xs ++ rest -> p + zlen (mjoin xs) <= en -> found procs st ->
  exists st', mpinit_loop (length xs + fuel) p en b st e = mpinit_loop fuel (p + zlen (mjoin xs)) en b st' e /\
    found (procs ++ ids MPPROC xs) st' /\ m_ioapicid st' = default (m_ioapicid st) (list.last (ids MPIOAPIC xs)) /\
    m_mem st' = m_mem st /\ m_io st' = m_io st /\ m_lapic st' = m_lapic st.
Proof.
  induction xs as [|x xs IH]; intros fuel p en procs st rest Hok Hload Hen Hf.
  { exists st. rewrite app_nil_r. change (zlen (mjoin [])) with 0. rewrite Z.add_0_r. done. }
  change (mjoin (x :: xs)) with (x ++ mjoin xs) in *. apply Forall_cons_1 in Hok as [Hx Hok]. rewrite <- app_assoc in Hload.
  assert (Hxl : zlen (x ++ mjoin xs) = zlen x + zlen (mjoin xs)) by (unfold zlen; rewrite length_app; lia). rewrite Hxl in *.
  assert (Hz : 0 <= zlen (mjoin xs)) by (unfold zlen; lia).
  cbn [length Nat.add]. rewrite (entry_step x (mjoin xs ++ rest)) by (done || lia).
  destruct (enter_found procs x xs st Hx Hf) as (Hid & Hf1 & Hio & Hid2 & Hm & Ht & Hlp).
  destruct (IH fuel (p + zlen x) en (procs ++ ids MPPROC [x]) (enter x st) rest Hok) as (st' & Hrun & Hf' & Hio' & Hm' & Ht' & Hlp').
  { rewrite Hm. apply (load_entry _ _ _ _ Hload). }
  { lia. }
  { exact Hf1. }
  exists st'. rewrite Hrun, Hid, Hid2, app_assoc, Hio', Hm', Ht', Hlp', Hio, Hm, Ht, Hlp, list.last_app.
  split; [by rewrite Z.add_assoc|]. split; [done|]. split; [by destruct (list.last (ids MPIOAPIC xs))|done].
Qed.

(** An entry of another type: the loop stays on it. *)
Lemma mpinit_loop_stuck e : forall xs fuel p en b st ty, Forall entry_ok xs -> MPLINTR < ty ->
  load (m_mem st) p (length (mjoin xs ++ [ty])) = mjoin xs ++ [ty] -> p + zlen (mjoin xs) < en ->
  exists st', mpinit_loop fuel p en b st e = Blocked st'.
Proof.
  unfold MPLINTR. induction xs as [|x xs IH]; intros fuel p en b st ty Hok Hty Hload Hen.
  - change (mjoin [] ++ [ty]) with [ty] in Hload. change (zlen (mjoin [])) with 0 in Hen. rewrite Z.add_0_r in Hen.
    injection Hload as Hrd. revert b. induction fuel as [|fuel IHf]; intros b; [by exists st|].
    cbn [mpinit_loop]. rewrite (proj2 (Z.ltb_lt p en)) by lia. step. rewrite Hrd. unfold MPPROC, MPIOAPIC, MPBUS, MPIOINTR, MPLINTR.
    rewrite !(proj2 (Z.eqb_neq ty _)) by lia. apply IHf.
  - destruct fuel as [|fuel]; [by exists st|]. change (mjoin (x :: xs)) with (x ++ mjoin xs) in *. rewrite <- app_assoc in Hload.
    apply Forall_cons_1 in Hok as [Hx Hok]. assert (Hxl : zlen (x ++ mjoin xs) = zlen x + zlen (mjoin xs)) by (unfold zlen; rewrite length_app; lia).
    assert (Hz : 0 <= zlen (mjoin xs)) by (unfold zlen; lia). rewrite (entry_step x (mjoin xs ++ [ty])) by (done || lia).
    apply (IH _ _ _ _ _ ty); [done|done| |lia].
    replace (m_mem (enter x st)) with (m_mem st) by (unfold enter; by repeat case_match). apply (load_entry _ _ _ _ Hload).
Qed.

(** The accesses that turn the 8259 interrupts off, where there is an IMCR. *)
Definition imcr_accesses `{Bus} (h : list access) : list access :=
  let v := u8 (answer_in (h ++ [Out 0x22 0x70]) 0x23) in [Out 0x22 0x70; In 0x23 v; Out 0x23 (u8 (Z.lor v 1))].

(** C28. mpinit reads a table of well-formed entries to its end: cpus[] gets the
    APIC ids of the processor entries in the order of the table, the first NCPU
    of them; ioapicid is that of the last I/O APIC entry; lapic is the address in
    the header; the IMCR is programmed exactly where imcrp says there is one; and
    memory is as it was. One turn of the loop per entry is enough. *)
Theorem mpinit_reads_table `{Bus} st e mp conf xs :
  mpconfig (m_mem st) = Some (mp, conf) -> conf_length (m_mem st) conf = sizeof_mpconf + zlen (mjoin xs) ->
  load (m_mem st) (conf + sizeof_mpconf) (length (mjoin xs)) = mjoin xs -> Forall entry_ok xs ->
  length (m_apicids st) = Z.to_nat NCPU -> m_ncpu st = 0 ->
  exists st', mpinit (S (length xs)) st e = Ok tt st' e /\ m_mem st' = m_mem st /\
    m_ncpu st' = Z.min NCPU (zlen (ids MPPROC xs)) /\
    take (Z.to_nat (m_ncpu st')) (m_apicids st') = take (Z.to_nat NCPU) (ids MPPROC xs) /\
    m_ioapicid st' = default (m_ioapicid st) (list.last (ids MPIOAPIC xs)) /\
    m_lapic st' = conf_lapicaddr (m_mem st) conf /\
    m_io st' = m_io st ++ (if mp_imcrp (m_mem st) mp =? 0 then [] else imcr_accesses (m_io st)).
Proof.
  intros Hc Hlen Hload Hok Hl H0. unfold mpinit. step. rewrite Hc. step. rewrite Hlen.
  set (st1 := st <| m_lapic := conf_lapicaddr (m_mem st) conf |>).
  destruct (mpinit_loop_ok e true xs 1 (conf + sizeof_mpconf) (conf + (sizeof_mpconf + zlen (mjoin xs))) [] st1 []) as (st2 & Hrun & [Hf1 Hf2 Hf3] & Hio & Hm & Ht & Hlp).
  { done. } { by rewrite app_nil_r. } { lia. } { split; [done|by subst st1; fields; rewrite H0|by subst st1; fields; rewrite H0]. }
  rewrite Nat.add_1_r in Hrun. unfold bind at 1. rewrite Hrun. cbn [mpinit_loop].
  rewrite (proj2 (Z.ltb_ge _ _)) by lia. cbn [ret negb]. unfold nz. cbn [app] in Hf3.
  destruct (mp_imcrp (m_mem st) mp =? 0); cbn [negb when].
  - exists st2. rewrite app_nil_r. done.
  - unfold outb, inb, traced. step. eexists. split; [reflexivity|]. fields. rewrite Ht. repeat (split; [done|]).
    unfold imcr_accesses. by rewrite <- !app_assoc.
Qed.

(** C27. An entry of an unknown type hangs the boot: the break of the default case
    leaves the switch but not the loop, which looks at the same entry for ever, so
    the panic after the loop is never reached. *)
Theorem mpinit_hangs `{Bus} fuel st e mp conf xs ty :
  mpconfig (m_mem st) = Some (mp, conf) -> sizeof_mpconf + zlen (mjoin xs) < conf_length (m_mem st) conf ->
  load (m_mem st) (conf + sizeof_mpconf) (length (mjoin xs ++ [ty])) = mjoin xs ++ [ty] -> Forall entry_ok xs -> MPLINTR < ty ->
  exists st', mpinit fuel st e = Blocked st'.
Proof.
  intros Hc Hlen Hload Hok Hty. unfold mpinit. step. rewrite Hc. step.
  destruct (mpinit_loop_stuck e xs fuel (conf + sizeof_mpconf) (conf + conf_length (m_mem st) conf) true (st <| m_lapic := conf_lapicaddr (m_mem st) conf |>) ty) as (st' & Hrun);
    [done|done|done|lia|]. exists st'. unfold bind. by rewrite Hrun.
Qed.
End mpspec.

(** The table of a machine with two processors and one I/O APIC, in the BIOS ROM:
    the structure that points to it, its header and its entries, checksums
    included. *)
Definition sample_entries : list (list Z) :=
  [[0; 0; 20; 3] ++ replicate 16 0; [0; 5; 20; 1] ++ replicate 16 0; [1; 0; 73; 83; 65; 32; 32; 32]; [2; 7; 17; 1; 0; 0; 192; 254];
   [3; 0; 0; 0; 0; 1; 7; 1]; [4; 3; 0; 0; 0; 0; 255; 0]].
Definition sample_header (len ck : Z) : list Z :=
  bytes "PCMP" ++ [len; 0; 4; ck] ++ replicate 28 0 ++ [0; 0; 224; 254] ++ replicate 4 0.
Definition sample_mem (table : list Z) : gmap Z Z :=
  store (store ∅ (P2V 0xF0010) (bytes "_MP_" ++ [64; 0; 15; 0; 1; 4; 209; 0; 128; 0; 0; 0])) (P2V 0xF0040) table.
Definition sample_mach (table : list Z) : mach := mkMach (sample_mem table) [] 0 (replicate 8 0) 0 0 0 [].
Definition sample_table : list Z := sample_header 116 32 ++ mjoin sample_entries.

Definition sample_bus : Bus := {| answer_in := fun _ _ => 0; answer_load := fun _ _ => 0 |}.

(** CPUs 0 and 5, I/O APIC 7, and an IMCR. *)
Lemma mpinit_reads_table_witness : exists st',
  @mpinit sample_bus 7 (sample_mach sample_table) [] = Ok tt st' [] /\ m_ncpu st' = 2 /\
  take 2 (m_apicids st') = [0; 5] /\ m_ioapicid st' = 7 /\ m_lapic st' = 0xFEE00000 /\
  m_io st' = [Out 0x22 0x70; In 0x23 0; Out 0x23 1].
Proof.
  destruct (@mpinit_reads_table sample_bus (sample_mach sample_table) [] (P2V 0xF0010) (P2V 0xF0040) sample_entries) as (st' & Hrun & _ & Hn & Hids & Hio & Hl & Ht).
  - by vm_compute.
  - by vm_compute.
  - by vm_compute.
  - assert (Hd : forall x, (length x = 20%nat /\ zget x 0 = MPPROC) \/ (length x = 8%nat /\ zget x 0 ∈ [MPIOAPIC; MPBUS; MPIOINTR; MPLINTR]) -> entry_ok x)
      by (intros [|t x] [[? Ht]|[? Ht]]; [done|done|left|right]; done).
    repeat (apply Forall_cons_2; [apply Hd; apply (bool_decide_unpack _); by vm_compute|]). apply Forall_nil_2.
  - reflexivity.
  - reflexivity.
  - exists st'. change (m_ncpu st' = 2) in Hn. rewrite Hn in Hids. repeat split; assumption || (rewrite ?Hids, ?Hio, ?Hl, ?Ht; by vm_compute).
Defined.

(** A processor and then an entry of type 9. *)
Lemma mpinit_hangs_witness : exists st',
  @mpinit sample_bus 1000 (sample_mach (sample_header 65 141 ++ [0; 0; 20; 3] ++ replicate 16 0 ++ [9])) [] = Blocked st'.
Proof.
  apply (@mpinit_hangs sample_bus 1000 _ [] (P2V 0xF0010) (P2V 0xF0040) [[0; 0; 20; 3] ++ replicate 16 0] 9).
  - by vm_compute.
  - by vm_compute.
  - by vm_compute.
  - apply Forall_cons_2; [by left|apply Forall_nil_2].
  - by vm_compute.
Defined.
