(* ===== verification/Bootmain.v ===== *)
(** bootmain.c: the boot loader, which reads the kernel's ELF file off the disk;
    the kernel in memory is the kernel on the disk. *)
From S2P Require Import Prelude Kernel Mem Fsformat BlockFacts Str Exec Hw.

Definition SECTSIZE : Z := 512.

(** The fields of struct elfhdr and of struct proghdr in memory that the loader
    uses. *)
Definition hdr_magic (m : gmap Z Z) (p : Z) : Z := rd32 m p.
Definition hdr_entry (m : gmap Z Z) (p : Z) : Z := rd32 m (p + 24).
Definition hdr_phoff (m : gmap Z Z) (p : Z) : Z := rd32 m (p + 28).
Definition hdr_phnum (m : gmap Z Z) (p : Z) : Z := rd8 m (p + 44) + 2 ^ 8 * rd8 m (p + 45).
Record segment := mkSegment { sg_off : Z; sg_paddr : Z; sg_filesz : Z; sg_memsz : Z }.
Definition segment_at (m : gmap Z Z) (p : Z) : segment :=
  mkSegment (rd32 m (p + 4)) (rd32 m (p + 12)) (rd32 m (p + 16)) (rd32 m (p + 20)).

(** Wait for disk ready. *)
Definition waitdisk `{Bus} (fuel : nat) : W unit :=
  spin_on fuel
    (v <- inb 0x1F7 ;;
     ret (if Z.land v 0xC0 =? 0x40 then Some tt else None)).

(** Read a single sector at offset into dst. *)
Definition readsect `{Bus} (fuel : nat) (dst offset : Z) : W unit :=
  (* Issue command. *)
  waitdisk fuel ;;
  outb 0x1F2 1 ;; (* count = 1 *)
  outb 0x1F3 offset ;;
  outb 0x1F4 (Z.shiftr offset 8) ;;
  outb 0x1F5 (Z.shiftr offset 16) ;;
  outb 0x1F6 (Z.lor (Z.shiftr offset 24) 0xE0) ;;
  outb 0x1F7 0x20 ;; (* cmd 0x20 - read sectors *)
  (* Read data. *)
  waitdisk fuel ;;
  insl 0x1F0 dst (Z.to_nat (SECTSIZE / 4)).

Fixpoint readseg_loop `{Bus} (fuel n : nat) (pa epa offset : Z) : W unit :=
  match n with
  | O => fun s _ => Blocked s
  | S n' =>
      if pa <? epa then
        readsect fuel pa offset ;;
        readseg_loop fuel n' (u32 (pa + SECTSIZE)) epa (u32 (offset + 1))
      else ret tt
  end.
(** Read 'count' bytes at 'offset' from kernel into physical address 'pa'.
    Might copy more than asked. *)
Definition readseg `{Bus} (fuel : nat) (pa count offset : Z) : W unit :=
  let epa := u32 (pa + count) in
  (* Round down to sector boundary. *)
  let pa := u32 (pa - offset mod SECTSIZE) in
  (* Translate from bytes to sectors; kernel starts at sector 1. *)
  let offset := u32 (offset / SECTSIZE + 1) in
  readseg_loop fuel (S (Z.to_nat ((epa - pa + SECTSIZE - 1) / SECTSIZE))) pa epa offset.

(** Load each program segment (ignores ph flags). *)
Fixpoint load_segments `{Bus} (fuel n : nat) (ph eph : Z) : W unit :=
  match n with
  | O => fun s _ => Blocked s
  | S n' =>
      if ph <? eph then
        s <- gets (fun st => segment_at (m_mem st) ph) ;;
        let pa := sg_paddr s in
        readseg fuel pa (sg_filesz s) (sg_off s) ;;
        s <- gets (fun st => segment_at (m_mem st) ph) ;;
        when (sg_filesz s <? sg_memsz s)
          (modify (fun st => st <| m_mem ::= fun m =>
             stosb m (u32 (pa + sg_filesz s)) 0 (Z.to_nat (sg_memsz s - sg_filesz s)) |>)) ;;
        load_segments fuel n' (u32 (ph + sizeof_proghdr)) eph
      else ret tt
  end.

(** Some entry: the kernel is called there; None: back to bootasm.S. *)
Definition bootmain `{Bus} (fuel : nat) : W (option Z) :=
  let elf := 0x10000 in (* scratch space *)
  (* Read 1st page off disk *)
  readseg fuel elf 4096 0 ;;
  m <- gets m_mem ;;
  (* Is this an ELF executable? *)
  if negb (hdr_magic m elf =? ELF_MAGIC) then ret None
  else
    let ph := u32 (elf + hdr_phoff m elf) in
    let eph := u32 (ph + hdr_phnum m elf * sizeof_proghdr) in
    load_segments fuel (S (Z.to_nat (hdr_phnum m elf))) ph eph ;;
    (* Call the entry point from the ELF header. *)
    entry <- gets (fun st => hdr_entry (m_mem st) elf) ;;
    ret (Some entry).

(** The drive's side of the protocol, as a function of the accesses so far: the
    task file registers, whether the host has seen it ready since the last
    command, and the sector it is handing out with the words already taken. *)
Record ata := mkAta {
  at_count : Z; at_lba0 : Z; at_lba1 : Z; at_lba2 : Z; at_dev : Z;
  at_ready : bool;
  at_data : option (Z * nat)
}.
#[export] Instance eta_ata : Eta ata := fun a =>
  mkAta (at_count a) (at_lba0 a) (at_lba1 a) (at_lba2 a) (at_dev a) (at_ready a) (at_data a).
#[export] Instance over_at_count : Updater at_count := ltac:(derive_updater).
#[export] Instance over_at_lba0 : Updater at_lba0 := ltac:(derive_updater).
#[export] Instance over_at_lba1 : Updater at_lba1 := ltac:(derive_updater).
#[export] Instance over_at_lba2 : Updater at_lba2 := ltac:(derive_updater).
#[export] Instance over_at_dev : Updater at_dev := ltac:(derive_updater).
#[export] Instance over_at_ready : Updater at_ready := ltac:(derive_updater).
#[export] Instance over_at_data : Updater at_data := ltac:(derive_updater).

(** A read of one sector by its 28-bit address, from drive 0. *)
Definition ata_command (a : ata) (c : Z) : option (Z * nat) :=
  if at_ready a && (c =? 0x20) && (at_count a =? 1) && (Z.land (at_dev a) 0xF0 =? 0xE0) then
    Some (at_lba0 a + 2 ^ 8 * at_lba1 a + 2 ^ 16 * at_lba2 a + 2 ^ 24 * Z.land (at_dev a) 0xF, 0%nat)
  else None.
Definition ata_step (a : ata) (x : access) : ata :=
  match x with
  | In p v =>
      if p =? 0x1F7 then a <| at_ready := Z.land v 0xC0 =? 0x40 |>
      else if p =? 0x1F0 then a <| at_data ::= fmap (prod_map id S) |>
      else a
  | Out p v =>
      if p =? 0x1F2 then a <| at_count := v |>
      else if p =? 0x1F3 then a <| at_lba0 := v |>
      else if p =? 0x1F4 then a <| at_lba1 := v |>
      else if p =? 0x1F5 then a <| at_lba2 := v |>
      else if p =? 0x1F6 then a <| at_dev := v |>
      else if p =? 0x1F7 then a <| at_data := ata_command a v |> <| at_ready := false |>
      else a
  | Load _ _ | Store _ _ => a
  end.
Definition ata_of (h : list access) : ata := foldl ata_step (mkAta 0 0 0 0 0 false None) h.

(** [n] reads of the status register. *)
Fixpoint polls `{Bus} (n : nat) (h : list access) : list access :=
  match n with
  | O => h
  | S n' => polls n' (h ++ [In 0x1F7 (u8 (answer_in h 0x1F7))])
  end.

(** A drive that holds [disk]: it is busy for at most [at_busy] reads of its
    status, and once seen ready it hands out the words of the sector asked for. *)
Class Ata `{Bus} (disk : Z -> list Z) := {
  at_busy : nat;
  at_settles h : exists n, (n <= at_busy)%nat /\ Z.land (u8 (answer_in (polls n h) 0x1F7)) 0xC0 = 0x40;
  at_words h s j : at_ready (ata_of h) = true -> at_data (ata_of h) = Some (s, j) -> (j < 128)%nat ->
    u32 (answer_in h 0x1F0) = get32 (disk s) (4 * j)
}.

Section boot.
Context `{Bus} {disk : Z -> list Z} `{!Ata disk}.
Implicit Types (st : mach) (e : list (mach -> mach)) (h : list access) (m : gmap Z Z).

Lemma ata_of_snoc h x : ata_of (h ++ [x]) = ata_step (ata_of h) x.
Proof. unfold ata_of. by rewrite foldl_app. Qed.

(** Waiting changes nothing but that the drive is seen ready. *)
Lemma waitdisk_polls fuel st e n : (n < fuel)%nat -> Z.land (u8 (answer_in (polls n (m_io st)) 0x1F7)) 0xC0 = 0x40 ->
  exists h, waitdisk fuel st e = Ok tt (st <| m_io := h |>) e /\ ata_of h = ata_of (m_io st) <| at_ready := true |>.
Proof.
  revert st n. unfold waitdisk, spin_on. induction fuel as [|fuel IH]; intros st n Hn Hr; [lia|].
  set (body := v <- inb 503;; _) in *. set (v := u8 (answer_in (m_io st) 503)). set (st1 := st <| m_io ::= fun l => l ++ [In 503 v] |>).
  assert (Hb : body st e = Ok (if Z.land v 192 =? 64 then Some tt else None) st1 e) by (subst body; unfold inb, traced; step; done).
  assert (Ha1 : ata_of (m_io st1) = ata_of (m_io st) <| at_ready := Z.land v 192 =? 64 |>) by (subst st1; fields; by rewrite ata_of_snoc).
  cbn [loop]. unfold bind. rewrite Hb. clear Hb. destruct (Z.eqb_spec (Z.land v 192) 64) as [Hv|Hv].
  - exists (m_io st1). split; [by destruct st|done].
  - destruct n as [|n]; [by destruct Hv|]. destruct (IH st1 n) as (h & Hrun & Ha); [lia|done|].
    exists h. rewrite Hrun, Ha, Ha1. split; [by destruct st|by destruct (ata_of (m_io st))].
Qed.
Lemma waitdisk_ok fuel st e : (at_busy < fuel)%nat ->
  exists h, waitdisk fuel st e = Ok tt (st <| m_io := h |>) e /\ ata_of h = ata_of (m_io st) <| at_ready := true |>.
Proof. intros Hf. destruct (at_settles (m_io st)) as (n & Hn & Hr). apply (waitdisk_polls fuel st e n); [lia|done]. Qed.

(** A word of the sector, in memory. *)
Lemma rd8_wr32_get32 m a d o b : a <= b < a + 4 -> rd8 (wr32 m a (get32 d o)) b = u8 (d !!! (o + Z.to_nat (b - a))%nat).
Proof.
  intros Hb. assert (Hi : b = a \/ b = a + 1 \/ b = a + 2 \/ b = a + 3) by lia. unfold wr32, get32.
  pose proof (u8_range (d !!! o)). pose proof (u8_range (d !!! (o + 1)%nat)).
  pose proof (u8_range (d !!! (o + 2)%nat)). pose proof (u8_range (d !!! (o + 3)%nat)).
  destruct Hi as [->|[->|[->| ->]]]; repeat first [rewrite rd8_wr8_eq | rewrite rd8_wr8_ne by lia];
    [replace (a - a) with 0 by lia; change (Z.to_nat 0) with 0%nat; rewrite Nat.add_0_r| | |];
    rewrite ?Z.add_simpl_l; change (Z.to_nat 1) with 1%nat; change (Z.to_nat 2) with 2%nat; change (Z.to_nat 3) with 3%nat;
    rewrite <- (u8_idem (d !!! _)); unfold u8 in *; dlia.
Qed.

(** [n] bytes of [f] at [dst], and the rest as in [m]. *)
Definition filled m (dst n : Z) (f : Z -> Z) m' : Prop :=
  forall b, rd8 m' b = if decide (dst <= b < dst + n) then f (b - dst) else rd8 m b.

Lemma insl_ok s e : forall cnt j st dst, at_ready (ata_of (m_io st)) = true -> at_data (ata_of (m_io st)) = Some (s, j) -> (j + cnt <= 128)%nat ->
  exists st', insl 0x1F0 dst cnt st e = Ok tt st' e /\
    filled (m_mem st) dst (4 * Z.of_nat cnt) (fun i => u8 (disk s !!! (4 * j + Z.to_nat i)%nat)) (m_mem st').
Proof.
  induction cnt as [|cnt IH]; intros j st dst Hr Hd Hj.
  { exists st. split; [done|]. intros b. rewrite decide_False by lia. done. }
  cbn [insl]. unfold traced. step. rewrite (at_words _ _ _ Hr Hd) by lia. set (w := get32 (disk s) (4 * j)).
  set (st1 := st <| m_io ::= _ |> <| m_mem ::= _ |>).
  assert (Ha : ata_of (m_io st1) = ata_of (m_io st) <| at_data ::= fmap (prod_map id S) |>) by (subst st1; fields; by rewrite ata_of_snoc).
  destruct (IH (S j) st1 (dst + 4)) as (st' & Hrun & Hf); [by rewrite Ha|rewrite Ha; fields; by rewrite Hd|lia|].
  exists st'. split; [exact Hrun|]. intros b. rewrite Hf. subst st1. fields. repeat case_decide; try lia.
  - do 2 f_equal. lia.
  - subst w. rewrite rd8_wr32_get32 by lia. done.
  - apply rd8_wr32_ne. lia.
Qed.

Lemma lba_bytes n : 0 <= n < 2 ^ 28 ->
  u8 n + 2 ^ 8 * u8 (Z.shiftr n 8) + 2 ^ 16 * u8 (Z.shiftr n 16) + 2 ^ 24 * Z.land (u8 (Z.lor (Z.shiftr n 24) 0xE0)) 0xF = n /\
  Z.land (u8 (Z.lor (Z.shiftr n 24) 0xE0)) 0xF0 = 0xE0.
Proof.
  intros Hn. rewrite !Z.shiftr_div_pow2 by lia. assert (Hk : 0 <= n / 2 ^ 24 < 16) by dlia.
  assert (Hd : forall k, 0 <= k < 16 -> Z.land (u8 (Z.lor k 0xE0)) 0xF = k /\ Z.land (u8 (Z.lor k 0xE0)) 0xF0 = 0xE0).
  { intros k Hr. assert (Hc : k = 0 \/ k = 1 \/ k = 2 \/ k = 3 \/ k = 4 \/ k = 5 \/ k = 6 \/ k = 7 \/ k = 8 \/ k = 9 \/ k = 10 \/ k = 11 \/ k = 12 \/ k = 13 \/ k = 14 \/ k = 15) by lia.
    repeat destruct Hc as [->|Hc]; [done..|subst k; done]. }
  destruct (Hd _ Hk) as [-> ->]. split; [unfold u8; dlia|done].
Qed.

(** The bytes of a sector, as memory holds them. *)
Definition sector_byte (s i : Z) : Z := u8 (disk s !!! Z.to_nat i).

Lemma readsect_ok fuel st e dst s : (at_busy < fuel)%nat -> 0 <= s < 2 ^ 28 ->
  exists st', readsect fuel dst s st e = Ok tt st' e /\ filled (m_mem st) dst 512 (sector_byte s) (m_mem st').
Proof.
  intros Hf Hs. unfold readsect. destruct (waitdisk_ok fuel st e Hf) as (h & Hrun & Ha). unfold bind at 1. rewrite Hrun. clear Hrun.
  unfold outb, traced. step.
  set (st1 := (st <| m_io := h |>) <| m_io ::= _ |> <| m_io ::= _ |> <| m_io ::= _ |> <| m_io ::= _ |> <| m_io ::= _ |> <| m_io ::= _ |>).
  assert (Hd : at_data (ata_of (m_io st1)) = Some (s, 0%nat)).
  { subst st1. fields. rewrite !ata_of_snoc, Ha. cbn. unfold ata_command. fields. destruct (lba_bytes s Hs) as [El Ed].
    change (u8 1) with 1. rewrite Ed, El. done. }
  destruct (waitdisk_ok fuel st1 e Hf) as (h2 & Hrun & Ha2). unfold bind. rewrite Hrun.
  destruct (insl_ok s e 128 0 (st1 <| m_io := h2 |>) dst) as (st' & Hi & Hm); [fields; by rewrite Ha2|fields; by rewrite Ha2|lia|].
  exists st'. split; [exact Hi|exact Hm].
Qed.

(** Byte [x] of the kernel file, which starts at sector 1. *)
Definition kernel_byte (x : Z) : Z := sector_byte (1 + x / 512) (x mod 512).

Lemma readseg_loop_ok fuel e epa : (at_busy < fuel)%nat -> epa + 512 <= 2 ^ 32 -> forall n pa s st,
  0 <= pa <= epa -> 0 <= s -> s + Z.of_nat n <= 2 ^ 28 -> Z.of_nat n = (epa - pa + 511) / 512 ->
  exists st', readseg_loop fuel (S n) pa epa s st e = Ok tt st' e /\
    filled (m_mem st) pa (512 * Z.of_nat n) (fun i => sector_byte (s + i / 512) (i mod 512)) (m_mem st').
Proof.
  intros Hf He. induction n as [|n IH]; intros pa s st Hpa Hs Hsn Hn; cbn [readseg_loop].
  - rewrite (proj2 (Z.ltb_ge pa epa)) by dlia. exists st. split; [done|]. intros b. rewrite decide_False by lia. done.
  - assert (Hlt : pa < epa) by dlia. rewrite (proj2 (Z.ltb_lt pa epa)) by lia. destruct (readsect_ok fuel st e pa s) as (st1 & Hrun & Hm1); [done|lia|].
    unfold bind. rewrite Hrun. unfold SECTSIZE. rewrite (u32_small (s + 1)) by lia.
    destruct (decide (pa + 512 <= epa)) as [Hle|Hgt].
    + rewrite (u32_small (pa + 512)) by lia. destruct (IH (pa + 512) (s + 1) st1) as (st' & Hr & Hm); [lia|lia|lia|dlia|].
      exists st'. split; [exact Hr|]. intros b. rewrite Hm, Hm1. repeat case_decide; try lia.
      * f_equal; dlia.
      * rewrite Z.div_small, Z.mod_small by lia. f_equal; lia.
    + assert (n = 0%nat) as -> by dlia. cbn [readseg_loop]. rewrite (proj2 (Z.ltb_ge _ epa)) by (rewrite u32_small; lia).
      exists st1. split; [done|]. intros b. rewrite Hm1. repeat case_decide; try lia.
      rewrite Z.div_small, Z.mod_small by lia. f_equal; lia.
Qed.

(** The bytes a segment's sectors take in memory. *)
Definition reach (count off : Z) : Z := 512 * ((count + off mod 512 + 511) / 512).

Lemma readseg_ok fuel e st pa count off : (at_busy < fuel)%nat -> 0 <= off < 2 ^ 32 -> 0 <= count -> off mod 512 <= pa -> pa + count + 512 <= 2 ^ 32 ->
  exists st', readseg fuel pa count off st e = Ok tt st' e /\
    filled (m_mem st) (pa - off mod 512) (reach count off) (fun i => kernel_byte (off - off mod 512 + i)) (m_mem st').
Proof.
  intros Hf Ho Hc Hpa Hend. unfold readseg, SECTSIZE, reach. rewrite !u32_small by dlia.
  replace (pa + count - (pa - off mod 512) + 512 - 1) with (count + off mod 512 + 511) by lia.
  destruct (readseg_loop_ok fuel e (pa + count) Hf ltac:(lia) (Z.to_nat ((count + off mod 512 + 511) / 512)) (pa - off mod 512) (off / 512 + 1) st) as (st' & Hr & Hm);
    [dlia|dlia|dlia|rewrite Z2Nat.id by dlia; f_equal; lia|].
  exists st'. split; [exact Hr|]. rewrite Z2Nat.id in Hm by dlia. intros b. rewrite Hm. case_decide; [|done].
  unfold kernel_byte. f_equal; dlia.
Qed.

(** * The segments *)

Definition kernel_word (x : Z) : Z :=
  kernel_byte x + 2 ^ 8 * kernel_byte (x + 1) + 2 ^ 16 * kernel_byte (x + 2) + 2 ^ 24 * kernel_byte (x + 3).
(** The program header at byte [x] of the kernel file. *)
Definition kernel_segment (x : Z) : segment :=
  mkSegment (kernel_word (x + 4)) (kernel_word (x + 12)) (kernel_word (x + 16)) (kernel_word (x + 20)).

(** The bytes a segment has, and the bytes its loading writes. *)
Definition extent (s : segment) : Z := Z.max (sg_filesz s) (sg_memsz s).
Definition in_segment (s : segment) (b : Z) : Prop := sg_paddr s <= b < sg_paddr s + extent s.
Definition footprint (s : segment) (b : Z) : Prop :=
  sg_paddr s - sg_off s mod 512 <= b < sg_paddr s - sg_off s mod 512 + reach (sg_filesz s) (sg_off s) \/ in_segment s b.
Definition in_scratch (b : Z) : Prop := 0x10000 <= b < 0x11000.

(** A segment that can be loaded: in the address space, and away from the header. *)
Record loadable (s : segment) : Prop := {
  lo_off : 0 <= sg_off s < 2 ^ 32;
  lo_file : 0 <= sg_filesz s;
  lo_mem : 0 <= sg_memsz s;
  lo_low : sg_off s mod 512 <= sg_paddr s;
  lo_high : sg_paddr s + extent s + 512 <= 2 ^ 32;
  lo_scratch : forall b, footprint s b -> ~ in_scratch b
}.
(** No segment is hit by the loading of a later one. *)
Fixpoint apart (l : list segment) : Prop :=
  match l with
  | [] => True
  | s :: l' => Forall (fun t => forall b, footprint t b -> ~ in_segment s b) l' /\ apart l'
  end.
(** The segment is in memory: what the file has of it, and zeroes. *)
Definition loaded m (s : segment) : Prop :=
  forall x, 0 <= x < extent s -> rd8 m (sg_paddr s + x) = if x <? sg_filesz s then kernel_byte (sg_off s + x) else 0.

Lemma segment_at_agree m m' p : (forall b, p <= b < p + 32 -> rd8 m b = rd8 m' b) -> segment_at m p = segment_at m' p.
Proof. intros Hb. unfold segment_at. by rewrite !(rd32_agree m m') by (intros; apply Hb; lia). Qed.

(** The body of the loop. *)
Lemma load_one fuel e st p s : (at_busy < fuel)%nat -> segment_at (m_mem st) p = s -> loadable s -> 0x10000 <= p -> p + 32 <= 0x11000 ->
  exists st1 st', readseg fuel (sg_paddr s) (sg_filesz s) (sg_off s) st e = Ok tt st1 e /\ segment_at (m_mem st1) p = s /\
    when (sg_filesz s <? sg_memsz s) (modify (fun st => st <| m_mem ::= fun m =>
      stosb m (u32 (sg_paddr s + sg_filesz s)) 0 (Z.to_nat (sg_memsz s - sg_filesz s)) |>)) st1 e = Ok tt st' e /\
    loaded (m_mem st') s /\ forall b, ~ footprint s b -> rd8 (m_mem st') b = rd8 (m_mem st) b.
Proof.
  intros Hf Hs [Ho Hfs Hms Hlo Hhi Hscr] Hp1 Hp2. unfold extent in Hhi.
  destruct (readseg_ok fuel e st (sg_paddr s) (sg_filesz s) (sg_off s)) as (st1 & Hrun & Hm1); [done|done|done|done|lia|].
  exists st1. assert (Hr : sg_filesz s + sg_off s mod 512 <= reach (sg_filesz s) (sg_off s)) by (unfold reach; dlia).
  assert (H1 : forall b, ~ footprint s b -> rd8 (m_mem st1) b = rd8 (m_mem st) b).
  { intros b Hb. rewrite Hm1. rewrite decide_False; [done|]. intros Hin. apply Hb. by left. }
  assert (H2 : forall x, 0 <= x < sg_filesz s -> rd8 (m_mem st1) (sg_paddr s + x) = kernel_byte (sg_off s + x)).
  { intros x Hx. rewrite Hm1, decide_True by dlia. f_equal. lia. }
  assert (Hsg : segment_at (m_mem st1) p = s).
  { rewrite <- Hs. apply segment_at_agree. intros b Hb. apply H1. intros Hfb. apply (Hscr b Hfb). unfold in_scratch. lia. }
  destruct (Z.ltb_spec (sg_filesz s) (sg_memsz s)) as [Hlt|Hge]; cbn [when].
  - eexists. split; [done|]. split; [done|]. split; [unfold modify; reflexivity|]. fields. rewrite u32_small by dlia. split.
    + intros x Hx. rewrite rd8_stosb. unfold extent in Hx. destruct (Z.ltb_spec x (sg_filesz s)); case_decide; try lia; [|done]. apply H2. lia.
    + intros b Hb. rewrite rd8_stosb. rewrite decide_False; [by apply H1|]. intros Hin. apply Hb. right. unfold in_segment, extent. lia.
  - exists st1. split; [done|]. split; [done|]. split; [done|]. split; [|done].
    intros x Hx. unfold extent in Hx. rewrite (proj2 (Z.ltb_lt x _)) by lia. apply H2. lia.
Qed.

Lemma load_segments_ok fuel e : (at_busy < fuel)%nat -> forall segs p st,
  0x10000 <= p -> p + 32 * zlen segs <= 0x11000 -> (forall j s, segs !! j = Some s -> segment_at (m_mem st) (p + 32 * Z.of_nat j) = s) ->
  Forall loadable segs -> apart segs ->
  exists st', load_segments fuel (S (length segs)) p (p + 32 * zlen segs) st e = Ok tt st' e /\ Forall (loaded (m_mem st')) segs /\
    forall b, Forall (fun s => ~ footprint s b) segs -> rd8 (m_mem st') b = rd8 (m_mem st) b.
Proof.
  intros Hf. induction segs as [|s segs IH]; intros p st Hp Hend Hat Hok Hap; cbn [length load_segments].
  { change (zlen (@nil segment)) with 0. rewrite (proj2 (Z.ltb_ge _ _)) by lia. exists st. split; [done|]. split; [apply Forall_nil_2|done]. }
  assert (Hz : zlen (s :: segs) = zlen segs + 1) by (unfold zlen; cbn [length]; lia). rewrite Hz in *. assert (Hnn : 0 <= zlen segs) by (unfold zlen; lia).
  rewrite (proj2 (Z.ltb_lt _ _)) by lia. apply Forall_cons_1 in Hok as [Hs Hok]. destruct Hap as [Hhit Hap].
  assert (H0 : segment_at (m_mem st) p = s) by (rewrite <- (Hat 0%nat s eq_refl); f_equal; lia).
  destruct (load_one fuel e st p s Hf H0 Hs) as (st1 & st2 & Hr & Hs1 & Hw & Hl & Hk); [lia|lia|].
  unfold bind at 1, gets at 1. rewrite H0. unfold bind at 1. rewrite Hr. unfold bind at 1, gets at 1. rewrite Hs1.
  unfold bind at 1. rewrite Hw. unfold sizeof_proghdr. rewrite u32_small by lia.
  replace (p + 32 * (zlen segs + 1)) with (p + 32 + 32 * zlen segs) by lia.
  destruct (IH (p + 32) st2) as (st' & Hrun & Hls & Hk'); [lia|lia| |done|done|].
  { intros j t Hj. pose proof (lookup_lt_Some _ _ _ Hj) as Hlt. rewrite <- (Hat (S j) t Hj). replace (p + 32 * Z.of_nat (S j)) with (p + 32 + 32 * Z.of_nat j) by lia.
    apply segment_at_agree. intros b Hb. apply Hk. intros Hfb. apply (lo_scratch _ Hs b Hfb). unfold in_scratch, zlen in *. lia. }
  exists st'. split; [exact Hrun|]. split.
  - apply Forall_cons_2; [|done]. intros x Hx. rewrite Hk'; [by apply Hl|]. apply (list.Forall_impl _ _ _ Hhit). intros t Ht Hft.
    apply (Ht _ Hft). unfold in_segment. lia.
  - intros b Hb. apply Forall_cons_1 in Hb as [Hb1 Hb2]. rewrite Hk' by done. by apply Hk.
Qed.

(** * The loader *)

(** The kernel file's program headers. *)
Definition kernel_phoff : Z := kernel_word 28.
Definition kernel_phnum : Z := kernel_byte 44 + 2 ^ 8 * kernel_byte 45.
Definition kernel_segments : list segment := (fun j => kernel_segment (kernel_phoff + 32 * j)) <$> seqZ 0 kernel_phnum.

Lemma kernel_byte_range x : 0 <= kernel_byte x < 2 ^ 8.
Proof. apply u8_range. Qed.

(** The first page of the file is in the scratch space. *)
Definition paged m : Prop := forall i, 0 <= i < 4096 -> rd8 m (0x10000 + i) = kernel_byte i.

Lemma first_page fuel e st : (at_busy < fuel)%nat ->
  exists st', readseg fuel 0x10000 4096 0 st e = Ok tt st' e /\ paged (m_mem st') /\ forall b, ~ in_scratch b -> rd8 (m_mem st') b = rd8 (m_mem st) b.
Proof.
  intros Hf. destruct (readseg_ok fuel e st 0x10000 4096 0) as (st' & Hrun & Hm); [done|lia|lia|done|done|].
  change (reach 4096 0) with 4096 in Hm. change (0 mod 512) with 0 in Hm. rewrite !Z.sub_0_r in Hm. exists st'. split; [done|]. split.
  - intros i Hi. rewrite Hm, decide_True by lia. f_equal. lia.
  - intros b Hb. rewrite Hm, decide_False; [done|]. exact Hb.
Qed.

Lemma paged_word m i : paged m -> 0 <= i -> i + 4 <= 4096 -> rd32 m (0x10000 + i) = kernel_word i.
Proof. intros Hm Hi Hi4. unfold rd32, kernel_word. rewrite <- !Z.add_assoc, !Hm by lia. done. Qed.

Lemma paged_segment m i : paged m -> 0 <= i -> i + 32 <= 4096 -> segment_at m (0x10000 + i) = kernel_segment i.
Proof. intros Hm Hi Hi4. unfold segment_at, kernel_segment. rewrite <- !Z.add_assoc, !paged_word by (done || lia). done. Qed.

(** A disk without an ELF kernel: back to bootasm.S with only the scratch page
    written. *)
Lemma bootmain_refuses fuel st e : (at_busy < fuel)%nat -> kernel_word 0 <> ELF_MAGIC ->
  exists st', bootmain fuel st e = Ok None st' e /\ forall b, ~ in_scratch b -> rd8 (m_mem st') b = rd8 (m_mem st) b.
Proof.
  intros Hf Hmag. destruct (first_page fuel e st Hf) as (st' & Hrun & Hp & Hk). exists st'. split; [|done].
  unfold bootmain. unfold bind at 1. rewrite Hrun. step. unfold hdr_magic. change (rd32 (m_mem st') 65536) with (rd32 (m_mem st') (0x10000 + 0)).
  rewrite paged_word by (done || lia). by rewrite (proj2 (Z.eqb_neq _ _)).
Qed.

(** C5. The boot loader loads the kernel: with a drive that follows the ATA protocol
    and an ELF kernel from sector 1 on, bootmain calls the entry point of the file
    with every segment in place, the bytes the file has of it and zeroes up to its
    memory size; bytes outside the scratch page and the segments' sectors are as
    they were. Segments need only be apart in the order they are loaded. *)
Theorem bootmain_loads_kernel fuel st e :
  (at_busy < fuel)%nat -> kernel_word 0 = ELF_MAGIC -> kernel_phoff + 32 * kernel_phnum <= 4096 ->
  Forall loadable kernel_segments -> apart kernel_segments ->
  exists st', bootmain fuel st e = Ok (Some (kernel_word 24)) st' e /\ Forall (loaded (m_mem st')) kernel_segments /\
    forall b, ~ in_scratch b -> Forall (fun s => ~ footprint s b) kernel_segments -> rd8 (m_mem st') b = rd8 (m_mem st) b.
Proof.
  intros Hf Hmag Hfit Hok Hap. destruct (first_page fuel e st Hf) as (st1 & Hrun & Hp & Hk). unfold bootmain. unfold bind at 1. rewrite Hrun. clear Hrun.
  unfold bind at 1, gets at 1. unfold hdr_magic, hdr_phoff, hdr_phnum. change (rd32 (m_mem st1) 65536) with (rd32 (m_mem st1) (0x10000 + 0)).
  pose proof (kernel_byte_range 44). pose proof (kernel_byte_range 45).
  assert (Hpo : 0 <= kernel_phoff) by (unfold kernel_phoff, kernel_word; pose proof kernel_byte_range; repeat match goal with |- context [kernel_byte ?x] => generalize (kernel_byte_range x); generalize (kernel_byte x) end; lia).
  rewrite !paged_word, !Hp, Hmag, Z.eqb_refl by (done || lia). cbn [negb]. fold kernel_phoff. fold kernel_phnum. unfold sizeof_proghdr.
  assert (Hpn : 0 <= kernel_phnum) by (unfold kernel_phnum; lia). assert (Hz : zlen kernel_segments = kernel_phnum) by (unfold zlen, kernel_segments; rewrite length_fmap, length_seqZ; lia).
  rewrite (u32_small (65536 + _)), u32_small by lia. replace (kernel_phnum * 32) with (32 * zlen kernel_segments) by lia.
  replace (Z.to_nat kernel_phnum) with (length kernel_segments) by (unfold zlen in Hz; lia).
  destruct (load_segments_ok fuel e Hf kernel_segments (65536 + kernel_phoff) st1) as (st' & Hl & Hld & Hk'); [lia|lia| |done|done|].
  { intros j s Hj. unfold kernel_segments in Hj. apply list_lookup_fmap_Some in Hj as (i & -> & Hi). apply lookup_seqZ in Hi as [-> Hj].
    rewrite <- Z.add_assoc, paged_segment by (done || lia). done. }
  unfold bind at 1. rewrite Hl. step. exists st'. split; [|split; [done|]].
  - do 2 f_equal. unfold hdr_entry. rewrite (rd32_agree _ (m_mem st1)); [apply (paged_word _ 24 Hp); lia|].
    intros b Hb. apply Hk'. apply (list.Forall_impl _ _ _ Hok). intros s Hs Hfb. apply (lo_scratch _ Hs b Hfb). unfold in_scratch. lia.
  - intros b Hb1 Hb2. rewrite Hk' by done. by apply Hk.
Qed.
End boot.

(** * A machine *)

(** A kernel file with one segment, which starts in the middle of a sector and
    has 100 bytes of bss, and an empty program header. *)
Definition sample_kernel : list Z :=
  le32 ELF_MAGIC ++ replicate 20 0 ++ le32 0x10000c ++ le32 52 ++ replicate 12 0 ++ le16 2 ++ replicate 6 0 ++
  le32 1 ++ le32 600 ++ le32 0x80100058 ++ le32 0x100058 ++ le32 500 ++ le32 600 ++ replicate 8 0 ++ replicate 32 0.
Definition sample_disk (s : Z) : list Z := if s =? 1 then sample_kernel ++ replicate 396 0 else replicate 512 s.

(** A drive that is busy for one read of its status after every command. *)
Definition drive_status (h : list access) : Z :=
  match list.last h with Some (Out p _) => if p =? 0x1F7 then 0x80 else 0x40 | _ => 0x40 end.
#[export] Instance drive_bus (disk : Z -> list Z) : Bus := {
  answer_in h port :=
    if port =? 0x1F7 then drive_status h
    else match at_data (ata_of h) with Some (s, j) => get32 (disk s) (4 * j) | None => 0 end;
  answer_load _ _ := 0
}.

Lemma drive_settles disk h : exists n, (n <= 1)%nat /\ Z.land (u8 (@answer_in (drive_bus disk) (@polls (drive_bus disk) n h) 0x1F7)) 0xC0 = 0x40.
Proof.
  assert (Hs : drive_status h = 0x40 \/ drive_status h = 0x80) by (unfold drive_status; repeat case_match; auto).
  destruct Hs as [Hs|Hs].
  - exists 0%nat. split; [lia|]. cbn. by rewrite Hs.
  - exists 1%nat. split; [lia|]. cbn. unfold drive_status at 1. by rewrite list.last_snoc.
Qed.
Lemma drive_words disk h s j : at_ready (ata_of h) = true -> at_data (ata_of h) = Some (s, j) -> (j < 128)%nat ->
  u32 (@answer_in (drive_bus disk) h 0x1F0) = get32 (disk s) (4 * j).
Proof. intros _ Hd _. cbn. rewrite Hd. apply u32_small. apply get32_range. Qed.
#[export] Instance drive_ata (disk : Z -> list Z) : @Ata (drive_bus disk) disk := {
  at_busy := 1;
  at_settles := drive_settles disk;
  at_words := drive_words disk
}.

(** The first byte of the segment is byte 88 of sector 2; byte 550 is bss. *)
Lemma bootmain_loads_kernel_witness : exists st',
  @bootmain (drive_bus sample_disk) 2 (mkMach {[ 0x100058 + 550 := 7 ]} [] 0 [] 0 0 0 []) [] = Ok (Some 0x10000c) st' [] /\
  rd8 (m_mem st') 0x100058 = 2 /\ rd8 (m_mem st') (0x100058 + 550) = 0.
Proof.
  assert (E : @kernel_segments sample_disk = [mkSegment 600 0x100058 500 600; mkSegment 0 0 0 0]) by (vm_compute; reflexivity).
  destruct (@bootmain_loads_kernel (drive_bus sample_disk) sample_disk _ 2 (mkMach {[ 0x100058 + 550 := 7 ]} [] 0 [] 0 0 0 []) []) as (st' & Hrun & Hl & _).
  - cbn. lia.
  - by vm_compute.
  - by vm_compute.
  - rewrite E. apply Forall_cons_2; [|apply Forall_cons_2; [|apply Forall_nil_2]];
      (split; cbn; try lia; [by vm_compute|by vm_compute|intros b; unfold footprint, in_segment, in_scratch, extent; cbn [sg_off sg_paddr sg_filesz sg_memsz];
        change (reach 500 600) with 1024; change (reach 0 0) with 0; change (600 mod 512) with 88; change (0 mod 512) with 0; lia]).
  - rewrite E. repeat split; try apply Forall_nil_2. apply Forall_cons_2; [|apply Forall_nil_2].
    intros b. unfold footprint, in_segment, extent. cbn [sg_off sg_paddr sg_filesz sg_memsz]. change (reach 0 0) with 0. lia.
  - rewrite E in Hl. apply Forall_cons_1 in Hl as [Hl _]. exists st'. split; [exact Hrun|]. split.
    + refine (eq_trans (Hl 0 _) _); [unfold extent; cbn; lia|by vm_compute].
    + refine (eq_trans (Hl 550 _) _); [unfold extent; cbn; lia|reflexivity].
Defined.
