(* ===== verification/Apic.v ===== *)
(** lapic.c, ioapic.c and picirq.c: the interrupt controllers, the start of the
    other CPUs and the CMOS clock; the date cmostime reads, and the interrupts the
    I/O APIC delivers. *)
From S2P Require Import Prelude Kernel Mem Console Trap Hw.

(** * lapic.c *)

(** Local APIC registers, divided by 4 for use as uint[] indices. *)
Definition ID : Z := 0x0020 / 4.
Definition VER : Z := 0x0030 / 4.
Definition TPR : Z := 0x0080 / 4.
Definition EOI : Z := 0x00B0 / 4.
Definition SVR : Z := 0x00F0 / 4.
Definition ENABLE : Z := 0x00000100.
Definition ESR : Z := 0x0280 / 4.
Definition ICRLO : Z := 0x0300 / 4.
Definition INIT : Z := 0x00000500.
Definition STARTUP : Z := 0x00000600.
Definition DELIVS : Z := 0x00001000.
Definition ASSERT : Z := 0x00004000.
Definition LEVEL : Z := 0x00008000.
Definition BCAST : Z := 0x00080000.
Definition ICRHI : Z := 0x0310 / 4.
Definition TIMER : Z := 0x0320 / 4.
Definition X1 : Z := 0x0000000B.
Definition PERIODIC : Z := 0x00020000.
Definition PCINT : Z := 0x0340 / 4.
Definition LINT0 : Z := 0x0350 / 4.
Definition LINT1 : Z := 0x0360 / 4.
Definition ERROR : Z := 0x0370 / 4.
Definition MASKED : Z := 0x00010000.
Definition TICR : Z := 0x0380 / 4.
Definition TDCR : Z := 0x03E0 / 4.
Definition IRQ_ERROR : Z := 19.

Definition CMOS_PORT : Z := 0x70.
Definition CMOS_RETURN : Z := 0x71.
Definition CMOS_STATA : Z := 0x0a.
Definition CMOS_STATB : Z := 0x0b.
Definition CMOS_UIP : Z := Z.shiftl 1 7.
Definition SECS : Z := 0x00.
Definition MINS : Z := 0x02.
Definition HOURS : Z := 0x04.
Definition DAY : Z := 0x07.
Definition MONTH : Z := 0x08.
Definition YEAR : Z := 0x09.

(** date.h *)
Record rtcdate := mkDate { second : Z; minute : Z; hour : Z; day : Z; month : Z; year : Z }.
#[export] Instance rtcdate_eq_dec : EqDecision rtcdate.
Proof. solve_decision. Defined.

Section lapic.
Context `{Bus}.

(** lapic[index] *)
Definition lapicr (index : Z) : W Z :=
  l <- gets m_lapic ;;
  vload (u32 (l + 4 * index)).
Definition lapicw (index value : Z) : W unit :=
  l <- gets m_lapic ;;
  vstore (u32 (l + 4 * index)) value ;;
  lapicr ID ;; (* wait for write to finish, by reading *)
  ret tt.

Definition lapicinit (fuel : nat) : W unit :=
  l <- gets m_lapic ;;
  if l =? 0 then ret tt
  else
    (* Enable local APIC; set spurious interrupt vector. *)
    lapicw SVR (Z.lor ENABLE (T_IRQ0 + IRQ_SPURIOUS)) ;;
    (* The timer *)
    lapicw TDCR X1 ;;
    lapicw TIMER (Z.lor PERIODIC (T_IRQ0 + IRQ_TIMER)) ;;
    lapicw TICR 10000000 ;;
    (* Disable logical interrupt lines. *)
    lapicw LINT0 MASKED ;;
    lapicw LINT1 MASKED ;;
    (* Disable performance counter overflow interrupts *)
    v <- lapicr VER ;;
    when (4 <=? Z.land (Z.shiftr v 16) 0xFF) (lapicw PCINT MASKED) ;;
    (* Map error interrupt to IRQ_ERROR. *)
    lapicw ERROR (T_IRQ0 + IRQ_ERROR) ;;
    (* Clear error status register (requires back-to-back writes). *)
    lapicw ESR 0 ;;
    lapicw ESR 0 ;;
    (* Ack any outstanding interrupts. *)
    lapicw EOI 0 ;;
    (* Send an Init Level De-Assert to synchronise arbitration ID's. *)
    lapicw ICRHI 0 ;;
    lapicw ICRLO (Z.lor (Z.lor BCAST INIT) LEVEL) ;;
    spin_on fuel
      (v <- lapicr ICRLO ;;
       ret (if nz (Z.land v DELIVS) then None else Some tt)) ;;
    (* Enable interrupts on the APIC (but not on the processor). *)
    lapicw TPR 0.

Definition lapicid : W Z :=
  l <- gets m_lapic ;;
  if l =? 0 then ret 0
  else
    v <- lapicr ID ;;
    ret (Z.shiftr v 24).

(** Acknowledge interrupt. *)
Definition lapiceoi : W unit :=
  l <- gets m_lapic ;;
  when (negb (l =? 0)) (lapicw EOI 0).

Definition microdelay (us : Z) : W unit := ret tt.

(** Start additional processor running entry code at addr. *)
Definition lapicstartap (apicid addr : Z) : W unit :=
  outb CMOS_PORT 0xF ;; (* offset 0xF is shutdown code *)
  outb (CMOS_PORT + 1) 0x0A ;;
  let wrv := P2V (Z.lor (Z.shiftl 0x40 4) 0x67) in (* Warm reset vector *)
  modify (fun s => s <| m_mem ::= fun m => store m wrv (le16 0) |>) ;;
  modify (fun s => s <| m_mem ::= fun m => store m (wrv + 2) (le16 (Z.shiftr addr 4)) |>) ;;
  (* Send INIT (level-triggered) interrupt to reset other CPU. *)
  lapicw ICRHI (Z.shiftl apicid 24) ;;
  lapicw ICRLO (Z.lor (Z.lor INIT LEVEL) ASSERT) ;;
  microdelay 200 ;;
  lapicw ICRLO (Z.lor INIT LEVEL) ;;
  microdelay 100 ;;
  (* Send startup IPI (twice!) to enter code. *)
  for_ 2 0 (fun _ =>
    lapicw ICRHI (Z.shiftl apicid 24) ;;
    lapicw ICRLO (Z.lor STARTUP (Z.shiftr addr 12)) ;;
    microdelay 200).

Definition cmos_read (reg : Z) : W Z :=
  outb CMOS_PORT reg ;;
  microdelay 200 ;;
  inb CMOS_RETURN.

Definition fill_rtcdate : W rtcdate :=
  s <- cmos_read SECS ;;
  m <- cmos_read MINS ;;
  h <- cmos_read HOURS ;;
  d <- cmos_read DAY ;;
  mo <- cmos_read MONTH ;;
  y <- cmos_read YEAR ;;
  ret (mkDate s m h d mo y).

Definition CONV (x : Z) : Z := u32 (Z.shiftr x 4 * 10 + Z.land x 0xf).

(** make sure CMOS doesn't modify time while we read it *)
Definition cmos_round : W (option rtcdate) :=
  t1 <- fill_rtcdate ;;
  a <- cmos_read CMOS_STATA ;;
  if nz (Z.land a CMOS_UIP) then ret None
  else
    t2 <- fill_rtcdate ;;
    ret (if decide (t1 = t2) then Some t1 else None).

Definition cmostime (fuel : nat) : W rtcdate :=
  sb <- cmos_read CMOS_STATB ;;
  let bcd := Z.land sb (Z.shiftl 1 2) =? 0 in
  t1 <- spin_on fuel cmos_round ;;
  (* convert *)
  let t1 := if bcd then mkDate (CONV (second t1)) (CONV (minute t1)) (CONV (hour t1))
                               (CONV (day t1)) (CONV (month t1)) (CONV (year t1))
            else t1 in
  ret (mkDate (second t1) (minute t1) (hour t1) (day t1) (month t1) (u32 (year t1 + 2000))).
End lapic.

(** * ioapic.c *)

Definition IOAPIC : Z := 0xFEC00000.
Definition REG_ID : Z := 0x00.
Definition REG_VER : Z := 0x01.
Definition REG_TABLE : Z := 0x10.
Definition INT_DISABLED : Z := 0x00010000.

Section ioapic.
Context `{Bus}.

(** struct ioapic: reg at 0, data at 16. *)
Definition ioapicread (reg : Z) : W Z :=
  p <- gets m_ioapic ;;
  vstore p reg ;;
  vload (p + 16).
Definition ioapicwrite (reg data : Z) : W unit :=
  p <- gets m_ioapic ;;
  vstore p reg ;;
  vstore (p + 16) data.

Definition ioapicinit : W unit :=
  modify (fun s => s <| m_ioapic := IOAPIC |>) ;;
  v <- ioapicread REG_VER ;;
  let maxintr := Z.land (Z.shiftr v 16) 0xFF in
  w <- ioapicread REG_ID ;;
  let id := Z.shiftr w 24 in
  i <- gets m_ioapicid ;;
  when (negb (id =? i))
    (modify (fun s => s <| m_msgs ::= fun l => l ++ [bytes "ioapicinit: id isn't equal to ioapicid; not a MP" ++ [10]] |>)) ;;
  (* Mark all interrupts edge-triggered, active high, disabled, and not routed
     to any CPUs. *)
  for_ (Z.to_nat (maxintr + 1)) 0 (fun i =>
    ioapicwrite (REG_TABLE + 2 * i) (Z.lor INT_DISABLED (T_IRQ0 + i)) ;;
    ioapicwrite (REG_TABLE + 2 * i + 1) 0).

(** Mark interrupt edge-triggered, active high, enabled, and routed to the given
    cpunum, which happens to be that cpu's APIC ID. *)
Definition ioapicenable (irq cpunum : Z) : W unit :=
  ioapicwrite (REG_TABLE + 2 * irq) (T_IRQ0 + irq) ;;
  ioapicwrite (REG_TABLE + 2 * irq + 1) (Z.shiftl cpunum 24).
End ioapic.

(** * picirq.c *)

Definition IO_PIC1 : Z := 0x20.
Definition IO_PIC2 : Z := 0xA0.

(** Don't use the 8259A interrupt controllers. *)
Definition picinit `{Bus} : W unit :=
  (* mask all interrupts *)
  outb (IO_PIC1 + 1) 0xFF ;;
  outb (IO_PIC2 + 1) 0xFF.

(** * The CMOS clock *)

(** The clock's registers, which may change with time: a read of the data port
    gives the register that was selected just before. *)
Class Cmos `{Bus} := {
  cm_reg : list access -> Z -> Z;
  cm_read h r : list.last h = Some (Out CMOS_PORT r) -> u8 (answer_in h CMOS_RETURN) = cm_reg h r
}.

Section cmos.
Context `{Cmos}.
Implicit Types (st : mach) (e : list (mach -> mach)) (h : list access) (c : Z -> Z) (d : rtcdate).

Definition date_regs : list Z := [SECS; MINS; HOURS; DAY; MONTH; YEAR].
Definition date_of c : rtcdate := mkDate (c SECS) (c MINS) (c HOURS) (c DAY) (c MONTH) (c YEAR).
(** The accesses that read the date. *)
Definition date_io c : list access := r ← date_regs; [Out CMOS_PORT r; In CMOS_RETURN (c r)].

(** From [h] on the date registers read as [c]. *)
Definition stable c h : Prop := forall h' r, r ∈ date_regs -> cm_reg (h ++ h') r = c r.

Lemma stable_app c h h' : stable c h -> stable c (h ++ h').
Proof. intros Hs h2 r Hr. rewrite <- app_assoc. by apply Hs. Qed.

Lemma io_app st h1 h2 : (st <| m_io ::= fun l => l ++ h1 |>) <| m_io ::= fun l => l ++ h2 |> = st <| m_io ::= fun l => l ++ (h1 ++ h2) |>.
Proof. unfold over, over_m_io. fields. simpl. by rewrite <- app_assoc. Qed.

Lemma cmos_read_ok r st e : u8 r = r ->
  let v := cm_reg (m_io st ++ [Out CMOS_PORT r]) r in
  cmos_read r st e = Ok v (st <| m_io ::= fun l => l ++ [Out CMOS_PORT r; In CMOS_RETURN v] |>) e.
Proof.
  intros Hr v. unfold cmos_read, microdelay, outb, inb, traced. step. rewrite Hr. rewrite (cm_read _ r) by apply list.last_snoc.
  fold v. by rewrite io_app.
Qed.

Lemma date_read_ok c r st e : stable c (m_io st) -> r ∈ date_regs ->
  cmos_read r st e = Ok (c r) (st <| m_io ::= fun l => l ++ [Out CMOS_PORT r; In CMOS_RETURN (c r)] |>) e.
Proof.
  intros Hs Hr. rewrite cmos_read_ok; [by rewrite (Hs [_] r Hr)|].
  unfold date_regs in Hr. rewrite !elem_of_cons in Hr. destruct Hr as [->|[->|[->|[->|[->|[->|Hr]]]]]]; try done. by apply elem_of_nil in Hr.
Qed.

Lemma fill_rtcdate_ok c st e : stable c (m_io st) ->
  fill_rtcdate st e = Ok (date_of c) (st <| m_io ::= fun l => l ++ date_io c |>) e.
Proof.
  intros Hs. unfold fill_rtcdate, date_io, date_regs.
  do 6 (unfold bind at 1; rewrite (date_read_ok c) by (fields; repeat apply stable_app; done || (unfold date_regs; set_solver)); rewrite ?io_app).
  done.
Qed.

(** One round of the loop: what it reads, and whether the update bit is clear. *)
Definition stata c h : Z := cm_reg (h ++ date_io c ++ [Out CMOS_PORT CMOS_STATA]) CMOS_STATA.
Definition round_io c h : list access := date_io c ++ [Out CMOS_PORT CMOS_STATA; In CMOS_RETURN (stata c h)].
Definition updating c h : bool := nz (Z.land (stata c h) CMOS_UIP).
Fixpoint rounds c (n : nat) h : list access :=
  match n with O => h | S n' => rounds c n' (h ++ round_io c h) end.

Lemma cmos_round_ok c st e : stable c (m_io st) ->
  cmos_round st e =
  if updating c (m_io st) then Ok None (st <| m_io ::= fun l => l ++ round_io c (m_io st) |>) e
  else Ok (Some (date_of c)) (st <| m_io ::= fun l => l ++ (round_io c (m_io st) ++ date_io c) |>) e.
Proof.
  intros Hs. unfold cmos_round. unfold bind at 1. rewrite (fill_rtcdate_ok c) by done.
  unfold bind at 1. rewrite cmos_read_ok by done. rewrite io_app. fields. rewrite <- app_assoc. fold (stata c (m_io st)). fold (updating c (m_io st)).
  destruct (updating c (m_io st)); [done|]. unfold bind. rewrite (fill_rtcdate_ok c), io_app by (fields; by apply stable_app).
  unfold ret. by case_decide.
Qed.

Lemma cmos_loop_ok c e : forall fuel n st, stable c (m_io st) -> (n < fuel)%nat -> updating c (rounds c n (m_io st)) = false ->
  exists st', spin_on fuel cmos_round st e = Ok (date_of c) st' e /\ m_mem st' = m_mem st.
Proof.
  unfold spin_on. induction fuel as [|fuel IH]; intros n st Hs Hn Hu; [lia|]. cbn [loop]. unfold bind.
  rewrite (cmos_round_ok c st e Hs). destruct (updating c (m_io st)) eqn:E; [|by eexists].
  destruct n as [|n]; [cbn [rounds] in Hu; congruence|]. 
  destruct (IH n (st <| m_io ::= fun l => l ++ round_io c (m_io st) |>)) as (st' & Hrun & Hm); [by apply stable_app|lia|done|]. by exists st'.
Qed.

(** A date as the registers show it, in binary or in binary-coded decimal. *)
Definition shows (bcd : bool) (v : Z) : Z := if bcd then 16 * (v / 10) + v mod 10 else v.
Definition field d (r : Z) : Z :=
  if r =? SECS then second d else if r =? MINS then minute d else if r =? HOURS then hour d
  else if r =? DAY then day d else if r =? MONTH then month d else year d.
Definition in_range d : Prop := Forall (fun r => 0 <= field d r < 100) date_regs.

Lemma CONV_shows v : 0 <= v < 100 -> CONV (shows true v) = v.
Proof.
  intros Hv. unfold CONV, shows. rewrite Z.shiftr_div_pow2 by lia. change 15 with (Z.ones 4). rewrite Z.land_ones by lia.
  rewrite u32_small; dlia.
Qed.

End cmos.

(** * The I/O APIC *)

(** The redirection registers, as the stores so far have left them: a store to
    the first word selects a register, one to the data word writes it. *)
Definition apic_step (x : Z * gmap Z Z) (a : access) : Z * gmap Z Z :=
  match a with
  | Store p v => if p =? IOAPIC then (v, x.2) else if p =? IOAPIC + 16 then (x.1, <[x.1 := v]> x.2) else x
  | _ => x
  end.
Definition redirection (h : list access) : gmap Z Z := (foldl apic_step (0, ∅) h).2.

Section ioapicspec.
Context `{Bus}.
Implicit Types (st : mach) (e : list (mach -> mach)).

Lemma redirection_app h l : redirection (h ++ l) = (foldl apic_step (foldl apic_step (0, ∅) h) l).2.
Proof. unfold redirection. by rewrite foldl_app. Qed.

Lemma ioapicwrite_ok reg data st e : m_ioapic st = IOAPIC -> 0 <= reg < 2 ^ 32 ->
  exists st', ioapicwrite reg data st e = Ok tt st' e /\ redirection (m_io st') = <[reg := u32 data]> (redirection (m_io st)) /\
    m_ioapic st' = IOAPIC /\ m_ioapicid st' = m_ioapicid st /\ m_mem st' = m_mem st.
Proof.
  intros Hp Hr. unfold ioapicwrite, vstore, traced. step. rewrite Hp. eexists. split; [reflexivity|]. fields. split; [|done].
  rewrite <- app_assoc, redirection_app. cbn. by rewrite (u32_small reg).
Qed.

(** Entry [i] of the table: its configuration and where it goes. *)
Definition routed st (i v dest : Z) : Prop :=
  redirection (m_io st) !! (REG_TABLE + 2 * i) = Some v /\ redirection (m_io st) !! (REG_TABLE + 2 * i + 1) = Some dest.
Definition masked st (i : Z) : Prop := routed st i (Z.lor INT_DISABLED (T_IRQ0 + i)) 0.

Lemma set_entry i v dest st e : m_ioapic st = IOAPIC -> 0 <= i < 256 -> u32 v = v -> u32 dest = dest ->
  exists st', (ioapicwrite (REG_TABLE + 2 * i) v ;; ioapicwrite (REG_TABLE + 2 * i + 1) dest) st e = Ok tt st' e /\
    m_ioapic st' = IOAPIC /\ routed st' i v dest /\ (forall j w d, j <> i -> routed st j w d -> routed st' j w d).
Proof.
  intros Hp Hi Hv Hd. unfold REG_TABLE, routed. destruct (ioapicwrite_ok (16 + 2 * i) v st e Hp) as (st1 & H1 & Ht1 & Hp1 & _); [lia|].
  destruct (ioapicwrite_ok (16 + 2 * i + 1) dest st1 e Hp1) as (st2 & H2 & Ht2 & Hp2 & _); [lia|].
  exists st2. unfold bind. rewrite H1, H2. split; [done|]. split; [done|]. rewrite Ht2, Ht1, Hv, Hd. unfold REG_TABLE. split.
  - rewrite lookup_insert_ne by lia. by rewrite !lookup_insert_eq.
  - intros j w d Hj [Hw Hdj]. by rewrite !lookup_insert_ne by lia.
Qed.

Definition maxintr st : Z := Z.land (Z.shiftr (u32 (answer_load (m_io st ++ [Store IOAPIC REG_VER]) (IOAPIC + 16))) 16) 0xFF.

Lemma maxintr_range st : 0 <= maxintr st < 256.
Proof. unfold maxintr. change 0xFF with (Z.ones 8). rewrite Z.land_ones by lia. apply Z.mod_pos_bound. lia. Qed.

Lemma masked_small i : 0 <= i < 256 -> u32 (Z.lor INT_DISABLED (T_IRQ0 + i)) = Z.lor INT_DISABLED (T_IRQ0 + i).
Proof.
  intros Hi. apply u32_small. unfold INT_DISABLED, T_IRQ0. split; [apply Z.lor_nonneg; lia|].
  apply (Z.lt_le_trans _ (2 ^ 17)); [|lia]. destruct (Z.eq_dec (Z.lor 65536 (32 + i)) 0) as [->|Hn]; [lia|].
  apply Z.log2_lt_pow2; [pose proof (Z.lor_nonneg 65536 (32 + i)); lia|]. rewrite Z.log2_lor by lia. change (Z.log2 65536) with 16.
  assert (Z.log2 (32 + i) <= Z.log2 511) by (apply Z.log2_le_mono; lia). change (Z.log2 511) with 8 in *. lia.
Qed.

Lemma mask_loop_ok n st e : m_ioapic st = IOAPIC -> (n <= 256)%nat ->
  exists st', for_ n 0 (fun i => ioapicwrite (REG_TABLE + 2 * i) (Z.lor INT_DISABLED (T_IRQ0 + i)) ;; ioapicwrite (REG_TABLE + 2 * i + 1) 0) st e = Ok tt st' e /\
    m_ioapic st' = IOAPIC /\ forall i, 0 <= i < Z.of_nat n -> masked st' i.
Proof.
  intros Hp Hn. set (body := fun i : Z => _).
  assert (Hw : wp (for_ n 0 body) st e (fun _ st' e' => e' = e /\ m_ioapic st' = IOAPIC /\ forall i, 0 <= i < 0 + Z.of_nat n -> masked st' i)).
  { apply (wp_for (fun j st' e' => e' = e /\ m_ioapic st' = IOAPIC /\ forall i, 0 <= i < j -> masked st' i)).
    - split; [done|]. split; [done|lia].
    - intros j s' e' Hj (-> & Hp' & Hm). destruct (set_entry j (Z.lor INT_DISABLED (T_IRQ0 + j)) 0 s' e Hp') as (st' & Hrun & Hp2 & Hr & Hk);
        [lia|apply masked_small; lia|done|]. apply (wp_eq _ _ _ tt st' e); [exact Hrun|]. split; [done|]. split; [done|].
      intros i Hi. destruct (Z.eq_dec i j) as [->|Hne]; [exact Hr|]. apply Hk; [done|]. apply Hm. lia. }
  apply wp_inv in Hw as ([] & st' & e' & Hrun & -> & Hp' & Hm). by exists st'.
Qed.

Lemma ioapicinit_ok st e : exists st', ioapicinit st e = Ok tt st' e /\ m_ioapic st' = IOAPIC /\ forall i, 0 <= i <= maxintr st -> masked st' i.
Proof.
  unfold ioapicinit, ioapicread, vstore, vload, traced. step. change (u32 REG_VER) with REG_VER. fold (maxintr st).
  pose proof (maxintr_range st) as Hmax. assert (Hn : (Z.to_nat (maxintr st + 1) <= 256)%nat) by lia. unfold bind at 1, when.
  match goal with |- context [if negb ?b then _ else _] => destruct b end; cbn [negb]; unfold ret, modify;
    (match goal with |- context [for_ _ 0 _ ?s e] => destruct (mask_loop_ok (Z.to_nat (maxintr st + 1)) s e) as (st' & Hrun & Hp & Hm) end; [reflexivity|exact Hn|]);
    exists st'; (split; [exact Hrun|split; [exact Hp|intros i Hi; apply Hm; lia]]).
Qed.

(** What the drivers do at start-up: enable an interrupt for a CPU, each. *)
Fixpoint enable_all (l : list (Z * Z)) : W unit :=
  match l with
  | [] => ret tt
  | (irq, cpu) :: l' => ioapicenable irq cpu ;; enable_all l'
  end.

Lemma enable_all_ok e : forall l st, m_ioapic st = IOAPIC -> Forall (fun x => 0 <= x.1 < 256 /\ 0 <= x.2 < 256) l -> NoDup l.*1 ->
  exists st', enable_all l st e = Ok tt st' e /\ (forall i c, (i, c) ∈ l -> routed st' i (T_IRQ0 + i) (Z.shiftl c 24)) /\
    forall i v d, i ∉ l.*1 -> routed st i v d -> routed st' i v d.
Proof.
  induction l as [|[irq cpu] l IH]; intros st Hp Hl Hnd.
  { exists st. split; [done|]. split; [|done]. intros i c Hi. by apply elem_of_nil in Hi. }
  apply Forall_cons_1 in Hl as [[Hi Hc] Hl]. cbn in Hi, Hc. cbn [fmap list_fmap fst] in *. apply list.NoDup_cons in Hnd as [Hni Hnd].
  assert (Hsh : 0 <= Z.shiftl cpu 24 < 2 ^ 32) by (rewrite Z.shiftl_mul_pow2 by lia; lia).
  destruct (set_entry irq (T_IRQ0 + irq) (Z.shiftl cpu 24) st e Hp) as (st1 & Hrun & Hp1 & Hr & Hk);
    [lia|apply u32_small; unfold T_IRQ0; lia|by apply u32_small|].
  destruct (IH st1 Hp1 Hl Hnd) as (st' & Hrun' & Hin & Hout). exists st'.
  cbn [enable_all]. unfold ioapicenable. unfold bind at 1. rewrite Hrun. split; [exact Hrun'|]. split.
  - intros i c Hic. apply elem_of_cons in Hic as [[= -> ->]|Hic]; [by apply Hout|by apply Hin].
  - intros i v d Hi' Hrt. apply not_elem_of_cons in Hi' as [Hne Hi']. apply Hout; [done|]. by apply Hk.
Qed.

(** C29. Only interrupts that were asked for are delivered: after ioapicinit and
    any calls of ioapicenable for different lines, an enabled line raises its own
    vector on the CPU it was enabled for, and every other line of the chip is
    masked. *)
Theorem ioapic_delivers_enabled l st e :
  Forall (fun x => 0 <= x.1 <= maxintr st /\ 0 <= x.2 < 256) l -> NoDup l.*1 ->
  exists st', (ioapicinit ;; enable_all l) st e = Ok tt st' e /\
    (forall i c, (i, c) ∈ l -> routed st' i (T_IRQ0 + i) (Z.shiftl c 24)) /\
    (forall i, 0 <= i <= maxintr st -> i ∉ l.*1 -> masked st' i).
Proof.
  intros Hl Hnd. destruct (ioapicinit_ok st e) as (st1 & H1 & Hp & Hm). pose proof (maxintr_range st) as Hmax.
  destruct (enable_all_ok e l st1 Hp) as (st' & H2 & Hin & Hout); [|done|].
  { apply (list.Forall_impl _ _ _ Hl). intros x Hx. lia. }
  exists st'. unfold bind. rewrite H1. split; [exact H2|]. split; [exact Hin|]. intros i Hi Hni. apply Hout; [done|by apply Hm].
Qed.
End ioapicspec.

(** * A machine *)

(** A clock in BCD that shows 2026-11-15 10:42:37 and is updating when it is
    first read, and an I/O APIC with 24 lines. *)
Definition clock_reg (h : list access) (r : Z) : Z :=
  if r =? CMOS_STATA then (if (length h <? 20)%nat then 0x80 else 0)
  else if r =? CMOS_STATB then 0x02
  else shows true (field (mkDate 37 42 10 15 11 26) r).
Definition clock_in (h : list access) (port : Z) : Z :=
  match list.last h with
  | Some (Out p r) => if (port =? CMOS_RETURN) && (p =? CMOS_PORT) then clock_reg h r else 0
  | _ => 0
  end.
#[export] Instance clock_bus : Bus := {
  answer_in := clock_in;
  answer_load h a := if list.last h is Some (Store _ 1) then 0x00170020 else 0
}.
Lemma clock_read h r : list.last h = Some (Out CMOS_PORT r) -> u8 (answer_in h CMOS_RETURN) = u8 (clock_reg h r).
Proof. intros Hl. cbn. unfold clock_in. by rewrite Hl. Qed.
#[export] Instance clock_cmos : Cmos := { cm_reg h r := u8 (clock_reg h r); cm_read := clock_read }.

Definition clock_mach : mach := mkMach ∅ [] 0 [] 0 0 0 [].

Lemma clock_stable h : stable (fun r => shows true (field (mkDate 37 42 10 15 11 26) r)) h.
Proof.
  intros h' r Hr. unfold date_regs in Hr. rewrite !elem_of_cons in Hr.
  destruct Hr as [->|[->|[->|[->|[->|[->|Hr]]]]]]; try reflexivity. by apply elem_of_nil in Hr.
Qed.


(** The keyboard, the serial port and the disk, on a machine of two CPUs. *)
Lemma ioapic_delivers_enabled_witness : exists st',
  (ioapicinit ;; enable_all [(IRQ_KBD, 0); (IRQ_COM1, 0); (IRQ_IDE, 1)]) clock_mach [] = Ok tt st' [] /\
  routed st' IRQ_IDE 46 0x1000000 /\ masked st' IRQ_TIMER.
Proof.
  destruct (ioapic_delivers_enabled [(IRQ_KBD, 0); (IRQ_COM1, 0); (IRQ_IDE, 1)] clock_mach []) as (st' & Hrun & Hin & Hout).
  - change (maxintr clock_mach) with 23. repeat first [apply Forall_nil_2|apply Forall_cons_2; [by vm_compute|]].
  - apply (bool_decide_unpack _). by vm_compute.
  - exists st'. split; [exact Hrun|]. split; [apply (Hin IRQ_IDE 1); apply (bool_decide_unpack _); by vm_compute|].
    apply (Hout IRQ_TIMER); [change (maxintr clock_mach) with 23; unfold IRQ_TIMER; lia|apply (bool_decide_unpack _); by vm_compute].
Defined.
